(* ===== verification/_CoqProject ===== *)
-Q . S2P
Prelude.v
HostTypes.v
BlockTags.v
Primitives.v
Interest.v
ChainNotifier.v
Subs.v
Filters.v
Float64.v
RpcConfig.v
Errors.v
Storage.v
RpcCtx.v
GasOracle.v
GasCacheRace.v
FeeHistory.v
EthFilters.v
EthFilterProps.v
EthQueries.v
EthCall.v
Tracer.v
Tracing.v
TracingPermits.v
TracingProps.v
HostRpc.v
HostRpcView.v
HostRpcNotifier.v
HostRpcProps.v
Alias.v
Blobber.v
BlobSources.v
BlobCache.v
Metrics.v
HostRpcMetrics.v
BlockProcessor.v
Genesis.v
Serve.v
RpcStart.v
HostReth.v
Shim.v
RethContext.v
Node.v
NodeProps.v
Served.v
NodeTrace.v
ServedRace.v
NodeMetrics.v
Replica.v
Progress.v
PollingNode.v
PollingRun.v
Harness.v
PollingSamples.v
HarnessChecks.v
ReplicaRpc.v
ReplicaReth.v
ReplicaSamples.v
PollingRunSamples.v
RethSamples.v
HarnessSamples.v
Builder.v
Samples.v
StartSamples.v
UnitTests.v
ReorgTests.v
EthRpcTests.v
