(* ===== verification/Prelude.v ===== *)
(** * A model of the Signet node components

    The repository builds a rollup node that follows a host chain: a host
    notifier reports what happened on the host, the node processes it into
    rollup blocks and unified storage, and a JSON-RPC server answers from that
    storage and pushes what the node announces.  This library is a shallow
    embedding of that program: pure functions are functions, fallible ones
    return [res] (below), stateful ones thread their state through the monad
    [st] (below), concurrent ones are step relations or take the schedule as
    an argument.  Definitions are executable and keep the source's names.

    ** The parts, and how they interact

    - The host side.  [HostTypes] ([crates/node-types]): notification kinds,
      revert ranges and the interface [HostNotifier].  [HostRpc]
      ([crates/host-rpc]) implements it over an RPC provider: a header stream
      coalesced to its newest item, a walk back over parent hashes to the last
      known block, reorg detection against a bounded view, batched backfill,
      epoch-dependent tag refresh.  [HostReth] ([crates/host-reth]) implements
      it inside Reth: backfill from the host's database, then the live stream;
      [Shim] reads its chains as the SDK's blocks.
      [RethContext] takes Reth's context apart and meters the backfill.
    - The node.  [Node] ([crates/node/src/node.rs]): startup reconciliation of
      the two storage layers, the main loop, commits, reverts, block tags and
      the finished-height feedback, over any [HostNotifier].  [NodeTrace] reads
      a notification as its atomic effects on the state the RPC tasks share: the
      node's ghost [nd_seen] records that state after every access that writes
      it, so the order is the one in which the code writes;
      [ServedRace] places a handler's reads between them.
      [Replica] composes the node with a host chain: what a run of the whole
      program leaves in storage; [ReplicaRpc] and [ReplicaReth] do so for the two
      notifiers, [Progress] shows that the run goes on, [Served] what the tags
      name meanwhile, [PollingNode] what a client of the filters holds, and
      [PollingRun] what it holds when the notifications come from the notifier.
    - Block processing.  [BlockProcessor] ([crates/block-processor/src/v1]),
      [Alias] (the alias oracles of three crates) and [Blobber]
      ([crates/blobber]): the transactions of a host block, from its blobs, with
      the addresses to alias, to an executed rollup block.  [BlobSources] holds
      the requests of the remote blob sources, [BlobCache] the cache actor of
      the blobber as a step relation over its tasks.
    - Metrics.  [Metrics] (the [metrics.rs] of three crates): the calls to the
      recorder, made by [BlockProcessor], [Node] and [RethContext];
      [HostRpcMetrics] runs the operations of [HostRpc] with theirs.
    - State shared by node and RPC ([crates/rpc/src/config], [.../interest]).
      [BlockTags] (three atomics), [ChainNotifier] (tags, broadcast of events,
      ring buffer of reorgs), [Interest] (events to buffered items).
    - Delivery to clients.  [Subs] (push: one task per subscription) and
      [Filters], [EthFilters] (pull: a cursor per filter, removed logs from the
      ring buffer).
    - RPC handlers.  [RpcConfig], [RpcCtx] (id resolution, EVM blocks),
      [Storage] (what is asked of the storage crates), [Errors], [GasOracle],
      [GasCacheRace] (its cache, a store or load at a time),
      [FeeHistory] on [Float64], [EthQueries], [EthCall], [Tracer], [Tracing],
      and [TracingPermits], the handlers of the two tracing namespaces under
      their permits, served together a step at a time.
    - Start-up.  [Genesis] ([crates/genesis], [crates/node-config]): sources of
      the genesis, hardfork flags, storage backends; [Serve]
      ([crates/rpc/src/serve.rs]): transports; [Builder]
      ([crates/node/src/builder.rs]): the type-state builder, which writes the
      genesis into storage and makes the node; [RpcStart]
      ([crates/node/src/rpc.rs] and the routers of [crates/rpc]): the RPC context,
      its cleaner tasks, the method tables and the start of the servers.
    - The test harness ([crates/node-tests]).  [Harness]: the channel notifier,
      the conversion of test notifications and the calls that send a block and
      wait for the node's status; [HarnessChecks]: the reads, the guards on
      nonces and balances and the check of the genesis allocations.

    A commit flows [HostNotifier] -> [Node.on_notification] -> block processor
    -> [ChainNotifier] (and from there [Subs]) -> storage -> [BlockTags], and is
    read by [EthFilters] and the handlers; a revert drains storage, rewinds the
    tags and is announced, in this order.

    ** Files

    [Prelude] holds the outcome type, [u64] arithmetic, the state monad, their
    inversion tactics and the list lemmas; [Primitives] the chain data and the
    classes for the third-party operations the code calls.  Then one file per
    component, as named above; [EthFilterProps], [HostRpcView],
    [HostRpcNotifier], [HostRpcProps], [TracingProps], [NodeProps], [Served]
    and [NodeMetrics] hold the larger proofs of the component they name.
    [ReplicaSamples], [RethSamples], [PollingSamples], [PollingRunSamples], [HarnessSamples], [Samples], [StartSamples]
    and the [Sample*] modules of the other files apply each theorem that has hypotheses to a concrete input.
    [UnitTests], [ReorgTests] and [EthRpcTests] run the repository's own tests on
    the model: the unit tests of the crates, the reorg tests of
    [crates/node-tests] and the endpoint tests of [crates/rpc].

    ** What the theorems show

    - The whole program: after a start, and unless the host goes astray, storage
      holds the execution of the blocks that were kept and of those the
      notifier announced since, and nothing else, and the notifier stands at
      their end ([Replica.start_replicates], for the RPC notifier by
      [ReplicaRpc]; on Reth, where only a revert of the block the session began
      at is astray, [ReplicaReth.reth_node_replicates], which says what was
      announced: the notifications the loop took, in order, each a batch of the
      host database or the next item of the live stream).  And it goes on: with
      storage, processor and notifier that do not fail themselves, no sequence of
      notifications that fits the announced chain ends the main loop with an
      error, and all of them are delivered and processed
      ([Progress.node_keeps_running]); in the test harness every script of
      blocks and reverts returns, each call with the height it waits for
      ([Harness.harness_script_settles]).
    - The node: from the start on every block tag resolves to a header that
      storage holds, and once a notification has changed something the latest
      tag is the stored tip, as the status channel always is
      ([Served.started_node_serves]); a notification is a fixed
      sequence of atomic effects, of which an early error leaves a prefix
      ([NodeTrace.notification_effects]), and between any two of them no tag is
      above the tip, but for the gap between a drain and its rewind
      ([readers_between_effects], [drained_latest_dangles]); a handler that opens
      its transaction and then reads a tag finds the tagged block unless a tag was
      stored in between ([ServedRace.racing_tag_resolution]); the reorg is
      announced before the commits, one event per block above the tip
      ([notification_event_order]); the notification counters are in step with
      the loop ([NodeMetrics.main_loop_metrics]); a host revert rewinds storage, then
      tags, and announces exactly what was drained ([on_host_revert_outcomes]);
      startup leaves both storage layers at the lower of their heights and
      the notifier at the host block of that height ([start_reconciles]); tags and pruning
      feedback are the clamped host heights ([update_block_tags_exact]).
    - The RPC host: a walk returns the unique path from the announced block to
      the view, or an error, within [buffer_capacity + 1] queries
      ([HostRpcView.walk_chain_correct], [walk_chain_terminates]); through the
      [HostNotifier] interface each notification attaches where the previous
      one ended ([HostRpcProps.rpc_notifier_delivery]); a batch is exact
      ([backfill_batch_exact]); its metrics change nothing and count what is
      delivered ([HostRpcMetrics.metered_notifications]).  The Reth host hands the
      live stream the last block it backfilled
      ([HostReth.reth_backfill_then_live]), and no accessor of a chain it delivers
      panics ([Shim.delivered_chain_extractable]).
    - Delivery: a subscription sends exactly the matching items of what it
      consumed, in order ([Subs.subscription_fifo]); a client that applies the
      answers of a polling filter has exactly the canonical matching logs
      ([EthFilterProps.polling_client_exact]), because the 25-entry ring keeps
      every reorg the filter needs ([ChainNotifier.reorgs_since_no_loss]) and
      removed logs are computed exactly ([Filters.compute_removed_logs_spec]).
      Composed with the node, what the client holds are the logs of the execution
      of the announced host chain ([PollingNode.node_polling_client]), on a
      storage that keeps the logs of its blocks; and when a started node runs its
      main loop over a notifier that follows the host, they are those of the
      blocks that were kept and announced, unless the host goes astray
      ([PollingRun.started_node_polling_client]).  Moreover,
      an answer has the type of its filter ([EthFilters.poll_output_typed]);
      unsubscribing undoes subscribing ([Subs.subscribe_then_unsubscribe]).
    - Tags under concurrency: no interleaving of the rewind's stores leaves
      the tags unordered, and where the update can be observed out of order
      ([BlockTags]).
    - The gas oracle's cache: a hit is exact while the calls in flight are for one
      height ([GasCacheRace.gas_cache_hit_exact]), and mixes heights otherwise.
    - Blocks: the processor's inputs ([BlockProcessor.process_block_inputs]),
      decode errors against fetch errors ([Blobber.signet_block_outcomes]),
      the race between blob sources ([fetch_blobs_race_independent]), alias
      queries ([Alias.alias_set_exact]), the block's metrics
      ([BlockProcessor.process_block_metrics]); under every interleaving the
      cache actor answers each request once ([BlobCache.requests_settled]), and
      only with blobs that a fetch of that key returned ([replies_sound]).
    - RPC answers: the lookups of a transaction or a receipt agree
      ([EthQueries]); traces of one transaction, a block and a range agree
      ([TracingProps]); the gas oracle, the fee history, the outcome of calls,
      the resolution of pending blocks and the bound on log ranges; at most the
      configured number of live requests have a task executing transactions,
      the permits that are out are theirs, and none is lost on any path
      ([TracingPermits.tracing_bounded]).
    - Start-up: [Builder.build_outcomes] (both layers hold a genesis, the first
      missing component is named), [Serve.serve_outcomes] (what runs after a
      start, successful or not), [Genesis.load_genesis_parses_raw], the context
      the servers share ([RpcStart.start_rpc_handle]) and the methods they
      serve ([RpcStart.router_methods]).
    - The guards of the harness: when an exact, a bounding and a nonce guard
      panic ([HarnessChecks.exact_guards], [bound_guards], [nonce_guard]).

    Several theorems state behaviour that contradicts a comment or the evident
    intent: [failed_poll_loses_removals], [concurrent_reorg_lost],
    [empty_view_skips_blocks], [later_reward_double_counts],
    [update_all_reader_inversion], [gas_cache_mixes_heights],
    [drained_latest_dangles], [ServedRace.commit_hides_latest] (a commit between a
    handler's snapshot and its tag makes latest not found),
    [Served.restarted_node_serves_genesis] (the tags of a restarted node stay at
    0 until something changes),
    [ReplicaSamples.offline_reorg_kept] and [deep_reorg_unanchored] (a reorg
    while the node is down, or deeper than the buffer, is not undone),
    [HarnessSamples.zero_change_rejected] (an exact guard rejects a change of
    zero), and the unlimited-batch theorems.

    ** Bounds and conventions

    - [u64] and [usize] values are [Z]; [+] and [-] wrap at [2^64] as in a
      release build without overflow checks ([add64], [sub64]), saturating
      operations saturate.  Hypotheses such as [u64_ok] state only that a
      value has its width.
    - Hashes, addresses and 256-bit words are [Z]; instants and durations are
      numbers passed to the operations that read the clock.
    - The only fuel is [HostRpc.walk_fuel], one more than the walk can use:
      [walk_chain_terminates] shows it is never exhausted; [Metrics.search], the
      halving loop of a binary search, has the length of its slice, which
      [partition_point_split] shows is enough.  Other loops are
      structural, over the list of inputs the loop consumes.  The steps of the
      cache actor are bounded by a measure ([BlobCache.work_left]).
    - A spawned task that panics or is cancelled makes its handler answer with
      an error ([Storage.await_handler]); the fate is an argument.
    - Third-party code is a class or a record of operations: alloy types and
      hashing ([Primitives]), storage ([Storage], [Node]), host providers
      ([HostRpc.Provider], [HostReth.RethProvider]), the EVM and its inspectors
      ([EthCall.Evm], [BlockProcessor.Driver], [Tracer.TraceEvm]), blob sources
      and the block coder ([Blobber]), tokio's semaphore
      ([TracingPermits.Semaphore]).  Laws about them are separate classes
      ([LawfulProvider], [LawfulExEx], [CoherentCold], [LawfulTraceEvm],
      [LawfulSemaphore], [Dependable], [LoggedStorage], [LawfulHarness], [LawfulU256], [LawfulI256]) or named
      hypotheses, each with an instance.

    ** What is not modelled

    Sockets, the dispatch of a request to the handler a router names for it
    (the RPC library's), logging and tracing spans,
    the text of the embedded genesis files and of log messages, the derived
    parsers of environment variables, and of [crates/node-tests] the contracts
    the tests deploy, the RPC client they call, the fixtures and the runner, and
    with them the tests that execute contracts.  Cold and hot storage are read as
    unchanging while one RPC handler runs, except in the filter polls, where
    other tasks' actions between the critical sections are arguments, and in the
    block handlers, whose two reads may see different storage
    ([EthQueries.block_reads]).  A storage operation that fails leaves a database
    of which nothing is assumed. *)

From Stdlib Require Export ZArith Lia.
From stdpp Require Export base gmap list strings numbers option relations.

#[export] Set Default Goal Selector "!".
#[global] Open Scope Z_scope.

Declare Scope signet_scope.
Delimit Scope signet_scope with signet.
#[global] Open Scope signet_scope.

(** ** Outcome of a fallible Rust computation

    [Ok] and [Err] are the constructors of [Result]; [Panic] is an unwinding
    panic ([expect], [assert!], index out of range). *)
Inductive res (E A : Type) : Type :=
| Ok (a : A)
| Err (e : E)
| Panic.
Arguments Ok {E A} a.
Arguments Err {E A} e.
Arguments Panic {E A}.

#[export] Instance res_eq_dec {E A} `{EqDecision E, EqDecision A} : EqDecision (res E A).
Proof. solve_decision. Defined.

#[export] Instance res_ret {E} : MRet (res E) := fun A a => Ok a.
#[export] Instance res_bind {E} : MBind (res E) := fun A B f r =>
  match r with Ok a => f a | Err e => Err e | Panic => Panic end.
#[export] Instance res_fmap {E} : FMap (res E) := fun A B f r =>
  match r with Ok a => Ok (f a) | Err e => Err e | Panic => Panic end.

(** [Result::map_err], also the implicit [From] conversion of [?]. *)
Definition map_err {E F A} (f : E -> F) (r : res E A) : res F A :=
  match r with Ok a => Ok a | Err e => Err (f e) | Panic => Panic end.

(** [Option::ok_or]. *)
Definition ok_or {E A} (o : option A) (e : E) : res E A :=
  match o with Some a => Ok a | None => Err e end.

(** [Option::expect] / [Option::unwrap]. *)
Definition expect {E A} (o : option A) : res E A :=
  match o with Some a => Ok a | None => Panic end.

(** [Result::ok]. *)
Definition res_ok {E A} (r : res E A) : option A :=
  match r with Ok a => Some a | _ => None end.

Definition is_ok {E A} (r : res E A) : bool :=
  match r with Ok _ => true | _ => false end.

(** [?] guarded by a boolean: [if b { return Err(e) }]. *)
Definition ensure {E} (b : bool) (e : E) : res E unit :=
  if b then Ok tt else Err e.

(** ** Machine integers: [u64] and (64-bit) [usize] as [Z] with explicit width *)
Definition modulus64 : Z := 2 ^ 64.
Definition max64 : Z := 2 ^ 64 - 1.
Definition u64_ok (z : Z) : Prop := 0 <= z < modulus64.

(** Arithmetic of a release build: the workspace sets no [overflow-checks],
    so [+] and [-] wrap. *)
Definition wrap64 (z : Z) : Z := z mod modulus64.
Definition add64 (a b : Z) : Z := wrap64 (a + b).
Definition sub64 (a b : Z) : Z := wrap64 (a - b).
(** [saturating_sub], [saturating_add]. *)
Definition sat_sub (a b : Z) : Z := Z.max 0 (a - b).
Definition sat_add (a b : Z) : Z := Z.min max64 (a + b).

(** An inclusive range [from..=to], empty when [from > to]. *)
Definition range_incl (from to : Z) : list Z := seqZ from (to - from + 1).

Create HintDb width.
#[global] Hint Unfold u64_ok modulus64 max64 wrap64 add64 sub64 sat_sub sat_add : width.

(** Unfolds the width definitions everywhere and calls [lia]. *)
Ltac width := autounfold with width in *; try lia.

Lemma add64_exact a b : 0 <= a + b < modulus64 -> add64 a b = a + b.
Proof. intros H. unfold add64, wrap64. apply Z.mod_small. exact H. Qed.

Lemma sub64_exact a b : 0 <= a - b < modulus64 -> sub64 a b = a - b.
Proof. intros H. unfold sub64, wrap64. apply Z.mod_small. exact H. Qed.

Lemma wrap64_ok z : u64_ok (wrap64 z).
Proof. unfold u64_ok, wrap64. apply Z.mod_pos_bound. reflexivity. Qed.

Lemma sat_sub_le a b : 0 <= a -> 0 <= b -> sat_sub a b <= a.
Proof. width. Qed.

Lemma elem_of_range_incl n a b : n ∈ range_incl a b <-> a <= n <= b.
Proof. unfold range_incl. rewrite elem_of_seqZ. lia. Qed.

Lemma range_incl_nil a b : b < a -> range_incl a b = [].
Proof. intros H. unfold range_incl. apply seqZ_nil. lia. Qed.

Lemma range_incl_cons a b : a <= b -> range_incl a b = a :: range_incl (a + 1) b.
Proof.
  intros H. unfold range_incl. rewrite seqZ_cons by lia.
  replace (Z.succ a) with (a + 1) by lia.
  replace (Z.pred (b - a + 1)) with (b - (a + 1) + 1) by lia. done.
Qed.

Lemma range_incl_split lo mid hi :
  lo <= mid -> mid <= hi + 1 -> range_incl lo hi = range_incl lo (mid - 1) ++ range_incl mid hi.
Proof.
  intros Hl Hh. unfold range_incl.
  replace (hi - lo + 1) with ((mid - 1 - lo + 1) + (hi - mid + 1)) by lia.
  rewrite (seqZ_app lo (mid - 1 - lo + 1)) by lia. do 2 f_equal. lia.
Qed.

Lemma length_range_incl a b : Z.of_nat (length (range_incl a b)) = Z.max 0 (b - a + 1).
Proof. unfold range_incl. rewrite length_seqZ. lia. Qed.

Create HintDb signet.
Create Rewrite HintDb signet.

(** ** Inversion of monadic equations *)
Lemma bind_ok {E A B} (r : res E A) (f : A -> res E B) b :
  (r ≫= f) = Ok b <-> exists a, r = Ok a /\ f a = Ok b.
Proof.
  destruct r as [a|e|]; simpl; split.
  - intros H. exists a. auto.
  - intros (a' & [= <-] & H). exact H.
  - discriminate.
  - intros (a' & [=] & _).
  - discriminate.
  - intros (a' & [=] & _).
Qed.

Lemma bind_err {E A B} (r : res E A) (f : A -> res E B) e :
  (r ≫= f) = Err e <-> r = Err e \/ exists a, r = Ok a /\ f a = Err e.
Proof. destruct r; simpl; naive_solver. Qed.

Lemma fmap_ok {E A B} (f : A -> B) (r : res E A) b :
  (f <$> r) = Ok b <-> exists a, r = Ok a /\ f a = b.
Proof. destruct r; simpl; naive_solver. Qed.

Lemma map_err_ok {E F A} (f : E -> F) (r : res E A) a :
  map_err f r = Ok a <-> r = Ok a.
Proof. destruct r; simpl; naive_solver. Qed.

Lemma ok_or_ok {E A} (o : option A) (e : E) a : ok_or o e = Ok a <-> o = Some a.
Proof. destruct o; simpl; naive_solver. Qed.

Lemma expect_ok {E A} (o : option A) a : expect (E:=E) o = Ok a <-> o = Some a.
Proof. destruct o; simpl; naive_solver. Qed.

Lemma ensure_ok {E} b (e : E) u : ensure b e = Ok u <-> b = true.
Proof. destruct b, u; simpl; naive_solver. Qed.

(** Breaks every [_ ≫= _ = Ok _] hypothesis into the equations of its steps. *)
Ltac res_inv :=
  repeat match goal with
  | H : (_ ≫= _) = Ok _ |- _ => apply bind_ok in H as (? & ? & H)
  | H : (_ <$> _) = Ok _ |- _ => apply fmap_ok in H as (? & ? & H)
  | H : map_err _ _ = Ok _ |- _ => apply map_err_ok in H
  | H : ok_or _ _ = Ok _ |- _ => apply ok_or_ok in H
  | H : expect _ = Ok _ |- _ => apply expect_ok in H
  | H : ensure _ _ = Ok _ |- _ => apply ensure_ok in H
  | H : Ok _ = Ok _ |- _ => injection H as H
  | H : Err _ = Ok _ |- _ => discriminate H
  | H : Panic = Ok _ |- _ => discriminate H
  | H : mret _ = Ok _ |- _ => unfold mret, res_ret in H
  end; subst.

(** [mapM] in the [res] monad is pointwise success. *)
Lemma mapM_ok {E A B} (f : A -> res E B) l k :
  mapM f l = Ok k <-> Forall2 (fun a b => f a = Ok b) l k.
Proof.
  revert k. induction l as [|a l IH]; intros k; simpl.
  - split; [intros [= <-]; constructor|]. inversion 1. reflexivity.
  - rewrite bind_ok. split.
    + intros (b & Hb & H). res_inv. constructor; [done|]. apply IH. done.
    + inversion 1 as [|? b ? k' Hb Hk]; subst. exists b. split; [done|].
      apply bind_ok. exists k'. split; [by apply IH|done].
Qed.

Lemma mapM_err {E A B} (f : A -> res E B) l e :
  mapM f l = Err e -> exists a, a ∈ l /\ f a = Err e.
Proof.
  induction l as [|a l IH]; simpl; [done|].
  intros [Ha|(b & _ & [Hl|(k & _ & Hk)]%bind_err)]%bind_err; [|apply IH in Hl as (x & ? & ?)|done].
  - exists a. split; [left|done].
  - exists x. split; [by right|done].
Qed.

Lemma mapM_panic {E A B} (f : A -> res E B) l :
  mapM f l = Panic -> exists a, a ∈ l /\ f a = Panic.
Proof.
  induction l as [|a l IH]; simpl; [done|]. intros Hp.
  destruct (f a) as [b|e|] eqn:Ha; simpl in Hp; [|done|exists a; split; [left|done]].
  destruct (mapM f l) as [k|e|]; simpl in Hp; [done..|].
  destruct IH as (x & Hx & Hf); [done|]. exists x. split; [by right|done].
Qed.

(** ** Lists *)

(** [slice::last]. *)
Lemma last_app_some {A} (l k : list A) x : last k = Some x -> last (l ++ k) = Some x.
Proof. intros H. rewrite last_app, H. done. Qed.

(** [Iterator::find]. *)
Definition find_first {A} (p : A -> bool) (l : list A) : option A :=
  head (filter (fun x => p x = true) l).

Lemma find_first_some {A} (p : A -> bool) (l : list A) x :
  find_first p l = Some x -> x ∈ l /\ p x = true.
Proof.
  unfold find_first. intros H. apply head_Some_elem_of in H.
  apply list_elem_of_filter in H. tauto.
Qed.

(** The element found is the first that satisfies the test. *)
Lemma find_first_split {A} (p : A -> bool) (l : list A) x :
  find_first p l = Some x ->
  p x = true /\ exists before after, l = before ++ x :: after /\ Forall (fun y => p y = false) before.
Proof.
  unfold find_first. induction l as [|y l IH]; [done|]. rewrite filter_cons. case_decide as Hy; simpl.
  - intros [= ->]. split; [done|]. by exists [], l.
  - intros Hf. destruct (IH Hf) as (Hx & before & after & -> & Hb). split; [done|].
    exists (y :: before), after. split; [done|]. constructor; [by destruct (p y)|done].
Qed.

Lemma find_first_none {A} (p : A -> bool) (l : list A) :
  find_first p l = None <-> forall x, x ∈ l -> p x = false.
Proof.
  unfold find_first. rewrite head_None. split.
  - intros H x Hx. destruct (p x) eqn:E; [|done].
    assert (x ∈ filter (fun x => p x = true) l) as Hin by by apply list_elem_of_filter.
    rewrite H in Hin. by apply not_elem_of_nil in Hin.
  - intros H. destruct (filter _ l) as [|y k] eqn:E; [done|].
    assert (y ∈ filter (fun x => p x = true) l) as Hin by (rewrite E; left).
    apply list_elem_of_filter in Hin as [Hp Hy]. by rewrite H in Hp.
Qed.

(** The list reversed and then extended, as [walked.reverse()] produces it. *)
Lemma last_reverse_head {A} (l : list A) : last (reverse l) = head l.
Proof. apply last_reverse. Qed.

Lemma fmap_join {A B} (f : A -> B) (ls : list (list A)) :
  f <$> mjoin ls = mjoin (fmap f <$> ls).
Proof. induction ls as [|l ls IH]; [done|]. simpl. by rewrite fmap_app, IH. Qed.

Lemma imap_pair_snd {A} (l : list A) : snd <$> imap pair l = l.
Proof.
  apply list_eq. intros i. rewrite list_lookup_fmap, list_lookup_imap.
  by destruct (l !! i).
Qed.

Section filter.
Context {A : Type} (P : A -> Prop) `{forall x, Decision (P x)}.

Lemma filter_all (l : list A) : Forall P l -> filter P l = l.
Proof. induction 1; [done|]. rewrite filter_cons_True by done. by f_equal. Qed.

Lemma filter_none (l : list A) : Forall (fun x => ~ P x) l -> filter P l = [].
Proof. induction 1; [done|]. by rewrite filter_cons_False by done. Qed.

Lemma filter_ext_elem (Q : A -> Prop) `{forall x, Decision (Q x)} (l : list A) :
  (forall x, x ∈ l -> P x <-> Q x) -> filter P l = filter Q l.
Proof.
  induction l as [|x l IH]; [done|]. intros HPQ. rewrite !filter_cons, IH; [|intros; apply HPQ; by right].
  specialize (HPQ x ltac:(left)). destruct (decide (P x)), (decide (Q x)); tauto || done.
Qed.

Lemma filter_idem (l : list A) : filter P (filter P l) = filter P l.
Proof. apply filter_all, Forall_forall. intros x Hx. by apply list_elem_of_filter in Hx as [? _]. Qed.
End filter.

Lemma foldr_min_start n a l : foldr Z.min (Z.min n a) l = Z.min a (foldr Z.min n l).
Proof. induction l as [|b l IH]; simpl; [lia|]. rewrite IH. lia. Qed.

(** ** The last [n] elements: a bounded window on a history *)
Definition last_n {A} (n : nat) (l : list A) : list A := drop (length l - n) l.

Lemma last_n_length {A} n (l : list A) : length (last_n n l) = Nat.min n (length l).
Proof. unfold last_n. rewrite length_drop. lia. Qed.

Lemma last_n_snoc {A} n (l : list A) x :
  (0 < n)%nat ->
  last_n n (l ++ [x]) =
  (if (n <=? length (last_n n l))%nat then tail (last_n n l) else last_n n l) ++ [x].
Proof.
  intros Hn. rewrite last_n_length. unfold last_n. rewrite length_app. simpl.
  destruct (Nat.leb_spec n (Nat.min n (length l))) as [H|H].
  - rewrite drop_app_le by lia.
    replace (length l + 1 - n)%nat with (S (length l - n)) by lia.
    f_equal. destruct (drop (length l - n) l) as [|y k] eqn:E.
    + apply (f_equal length) in E. rewrite length_drop in E. simpl in E. lia.
    + change (tail (y :: k)) with k.
      replace (S (length l - n)) with ((length l - n) + 1)%nat by lia.
      rewrite <- drop_drop, E. done.
  - replace (length l + 1 - n)%nat with 0%nat by lia.
    replace (length l - n)%nat with 0%nat by lia. done.
Qed.

Lemma last_n_app_l {A} n (l k : list A) : last_n n (last_n n l ++ k) = last_n n (l ++ k).
Proof.
  unfold last_n. rewrite !drop_app, drop_drop, !length_app, length_drop.
  f_equal; f_equal; lia.
Qed.

Lemma last_n_all {A} n (l : list A) : (length l <= n)%nat -> last_n n l = l.
Proof. intros H. unfold last_n. by replace (length l - n)%nat with 0%nat by lia. Qed.

Lemma last_last_n {A} n (l : list A) : (0 < n)%nat -> last (last_n n l) = last l.
Proof.
  intros Hn. unfold last_n. destruct (decide (length l <= n)%nat) as [H|H].
  - by replace (length l - n)%nat with 0%nat by lia.
  - rewrite !last_lookup, lookup_drop, length_drop. f_equal. lia.
Qed.

(** ** Sorting by a key

    [sort_by_key] is stable; on integers [sort_unstable] is the same function
    with the identity key. *)
Section sort.
Context {A : Type} (key : A -> Z).

Fixpoint insert_by_key (x : A) (l : list A) : list A :=
  match l with
  | [] => [x]
  | y :: l' => if key x <=? key y then x :: l else y :: insert_by_key x l'
  end.

Definition sort_by_key (l : list A) : list A := foldr insert_by_key [] l.

(** Adjacent keys never decrease. *)
Definition key_sorted (l : list A) : Prop :=
  forall i j x y, (i <= j)%nat -> l !! i = Some x -> l !! j = Some y -> key x <= key y.

Lemma key_sorted_cons x l :
  key_sorted (x :: l) <-> Forall (fun y => key x <= key y) l /\ key_sorted l.
Proof.
  split.
  - intros H. split.
    + apply Forall_lookup. intros i y Hy. apply (H 0%nat (S i)); [lia|done..].
    + intros i j a b Hij Ha Hb. apply (H (S i) (S j)); [lia|done..].
  - intros [Hx Hl] i j a b Hij Ha Hb. destruct i as [|i], j as [|j]; simplify_eq/=; try lia.
    + rewrite Forall_lookup in Hx. eauto.
    + apply (Hl i j); [lia|done..].
Qed.

Lemma insert_by_key_perm x l : insert_by_key x l ≡ₚ x :: l.
Proof.
  induction l as [|y l IH]; simpl; [done|]. destruct (key x <=? key y); [done|].
  rewrite IH. constructor.
Qed.

Lemma insert_by_key_sorted x l : key_sorted l -> key_sorted (insert_by_key x l).
Proof.
  induction l as [|y l IH]; simpl; rewrite ?key_sorted_cons; intros Hl.
  - split; [constructor|]. intros ???? _ ?. by rewrite lookup_nil in *.
  - destruct Hl as [Hy Hl]. destruct (Z.leb_spec (key x) (key y)) as [Hle|Hlt];
      rewrite !key_sorted_cons; (split; [|by auto]).
    + constructor; [done|]. eapply Forall_impl; [exact Hy|]. simpl. lia.
    + apply Forall_forall. intros z.
      rewrite (elem_of_Permutation_proper z _ _ (insert_by_key_perm x l)), elem_of_cons.
      rewrite Forall_forall in Hy. intros [->|?]; [lia|auto].
Qed.

Lemma sort_by_key_perm l : sort_by_key l ≡ₚ l.
Proof. induction l as [|x l IH]; simpl; [done|]. etrans; [apply insert_by_key_perm|]. by constructor. Qed.

Lemma sort_by_key_sorted l : key_sorted (sort_by_key l).
Proof.
  induction l as [|x l IH]; simpl; [|by apply insert_by_key_sorted].
  intros ???? _ ?. by rewrite lookup_nil in *.
Qed.
End sort.

(** [sort_unstable] on integers. *)
Definition sort_z : list Z -> list Z := sort_by_key id.

(** Sorting forgets the order of its input. *)
Lemma sorted_perm_eq (l k : list Z) :
  key_sorted id l -> key_sorted id k -> l ≡ₚ k -> l = k.
Proof.
  revert k. induction l as [|x l IH]; intros k Hl Hk Hp.
  - by apply Permutation_nil_l in Hp.
  - destruct k as [|y k]; [by apply Permutation_nil_r in Hp|].
    apply key_sorted_cons in Hl as [Hx Hl], Hk as [Hy Hk]. rewrite Forall_forall in Hx, Hy.
    assert (x = y) as ->.
    { assert (x ∈ y :: k) as Hxk by by (apply (elem_of_Permutation_proper x _ _ Hp); left).
      assert (y ∈ x :: l) as Hyl by by (apply (elem_of_Permutation_proper y _ _ Hp); left).
      apply elem_of_cons in Hxk as [Heq|Hxk], Hyl as [Heq'|Hyl]; try congruence.
      specialize (Hx _ Hyl). specialize (Hy _ Hxk). unfold id in *. lia. }
    f_equal. apply IH; [done..|]. by eapply Permutation_cons_inv.
Qed.

Lemma sort_z_perm (l k : list Z) : l ≡ₚ k -> sort_z l = sort_z k.
Proof.
  intros Hp. apply sorted_perm_eq; try apply sort_by_key_sorted.
  unfold sort_z. etrans; [apply sort_by_key_perm|]. etrans; [exact Hp|]. symmetry. apply sort_by_key_perm.
Qed.

(** ** Stateful fallible computations

    The state survives an error, as [&mut self] does when a method returns
    early with [?]. *)
Definition st (S E A : Type) : Type := S -> res E A * S.

#[export] Instance st_ret {S E} : MRet (st S E) := fun A a s => (Ok a, s).
#[export] Instance st_bind {S E} : MBind (st S E) := fun A B f m s =>
  match m s with
  | (Ok a, s') => f a s'
  | (Err e, s') => (Err e, s')
  | (Panic, s') => (Panic, s')
  end.

Definition st_lift {S E A} (r : res E A) : st S E A := fun s => (r, s).
Definition st_get {S E} : st S E S := fun s => (Ok s, s).
Definition st_modify {S E} (f : S -> S) : st S E unit := fun s => (Ok tt, f s).
Definition st_fail {S E A} (e : E) : st S E A := fun s => (Err e, s).
Definition st_map_err {S E F A} (f : E -> F) (m : st S E A) : st S F A :=
  fun s => let '(r, s') := m s in (map_err f r, s').

(** Sequential iteration, stopping at the first failure. *)
Fixpoint st_mapM {S E A B} (f : A -> st S E B) (l : list A) : st S E (list B) :=
  match l with
  | [] => mret []
  | a :: l => b ← f a; k ← st_mapM f l; mret (b :: k)
  end.

Lemma st_bind_ok {S E A B} (m : st S E A) (f : A -> st S E B) s b s' :
  (m ≫= f) s = (Ok b, s') <-> exists a s1, m s = (Ok a, s1) /\ f a s1 = (Ok b, s').
Proof.
  unfold mbind, st_bind. destruct (m s) as [[a|e|] s1]; split; try naive_solver.
Qed.

Lemma st_bind_err {S E A B} (m : st S E A) (f : A -> st S E B) s e s' :
  (m ≫= f) s = (Err e, s') <->
  m s = (Err e, s') \/ exists a s1, m s = (Ok a, s1) /\ f a s1 = (Err e, s').
Proof.
  unfold mbind, st_bind. destruct (m s) as [[a|e1|] s1]; split; try naive_solver.
Qed.

Lemma st_bind_panic {S E A B} (m : st S E A) (f : A -> st S E B) s s' :
  (m ≫= f) s = (Panic, s') <->
  m s = (Panic, s') \/ exists a s1, m s = (Ok a, s1) /\ f a s1 = (Panic, s').
Proof.
  unfold mbind, st_bind. destruct (m s) as [[a|e1|] s1]; split; try naive_solver.
Qed.

Lemma st_map_err_ok {S E F A} (f : E -> F) (m : st S E A) s a s' :
  st_map_err f m s = (Ok a, s') <-> m s = (Ok a, s').
Proof. unfold st_map_err. destruct (m s) as [[]]; simpl; naive_solver. Qed.

(** An invariant of the state kept by every step of an iteration, whatever
    the outcome; [Q] describes the results. *)
Lemma st_mapM_inv {S E A B} (f : A -> st S E B) (I : S -> Prop) (Q : A -> B -> Prop) l s r s' :
  (forall a s r s', I s -> f a s = (r, s') -> I s' /\ (forall b, r = Ok b -> Q a b)) ->
  I s -> st_mapM f l s = (r, s') -> I s' /\ (forall k, r = Ok k -> Forall2 Q l k).
Proof.
  intros Hf. revert s r s'. induction l as [|a l IH]; intros s r s' Hs; simpl.
  - intros [= <- <-]. split; [done|]. intros k [= <-]. constructor.
  - unfold mbind, st_bind. destruct (f a s) as [ra s1] eqn:Ha.
    destruct (Hf _ _ _ _ Hs Ha) as [H1 HQ].
    destruct ra as [b|e|]; [|intros [= <- <-]; done..].
    destruct (st_mapM f l s1) as [rl s2] eqn:Hl. destruct (IH _ _ _ H1 Hl) as [H2 HQl].
    destruct rl as [k|e|]; intros [= <- <-]; split; try done.
    intros k' [= <-]. constructor; [by apply HQ|by apply HQl].
Qed.

(** Breaks every [(_ ≫= _) s = (Ok _, _)] hypothesis into its steps. *)
Ltac st_inv :=
  repeat match goal with
  | H : (_ ≫= _) _ = (Ok _, _) |- _ => apply st_bind_ok in H as (? & ? & ? & H)
  | H : st_map_err _ _ _ = (Ok _, _) |- _ => apply st_map_err_ok in H
  | H : st_lift _ _ = (Ok _, _) |- _ => unfold st_lift in H; injection H as H ?
  | H : st_get _ = (Ok _, _) |- _ => injection H as ? ?
  | H : st_modify _ _ = (Ok _, _) |- _ => injection H as ? ?
  | H : st_fail _ _ = (Ok _, _) |- _ => discriminate H
  | H : mret _ _ = (Ok _, _) |- _ => injection H as ? ?
  end; subst.
