(* ===== verification/HostTypes.v ===== *)
(** * Host chain notifications ([crates/node-types])

    [RevertRange] with its panicking constructor, the three notification
    kinds, their accessors, and the [HostNotifier] interface that the two
    backends ([crates/host-rpc], [crates/host-reth]) promise to the node. *)

From S2P Require Import Prelude.

(** ** [RevertRange] *)
Record RevertRange := mkRevertRange { first : Z; tip : Z }.

#[export] Instance RevertRange_eq_dec : EqDecision RevertRange.
Proof. solve_decision. Defined.

(** [RevertRange::new]: the two [assert!]s, in source order. *)
Definition RevertRange_new {E} (first tip : Z) : res E RevertRange :=
  if negb (0 <? first) then Panic
  else if negb (first <=? tip) then Panic
  else Ok (mkRevertRange first tip).

Definition RevertRange_first (r : RevertRange) : Z := first r.
Definition RevertRange_tip (r : RevertRange) : Z := tip r.
(** [self.tip - self.first + 1] in [u64]. *)
Definition RevertRange_len (r : RevertRange) : Z := add64 (sub64 (tip r) (first r)) 1.
Definition RevertRange_is_empty (_ : RevertRange) : bool := false.

(** The ranges that [RevertRange::new] can build. *)
Definition RevertRange_wf (r : RevertRange) : Prop := 0 < first r <= tip r.

Lemma RevertRange_new_ok {E} f t r :
  RevertRange_new (E:=E) f t = Ok r <-> r = mkRevertRange f t /\ RevertRange_wf r.
Proof.
  unfold RevertRange_new, RevertRange_wf.
  destruct (Z.ltb_spec 0 f), (Z.leb_spec f t); simpl; split; try discriminate;
    intros H1; try (destruct_and?; simplify_eq; simpl in *; lia).
  - injection H1 as <-. simpl. auto.
  - destruct H1 as [-> _]. done.
Qed.

Lemma RevertRange_new_total {E} f t :
  0 < f <= t -> RevertRange_new (E:=E) f t = Ok (mkRevertRange f t).
Proof. intros H. apply RevertRange_new_ok. unfold RevertRange_wf. simpl. auto. Qed.

(** ** [HostNotificationKind] and [HostNotification] *)
Inductive HostNotificationKind (C : Type) :=
| ChainCommitted (new : C)
| ChainReverted (old : RevertRange)
| ChainReorged (old : RevertRange) (new : C).
Arguments ChainCommitted {C} new.
Arguments ChainReverted {C} old.
Arguments ChainReorged {C} old new.

Record HostNotification (C : Type) := mkHostNotification {
  kind : HostNotificationKind C;
  safe_block_number : option Z;
  finalized_block_number : option Z
}.
Arguments mkHostNotification {C} _ _ _.
Arguments kind {C} _.
Arguments safe_block_number {C} _.
Arguments finalized_block_number {C} _.

Definition kind_committed_chain {C} (k : HostNotificationKind C) : option C :=
  match k with
  | ChainCommitted new | ChainReorged _ new => Some new
  | ChainReverted _ => None
  end.

Definition kind_revert_range {C} (k : HostNotificationKind C) : option RevertRange :=
  match k with
  | ChainReverted old | ChainReorged old _ => Some old
  | ChainCommitted _ => None
  end.

Definition committed_chain {C} (n : HostNotification C) : option C :=
  kind_committed_chain (kind n).
Definition revert_range {C} (n : HostNotification C) : option RevertRange :=
  kind_revert_range (kind n).

(** ** The [HostNotifier] interface

    [next_notification] blocks on the environment, so an implementation is a
    step function of its state and of an oracle [W] for what the host answers.
    The node only relies on these four operations. *)
Class HostNotifier (N W C E : Type) := {
  next_notification : W -> N -> N * option (res E (HostNotification C));
  set_head : Z -> N -> N;
  set_backfill_thresholds : option Z -> N -> N;
  send_finished_height : Z -> N -> N * res E unit
}.

(** A notification always carries an event: a committed chain or a revert. *)
Lemma notification_has_event {C} (n : HostNotification C) :
  committed_chain n = None -> revert_range n <> None.
Proof. unfold committed_chain, revert_range. destruct (kind n); naive_solver. Qed.

(** The accessors determine the kind of the notification. *)
Theorem notification_accessors_complete {C} (n m : HostNotification C) :
  kind n = kind m <->
  committed_chain n = committed_chain m /\ revert_range n = revert_range m.
Proof.
  unfold committed_chain, revert_range. destruct (kind n), (kind m); simpl; split;
    intros H; destruct_and?; simplify_eq; auto.
Qed.

(** A range that [RevertRange::new] built is never empty and its length is
    exact (no wrap-around). *)
Theorem RevertRange_len_exact {E} f t r :
  u64_ok t -> RevertRange_new (E:=E) f t = Ok r ->
  RevertRange_len r = t - f + 1.
Proof.
  intros Ht Hr. apply RevertRange_new_ok in Hr as [-> Hwf].
  unfold RevertRange_wf, RevertRange_len in *. simpl in *.
  rewrite sub64_exact by width. apply add64_exact. width.
Qed.
