(* ===== verification/BlockTags.v ===== *)
(** * Block tags ([crates/rpc/src/config/resolve.rs])

    The three atomic tags and the sync status, the operations on them, and the
    interleaving of a multi-tag update with a concurrent reader: each atomic
    store, [fetch_min] or load is one step. *)

From S2P Require Import Prelude.

Record SyncStatus := mkSyncStatus {
  starting_block : Z; current_block : Z; highest_block : Z }.

Record BlockTags := mkBlockTags {
  latest : Z; safe : Z; finalized : Z; sync_status : option SyncStatus }.

(** [BlockTags::new]. *)
Definition BlockTags_new (latest safe finalized : Z) : BlockTags :=
  mkBlockTags latest safe finalized None.

(** ** Atomic operations: one store or [fetch_min] each *)
Inductive tag_op :=
| StoreLatest (n : Z) | StoreSafe (n : Z) | StoreFinalized (n : Z)
| MinLatest (n : Z) | MinSafe (n : Z) | MinFinalized (n : Z).

Definition run_op (o : tag_op) (t : BlockTags) : BlockTags :=
  let '(mkBlockTags l s f y) := t in
  match o with
  | StoreLatest n => mkBlockTags n s f y
  | StoreSafe n => mkBlockTags l n f y
  | StoreFinalized n => mkBlockTags l s n y
  | MinLatest n => mkBlockTags (Z.min l n) s f y
  | MinSafe n => mkBlockTags l (Z.min s n) f y
  | MinFinalized n => mkBlockTags l s (Z.min f n) y
  end.

Definition run_ops (os : list tag_op) (t : BlockTags) : BlockTags :=
  fold_left (fun t o => run_op o t) os t.

(** The three single-tag setters. *)
Definition set_latest (n : Z) (t : BlockTags) : BlockTags := run_op (StoreLatest n) t.
Definition set_safe (n : Z) (t : BlockTags) : BlockTags := run_op (StoreSafe n) t.
Definition set_finalized (n : Z) (t : BlockTags) : BlockTags := run_op (StoreFinalized n) t.

(** [update_all] and [rewind_to]: the atomic operations in source order. *)
Definition update_all_ops (latest safe finalized : Z) : list tag_op :=
  [StoreFinalized finalized; StoreSafe safe; StoreLatest latest].
Definition rewind_to_ops (ancestor : Z) : list tag_op :=
  [MinFinalized ancestor; MinSafe ancestor; MinLatest ancestor].

Definition update_all (latest safe finalized : Z) : BlockTags -> BlockTags :=
  run_ops (update_all_ops latest safe finalized).
Definition rewind_to (ancestor : Z) : BlockTags -> BlockTags :=
  run_ops (rewind_to_ops ancestor).

(** Sync status. *)
Definition is_syncing (t : BlockTags) : bool :=
  match sync_status t with Some _ => true | None => false end.
Definition set_sync_status (st : SyncStatus) (t : BlockTags) : BlockTags :=
  mkBlockTags (latest t) (safe t) (finalized t) (Some st).
Definition clear_sync_status (t : BlockTags) : BlockTags :=
  mkBlockTags (latest t) (safe t) (finalized t) None.

(** ** Invariants *)

(** The order the tags are meant to be in. *)
Definition tags_ordered (t : BlockTags) : Prop := finalized t <= safe t <= latest t.
(** No tag refers to a block above [h]. *)
Definition tags_below (h : Z) (t : BlockTags) : Prop :=
  latest t <= h /\ safe t <= h /\ finalized t <= h.

#[export] Instance tags_ordered_dec t : Decision (tags_ordered t).
Proof. unfold tags_ordered. apply _. Defined.

(** ** Concurrent readers

    A configuration is the memory, the writer's remaining operations and what
    a reader has loaded so far. *)
Record config := mkConfig {
  mem : BlockTags;
  pending : list tag_op;
  seen_latest : option Z;
  seen_finalized : option Z }.

Inductive step : config -> config -> Prop :=
| step_write o os t sl sf :
    step (mkConfig t (o :: os) sl sf) (mkConfig (run_op o t) os sl sf)
| step_load_latest os t sf :
    step (mkConfig t os None sf) (mkConfig t os (Some (latest t)) sf)
| step_load_finalized os t sl :
    step (mkConfig t os sl None) (mkConfig t os sl (Some (finalized t))).

Definition start (t : BlockTags) (os : list tag_op) : config := mkConfig t os None None.

(** A reader has observed [latest < finalized]. *)
Definition observed_inversion (c : config) : Prop :=
  exists l f, seen_latest c = Some l /\ seen_finalized c = Some f /\ l < f.

(** ** Lemmas *)
Lemma update_all_eq l s f t :
  update_all l s f t = mkBlockTags l s f (sync_status t).
Proof. destruct t. reflexivity. Qed.

Lemma rewind_to_eq a t :
  rewind_to a t =
  mkBlockTags (Z.min (latest t) a) (Z.min (safe t) a) (Z.min (finalized t) a) (sync_status t).
Proof. destruct t. reflexivity. Qed.

Lemma update_all_below l s f h t :
  l <= h -> s <= h -> f <= h -> tags_below h (update_all l s f t).
Proof. intros. rewrite update_all_eq. unfold tags_below. simpl. lia. Qed.

Lemma rewind_to_below_both a h t :
  tags_below h t -> tags_below (Z.min h a) (rewind_to a t).
Proof. rewrite rewind_to_eq. unfold tags_below. simpl. lia. Qed.

Lemma tags_below_mono h k t : h <= k -> tags_below h t -> tags_below k t.
Proof. unfold tags_below. lia. Qed.

#[export] Hint Resolve update_all_below rewind_to_below_both tags_below_mono : signet.

(** Reachability splits into the memory invariant and the reader's view. *)
Lemma reachable_ind (P : config -> Prop) t os :
  P (start t os) ->
  (forall c d, rtc step (start t os) c -> P c -> step c d -> P d) ->
  forall c, rtc step (start t os) c -> P c.
Proof.
  intros H0 HS c Hc. revert c Hc.
  assert (forall b c, rtc step b c -> rtc step (start t os) b -> P b -> P c) as H.
  { intros b c Hbc. induction Hbc as [|b d c Hs _ IH]; [done|].
    intros Hb Pb. apply IH; [by eapply rtc_r|]. by eapply HS. }
  intros c Hc. exact (H _ c Hc (rtc_refl _ _) H0).
Qed.

(** The memory and the pending operations of a reachable configuration are a
    split of the writer's program. *)
Lemma reachable_prefix t os c :
  rtc step (start t os) c ->
  exists ran, os = ran ++ pending c /\ mem c = run_ops ran t.
Proof.
  revert c. apply reachable_ind.
  - exists []. done.
  - intros c d _ (ran & Hos & Hm) Hs. inversion Hs; subst; simpl in *; [|by exists ran..].
    exists (ran ++ [o]). rewrite <- app_assoc. split; [done|].
    rewrite Hm. unfold run_ops. by rewrite fold_left_app.
Qed.

(** What a reader has seen was in memory at some point of the writer's run. *)
Definition seen_bounds (lo hi : Z) (c : config) : Prop :=
  (forall l, seen_latest c = Some l -> lo <= l) /\
  (forall f, seen_finalized c = Some f -> f <= hi).

(** Every memory state of the run keeps [latest >= lo] and [finalized <= hi]. *)
Definition run_bounds (lo hi : Z) (t : BlockTags) (os : list tag_op) : Prop :=
  forall ran rest, os = ran ++ rest ->
    lo <= latest (run_ops ran t) /\ finalized (run_ops ran t) <= hi.

Lemma reachable_seen_bounds lo hi t os c :
  run_bounds lo hi t os -> rtc step (start t os) c -> seen_bounds lo hi c.
Proof.
  intros HB. revert c. apply reachable_ind.
  - split; simpl; naive_solver.
  - intros c d Hc [Hl Hf] Hs. apply reachable_prefix in Hc as (ran & Hos & Hm).
    destruct (HB _ _ Hos) as [B1 B2].
    inversion Hs; subst; simpl in *; split; simpl; intros; simplify_eq; eauto.
Qed.

(** The prefixes of a three-operation program. *)
Lemma prefix3 {A} (a b c : A) ran rest :
  [a; b; c] = ran ++ rest ->
  ran = [] \/ ran = [a] \/ ran = [a; b] \/ ran = [a; b; c].
Proof.
  intros H. destruct ran as [|x [|y [|z [|w ran]]]]; simplify_eq/=; auto.
Qed.

(** ** Properties *)

(** During [rewind_to] the three tags in memory stay ordered after every
    single atomic operation, and once it has finished none exceeds the
    ancestor or its old value. *)
Theorem rewind_to_memory_ordered t a c :
  tags_ordered t -> rtc step (start t (rewind_to_ops a)) c ->
  tags_ordered (mem c) /\ (pending c = [] -> tags_below a (mem c)).
Proof.
  intros Ho Hc. apply reachable_prefix in Hc as (ran & Hos & ->).
  unfold tags_ordered, tags_below in *. destruct t as [l s f y]. simpl in *.
  pose proof Hos as Hp. apply prefix3 in Hp as [->|[->|[->| ->]]]; simpl in *;
    (split; [lia|]); intros Hnil; rewrite Hnil in Hos; simplify_eq/=; lia.
Qed.

(** The interleaving of [update_all] with a reader never shows a [latest]
    behind a [finalized] when the new finalized height is not ahead of the
    latest that is being replaced. *)
Theorem update_all_no_inversion t l s f c :
  finalized t <= latest t -> finalized t <= l -> f <= l -> f <= latest t ->
  rtc step (start t (update_all_ops l s f)) c -> ~ observed_inversion c.
Proof.
  intros H1 H2 H3 H4 Hc (lv & fv & Hl & Hf & Hlt).
  assert (run_bounds (Z.min l (latest t)) (Z.max f (finalized t)) t (update_all_ops l s f)) as HB.
  { intros ran rest Hos. destruct t as [l0 s0 f0 y0]. simpl in *.
    apply prefix3 in Hos as [->|[->|[->| ->]]]; simpl; lia. }
  destruct (reachable_seen_bounds _ _ _ _ _ HB Hc) as [Bl Bf].
  specialize (Bl _ Hl). specialize (Bf _ Hf). lia.
Qed.

(** Without that condition the documented guarantee fails.  With the values
    of the type's own usage example, [BlockTags::new(100, 95, 90)] followed by
    [update_all(200, 195, 190)], a reader can observe [latest = 100] and
    [finalized = 190], although both the old and the new tags are ordered. *)
Theorem update_all_reader_inversion :
  exists c, rtc step (start (BlockTags_new 100 95 90) (update_all_ops 200 195 190)) c
    /\ seen_latest c = Some 100 /\ seen_finalized c = Some 190
    /\ observed_inversion c
    /\ tags_ordered (BlockTags_new 100 95 90)
    /\ tags_ordered (update_all 200 195 190 (BlockTags_new 100 95 90)).
Proof.
  eexists. split.
  { eapply rtc_l; [apply step_write|]. eapply rtc_l; [apply step_load_latest|].
    eapply rtc_l; [apply step_load_finalized|]. apply rtc_refl. }
  simpl. split; [done|]. split; [done|]. split; [by exists 100, 190|].
  split; vm_compute; split; discriminate.
Qed.
