(* ===== verification/Primitives.v ===== *)
(** * Chain data and the third-party interfaces the components share

    The repository's code reads headers, transactions, receipts and log
    filters whose types live in [alloy] and the signet SDK.  Headers and logs
    are records of the fields the code reads and writes; the operations of
    those crates that the code calls are the fields of the classes below, so
    every theorem holds for whatever they compute.  [B256], [Address] and
    [U256] values are [Z]. *)

From S2P Require Import Prelude.

Abbreviation B256 := Z (only parsing).
Abbreviation Address := Z (only parsing).
Abbreviation BlockNumber := Z (only parsing).

(** [alloy::consensus::Header], the fields the code reads or writes. *)
Record Header := mkHeader {
  h_parent_hash : B256;
  h_number : BlockNumber;
  h_timestamp : Z;
  h_gas_limit : Z;
  h_gas_used : Z;
  h_base_fee_per_gas : option Z }.

#[export] Instance Header_eq_dec : EqDecision Header.
Proof. solve_decision. Defined.

(** A header sealed with its hash ([SealedHeader]). *)
Record SealedHeader := mkSealedHeader { sh_header : Header; sh_hash : B256 }.

#[export] Instance SealedHeader_eq_dec : EqDecision SealedHeader.
Proof. solve_decision. Defined.

(** [alloy::rpc::types::Header]. *)
Record RpcHeader := mkRpcHeader {
  rh_hash : B256; rh_inner : Header;
  rh_total_difficulty : option Z; rh_size : option Z }.

#[export] Instance RpcHeader_eq_dec : EqDecision RpcHeader.
Proof. solve_decision. Defined.

(** [alloy::rpc::types::Log]; [L] is the primitive log it wraps. *)
Record Log (L : Type) := mkLog {
  l_inner : L;
  l_block_hash : option B256;
  l_block_number : option Z;
  l_block_timestamp : option Z;
  l_transaction_hash : option B256;
  l_transaction_index : option Z;
  l_log_index : option Z;
  l_removed : bool }.
Arguments mkLog {L} _ _ _ _ _ _ _ _.
Arguments l_inner {L} _.
Arguments l_block_hash {L} _.
Arguments l_block_number {L} _.
Arguments l_block_timestamp {L} _.
Arguments l_transaction_hash {L} _.
Arguments l_transaction_index {L} _.
Arguments l_log_index {L} _.
Arguments l_removed {L} _.

(** [log.removed = true] on a clone. *)
Definition mark_removed {L} (l : Log L) : Log L :=
  mkLog (l_inner l) (l_block_hash l) (l_block_number l) (l_block_timestamp l)
    (l_transaction_hash l) (l_transaction_index l) (l_log_index l) true.

(** [BlockNumberOrTag] and [BlockId]. *)
Inductive BlockNumberOrTag :=
| Latest | Pending | Safe | Finalized | Earliest | Number (n : Z).
Inductive BlockId := IdNumber (tag : BlockNumberOrTag) | IdHash (hash : B256).

#[export] Instance BlockNumberOrTag_eq_dec : EqDecision BlockNumberOrTag.
Proof. solve_decision. Defined.
#[export] Instance BlockId_eq_dec : EqDecision BlockId.
Proof. solve_decision. Defined.

Definition tag_is_pending (t : BlockNumberOrTag) : bool :=
  match t with Pending => true | _ => false end.
(** [BlockId::is_pending]. *)
Definition id_is_pending (i : BlockId) : bool :=
  match i with IdNumber t => tag_is_pending t | IdHash _ => false end.

(** [FilterBlockOption]. *)
Inductive FilterBlockOption :=
| AtBlockHash (hash : B256)
| Range (from_block to_block : option BlockNumberOrTag).

(** The operations of [alloy::rpc::types::Filter] the code uses:
    [matches], the [block_option] field, and functional update of it. *)
Class LogFilter (F L : Type) := {
  matches : F -> L -> bool;
  block_option : F -> FilterBlockOption;
  with_block_option : FilterBlockOption -> F -> F }.

(** A stored transaction ([RecoveredTx]): what the code asks of it. *)
Inductive TxKind := Create | Call (addr : Address).
Class Transaction (T : Type) := {
  tx_hash : T -> B256;
  tx_signer : T -> Address;
  tx_nonce : T -> Z;
  tx_kind : T -> TxKind;
  max_fee_per_gas : T -> Z;
  effective_tip_per_gas : T -> Z -> option Z;
  is_magic_sig : T -> bool }.

(** A receipt is used through its logs only, except where it is stored. *)
Class ReceiptLogs (R L : Type) := { receipt_logs : R -> list L }.

(** Base-fee projection and hashing of headers. *)
Class HeaderOps := {
  hash_slow : Header -> B256;
  next_block_base_fee : Header -> option Z }.

Lemma mark_removed_idem {L} (l : Log L) : mark_removed (mark_removed l) = mark_removed l.
Proof. reflexivity. Qed.

Lemma mark_removed_inner {L} (l : Log L) : l_inner (mark_removed l) = l_inner l.
Proof. reflexivity. Qed.
#[export] Hint Rewrite @mark_removed_inner @mark_removed_idem : signet.

(** ** Concrete instances, for the instances of the theorems on sample data

    A raw log is the address that emitted it, a filter is a block option with
    the address it selects, a transaction is its hash and its tip, a receipt is
    its list of raw logs, and a header hashes to its number. *)
Module Sample.
Definition raw_log : Type := Z.
Definition log_filter : Type := FilterBlockOption * Z.
Record tx := mkTx { s_hash : Z; s_tip : Z; s_magic : bool }.
Definition receipt : Type := list Z.

#[export] Instance sample_filter : LogFilter log_filter raw_log := {
  matches f l := f.2 =? l;
  block_option f := f.1;
  with_block_option o f := (o, f.2) }.
#[export] Instance sample_tx : Transaction tx := {
  tx_hash := s_hash; tx_signer _ := 0; tx_nonce _ := 0; tx_kind _ := Call 0;
  max_fee_per_gas := s_tip; effective_tip_per_gas t _ := Some (s_tip t);
  is_magic_sig := s_magic }.
#[export] Instance sample_receipt : ReceiptLogs receipt raw_log := { receipt_logs r := r }.
#[export] Instance sample_header : HeaderOps := {
  hash_slow h := 1000 + h_number h; next_block_base_fee h := h_base_fee_per_gas h }.

Definition header (n : Z) : Header := mkHeader (1000 + n - 1) n (12 * n) 30000000 21000 (Some 7).
Definition any_log (addr : Z) : Log raw_log :=
  mkLog addr None None None None None None false.
End Sample.
