(* ===== verification/Interest.v ===== *)
(** * Events, buffers and interests ([crates/rpc/src/interest])

    The notifications the node broadcasts ([interest/mod.rs]), the two-kinded
    [EventBuffer] ([interest/buffer.rs]) and [InterestKind]
    ([interest/kind.rs]), which turns a notification into buffered events. *)

From S2P Require Import Prelude Primitives.

(** ** Notifications ([interest/mod.rs]) *)
Record NewBlockNotification (T R : Type) := mkNewBlock {
  nb_header : Header; nb_transactions : list T; nb_receipts : list R }.
Arguments mkNewBlock {T R} _ _ _.
Arguments nb_header {T R} _.
Arguments nb_transactions {T R} _.
Arguments nb_receipts {T R} _.

Record RemovedBlock (L : Type) := mkRemovedBlock {
  rb_number : Z; rb_hash : B256; rb_timestamp : Z; rb_logs : list (Log L) }.
Arguments mkRemovedBlock {L} _ _ _ _.
Arguments rb_number {L} _.
Arguments rb_hash {L} _.
Arguments rb_timestamp {L} _.
Arguments rb_logs {L} _.

Record ReorgNotification (L : Type) := mkReorg {
  common_ancestor : Z; removed_blocks : list (RemovedBlock L) }.
Arguments mkReorg {L} _ _.
Arguments common_ancestor {L} _.
Arguments removed_blocks {L} _.

Inductive ChainEvent (T R L : Type) :=
| NewBlock (n : NewBlockNotification T R)
| Reorg (r : ReorgNotification L).
Arguments NewBlock {T R L} n.
Arguments Reorg {T R L} r.

(** ** [EventBuffer] ([interest/buffer.rs]) *)
Inductive EventBuffer (L B : Type) :=
| BufLog (logs : list (Log L))
| BufBlock (blocks : list B).
Arguments BufLog {L B} logs.
Arguments BufBlock {L B} blocks.

Inductive EventItem (L B : Type) :=
| ItemLog (log : Log L)
| ItemBlock (block : B).
Arguments ItemLog {L B} log.
Arguments ItemBlock {L B} block.

Section buffer.
Context {L B : Type}.

Definition buffer_len (b : EventBuffer L B) : nat :=
  match b with BufLog logs => length logs | BufBlock blocks => length blocks end.

Definition buffer_is_empty (b : EventBuffer L B) : bool := (buffer_len b =? 0)%nat.

(** [extend]: panics on mismatched kinds. *)
Definition buffer_extend {E} (b other : EventBuffer L B) : res E (EventBuffer L B) :=
  match b, other with
  | BufLog a, BufLog b => Ok (BufLog (a ++ b))
  | BufBlock a, BufBlock b => Ok (BufBlock (a ++ b))
  | _, _ => Panic
  end.

Definition buffer_pop_front (b : EventBuffer L B) : option (EventItem L B) * EventBuffer L B :=
  match b with
  | BufLog [] => (None, BufLog [])
  | BufLog (l :: logs) => (Some (ItemLog l), BufLog logs)
  | BufBlock [] => (None, BufBlock [])
  | BufBlock (x :: blocks) => (Some (ItemBlock x), BufBlock blocks)
  end.

(** The [From] and [FromIterator] conversions. *)
Definition buffer_from_logs (logs : list (Log L)) : EventBuffer L B := BufLog logs.
Definition buffer_from_blocks (blocks : list B) : EventBuffer L B := BufBlock blocks.

(** The queue a buffer stands for. *)
Definition buffer_items (b : EventBuffer L B) : list (EventItem L B) :=
  match b with BufLog logs => ItemLog <$> logs | BufBlock blocks => ItemBlock <$> blocks end.

(** Two buffers of the same kind. *)
Definition same_kind (b c : EventBuffer L B) : bool :=
  match b, c with BufLog _, BufLog _ | BufBlock _, BufBlock _ => true | _, _ => false end.

Lemma buffer_extend_items {E} (b c : EventBuffer L B) :
  same_kind b c = true ->
  exists d, buffer_extend (E:=E) b c = Ok d /\ same_kind b d = true
    /\ buffer_items d = buffer_items b ++ buffer_items c.
Proof.
  destruct b, c; simpl; try done; intros _; eexists; (split; [done|]);
    (split; [done|]); simpl; by rewrite fmap_app.
Qed.

Lemma buffer_pop_items (b : EventBuffer L B) :
  buffer_items b = option_list (buffer_pop_front b).1 ++ buffer_items (buffer_pop_front b).2
  /\ same_kind b (buffer_pop_front b).2 = true.
Proof. destruct b as [[|? ?]|[|? ?]]; done. Qed.

Lemma buffer_is_empty_items (b : EventBuffer L B) :
  buffer_is_empty b = true <-> buffer_items b = [].
Proof. destruct b as [[|? ?]|[|? ?]]; done. Qed.

Lemma buffer_len_items (b : EventBuffer L B) : length (buffer_items b) = buffer_len b.
Proof. destruct b; simpl; apply length_fmap. Qed.

Lemma same_kind_trans (b c d : EventBuffer L B) :
  same_kind b c = true -> same_kind c d = true -> same_kind b d = true.
Proof. destruct b, c, d; done. Qed.

Lemma same_kind_join (b c d : EventBuffer L B) :
  same_kind b c = true -> same_kind b d = true -> same_kind c d = true.
Proof. destruct b, c, d; done. Qed.
End buffer.

#[export] Hint Rewrite @buffer_len_items : signet.
#[export] Hint Resolve same_kind_trans : signet.

(** ** [InterestKind] ([interest/kind.rs]) *)
Inductive InterestKind (F : Type) := KLog (f : F) | KBlock.
Arguments KLog {F} f.
Arguments KBlock {F}.

Section kind.
Context {F L T R : Type} `{LogFilter F L, Transaction T, ReceiptLogs R L, HeaderOps}.

(** [SubscriptionBuffer] and [FilterOutput]. *)
Definition SubscriptionBuffer : Type := EventBuffer L RpcHeader.
Definition FilterOutput : Type := EventBuffer L B256.

Definition is_block (k : InterestKind F) : bool :=
  match k with KBlock => true | _ => false end.

Definition as_filter (k : InterestKind F) : option F :=
  match k with KLog f => Some f | _ => None end.

Definition apply_block (notif : NewBlockNotification T R) : SubscriptionBuffer :=
  BufBlock [mkRpcHeader (hash_slow (nb_header notif)) (nb_header notif) None None].

(** The [flat_map] of [apply_filter]: every log of the block with the index
    and hash of its transaction.  [notif.transactions[tx_idx]] panics when
    there are more receipts than transactions. *)
Definition flat_logs {E} (notif : NewBlockNotification T R) : res E (list (nat * B256 * L)) :=
  mjoin <$> mapM (fun '(tx_idx, receipt) =>
    tx ← expect (nb_transactions notif !! tx_idx);
    Ok ((fun log => (tx_idx, tx_hash tx, log)) <$> receipt_logs receipt))
    (imap pair (nb_receipts notif)).

Definition rpc_log (notif : NewBlockNotification T R) (e : nat * (nat * B256 * L)) : Log L :=
  let '(log_idx, (tx_idx, txh, log)) := e in
  mkLog log (Some (hash_slow (nb_header notif))) (Some (h_number (nb_header notif)))
    (Some (h_timestamp (nb_header notif))) (Some txh) (Some (Z.of_nat tx_idx))
    (Some (Z.of_nat log_idx)) false.

(** [apply_filter]: [unwrap] of [as_filter], then enumerate, filter, map. *)
Definition apply_filter {E} (k : InterestKind F) (notif : NewBlockNotification T R) :
    res E SubscriptionBuffer :=
  filter ← expect (as_filter k);
  flat ← flat_logs notif;
  Ok (BufLog (rpc_log notif <$>
    base.filter (fun e => matches filter e.2.2 = true) (imap pair flat))).

Definition filter_notification_for_sub {E} (k : InterestKind F)
    (notif : NewBlockNotification T R) : res E SubscriptionBuffer :=
  if is_block k then Ok (apply_block notif) else apply_filter k notif.

Definition empty_output (k : InterestKind F) : FilterOutput :=
  match k with KLog _ => BufLog [] | KBlock => BufBlock [] end.

Definition empty_sub_buffer (k : InterestKind F) : SubscriptionBuffer :=
  match k with KLog _ => BufLog [] | KBlock => BufBlock [] end.

(** The matching logs of the removed blocks, marked removed. *)
Definition filter_reorg_for_sub (k : InterestKind F) (reorg : ReorgNotification L) :
    SubscriptionBuffer :=
  match as_filter k with
  | None => empty_sub_buffer k
  | Some filter =>
      BufLog (mark_removed <$>
        base.filter (fun log => matches filter (l_inner log) = true)
          (mjoin (rb_logs <$> removed_blocks reorg)))
  end.
End kind.

(** ** Properties of [InterestKind] *)
Section kind_facts.
Context {F L T R : Type} `{LogFilter F L, Transaction T, ReceiptLogs R L, HeaderOps}.
Implicit Types (notif : NewBlockNotification T R) (k : InterestKind F).

(** Every receipt has its transaction: the shape of an executed block. *)
Definition notif_wf notif : Prop :=
  (length (nb_receipts notif) <= length (nb_transactions notif))%nat.

(** The logs of transaction [i], tagged as [flat_logs] tags them. *)
Definition tx_logs notif (i : nat) (r : R) : list (nat * B256 * L) :=
  match nb_transactions notif !! i with
  | Some tx => (fun log => (i, tx_hash tx, log)) <$> receipt_logs r
  | None => []
  end.

Lemma flat_logs_ok {E} notif :
  notif_wf notif ->
  flat_logs (E:=E) notif = Ok (mjoin (imap (tx_logs notif) (nb_receipts notif))).
Proof.
  intros Hwf. unfold flat_logs. apply fmap_ok. eexists. split; [|done].
  apply mapM_ok. rewrite Forall2_lookup. intros i.
  rewrite !list_lookup_imap. destruct (nb_receipts notif !! i) as [r|] eqn:Hr; simpl; [|constructor].
  constructor. unfold tx_logs.
  destruct (lookup_lt_is_Some_2 (nb_transactions notif) i) as [tx Htx].
  { apply lookup_lt_Some in Hr. unfold notif_wf in Hwf. lia. }
  by rewrite Htx.
Qed.

Lemma flat_raw_logs notif :
  notif_wf notif ->
  snd <$> mjoin (imap (tx_logs notif) (nb_receipts notif)) =
  mjoin (receipt_logs <$> nb_receipts notif).
Proof.
  intros Hwf. rewrite fmap_join. f_equal. apply list_eq. intros i.
  rewrite !list_lookup_fmap, list_lookup_imap.
  destruct (nb_receipts notif !! i) as [r|] eqn:Hr; simpl; [|done].
  unfold tx_logs. destruct (lookup_lt_is_Some_2 (nb_transactions notif) i) as [tx ->].
  { apply lookup_lt_Some in Hr. unfold notif_wf in Hwf. lia. }
  f_equal. rewrite <- list_fmap_compose. by apply list_fmap_id.
Qed.

Lemma tx_logs_lengths notif i :
  notif_wf notif ->
  length <$> take i (imap (tx_logs notif) (nb_receipts notif))
  = length <$> (receipt_logs <$> take i (nb_receipts notif)).
Proof.
  intros Hwf. apply list_eq. intros n. rewrite !list_lookup_fmap.
  destruct (decide (n < i)%nat) as [Hn|Hn]; [|by rewrite !lookup_take_ge by lia].
  rewrite !lookup_take_lt, list_lookup_imap by done.
  destruct (nb_receipts notif !! n) as [r|] eqn:Hr; simpl; [|done].
  unfold tx_logs. destruct (lookup_lt_is_Some_2 (nb_transactions notif) n) as [tx ->].
  { apply lookup_lt_Some in Hr. unfold notif_wf in Hwf. lia. }
  by rewrite length_fmap.
Qed.

Lemma fmap_filter_snd {A B C} (g : A * B -> C) (h : B -> C) (p : B -> bool) (l : list (A * B)) :
  (forall e, g e = h e.2) ->
  g <$> base.filter (fun e => p e.2 = true) l
  = h <$> base.filter (fun b => p b = true) (snd <$> l).
Proof.
  intros Hg. induction l as [|[a b] l IH]; [done|]. csimpl.
  rewrite !filter_cons. csimpl. destruct (decide (p b = true)); csimpl; [|done].
  by rewrite Hg, IH.
Qed.

Lemma filter_matches_snd (f : F) (l : list (nat * B256 * L)) :
  (fun e => e.2) <$> base.filter (fun e => matches f e.2 = true) l
  = base.filter (fun r => matches f r = true) (snd <$> l).
Proof.
  rewrite (fmap_filter_snd _ id) by done. apply list_fmap_id.
Qed.

(** A log subscription receives exactly the matching logs of the block in
    block order, and each carries the index of its transaction, that
    transaction's hash and its block-wide log index (counted before
    filtering), with [removed = false]. *)
Theorem apply_filter_logs {E} f notif :
  notif_wf notif ->
  exists out, filter_notification_for_sub (E:=E) (KLog f) notif = Ok (BufLog out)
    /\ l_inner <$> out
       = base.filter (fun r => matches f r = true) (mjoin (receipt_logs <$> nb_receipts notif))
    /\ forall l, l ∈ out ->
         exists i r tx j raw,
           nb_receipts notif !! i = Some r /\ nb_transactions notif !! i = Some tx
           /\ receipt_logs r !! j = Some raw /\ matches f raw = true
           /\ l = rpc_log notif
                    ((sum_list (length <$> (receipt_logs <$> take i (nb_receipts notif))) + j)%nat,
                     (i, tx_hash tx, raw)).
Proof.
  intros Hwf. unfold filter_notification_for_sub, apply_filter. simpl.
  rewrite (flat_logs_ok _ Hwf). simpl. eexists. split; [done|]. split.
  - rewrite <- flat_raw_logs, <- filter_matches_snd, <- list_fmap_compose by done.
    rewrite (fmap_filter_snd _ snd (fun b => matches f b.2)) by (intros [? [[] ?]]; done).
    by rewrite imap_pair_snd.
  - intros l Hl. apply list_elem_of_fmap in Hl as ([k [[i h] raw]] & -> & Hl).
    apply list_elem_of_filter in Hl as [Hm Hl]. simpl in Hm.
    apply list_elem_of_lookup in Hl as [k' Hk]. rewrite list_lookup_imap in Hk.
    apply fmap_Some in Hk as ([[i' h'] raw'] & Hk & [= <- <- <- <-]).
    apply join_lookup_Some in Hk as (i2 & ls & j & Hls & Hj & ->).
    rewrite list_lookup_imap in Hls. apply fmap_Some in Hls as (r & Hr & ->).
    unfold tx_logs in Hj. destruct (nb_transactions notif !! i2) as [tx|] eqn:Htx; [|done].
    rewrite list_lookup_fmap in Hj. apply fmap_Some in Hj as (raw2 & Hj & [= -> -> ->]).
    exists i2, r, tx, j, raw2. do 4 (split; [done|]). by rewrite tx_logs_lengths.
Qed.

(** A reorg gives a log subscription exactly the matching logs of the
    removed blocks, in order and flagged [removed]; a [newHeads]
    subscription gets nothing. *)
Theorem filter_reorg_for_sub_logs (k : InterestKind F) (reorg : ReorgNotification L) :
  match k with
  | KBlock => filter_reorg_for_sub k reorg = BufBlock []
  | KLog f => exists out, filter_reorg_for_sub k reorg = BufLog out
      /\ Forall (fun l => l_removed l = true) out
      /\ l_inner <$> out = base.filter (fun r => matches f r = true)
           (l_inner <$> mjoin (rb_logs <$> removed_blocks reorg))
  end.
Proof.
  destruct k as [f|]; [|done]. eexists. split; [done|]. split.
  - apply Forall_fmap, Forall_true. done.
  - rewrite <- list_fmap_compose. induction (mjoin _) as [|l ls IH]; [done|].
    csimpl. rewrite !filter_cons. csimpl. destruct (decide _); csimpl; by rewrite ?IH.
Qed.

(** Outputs have the kind of the subscription's buffer. *)
Lemma filter_notification_kind {E} k notif b :
  filter_notification_for_sub (E:=E) k notif = Ok b -> same_kind (empty_sub_buffer k) b = true.
Proof.
  unfold filter_notification_for_sub, apply_filter, apply_block. destruct k; simpl.
  - intros Hb. apply bind_ok in Hb as (flat & _ & [= <-]). done.
  - intros [= <-]. done.
Qed.

Lemma filter_reorg_kind (k : InterestKind F) (reorg : ReorgNotification L) :
  same_kind (empty_sub_buffer k) (filter_reorg_for_sub k reorg) = true.
Proof. by destruct k. Qed.
End kind_facts.

#[export] Hint Resolve filter_notification_kind filter_reorg_kind : signet.
