(* ===== verification/ChainNotifier.v ===== *)
(** * Shared chain state ([crates/rpc/src/config/chain_notifier.rs])

    The state the node and the RPC context share: the block tags, the ring
    buffer of timestamped reorgs, and the broadcast channel, of which the model
    keeps the sequence of events handed to [broadcast::Sender::send]. Time is
    an argument of the operations that read the clock. *)

From Stdlib Require Import Sorted.
From S2P Require Import Prelude Primitives BlockTags Interest.

(** [MAX_REORG_ENTRIES]. *)
Definition MAX_REORG_ENTRIES : nat := 25.
Arguments MAX_REORG_ENTRIES : simpl never.

Record ChainNotifier (T R L : Type) := mkChainNotifier {
  cn_tags : BlockTags;
  cn_sent : list (ChainEvent T R L);
  cn_reorgs : list (Z * ReorgNotification L) }.
Arguments mkChainNotifier {T R L} _ _ _.
Arguments cn_tags {T R L} _.
Arguments cn_sent {T R L} _.
Arguments cn_reorgs {T R L} _.

Section notifier.
Context {T R L : Type}.
Implicit Types (c : ChainNotifier T R L) (reorg : ReorgNotification L).

(** [ChainNotifier::new]. *)
Definition ChainNotifier_new : ChainNotifier T R L :=
  mkChainNotifier (BlockTags_new 0 0 0) [] [].

Definition with_tags (f : BlockTags -> BlockTags) c : ChainNotifier T R L :=
  mkChainNotifier (f (cn_tags c)) (cn_sent c) (cn_reorgs c).

Definition send_event (e : ChainEvent T R L) c : ChainNotifier T R L :=
  mkChainNotifier (cn_tags c) (cn_sent c ++ [e]) (cn_reorgs c).

Definition send_new_block (n : NewBlockNotification T R) c : ChainNotifier T R L :=
  send_event (NewBlock n) c.

(** The ring-buffer write of [send_reorg]. *)
Definition push_reorg (now : Z) reorg (buf : list (Z * ReorgNotification L)) :=
  (if (MAX_REORG_ENTRIES <=? length buf)%nat then tail buf else buf) ++ [(now, reorg)].

Definition send_reorg (now : Z) reorg c : ChainNotifier T R L :=
  send_event (Reorg reorg)
    (mkChainNotifier (cn_tags c) (cn_sent c) (push_reorg now reorg (cn_reorgs c))).

Definition reorgs_since (since : Z) c : list (ReorgNotification L) :=
  snd <$> filter (fun '(received_at, _) => since < received_at) (cn_reorgs c).

(** ** Specification: the buffer is a window on the whole reorg history *)
(** [hist] is every reorg ever sent, oldest first. *)
Definition buffers_history (hist : list (Z * ReorgNotification L)) c : Prop :=
  cn_reorgs c = last_n MAX_REORG_ENTRIES hist.

Definition history_since (since : Z) (hist : list (Z * ReorgNotification L)) :=
  filter (fun '(received_at, _) => since < received_at) hist.

(** A monotone clock. *)
Definition clock_ordered (hist : list (Z * ReorgNotification L)) : Prop :=
  StronglySorted (fun a b => a.1 <= b.1) hist.

(** Reorgs at least [gap] apart. *)
Definition spaced (gap : Z) (hist : list (Z * ReorgNotification L)) : Prop :=
  forall i a b, hist !! i = Some a -> hist !! S i = Some b -> a.1 + gap <= b.1.

(** Every [send_reorg] keeps the window. *)
Lemma send_reorg_window now reorg hist c :
  buffers_history hist c -> buffers_history (hist ++ [(now, reorg)]) (send_reorg now reorg c).
Proof.
  unfold buffers_history, send_reorg, send_event, push_reorg. cbn [cn_reorgs].
  intros ->. symmetry. apply last_n_snoc. unfold MAX_REORG_ENTRIES. lia.
Qed.

Lemma send_new_block_window n hist c :
  buffers_history hist c -> buffers_history hist (send_new_block n c).
Proof. done. Qed.

Lemma with_tags_window f hist c :
  buffers_history hist c -> buffers_history hist (with_tags f c).
Proof. done. Qed.

Lemma new_window : buffers_history [] ChainNotifier_new.
Proof. done. Qed.

(** In clock order, the reorgs after [since] are a suffix of the history. *)
Lemma history_since_suffix since hist :
  clock_ordered hist -> exists pre, hist = pre ++ history_since since hist.
Proof.
  unfold clock_ordered, history_since.
  induction hist as [|[t r] hist IH]; [by exists []|]. intros Hs.
  apply StronglySorted_inv in Hs as [Hs Hall]. destruct (IH Hs) as [pre Hpre].
  rewrite filter_cons. destruct (decide _) as [Ht|Ht].
  - exists []. simpl. f_equal. symmetry. apply filter_all.
    eapply Forall_impl; [exact Hall|]. intros [t' r']. simpl. lia.
  - exists ((t, r) :: pre). simpl. by f_equal.
Qed.

Lemma spaced_lower gap t r (hist : list (Z * ReorgNotification L)) x :
  0 <= gap -> spaced gap ((t, r) :: hist) -> last ((t, r) :: hist) = Some x ->
  t + gap * Z.of_nat (length hist) <= x.1.
Proof.
  intros Hg. revert t r. induction hist as [|[t2 r2] hist IH]; intros t r Hs Hl.
  - injection Hl as <-. simpl. lia.
  - pose proof (Hs 0%nat _ _ eq_refl eq_refl) as H1. simpl in H1.
    assert (spaced gap ((t2, r2) :: hist)) as H2 by (intros i; apply (Hs (S i))).
    specialize (IH _ _ H2 Hl). cbn [length]. lia.
Qed.

Lemma spaced_ordered gap (hist : list (Z * ReorgNotification L)) :
  0 <= gap -> spaced gap hist -> clock_ordered hist.
Proof.
  intros Hg Hs. apply Sorted_StronglySorted; [intros ???; lia|].
  induction hist as [|a hist IH]; constructor.
  - apply IH. intros i. apply (Hs (S i)).
  - destruct hist as [|b hist]; constructor.
    pose proof (Hs 0%nat _ _ eq_refl eq_refl). lia.
Qed.

(** At most 25 reorgs, 12 seconds apart, fit in a 5-minute window. *)
Lemma window_count since (hist : list (Z * ReorgNotification L)) :
  spaced 12 hist -> Forall (fun e => e.1 <= since + 300) hist ->
  (length (history_since since hist) <= MAX_REORG_ENTRIES)%nat.
Proof.
  intros Hs Hall. pose proof (spaced_ordered 12 hist ltac:(lia) Hs) as Ho.
  destruct (history_since_suffix since hist Ho) as [pre Hpre].
  destruct (history_since since hist) as [|[t r] rest] eqn:E; [simpl; lia|].
  assert (since < t) as Ht.
  { assert ((t, r) ∈ history_since since hist) as Hin by (rewrite E; left).
    unfold history_since in Hin. apply list_elem_of_filter in Hin as [? _]. done. }
  assert (spaced 12 ((t, r) :: rest)) as Hs2.
  { intros i a b Ha Hb. apply (Hs (length pre + i)%nat); rewrite Hpre.
    - by rewrite lookup_app_r, Nat.add_comm, Nat.add_sub by lia.
    - rewrite lookup_app_r by lia. by replace (S (length pre + i) - length pre)%nat with (S i) by lia. }
  destruct (last ((t, r) :: rest)) as [x|] eqn:Hl; [|by apply last_None in Hl].
  pose proof (spaced_lower 12 t r rest x ltac:(lia) Hs2 Hl) as Hlow.
  assert (x.1 <= since + 300) as Hx.
  { rewrite Forall_forall in Hall. apply Hall. rewrite Hpre.
    apply last_Some_elem_of in Hl. set_solver. }
  unfold MAX_REORG_ENTRIES. simpl. lia.
Qed.

Lemma reorgs_since_window since hist c :
  buffers_history hist c -> clock_ordered hist ->
  (length (history_since since hist) <= MAX_REORG_ENTRIES)%nat ->
  reorgs_since since c = snd <$> history_since since hist.
Proof.
  unfold buffers_history, reorgs_since. intros -> Ho Hlen. f_equal.
  destruct (history_since_suffix since hist Ho) as [pre Hpre].
  unfold last_n. set (n := (length hist - MAX_REORG_ENTRIES)%nat).
  assert (n <= length pre)%nat as Hn.
  { apply (f_equal length) in Hpre. rewrite length_app in Hpre. unfold n. lia. }
  assert (history_since since pre = []) as Hnil.
  { pose proof Hpre as H2. apply (f_equal (history_since since)) in H2.
    unfold history_since in H2 at 2. rewrite filter_app in H2.
    change (filter _ pre) with (history_since since pre) in H2.
    change (filter _ (history_since since hist)) with (history_since since (history_since since hist)) in H2.
    apply (f_equal length) in H2. rewrite length_app in H2.
    assert (history_since since (history_since since hist) = history_since since hist) as H3.
    { unfold history_since. apply filter_all, Forall_forall.
      intros e He. by apply list_elem_of_filter in He as [? _]. }
    rewrite H3 in H2. apply nil_length_inv. lia. }
  rewrite Hpre at 1. rewrite drop_app_le by done. rewrite filter_app.
  assert (filter (fun '(received_at, _) => since < received_at) (drop n pre) = []) as ->.
  { apply filter_none. eapply (Forall_drop _ n).
    apply Forall_forall. intros e He Hs.
    assert (e ∈ history_since since pre) as Hin by by apply list_elem_of_filter.
    rewrite Hnil in Hin. by apply not_elem_of_nil in Hin. }
  simpl. unfold history_since. apply filter_all, Forall_forall.
  intros e He. by apply list_elem_of_filter in He as [? _].
Qed.

(** C22: The ring buffer loses nothing a live filter needs.  Whatever sequence
    of reorgs was sent, if they are at least 12 seconds apart and the filter
    was last polled at most 5 minutes ago, [reorgs_since] returns every reorg
    received after that poll, in order: 25 entries are enough. *)
Theorem reorgs_since_no_loss since hist :
  spaced 12 hist -> Forall (fun e => e.1 <= since + 300) hist ->
  reorgs_since since (fold_left (fun c '(now, reorg) => send_reorg now reorg c) hist ChainNotifier_new)
  = snd <$> history_since since hist.
Proof.
  intros Hs Hall. apply reorgs_since_window.
  - clear. induction hist as [|[t r] hist IH] using rev_ind; [done|].
    rewrite fold_left_app. simpl. by apply send_reorg_window.
  - apply (spaced_ordered 12); [lia|done].
  - by apply window_count.
Qed.

(** The buffer never exceeds its capacity, and the 26th reorg evicts
    exactly the oldest one. *)
Theorem ring_buffer_evicts_oldest now reorg c hist :
  buffers_history hist c ->
  (length (cn_reorgs (send_reorg now reorg c)) <= MAX_REORG_ENTRIES)%nat
  /\ (length (cn_reorgs c) = MAX_REORG_ENTRIES ->
      cn_reorgs (send_reorg now reorg c) = tail (cn_reorgs c) ++ [(now, reorg)])
  /\ (length (cn_reorgs c) < MAX_REORG_ENTRIES ->
      cn_reorgs (send_reorg now reorg c) = cn_reorgs c ++ [(now, reorg)])%nat.
Proof.
  intros Hb. pose proof (send_reorg_window now reorg hist c Hb) as Hw.
  split; [rewrite Hw, last_n_length; lia|].
  unfold send_reorg, send_event, push_reorg. cbn [cn_reorgs].
  split; intros Hl; destruct (Nat.leb_spec MAX_REORG_ENTRIES (length (cn_reorgs c))); done || lia.
Qed.
End notifier.

#[export] Hint Resolve send_reorg_window send_new_block_window with_tags_window new_window : signet.

(** Instance of [reorgs_since_no_loss]: two reorgs 12 seconds apart. *)
Lemma reorgs_since_no_loss_witness :
  reorgs_since (T:=unit) (R:=unit) (L:=unit) 100
    (fold_left (fun c '(now, reorg) => send_reorg now reorg c)
      [(90, mkReorg 5 []); (102, mkReorg 4 [])] ChainNotifier_new)
  = [mkReorg 4 []].
Proof.
  rewrite (reorgs_since_no_loss 100 [(90, mkReorg 5 []); (102, mkReorg 4 [])]).
  - reflexivity.
  - intros [|[|i]] a b Ha Hb; simplify_eq/=; lia.
  - repeat constructor; simpl; lia.
Defined.

Lemma ring_buffer_evicts_oldest_witness :
  (length (cn_reorgs (send_reorg (T:=unit) (R:=unit) (L:=unit) 7 (mkReorg 1 []) ChainNotifier_new))
    <= MAX_REORG_ENTRIES)%nat.
Proof. exact (proj1 (ring_buffer_evicts_oldest 7 (mkReorg 1 []) ChainNotifier_new [] new_window)). Defined.
