(* ===== verification/Subs.v ===== *)
(** * Push subscriptions ([crates/rpc/src/interest/subs.rs])

    The subscription task is a loop around one [tokio::select!]: each
    iteration takes what is ready ([Ready]) and runs the first ready branch in
    the biased order of the source.  The manager is the table of running tasks
    and their cancellation tokens. *)

From S2P Require Import Prelude Primitives Interest.

(** ** The task loop ([SubscriptionTask::task_future]) *)
Section task.
Context {F L T R : Type} `{LogFilter F L, Transaction T, ReceiptLogs R L, HeaderOps}.

(** What a task owns: the event buffer, what it has sent to the client, its
    own cancellation token, and whether the loop is still running. *)
Record TaskState := mkTask {
  t_buffer : SubscriptionBuffer (L:=L);
  t_sent : list (EventItem L RpcHeader);
  t_token_cancelled : bool;
  t_running : bool }.

(** [notifs.recv()]. *)
Inductive RecvResult :=
| RecvOk (ev : ChainEvent T R L)
| RecvLagged (skipped : Z)
| RecvClosed.

(** Which futures are ready when the task is polled.  [permits] is [Some
    None] when the channel to the client is closed and [Some (Some n)] when
    [n] permits were granted. *)
Record Ready := mkReady {
  r_ajj_cancelled : bool;
  r_token_cancelled : bool;
  r_permits : option (option nat);
  r_recv : option RecvResult }.

(** The branches of the [select!]. *)
Inductive Branch :=
| BrDisconnect
| BrUnsubscribed
| BrPermits (permits : option nat)
| BrRecv (r : RecvResult)
| BrPending.

(** The permit request: half of the channel capacity at most. *)
Definition permit_request (capacity : nat) (st : TaskState) : nat :=
  Nat.min (Nat.div capacity 2) (buffer_len (t_buffer st)).

(** Biased selection.  [permit_fut] is [pending()] on an empty buffer. *)
Definition select (st : TaskState) (r : Ready) : Branch :=
  if r_ajj_cancelled r then BrDisconnect
  else if r_token_cancelled r || t_token_cancelled st then BrUnsubscribed
  else match (if buffer_is_empty (t_buffer st) then None else r_permits r), r_recv r with
       | Some p, _ => BrPermits p
       | None, Some rv => BrRecv rv
       | None, None => BrPending
       end.

(** [for permit in permits { ... permit.send(...) }]. *)
Fixpoint send_permits (n : nat) (st : TaskState) : TaskState :=
  match n with
  | O => st
  | S n =>
      match buffer_pop_front (t_buffer st) with
      | (None, _) => st
      | (Some item, b) =>
          send_permits n (mkTask b (t_sent st ++ [item]) (t_token_cancelled st) (t_running st))
      end
  end.

Definition stop (st : TaskState) : TaskState :=
  mkTask (t_buffer st) (t_sent st) (t_token_cancelled st) false.

(** [if !output.is_empty() { notif_buffer.extend(output) }]. *)
Definition extend_buffer {E} (st : TaskState) (output : SubscriptionBuffer (L:=L)) :
    res E TaskState :=
  if buffer_is_empty output then Ok st
  else b ← buffer_extend (t_buffer st) output;
       Ok (mkTask b (t_sent st) (t_token_cancelled st) (t_running st)).

(** What one chain event contributes to the buffer. *)
Definition event_output {E} (filter : InterestKind F) (ev : ChainEvent T R L) :
    res E (SubscriptionBuffer (L:=L)) :=
  match ev with
  | NewBlock notif => filter_notification_for_sub filter notif
  | Reorg reorg => Ok (filter_reorg_for_sub filter reorg)
  end.

Definition run_branch {E} (filter : InterestKind F) (st : TaskState) (br : Branch) :
    res E TaskState :=
  match br with
  | BrDisconnect => Ok (mkTask (t_buffer st) (t_sent st) true false)
  | BrUnsubscribed => Ok (stop st)
  | BrPermits None => Ok (stop st)
  | BrPermits (Some n) => Ok (send_permits n st)
  | BrRecv (RecvOk ev) => output ← event_output filter ev; extend_buffer st output
  | BrRecv (RecvLagged _) => Ok st
  | BrRecv RecvClosed => Ok (stop st)
  | BrPending => Ok st
  end.

(** The loop over a sequence of polls; also returns the branches taken. *)
Fixpoint run_task {E} (filter : InterestKind F) (st : TaskState) (rs : list Ready) :
    res E (TaskState * list Branch) :=
  match rs with
  | [] => Ok (st, [])
  | r :: rs =>
      if t_running st then
        let br := select st r in
        st' ← run_branch filter st br;
        '(st'', brs) ← run_task filter st' rs;
        Ok (st'', br :: brs)
      else Ok (st, [])
  end.

(** The state before the loop. *)
Definition task_start (filter : InterestKind F) : TaskState :=
  mkTask (empty_sub_buffer filter) [] false true.

(** ** Specification *)

(** The events a run consumed, in order. *)
Definition consumed (brs : list Branch) : list (ChainEvent T R L) :=
  omap (fun br => match br with BrRecv (RecvOk ev) => Some ev | _ => None end) brs.

Definition event_wf (ev : ChainEvent T R L) : Prop :=
  match ev with NewBlock n => notif_wf n | Reorg _ => True end.

(** Every event the channel can hand to the task is well formed. *)
Definition ready_wf (r : Ready) : Prop :=
  forall ev, r_recv r = Some (RecvOk ev) -> event_wf ev.

(** The items an event gives to this subscriber. *)
Definition event_items (filter : InterestKind F) (ev : ChainEvent T R L) :
    list (EventItem L RpcHeader) :=
  match event_output (E:=unit) filter ev with Ok b => buffer_items b | _ => [] end.

(** Everything sent, then everything still queued. *)
Definition delivered_queue (st : TaskState) : list (EventItem L RpcHeader) :=
  t_sent st ++ buffer_items (t_buffer st).

Definition kind_ok (filter : InterestKind F) (st : TaskState) : Prop :=
  same_kind (empty_sub_buffer filter) (t_buffer st) = true.

Lemma event_output_ok {E} filter ev :
  event_wf ev -> exists b, event_output (E:=E) filter ev = Ok b
    /\ same_kind (empty_sub_buffer filter) b = true
    /\ event_items filter ev = buffer_items b.
Proof.
  intros Hwf. unfold event_items. destruct ev as [n|r]; simpl in *.
  - destruct filter as [f|].
    + unfold filter_notification_for_sub, apply_filter. simpl.
      rewrite !flat_logs_ok by done. simpl. eexists. done.
    + eexists. done.
  - eexists. split; [done|]. split; [apply filter_reorg_kind|done].
Qed.

Lemma extend_buffer_ok {E} filter st b :
  kind_ok filter st -> same_kind (empty_sub_buffer filter) b = true ->
  exists st', extend_buffer (E:=E) st b = Ok st' /\ kind_ok filter st'
    /\ delivered_queue st' = delivered_queue st ++ buffer_items b
    /\ t_running st' = t_running st /\ t_sent st' = t_sent st.
Proof.
  intros Hk Hb. unfold extend_buffer. destruct (buffer_is_empty b) eqn:He.
  - apply buffer_is_empty_items in He. exists st. by rewrite He, app_nil_r.
  - assert (same_kind (t_buffer st) b = true) as Hs.
    { by eapply same_kind_join. }
    destruct (buffer_extend_items (E:=E) _ _ Hs) as (d & -> & Hd & Hi).
    simpl. eexists. split; [done|]. unfold kind_ok, delivered_queue. simpl.
    split; [exact (same_kind_trans _ _ _ Hk Hd)|]. by rewrite Hi, app_assoc.
Qed.

Lemma send_permits_ok filter n st :
  kind_ok filter st ->
  kind_ok filter (send_permits n st)
  /\ delivered_queue (send_permits n st) = delivered_queue st
  /\ buffer_len (t_buffer (send_permits n st)) = (buffer_len (t_buffer st) - n)%nat
  /\ t_sent st `prefix_of` t_sent (send_permits n st).
Proof.
  revert st. induction n as [|n IH]; intros st Hk; simpl.
  - split; [done|]. split; [done|]. split; [lia|done].
  - destruct (buffer_pop_items (t_buffer st)) as [Hi Hs].
    destruct (buffer_pop_front (t_buffer st)) as [[item|] b] eqn:Hp; simpl in Hi, Hs.
    + destruct (IH (mkTask b (t_sent st ++ [item]) (t_token_cancelled st) (t_running st)))
        as (K1 & K2 & K3 & K4); [exact (same_kind_trans _ _ _ Hk Hs)|].
      split; [done|]. split; [|split].
      * rewrite K2. unfold delivered_queue. simpl. by rewrite Hi, <- app_assoc.
      * rewrite K3. simpl. rewrite <- !buffer_len_items, Hi. simpl. lia.
      * etrans; [|exact K4]. by exists [item].
    + split; [done|]. split; [done|]. split; [|done].
      assert (buffer_len (t_buffer st) = 0%nat) as ->; [|lia].
      by destruct (t_buffer st) as [[|? ?]|[|? ?]].
Qed.

Lemma run_branch_ok {E} filter st r :
  kind_ok filter st -> ready_wf r ->
  exists st', run_branch (E:=E) filter st (select st r) = Ok st' /\ kind_ok filter st'
    /\ delivered_queue st' = delivered_queue st
         ++ mjoin (event_items filter <$> consumed [select st r]).
Proof.
  intros Hk Hwf.
  assert (delivered_queue st = delivered_queue st ++ []) as Hnil by by rewrite app_nil_r.
  unfold select. destruct (r_ajj_cancelled r); [by eexists|].
  destruct (_ || _); [by eexists|].
  destruct (if buffer_is_empty _ then _ else _) as [[n|]|]; simpl; [|by eexists|].
  - destruct (send_permits_ok filter n st Hk) as (K1 & K2 & _). eexists. by rewrite K2.
  - destruct (r_recv r) as [[ev|sk|]|] eqn:Hr; simpl; try by eexists.
    destruct (event_output_ok (E:=E) filter ev (Hwf ev Hr)) as (b & -> & Hb & Hi).
    destruct (extend_buffer_ok (E:=E) filter st b Hk Hb) as (st' & Hst & K1 & K2 & _).
    simpl. exists st'. by rewrite K2, Hi, app_nil_r.
Qed.

Lemma run_task_ok {E} filter st rs :
  kind_ok filter st -> Forall ready_wf rs ->
  exists st' brs, run_task (E:=E) filter st rs = Ok (st', brs)
    /\ delivered_queue st' = delivered_queue st ++ mjoin (event_items filter <$> consumed brs).
Proof.
  revert st. induction rs as [|r rs IH]; intros st Hk Hwf; simpl.
  { exists st, []. by rewrite app_nil_r. }
  inversion Hwf as [|? ? Hr Hrs]; subst.
  destruct (t_running st); [|exists st, []; by rewrite app_nil_r].
  destruct (run_branch_ok (E:=E) filter st r Hk Hr) as (st1 & -> & Hk1 & Hq1). simpl.
  destruct (IH st1 Hk1 Hrs) as (st2 & brs & -> & Hq2). simpl.
  eexists _, _. split; [done|]. rewrite Hq2, Hq1, <- app_assoc. f_equal.
  rewrite <- join_app, <- fmap_app. do 2 f_equal.
  unfold consumed. by rewrite <- omap_app.
Qed.

(** C20: A subscription never loses, reorders, duplicates or invents an event:
    after any sequence of polls the items sent to the client followed by the
    items still buffered are exactly the filter's outputs for the events the
    task received, in the order received, and the loop never panics. *)
Theorem subscription_fifo {E} filter rs :
  Forall ready_wf rs ->
  exists st brs, run_task (E:=E) filter (task_start filter) rs = Ok (st, brs)
    /\ t_sent st ++ buffer_items (t_buffer st)
       = mjoin (event_items filter <$> consumed brs).
Proof.
  intros Hwf. assert (kind_ok filter (task_start filter)) as Hk by by destruct filter.
  destruct (run_task_ok (E:=E) filter (task_start filter) rs Hk Hwf) as (st & brs & Hr & Hq).
  exists st, brs. split; [done|]. fold (delivered_queue st). rewrite Hq. by destruct filter.
Qed.

(** Cancellation wins over everything else that is ready: once the token is
    cancelled or the client is gone, the task sends nothing more, whatever
    permits and events are available, and the loop ends. *)
Theorem cancelled_task_is_silent {E} filter st r rs :
  t_running st = true ->
  r_ajj_cancelled r || r_token_cancelled r || t_token_cancelled st = true ->
  exists st' brs, run_task (E:=E) filter st (r :: rs) = Ok (st', brs)
    /\ t_sent st' = t_sent st /\ t_running st' = false
    /\ t_token_cancelled st' = r_ajj_cancelled r || t_token_cancelled st.
Proof.
  intros Hrun Hc. simpl. rewrite Hrun. unfold select.
  destruct (r_ajj_cancelled r); simpl in *; [|rewrite Hc; simpl];
    destruct rs; simpl; by eexists _, _.
Qed.

(** Granting the requested permits drains the buffer by exactly the number
    requested, which is at least one whenever the buffer is non-empty and the
    channel has capacity two or more. *)
Theorem permits_make_progress filter capacity st :
  kind_ok filter st -> (2 <= capacity)%nat -> (0 < buffer_len (t_buffer st))%nat ->
  let n := permit_request capacity st in
  (0 < n)%nat
  /\ buffer_len (t_buffer (send_permits n st)) = (buffer_len (t_buffer st) - n)%nat
  /\ length (t_sent (send_permits n st)) = (length (t_sent st) + n)%nat.
Proof.
  intros Hk Hc Hl n. assert (0 < n <= buffer_len (t_buffer st))%nat as Hn.
  { unfold n, permit_request. assert (1 <= capacity `div` 2)%nat; [|lia].
    apply Nat.div_le_lower_bound; lia. }
  destruct (send_permits_ok filter n st Hk) as (_ & Hq & Hb & _).
  split; [lia|]. split; [done|].
  apply (f_equal length) in Hq. unfold delivered_queue in Hq.
  rewrite !length_app, !buffer_len_items in Hq. lia.
Qed.
End task.
Arguments TaskState : clear implicits.
Arguments RecvResult : clear implicits.
Arguments Ready : clear implicits.
Arguments Branch : clear implicits.

(** ** The manager ([SubscriptionManagerInner])

    Cancellation tokens are shared between the table and the tasks: [tokens]
    is the set of tokens that have been cancelled. *)
Record SubscriptionManager := mkSubs {
  sm_next_id : Z;
  sm_tasks : gmap Z nat;
  sm_next_token : nat;
  sm_cancelled : gset nat }.

(** What [subscribe] spawns: id, filter and token ([SubscriptionTask]). *)
Record SubscriptionTask (F : Type) := mkSubTask {
  st_id : Z; st_filter : InterestKind F; st_token : nat }.
Arguments mkSubTask {F} _ _ _.
Arguments st_id {F} _.
Arguments st_filter {F} _.
Arguments st_token {F} _.

Definition SubscriptionManager_new : SubscriptionManager := mkSubs 1 ∅ 0 ∅.

(** [next_id]: [fetch_add(1)], which wraps. *)
Definition sub_next_id (m : SubscriptionManager) : Z * SubscriptionManager :=
  (sm_next_id m, mkSubs (add64 (sm_next_id m) 1) (sm_tasks m) (sm_next_token m) (sm_cancelled m)).

Definition unsubscribe (id : Z) (m : SubscriptionManager) : bool * SubscriptionManager :=
  match sm_tasks m !! id with
  | Some task =>
      (true, mkSubs (sm_next_id m) (delete id (sm_tasks m)) (sm_next_token m)
               ({[task]} ∪ sm_cancelled m))
  | None => (false, m)
  end.

Definition subscribe {F} (notifications_enabled : bool) (filter : InterestKind F)
    (m : SubscriptionManager) : option (Z * SubscriptionTask F) * SubscriptionManager :=
  if negb notifications_enabled then (None, m)
  else
    let '(id, m) := sub_next_id m in
    let token := sm_next_token m in
    (Some (id, mkSubTask id filter token),
     mkSubs (sm_next_id m) (<[id:=token]> (sm_tasks m)) (S token) (sm_cancelled m)).

(** [SubCleanerTask]: [retain(|_, task| !task.is_cancelled())]. *)
Definition clean_cancelled (m : SubscriptionManager) : SubscriptionManager :=
  mkSubs (sm_next_id m) (filter (fun '(_, t) => t ∉ sm_cancelled m) (sm_tasks m))
    (sm_next_token m) (sm_cancelled m).

(** A task cancels its own token when the client disconnects. *)
Definition task_cancelled (t : nat) (m : SubscriptionManager) : SubscriptionManager :=
  mkSubs (sm_next_id m) (sm_tasks m) (sm_next_token m) ({[t]} ∪ sm_cancelled m).

(** Ids below the counter are the ones handed out; distinct ids have distinct
    tokens. *)
Definition subs_inv (m : SubscriptionManager) : Prop :=
  (forall id t, sm_tasks m !! id = Some t -> id < sm_next_id m /\ (t < sm_next_token m)%nat)
  /\ (forall i j t, sm_tasks m !! i = Some t -> sm_tasks m !! j = Some t -> i = j)
  /\ 1 <= sm_next_id m.

(** One atomic step of the manager. *)
Inductive subs_step {F} : SubscriptionManager -> SubscriptionManager -> Prop :=
| ss_subscribe b (k : InterestKind F) m :
    sm_next_id m < max64 -> subs_step m (subscribe b k m).2
| ss_unsubscribe id m : subs_step m (unsubscribe id m).2
| ss_clean m : subs_step m (clean_cancelled m)
| ss_disconnect t m : subs_step m (task_cancelled t m).

Lemma subs_step_inv {F} m m' : subs_step (F:=F) m m' -> subs_inv m -> subs_inv m'.
Proof.
  intros Hs (H1 & H2 & H3). destruct Hs as [b k m Hmax|id m|m|t m].
  - unfold subscribe. destruct b; simpl; [|done].
    unfold subs_inv. simpl. rewrite add64_exact by width. split; [|split; [|lia]].
    + intros id t. rewrite lookup_insert_Some. intros [[<- <-]|[Hne Ht]]; [lia|].
      apply H1 in Ht. lia.
    + intros i j t. rewrite !lookup_insert_Some.
      intros [[<- <-]|[Hi Ht]] [[Hj Hu]|[Hj Hu]]; try done; [|apply H1 in Ht; lia|by eapply H2].
      apply H1 in Hu. lia.
  - unfold unsubscribe. destruct (sm_tasks m !! id) eqn:E; simpl; [|done].
    unfold subs_inv. simpl. split; [|split; [|lia]].
    + intros i t. rewrite lookup_delete_Some. intros [_ Ht]. by apply H1.
    + intros i j t. rewrite !lookup_delete_Some. intros [_ Hi] [_ Hj]. by eapply H2.
  - unfold subs_inv, clean_cancelled. simpl. split; [|split; [|lia]].
    + intros i t. rewrite map_lookup_filter_Some. intros [Ht _]. by apply H1.
    + intros i j t. rewrite !map_lookup_filter_Some. intros [Hi _] [Hj _]. by eapply H2.
  - done.
Qed.

Lemma subs_reachable_inv {F} m :
  rtc (subs_step (F:=F)) SubscriptionManager_new m -> subs_inv m.
Proof.
  assert (forall a b, rtc (subs_step (F:=F)) a b -> subs_inv a -> subs_inv b) as H.
  { intros a b Hab. induction Hab; eauto using subs_step_inv. }
  intros Hm. apply (H _ _ Hm). split; [|split; [|simpl; lia]]; simpl; intros; simplify_map_eq.
Qed.

(** C21: In every reachable state a new subscription gets an id that no running
    subscription has, so [tasks.insert] never replaces one, and unsubscribing
    that id cancels exactly its token, leaves every other subscription in
    place, and succeeds once. *)
Theorem subscribe_then_unsubscribe {F} m (k : InterestKind F) :
  rtc (subs_step (F:=F)) SubscriptionManager_new m -> sm_next_id m < max64 ->
  exists id task m1 m2,
    subscribe true k m = (Some (id, task), m1)
    /\ sm_tasks m !! id = None /\ st_id task = id /\ st_filter task = k
    /\ unsubscribe id m1 = (true, m2)
    /\ sm_tasks m2 = sm_tasks m /\ sm_cancelled m2 = {[st_token task]} ∪ sm_cancelled m
    /\ unsubscribe id m2 = (false, m2).
Proof.
  intros Hm Hmax. destruct (subs_reachable_inv m Hm) as (H1 & H2 & H3).
  assert (sm_tasks m !! sm_next_id m = None) as Hn.
  { destruct (sm_tasks m !! sm_next_id m) eqn:E; [|done]. apply H1 in E. lia. }
  unfold subscribe. simpl. eexists _, _, _, _. split; [done|]. do 3 (split; [done|]).
  unfold unsubscribe. simpl. rewrite lookup_insert_eq. split; [done|]. simpl.
  rewrite delete_insert_id by done. rewrite Hn. done.
Qed.

(** The cleaner removes the cancelled subscriptions and no other. *)
Theorem clean_cancelled_exact m id t :
  sm_tasks (clean_cancelled m) !! id = Some t <->
  sm_tasks m !! id = Some t /\ t ∉ sm_cancelled m.
Proof. unfold clean_cancelled. simpl. apply map_lookup_filter_Some. Qed.
