(* ===== verification/Filters.v ===== *)
(** * Polling filters ([crates/rpc/src/interest/filters.rs])

    [ActiveFilter] and its poll cursor, the lazy computation of removed logs
    from the reorg ring buffer, and the [FilterManagerInner] table.  Instants
    are [Z]; operations that read the clock take [now]. *)

From S2P Require Import Prelude Primitives Interest.

Record ActiveFilter (F : Type) := mkActiveFilter {
  af_next_start_block : Z;
  af_last_poll_time : Z;
  af_kind : InterestKind F }.
Arguments mkActiveFilter {F} _ _ _.
Arguments af_next_start_block {F} _.
Arguments af_last_poll_time {F} _.
Arguments af_kind {F} _.

Section active.
Context {F L : Type} `{LogFilter F L}.
Implicit Types (a : ActiveFilter F) (reorg : ReorgNotification L).

(** [mark_polled]: [current_block + 1] in [u64]. *)
Definition mark_polled (current_block now : Z) a : ActiveFilter F :=
  mkActiveFilter (add64 current_block 1) now (af_kind a).

Definition touch_poll_time (now : Z) a : ActiveFilter F :=
  mkActiveFilter (af_next_start_block a) now (af_kind a).

Definition time_since_last_poll (now : Z) a : Z := now - af_last_poll_time a.

(** [self.next_start_block.min(reorg.common_ancestor + 1)]. *)
Definition rewind_start (reorg : ReorgNotification L) (next : Z) : Z :=
  Z.min next (add64 (common_ancestor reorg) 1).

(** The two inner loops of [compute_removed_logs] for one reorg:
    skip undelivered blocks, keep the matching logs, mark them removed. *)
Definition removed_by (filter : F) (snapshot : Z) (reorg : ReorgNotification L) : list (Log L) :=
  mjoin ((fun block =>
    if snapshot <=? rb_number block then []
    else mark_removed <$>
           base.filter (fun log => matches filter (l_inner log) = true) (rb_logs block))
    <$> removed_blocks reorg).

Fixpoint removed_loop (filter : F) (next : Z) (reorgs : list (ReorgNotification L))
    (removed : list (Log L)) : list (Log L) * Z :=
  match reorgs with
  | [] => (removed, next)
  | notification :: reorgs =>
      let snapshot := next in
      let next := rewind_start notification next in
      removed_loop filter next reorgs (removed ++ removed_by filter snapshot notification)
  end.

Definition compute_removed_logs (reorgs : list (ReorgNotification L)) a :
    list (Log L) * ActiveFilter F :=
  match as_filter (af_kind a) with
  | None =>
      let next := fold_left (fun next reorg => rewind_start reorg next) reorgs
                    (af_next_start_block a) in
      ([], mkActiveFilter next (af_last_poll_time a) (af_kind a))
  | Some filter =>
      let '(removed, next) := removed_loop filter (af_next_start_block a) reorgs [] in
      (removed, mkActiveFilter next (af_last_poll_time a) (af_kind a))
  end.

(** ** Specification of the removal scan *)

Definition reorg_wf reorg : Prop :=
  0 <= common_ancestor reorg < max64
  /\ NoDup (rb_number <$> removed_blocks reorg)
  /\ Forall (fun b => common_ancestor reorg < rb_number b) (removed_blocks reorg).

(** A removed block the filter had delivered when the reorg at index [i]
    struck: below the original cursor and not above any earlier ancestor. *)
Definition delivered_at (next0 : Z) (reorgs : list (ReorgNotification L)) (i : nat)
    (b : RemovedBlock L) : Prop :=
  rb_number b < next0
  /\ forall j r, (j < i)%nat -> reorgs !! j = Some r -> rb_number b <= common_ancestor r.

Lemma rewind_start_eq reorg next :
  reorg_wf reorg -> rewind_start reorg next = Z.min next (common_ancestor reorg + 1).
Proof. intros [Hc _]. unfold rewind_start. rewrite add64_exact; [done|]. width. Qed.

Lemma elem_of_removed_by filter snapshot reorg l :
  l ∈ removed_by filter snapshot reorg <->
  exists b lg, b ∈ removed_blocks reorg /\ rb_number b < snapshot /\ lg ∈ rb_logs b
    /\ matches filter (l_inner lg) = true /\ l = mark_removed lg.
Proof.
  unfold removed_by. rewrite list_elem_of_join. split.
  - intros (ls & Hl & Hls). apply list_elem_of_fmap in Hls as (b & -> & Hb).
    destruct (Z.leb_spec snapshot (rb_number b)); [by apply not_elem_of_nil in Hl|].
    apply list_elem_of_fmap in Hl as (lg & -> & Hl).
    apply list_elem_of_filter in Hl as [? ?]. by exists b, lg.
  - intros (b & lg & Hb & Hn & Hlg & Hm & ->).
    exists (if snapshot <=? rb_number b then []
            else mark_removed <$> base.filter (fun log => matches filter (l_inner log) = true) (rb_logs b)).
    split; [|by apply list_elem_of_fmap; exists b].
    destruct (Z.leb_spec snapshot (rb_number b)); [lia|].
    apply list_elem_of_fmap. exists lg. split; [done|]. by apply list_elem_of_filter.
Qed.

Lemma removed_loop_app filter next reorgs acc :
  removed_loop filter next reorgs acc =
  (acc ++ (removed_loop filter next reorgs []).1, (removed_loop filter next reorgs []).2).
Proof.
  revert next acc. induction reorgs as [|r reorgs IH]; intros next acc; simpl.
  - by rewrite app_nil_r.
  - rewrite IH, (IH _ (removed_by filter next r)). simpl. by rewrite app_assoc.
Qed.

Lemma removed_loop_next filter next reorgs acc :
  Forall reorg_wf reorgs ->
  (removed_loop filter next reorgs acc).2
  = foldr Z.min next ((fun r => common_ancestor r + 1) <$> reorgs).
Proof.
  intros Hwf. revert next acc. induction Hwf as [|r reorgs Hr _ IH]; intros next acc; [done|].
  csimpl. rewrite IH, rewind_start_eq by done. apply foldr_min_start.
Qed.

Lemma delivered_at_cons next r reorgs i b :
  reorg_wf r ->
  delivered_at next (r :: reorgs) (S i) b <-> delivered_at (rewind_start r next) reorgs i b.
Proof.
  intros Hr. unfold delivered_at. rewrite rewind_start_eq by done. split.
  - intros [H1 H2]. pose proof (H2 0%nat r ltac:(lia) eq_refl).
    split; [lia|]. intros j r' Hj Hr'. by apply (H2 (S j)); [lia|].
  - intros [H1 H2]. split; [lia|]. intros [|j] r' Hj Hr'; simplify_eq/=; [lia|].
    apply (H2 j); [lia|done].
Qed.

Lemma elem_of_removed_loop filter next reorgs l :
  Forall reorg_wf reorgs ->
  l ∈ (removed_loop filter next reorgs []).1 <->
  exists i r b lg, reorgs !! i = Some r /\ b ∈ removed_blocks r
    /\ delivered_at next reorgs i b /\ lg ∈ rb_logs b
    /\ matches filter (l_inner lg) = true /\ l = mark_removed lg.
Proof.
  intros Hwf. revert next. induction Hwf as [|r reorgs Hr _ IH]; intros next; simpl.
  - split; [by intros ?%not_elem_of_nil|]. naive_solver.
  - rewrite removed_loop_app. simpl. rewrite elem_of_app, IH, elem_of_removed_by. split.
    + intros [(b & lg & Hb & Hn & Hl & Hm & ->)|(i & r' & b & lg & Hi & Hb & Hd & Hl)].
      * exists 0%nat, r, b, lg. do 2 (split; [done|]). split; [|done].
        split; [done|]. intros j r' Hj. lia.
      * exists (S i), r', b, lg. do 2 (split; [done|]).
        split; [by apply delivered_at_cons|done].
    + intros ([|i] & r' & b & lg & Hi & Hb & Hd & Hl); simplify_eq/=.
      * left. exists b, lg. destruct Hd. done.
      * right. exists i, r', b, lg. do 2 (split; [done|]).
        split; [by apply delivered_at_cons in Hd|done].
Qed.

(** C19: [compute_removed_logs] reports exactly the logs the client must undo:
    a log is returned iff it is the removed-flagged clone of a matching log
    of a removed block that this filter had already delivered and that no
    earlier reorg of the scan had already taken back; the cursor ends at the
    lowest ancestor plus one, if that is below it. *)
Theorem compute_removed_logs_spec reorgs a filter :
  af_kind a = KLog filter -> Forall reorg_wf reorgs ->
  (forall l, l ∈ (compute_removed_logs reorgs a).1 <->
    exists i r b lg, reorgs !! i = Some r /\ b ∈ removed_blocks r
      /\ delivered_at (af_next_start_block a) reorgs i b /\ lg ∈ rb_logs b
      /\ matches filter (l_inner lg) = true /\ l = mark_removed lg)
  /\ af_next_start_block (compute_removed_logs reorgs a).2
     = foldr Z.min (af_next_start_block a) ((fun r => common_ancestor r + 1) <$> reorgs)
  /\ af_last_poll_time (compute_removed_logs reorgs a).2 = af_last_poll_time a.
Proof.
  intros Hk Hwf. unfold compute_removed_logs. rewrite Hk. simpl.
  pose proof (removed_loop_next filter (af_next_start_block a) reorgs [] Hwf) as Hn.
  destruct (removed_loop _ _ _ _) as [removed next] eqn:E. simpl in *.
  split; [|done]. intros l. rewrite <- elem_of_removed_loop by done. by rewrite E.
Qed.

(** Cascading reorgs never make one poll take back the same height twice:
    the delivered removed blocks of all the reorgs scanned have pairwise
    distinct numbers. *)
Theorem removed_heights_once next0 reorgs i j ri rj bi bj :
  Forall reorg_wf reorgs ->
  reorgs !! i = Some ri -> reorgs !! j = Some rj ->
  bi ∈ removed_blocks ri -> bj ∈ removed_blocks rj ->
  delivered_at next0 reorgs i bi -> delivered_at next0 reorgs j bj ->
  rb_number bi = rb_number bj -> i = j /\ bi = bj.
Proof.
  intros Hwf Hi Hj Hbi Hbj [_ Di] [_ Dj] Heq. rewrite Forall_forall in Hwf.
  destruct (Hwf ri (list_elem_of_lookup_2 _ _ _ Hi)) as (_ & Ni & Ai).
  destruct (Hwf rj (list_elem_of_lookup_2 _ _ _ Hj)) as (_ & Nj & Aj).
  rewrite Forall_forall in Ai, Aj. specialize (Ai _ Hbi). specialize (Aj _ Hbj).
  destruct (lt_eq_lt_dec i j) as [[Hlt|Heq']|Hlt].
  - specialize (Dj _ _ Hlt Hi). lia.
  - simplify_eq. split; [done|].
    apply list_elem_of_lookup in Hbi as [p Hp], Hbj as [q Hq].
    assert (p = q) as ->; [|congruence].
    eapply NoDup_lookup; [exact Ni| |]; rewrite list_lookup_fmap;
      [by rewrite Hp|rewrite Hq; simpl; by f_equal].
  - specialize (Di _ _ Hlt Hj). lia.
Qed.
End active.

(** ** The filter table ([FilterManagerInner]) *)
Record FilterManager (F : Type) := mkFilterManager {
  fm_current_id : Z;
  fm_filters : gmap Z (ActiveFilter F) }.
Arguments mkFilterManager {F} _ _.
Arguments fm_current_id {F} _.
Arguments fm_filters {F} _.

Section manager.
Context {F : Type}.
Implicit Types (m : FilterManager F).

Definition FilterManager_new : FilterManager F := mkFilterManager 1 ∅.

(** [fetch_add(1)]. *)
Definition fm_next_id m : Z * FilterManager F :=
  (fm_current_id m, mkFilterManager (add64 (fm_current_id m) 1) (fm_filters m)).

Definition install (current_block now : Z) (kind : InterestKind F) m : Z * FilterManager F :=
  let '(id, m) := fm_next_id m in
  (id, mkFilterManager (fm_current_id m)
         (<[id := mkActiveFilter (add64 current_block 1) now kind]> (fm_filters m))).

Definition install_log_filter (current_block now : Z) (filter : F) m :=
  install current_block now (KLog filter) m.
Definition install_block_filter (current_block now : Z) m :=
  install current_block now KBlock m.

Definition uninstall (id : Z) m : option (Z * ActiveFilter F) * FilterManager F :=
  (match fm_filters m !! id with Some a => Some (id, a) | None => None end,
   mkFilterManager (fm_current_id m) (delete id (fm_filters m))).

(** [get_mut] followed by a mutation of the entry. *)
Definition update_filter (id : Z) (f : ActiveFilter F -> ActiveFilter F) m : FilterManager F :=
  mkFilterManager (fm_current_id m) (alter f id (fm_filters m)).

(** [retain(|_, filter| filter.time_since_last_poll() < older_than)]. *)
Definition clean_stale (now older_than : Z) m : FilterManager F :=
  mkFilterManager (fm_current_id m)
    (base.filter (fun '(_, a) => time_since_last_poll now a < older_than) (fm_filters m)).

(** Every id in the table was handed out. *)
Definition fm_inv m : Prop :=
  1 <= fm_current_id m /\ forall id, is_Some (fm_filters m !! id) -> id < fm_current_id m.

Inductive fm_step : FilterManager F -> FilterManager F -> Prop :=
| fs_install b now k m : fm_current_id m < max64 -> fm_step m (install b now k m).2
| fs_uninstall id m : fm_step m (uninstall id m).2
| fs_update id f m : fm_step m (update_filter id f m)
| fs_clean now ttl m : fm_step m (clean_stale now ttl m).

Lemma fm_step_inv m m' : fm_step m m' -> fm_inv m -> fm_inv m'.
Proof.
  intros Hs [H1 H2]. unfold fm_inv. destruct Hs as [b now k m Hm|id m|id f m|now ttl m]; simpl.
  - rewrite add64_exact by width. split; [lia|]. intros id.
    rewrite lookup_insert_is_Some'. intros [<-|Hi]; [lia|]. apply H2 in Hi. lia.
  - split; [done|]. intros i [x Hx]. apply lookup_delete_Some in Hx as [_ Hx]. eauto.
  - split; [done|]. intros i. rewrite lookup_alter_is_Some. apply H2.
  - split; [done|]. intros i [x Hx]. apply map_lookup_filter_Some in Hx as [Hx _]. eauto.
Qed.

Lemma fm_reachable_inv m : rtc fm_step FilterManager_new m -> fm_inv m.
Proof.
  assert (forall a b, rtc fm_step a b -> fm_inv a -> fm_inv b) as H.
  { intros a b Hab. induction Hab; eauto using fm_step_inv. }
  intros Hm. apply (H _ _ Hm). split; [simpl; lia|]. simpl. intros id [x Hx]. simplify_map_eq.
Qed.

(** In every reachable state a newly installed filter gets an id no live
    filter has; it starts scanning at the block after the current one, every
    other filter is untouched, and uninstalling it restores the table. *)
Theorem install_fresh m (current_block now : Z) kind :
  rtc fm_step FilterManager_new m -> fm_current_id m < max64 -> 0 <= current_block < max64 ->
  let '(id, m') := install current_block now kind m in
  fm_filters m !! id = None
  /\ fm_filters m' !! id = Some (mkActiveFilter (current_block + 1) now kind)
  /\ (forall j, j <> id -> fm_filters m' !! j = fm_filters m !! j)
  /\ fm_filters (uninstall id m').2 = fm_filters m
  /\ (uninstall id (uninstall id m').2).1 = None.
Proof.
  intros Hm Hid Hb. destruct (fm_reachable_inv m Hm) as [_ H2]. simpl.
  rewrite (add64_exact current_block) by width.
  assert (fm_filters m !! fm_current_id m = None) as Hn.
  { destruct (fm_filters m !! fm_current_id m) eqn:E; [|done].
    assert (fm_current_id m < fm_current_id m); [|lia]. apply H2. by rewrite E. }
  split; [done|]. split; [by rewrite lookup_insert_eq|].
  split; [intros j Hj; by rewrite lookup_insert_ne|].
  rewrite delete_insert_id by done. by rewrite Hn.
Qed.

(** The cleaner removes a filter iff it has not been polled for at least
    the configured time, and leaves the others as they were. *)
Theorem clean_stale_exact m now ttl id a :
  fm_filters (clean_stale now ttl m) !! id = Some a <->
  fm_filters m !! id = Some a /\ now - af_last_poll_time a < ttl.
Proof. unfold clean_stale. simpl. apply map_lookup_filter_Some. Qed.
End manager.
