(* ===== verification/Float64.v ===== *)
(** * IEEE-754 binary64 as the code uses it

    [f64] arithmetic of the gas oracle and the fee history, computed with the
    Standard Library's [SpecFloat] (exact rounding, no axioms), and the Rust
    [as] casts between [f64] and the integer types. *)

From Stdlib Require Import SpecFloat.
From S2P Require Import Prelude.

Definition f64 : Type := spec_float.
Definition prec : Z := 53.
Definition emax : Z := 1024.

(** [n as f64] for an unsigned integer: rounds to nearest even. *)
Definition f64_of_int (n : Z) : f64 := binary_normalize prec emax n 0 false.

Definition f64_mul (a b : f64) : f64 := SFmul prec emax a b.
Definition f64_div (a b : f64) : f64 := SFdiv prec emax a b.
Definition f64_gt (a b : f64) : bool := SFltb b a.

(** [x as u64] / [x as usize]: truncates, saturates, and maps NaN to 0. *)
Definition f64_to_u64 (x : f64) : Z :=
  match x with
  | S754_zero _ | S754_nan => 0
  | S754_infinity s => if s then 0 else max64
  | S754_finite s m e =>
      if s then 0
      else Z.min max64 (if 0 <=? e then Z.shiftl (Zpos m) e else Z.shiftr (Zpos m) (- e))
  end.

Lemma f64_to_u64_ok x : u64_ok (f64_to_u64 x).
Proof.
  unfold f64_to_u64, u64_ok, max64, modulus64. destruct x as [s|s| |s m e]; try lia.
  - destruct s; lia.
  - destruct s; [lia|]. split; [|lia].
    apply Z.min_glb; [lia|]. destruct (0 <=? e); [apply Z.shiftl_nonneg|apply Z.shiftr_nonneg]; lia.
Qed.
#[export] Hint Resolve f64_to_u64_ok : signet.

Example f64_int : f64_to_u64 (f64_of_int 12345) = 12345.
Proof. reflexivity. Qed.
Example f64_pct : f64_to_u64 (f64_mul (f64_div (f64_of_int 60) (f64_of_int 100)) (f64_of_int 9)) = 5.
Proof. reflexivity. Qed.
