(* ===== verification/RpcConfig.v ===== *)
(** * RPC configuration ([crates/rpc/src/config/rpc_config.rs])

    [StorageRpcConfig], its defaults, its builder, and the conversion from
    the environment.  A [Duration] is a number of seconds. *)

From S2P Require Import Prelude Float64.

Record StorageRpcConfig := mkRpcConfig {
  rpc_gas_cap : Z;
  max_blocks_per_filter : Z;
  max_logs_per_response : Z;
  max_log_query_deadline : Z;
  max_tracing_requests : Z;
  max_trace_filter_blocks : Z;
  stale_filter_ttl : Z;
  gas_oracle_block_count : Z;
  gas_oracle_percentile : f64;
  default_gas_price : option Z;
  ignore_price : option Z;
  max_price : option Z;
  max_header_history : Z;
  max_block_history : Z;
  default_bundle_timeout_ms : Z }.

Definition StorageRpcConfig_default : StorageRpcConfig := {|
  rpc_gas_cap := 30000000;
  max_blocks_per_filter := 10000;
  max_logs_per_response := 20000;
  max_log_query_deadline := 10;
  max_tracing_requests := 25;
  max_trace_filter_blocks := 100;
  stale_filter_ttl := 5 * 60;
  gas_oracle_block_count := 20;
  gas_oracle_percentile := f64_of_int 60;
  default_gas_price := Some 1000000000;
  ignore_price := Some 2;
  max_price := Some 500000000000;
  max_header_history := 1024;
  max_block_history := 1024;
  default_bundle_timeout_ms := 1000 |}.

(** [StorageRpcConfigBuilder]: each setter replaces one field of [inner]. *)
Inductive setter :=
| SetRpcGasCap (v : Z) | SetMaxBlocksPerFilter (v : Z) | SetMaxLogsPerResponse (v : Z)
| SetMaxLogQueryDeadline (v : Z) | SetMaxTracingRequests (v : Z) | SetMaxTraceFilterBlocks (v : Z)
| SetStaleFilterTtl (v : Z) | SetGasOracleBlockCount (v : Z) | SetGasOraclePercentile (v : f64)
| SetMaxHeaderHistory (v : Z) | SetMaxBlockHistory (v : Z) | SetDefaultGasPrice (v : option Z)
| SetIgnorePrice (v : option Z) | SetMaxPrice (v : option Z) | SetDefaultBundleTimeoutMs (v : Z).

Definition apply_setter (s : setter) (c : StorageRpcConfig) : StorageRpcConfig :=
  let 'mkRpcConfig a b d e f g h i j k l m n o p := c in
  match s with
  | SetRpcGasCap v => mkRpcConfig v b d e f g h i j k l m n o p
  | SetMaxBlocksPerFilter v => mkRpcConfig a v d e f g h i j k l m n o p
  | SetMaxLogsPerResponse v => mkRpcConfig a b v e f g h i j k l m n o p
  | SetMaxLogQueryDeadline v => mkRpcConfig a b d v f g h i j k l m n o p
  | SetMaxTracingRequests v => mkRpcConfig a b d e v g h i j k l m n o p
  | SetMaxTraceFilterBlocks v => mkRpcConfig a b d e f v h i j k l m n o p
  | SetStaleFilterTtl v => mkRpcConfig a b d e f g v i j k l m n o p
  | SetGasOracleBlockCount v => mkRpcConfig a b d e f g h v j k l m n o p
  | SetGasOraclePercentile v => mkRpcConfig a b d e f g h i v k l m n o p
  | SetDefaultGasPrice v => mkRpcConfig a b d e f g h i j v l m n o p
  | SetIgnorePrice v => mkRpcConfig a b d e f g h i j k v m n o p
  | SetMaxPrice v => mkRpcConfig a b d e f g h i j k l v n o p
  | SetMaxHeaderHistory v => mkRpcConfig a b d e f g h i j k l m v o p
  | SetMaxBlockHistory v => mkRpcConfig a b d e f g h i j k l m n v p
  | SetDefaultBundleTimeoutMs v => mkRpcConfig a b d e f g h i j k l m n o v
  end.

(** A builder chain, [build()] included. *)
Definition build_config (ss : list setter) : StorageRpcConfig :=
  fold_left (fun c s => apply_setter s c) ss StorageRpcConfig_default.

(** [StorageRpcConfigEnv]: every variable is optional. *)
Record StorageRpcConfigEnv := mkRpcConfigEnv {
  env_rpc_gas_cap : option Z;
  env_max_blocks_per_filter : option Z;
  env_max_logs_per_response : option Z;
  env_max_log_query_deadline_secs : option Z;
  env_max_tracing_requests : option Z;
  env_max_trace_filter_blocks : option Z;
  env_stale_filter_ttl_secs : option Z;
  env_gas_oracle_block_count : option Z;
  env_gas_oracle_percentile : option Z;
  env_default_gas_price : option Z;
  env_ignore_price : option Z;
  env_max_price : option Z;
  env_max_header_history : option Z;
  env_max_block_history : option Z;
  env_default_bundle_timeout_ms : option Z }.

(** [nonzero]: [0] disables. *)
Definition nonzero (v : Z) : option Z := if v =? 0 then None else Some v.

(** [From<StorageRpcConfigEnv> for StorageRpcConfig]. *)
Definition config_from_env (env : StorageRpcConfigEnv) : StorageRpcConfig :=
  let defaults := StorageRpcConfig_default in {|
  rpc_gas_cap := default (rpc_gas_cap defaults) (env_rpc_gas_cap env);
  max_blocks_per_filter := default (max_blocks_per_filter defaults) (env_max_blocks_per_filter env);
  max_logs_per_response := default (max_logs_per_response defaults) (env_max_logs_per_response env);
  max_log_query_deadline :=
    default (max_log_query_deadline defaults) (env_max_log_query_deadline_secs env);
  max_tracing_requests := default (max_tracing_requests defaults) (env_max_tracing_requests env);
  max_trace_filter_blocks :=
    default (max_trace_filter_blocks defaults) (env_max_trace_filter_blocks env);
  stale_filter_ttl := default (stale_filter_ttl defaults) (env_stale_filter_ttl_secs env);
  gas_oracle_block_count :=
    default (gas_oracle_block_count defaults) (env_gas_oracle_block_count env);
  gas_oracle_percentile :=
    from_option f64_of_int (gas_oracle_percentile defaults) (env_gas_oracle_percentile env);
  default_gas_price := from_option nonzero (default_gas_price defaults) (env_default_gas_price env);
  ignore_price := from_option nonzero (ignore_price defaults) (env_ignore_price env);
  max_price := from_option nonzero (max_price defaults) (env_max_price env);
  max_header_history := default (max_header_history defaults) (env_max_header_history env);
  max_block_history := default (max_block_history defaults) (env_max_block_history env);
  default_bundle_timeout_ms :=
    default (default_bundle_timeout_ms defaults) (env_default_bundle_timeout_ms env) |}.

(** The environment that sets nothing. *)
Definition env_unset : StorageRpcConfigEnv :=
  mkRpcConfigEnv None None None None None None None None None None None None None None None.

(** Two setters address the same field. *)
Definition same_field (s t : setter) : bool :=
  match s, t with
  | SetRpcGasCap _, SetRpcGasCap _ | SetMaxBlocksPerFilter _, SetMaxBlocksPerFilter _
  | SetMaxLogsPerResponse _, SetMaxLogsPerResponse _
  | SetMaxLogQueryDeadline _, SetMaxLogQueryDeadline _
  | SetMaxTracingRequests _, SetMaxTracingRequests _
  | SetMaxTraceFilterBlocks _, SetMaxTraceFilterBlocks _
  | SetStaleFilterTtl _, SetStaleFilterTtl _ | SetGasOracleBlockCount _, SetGasOracleBlockCount _
  | SetGasOraclePercentile _, SetGasOraclePercentile _ | SetMaxHeaderHistory _, SetMaxHeaderHistory _
  | SetMaxBlockHistory _, SetMaxBlockHistory _ | SetDefaultGasPrice _, SetDefaultGasPrice _
  | SetIgnorePrice _, SetIgnorePrice _ | SetMaxPrice _, SetMaxPrice _
  | SetDefaultBundleTimeoutMs _, SetDefaultBundleTimeoutMs _ => true
  | _, _ => false
  end.

Lemma apply_setter_same s t c :
  same_field s t = true -> apply_setter t (apply_setter s c) = apply_setter t c.
Proof. destruct c, s, t; simpl; discriminate || reflexivity. Qed.

Lemma apply_setter_comm s t c :
  same_field s t = false -> apply_setter t (apply_setter s c) = apply_setter s (apply_setter t c).
Proof. destruct c, s, t; simpl; discriminate || reflexivity. Qed.

(** In a builder chain the setters of different fields are independent and
    the last one for a field wins: moving a setter to the end of the chain does
    not change the configuration unless a later setter overrides its field. *)
Theorem builder_setters_independent s ss :
  (if existsb (same_field s) ss then build_config (s :: ss) = build_config ss
   else build_config (s :: ss) = build_config (ss ++ [s])).
Proof.
  unfold build_config. rewrite fold_left_app. cbn [fold_left].
  generalize StorageRpcConfig_default as c. revert s.
  induction ss as [|t ss IH]; intros s c; cbn [existsb fold_left]; [done|].
  destruct (same_field s t) eqn:E; cbn [orb].
  - by rewrite apply_setter_same.
  - rewrite apply_setter_comm by done. apply IH.
Qed.

(** An empty environment gives the documented defaults, and [0] disables
    each of the three optional gas prices (and only [0] does). *)
Theorem config_from_env_prices env v :
  config_from_env env_unset = StorageRpcConfig_default
  /\ (env_max_price env = Some v -> max_price (config_from_env env) = if v =? 0 then None else Some v)
  /\ (env_ignore_price env = Some v ->
      ignore_price (config_from_env env) = if v =? 0 then None else Some v)
  /\ (env_default_gas_price env = Some v ->
      default_gas_price (config_from_env env) = if v =? 0 then None else Some v)
  /\ (env_max_price env = None -> max_price (config_from_env env) = Some 500000000000).
Proof.
  split; [reflexivity|]. unfold config_from_env. simpl.
  do 3 (split; [intros ->; done|]). intros ->. done.
Qed.
