(* ===== verification/Errors.v ===== *)
(** * RPC error types ([eth/error.rs], [debug/error.rs], [trace/error.rs],
      [signet/error.rs], [config/resolve.rs])

    The error enums of the four namespaces with their JSON-RPC codes, messages
    and data, and the conversions between them.  [CE] and [SE] are the error
    types of the cold and hot storage crates; [HE] boxed database errors. *)

From S2P Require Import Prelude Primitives.
#[local] Open Scope string_scope.

(** The [Display] of hashes, block ids, numbers and storage errors. *)
Class Display (CE SE HE : Type) := {
  show_hash : B256 -> string;
  show_id : BlockId -> string;
  show_u64 : Z -> string;
  show_cold : CE -> string;
  show_hot : SE -> string;
  show_db : HE -> string }.

Inductive ResolveError (SE HE : Type) :=
| ResolveStorage (e : SE)
| ResolveDb (e : HE)
| HashNotFound (h : B256).
Arguments ResolveStorage {SE HE} e.
Arguments ResolveDb {SE HE} e.
Arguments HashNotFound {SE HE} h.

Inductive EthError (CE SE HE : Type) :=
| EthCold (e : CE)
| EthHot (e : SE)
| EthResolve (e : ResolveError SE HE)
| EthBlockNotFound (id : BlockId)
| EthTransactionMissing (h : B256)
| EthEvmRevert (output : list Z)
| EthEvmHalt (reason : string)
| EthInvalidParams (msg : string)
| EthInternal (msg : string).
Arguments EthCold {CE SE HE} e.
Arguments EthHot {CE SE HE} e.
Arguments EthResolve {CE SE HE} e.
Arguments EthBlockNotFound {CE SE HE} id.
Arguments EthTransactionMissing {CE SE HE} h.
Arguments EthEvmRevert {CE SE HE} output.
Arguments EthEvmHalt {CE SE HE} reason.
Arguments EthInvalidParams {CE SE HE} msg.
Arguments EthInternal {CE SE HE} msg.

Inductive DebugError (CE SE HE : Type) :=
| DebugCold (e : CE)
| DebugHot (e : SE)
| DebugResolve (e : ResolveError SE HE)
| DebugInvalidTracerConfig
| DebugUnsupported (what : string)
| DebugEvmHalt (reason : string)
| DebugBlockNotFound (id : BlockId)
| DebugTransactionNotFound (h : B256)
| DebugInternal (msg : string)
| DebugRlpDecode (msg : string)
| DebugSenderRecovery.
Arguments DebugCold {CE SE HE} e.
Arguments DebugHot {CE SE HE} e.
Arguments DebugResolve {CE SE HE} e.
Arguments DebugInvalidTracerConfig {CE SE HE}.
Arguments DebugUnsupported {CE SE HE} what.
Arguments DebugEvmHalt {CE SE HE} reason.
Arguments DebugBlockNotFound {CE SE HE} id.
Arguments DebugTransactionNotFound {CE SE HE} h.
Arguments DebugInternal {CE SE HE} msg.
Arguments DebugRlpDecode {CE SE HE} msg.
Arguments DebugSenderRecovery {CE SE HE}.

Inductive TraceError (CE SE HE : Type) :=
| TraceCold (e : CE)
| TraceHot (e : SE)
| TraceResolve (e : ResolveError SE HE)
| TraceEvmHalt (reason : string)
| TraceBlockNotFound (id : BlockId)
| TraceTransactionNotFound (h : B256)
| TraceRlpDecode (msg : string)
| TraceSenderRecovery
| TraceInvalidBlockRange (reason : string)
| TraceBlockRangeExceeded (requested max : Z).
Arguments TraceCold {CE SE HE} e.
Arguments TraceHot {CE SE HE} e.
Arguments TraceResolve {CE SE HE} e.
Arguments TraceEvmHalt {CE SE HE} reason.
Arguments TraceBlockNotFound {CE SE HE} id.
Arguments TraceTransactionNotFound {CE SE HE} h.
Arguments TraceRlpDecode {CE SE HE} msg.
Arguments TraceSenderRecovery {CE SE HE}.
Arguments TraceInvalidBlockRange {CE SE HE} reason.
Arguments TraceBlockRangeExceeded {CE SE HE} requested max.

Inductive SignetError (SE HE : Type) :=
| SignetTxCacheNotProvided
| SignetResolve (e : ResolveError SE HE)
| SignetEvmHalt (reason : string)
| SignetTimeout
| SignetInternal (msg : string).
Arguments SignetTxCacheNotProvided {SE HE}.
Arguments SignetResolve {SE HE} e.
Arguments SignetEvmHalt {SE HE} reason.
Arguments SignetTimeout {SE HE}.
Arguments SignetInternal {SE HE} msg.

Section errors.
Context {CE SE HE : Type} `{Display CE SE HE}.

Definition resolve_error_code (e : ResolveError SE HE) : Z :=
  match e with
  | HashNotFound _ => -32001
  | ResolveStorage _ | ResolveDb _ => -32000
  end.

Definition resolve_error_message (e : ResolveError SE HE) : string :=
  match e with
  | HashNotFound hash => "block hash not found: " ++ show_hash hash
  | ResolveStorage _ | ResolveDb _ => "server error"
  end.

(** [EthError::task_panic]. *)
Definition task_panic : EthError CE SE HE := EthInternal "task panicked or cancelled".

Definition eth_error_code (e : EthError CE SE HE) : Z :=
  match e with
  | EthCold _ | EthHot _ => -32000
  | EthResolve r => resolve_error_code r
  | EthBlockNotFound _ | EthTransactionMissing _ => -32001
  | EthEvmRevert _ => 3
  | EthEvmHalt _ => -32000
  | EthInvalidParams _ => -32602
  | EthInternal _ => -32000
  end.

Definition eth_error_message (e : EthError CE SE HE) : string :=
  match e with
  | EthCold _ | EthHot _ => "server error"
  | EthResolve r => resolve_error_message r
  | EthBlockNotFound id => "block not found: " ++ show_id id
  | EthTransactionMissing h => "transaction not found: " ++ show_hash h
  | EthEvmRevert _ => "execution reverted"
  | EthEvmHalt reason => "execution halted: " ++ reason
  | EthInvalidParams msg => msg
  | EthInternal msg => msg
  end.

Definition eth_error_data (e : EthError CE SE HE) : option (list Z) :=
  match e with EthEvmRevert output => Some output | _ => None end.

Definition debug_error_code (e : DebugError CE SE HE) : Z :=
  match e with
  | DebugCold _ | DebugHot _ | DebugEvmHalt _ | DebugInternal _ => -32000
  | DebugResolve r => resolve_error_code r
  | DebugInvalidTracerConfig | DebugRlpDecode _ => -32602
  | DebugUnsupported _ => -32601
  | DebugBlockNotFound _ | DebugTransactionNotFound _ => -32001
  | DebugSenderRecovery => -32000
  end.

Definition debug_error_message (e : DebugError CE SE HE) : string :=
  match e with
  | DebugCold _ | DebugHot _ => "server error"
  | DebugInternal msg => msg
  | DebugResolve r => resolve_error_message r
  | DebugInvalidTracerConfig => "invalid tracer config"
  | DebugUnsupported msg => "unsupported: " ++ msg
  | DebugEvmHalt reason => "execution halted: " ++ reason
  | DebugBlockNotFound id => "block not found: " ++ show_id id
  | DebugTransactionNotFound h => "transaction not found: " ++ show_hash h
  | DebugRlpDecode msg => "RLP decode error: " ++ msg
  | DebugSenderRecovery => "sender recovery failed"
  end.

Definition trace_error_code (e : TraceError CE SE HE) : Z :=
  match e with
  | TraceCold _ | TraceHot _ | TraceEvmHalt _ | TraceSenderRecovery => -32000
  | TraceResolve r => resolve_error_code r
  | TraceBlockNotFound _ | TraceTransactionNotFound _ => -32001
  | TraceRlpDecode _ | TraceInvalidBlockRange _ | TraceBlockRangeExceeded _ _ => -32602
  end.

Definition trace_error_message (e : TraceError CE SE HE) : string :=
  match e with
  | TraceCold _ | TraceHot _ => "server error"
  | TraceResolve r => resolve_error_message r
  | TraceEvmHalt reason => "execution halted: " ++ reason
  | TraceBlockNotFound id => "block not found: " ++ show_id id
  | TraceTransactionNotFound h => "transaction not found: " ++ show_hash h
  | TraceRlpDecode msg => "RLP decode error: " ++ msg
  | TraceInvalidBlockRange reason => "invalid block range: " ++ reason
  | TraceSenderRecovery => "sender recovery failed"
  | TraceBlockRangeExceeded requested max =>
      "block range too large: " ++ show_u64 requested ++ " blocks (max " ++ show_u64 max ++ ")"
  end.

Definition signet_error_code (e : SignetError SE HE) : Z :=
  match e with
  | SignetTxCacheNotProvided | SignetEvmHalt _ | SignetTimeout | SignetInternal _ => -32000
  | SignetResolve r => resolve_error_code r
  end.

Definition signet_error_message (e : SignetError SE HE) : string :=
  match e with
  | SignetTxCacheNotProvided => "transaction cache not provided"
  | SignetResolve r => resolve_error_message r
  | SignetEvmHalt reason => "execution halted: " ++ reason
  | SignetTimeout => "timeout during bundle simulation"
  | SignetInternal msg => msg
  end.

(** The [thiserror] [Display] of [ResolveError] and [EthError], used when an
    error is converted to a string. *)
Definition show_resolve_error (e : ResolveError SE HE) : string :=
  match e with
  | ResolveStorage e => show_hot e
  | ResolveDb e => show_db e
  | HashNotFound h => "block hash not found: " ++ show_hash h
  end.

Definition show_eth_error (e : EthError CE SE HE) : string :=
  match e with
  | EthCold e => "cold storage: " ++ show_cold e
  | EthHot e => "hot storage: " ++ show_hot e
  | EthResolve e => "resolve: " ++ show_resolve_error e
  | EthBlockNotFound id => "block not found: " ++ show_id id
  | EthTransactionMissing h => "transaction not found: " ++ show_hash h
  | EthEvmRevert _ => "execution reverted"
  | EthEvmHalt reason => "execution halted: " ++ reason
  | EthInvalidParams msg => msg
  | EthInternal msg => msg
  end.

(** [From<EthError> for SignetError]. *)
Definition signet_of_eth (e : EthError CE SE HE) : SignetError SE HE :=
  match e with
  | EthResolve r => SignetResolve r
  | other => SignetInternal (show_eth_error other)
  end.

(** The [map_err] closures of [debug_traceCall] and of the trace handlers. *)
Definition debug_of_eth (e : EthError CE SE HE) : DebugError CE SE HE :=
  match e with
  | EthBlockNotFound id => DebugBlockNotFound id
  | other => DebugInternal (show_eth_error other)
  end.

Definition trace_of_eth (e : EthError CE SE HE) : TraceError CE SE HE :=
  match e with
  | EthBlockNotFound id => TraceBlockNotFound id
  | other => TraceEvmHalt (show_eth_error other)
  end.

(** Storage failures are opaque to clients in every namespace: whatever the
    storage error is, direct or through block resolution, the client sees
    code -32000 and the message "server error" and no data. *)
Theorem storage_errors_are_opaque (ce : CE) (se : SE) (r : ResolveError SE HE) :
  (forall h, r <> HashNotFound h) ->
  Forall (fun e => eth_error_code e = -32000 /\ eth_error_message e = "server error"
                   /\ eth_error_data e = None) [EthCold ce; EthHot se; EthResolve r]
  /\ Forall (fun e => debug_error_code e = -32000 /\ debug_error_message e = "server error")
       [DebugCold ce; DebugHot se; DebugResolve r]
  /\ Forall (fun e => trace_error_code e = -32000 /\ trace_error_message e = "server error")
       [TraceCold ce; TraceHot se; TraceResolve r]
  /\ signet_error_code (SignetResolve r) = -32000
  /\ signet_error_message (SignetResolve r) = "server error".
Proof.
  intros Hr. destruct r as [e|e|h]; [| |by destruct (Hr h)];
    repeat (first [split|constructor]); reflexivity.
Qed.

(** But an error that reaches [signet_callBundle], [debug_traceCall] or the
    parity trace handlers by conversion loses that protection: the text of a
    hot-storage failure is put into the client-visible message. *)
Theorem converted_storage_error_leaks (se : SE) :
  signet_error_message (signet_of_eth (EthHot se)) = "hot storage: " ++ show_hot se
  /\ debug_error_message (debug_of_eth (EthHot se)) = "hot storage: " ++ show_hot se
  /\ trace_error_message (trace_of_eth (EthHot se))
     = "execution halted: hot storage: " ++ show_hot se.
Proof. done. Qed.
End errors.
