(* ===== verification/Storage.v ===== *)
(** * The storage crates, as the RPC layer uses them

    Hot and cold storage ([signet_storage], [signet_hot], [signet_cold]) are
    third-party crates: their read operations are the fields of two classes,
    and nothing is assumed about what they return unless a theorem says so. *)

From S2P Require Import Prelude Primitives.

(** [ConfirmationMeta]. *)
Record ConfirmationMeta := mkMeta {
  m_block_number : Z; m_block_hash : B256; m_transaction_index : Z }.

(** [alloy::consensus::TxType]. *)
Inductive TxType := Legacy | Eip2930 | Eip1559 | Eip4844 | Eip7702.

#[export] Instance TxType_eq_dec : EqDecision TxType.
Proof. solve_decision. Defined.

(** [ColdReceipt] with its inner receipt's fields. *)
Record ColdReceipt (L : Type) := mkColdReceipt {
  cr_tx_type : TxType;
  cr_status : bool;
  cr_cumulative_gas_used : Z;
  cr_logs : list (Log L);
  cr_tx_hash : B256;
  cr_block_number : Z;
  cr_block_hash : B256;
  cr_transaction_index : Z;
  cr_from : Address;
  cr_gas_used : Z }.
Arguments mkColdReceipt {L} _ _ _ _ _ _ _ _ _ _.
Arguments cr_tx_type {L} _.
Arguments cr_status {L} _.
Arguments cr_cumulative_gas_used {L} _.
Arguments cr_logs {L} _.
Arguments cr_tx_hash {L} _.
Arguments cr_block_number {L} _.
Arguments cr_block_hash {L} _.
Arguments cr_transaction_index {L} _.
Arguments cr_from {L} _.
Arguments cr_gas_used {L} _.

(** [signet_storage_types::Account]. *)
Record Account := mkAccount {
  acct_nonce : Z; acct_balance : Z; acct_bytecode_hash : option B256 }.

(** Cold storage reads: state [CS], errors [CE]. *)
Class ColdStorage (CS CE T F L : Type) := {
  get_header_by_number : CS -> Z -> res CE (option SealedHeader);
  get_headers : CS -> list Z -> res CE (list (option SealedHeader));
  get_transactions_in_block : CS -> Z -> res CE (list T);
  get_transaction_count : CS -> Z -> res CE Z;
  get_receipts_in_block : CS -> Z -> res CE (list (ColdReceipt L));
  get_tx_by_hash : CS -> B256 -> res CE (option (T * ConfirmationMeta));
  get_tx_by_block_and_index : CS -> Z -> Z -> res CE (option (T * ConfirmationMeta));
  get_receipt : CS -> B256 -> res CE (option (ColdReceipt L));
  (** filter, maximum number of logs, deadline; a stream of results *)
  stream_logs : CS -> F -> Z -> Z -> res CE (list (res CE (Log L)));
  get_latest_block : CS -> res CE (option Z) }.

(** Hot storage: a read transaction [R] is a snapshot of the state [HS]. *)
Class HotStorage (HS SE HE R Code : Type) := {
  reader : HS -> res SE R;
  get_header_number : R -> B256 -> res HE (option Z);
  header_by_hash : R -> B256 -> res HE (option SealedHeader);
  get_header : R -> Z -> res HE (option SealedHeader);
  get_account_at_height : R -> Address -> option Z -> res HE (option Account);
  get_storage_at_height : R -> Address -> Z -> option Z -> res HE (option Z);
  get_bytecode : R -> B256 -> res HE (option Code);
  original_bytes : Code -> list Z;
  revm_reader_at_height : HS -> Z -> res SE (R * Z) }.

(** [tokio::try_join!] of two reads of one snapshot: the first error wins. *)
Definition try_join {E A B} (a : res E A) (b : res E B) : res E (A * B) :=
  x ← a; y ← b; Ok (x, y).
Definition try_join3 {E A B C} (a : res E A) (b : res E B) (c : res E C) : res E (A * B * C) :=
  x ← a; y ← b; z ← c; Ok (x, y, z).

Lemma try_join_ok {E A B} (a : res E A) (b : res E B) x y :
  try_join a b = Ok (x, y) <-> a = Ok x /\ b = Ok y.
Proof. unfold try_join. destruct a, b; simpl; naive_solver. Qed.

(** The await of a spawned handler task: [Finished] when the runtime ran it to
    the end, [Cancelled] when it was cancelled; a task that panicked yields a
    join error. *)
Inductive task_fate := Finished | Cancelled.

Definition await_handler {E A} (fate : task_fate) (task : res E A) (err : E) : res E A :=
  match fate, task with
  | Finished, Ok a => Ok a
  | Finished, Err e => Err e
  | _, _ => Err err
  end.

(** An awaited handler always answers. *)
Lemma await_handler_never_panics {E A} fate (task : res E A) err :
  await_handler fate task err <> Panic.
Proof. destruct fate, task; done. Qed.

Lemma await_handler_ok {E A} fate (task : res E A) err a :
  await_handler fate task err = Ok a <-> fate = Finished /\ task = Ok a.
Proof. destruct fate, task; simpl; naive_solver. Qed.
#[export] Hint Resolve await_handler_never_panics : signet.
