(* ===== verification/RpcCtx.v ===== *)
(** * The RPC context ([crates/rpc/src/config/ctx.rs], [eth/helpers.rs])

    Resolution of block tags and block ids against the shared tags and the hot
    storage, including the pending-block synthesis of [resolve_evm_block]. *)

From S2P Require Import Prelude Primitives BlockTags Errors Storage RpcConfig.

Section ctx.
Context {HS SE HE R Code Spec : Type} `{HotStorage HS SE HE R Code, HeaderOps}.

(** What resolution reads of [StorageRpcCtx]: hot storage, the tags, the host
    slot duration and the hardfork schedule. *)
Record RpcCtx := mkRpcCtx {
  ctx_storage : HS;
  ctx_tags : BlockTags;
  ctx_slot_duration : Z;
  ctx_spec_id_for_header : Header -> Spec;
  ctx_chain_id : Z;
  ctx_config : StorageRpcConfig }.

Definition resolve_block_tag (tags : BlockTags) (tag : BlockNumberOrTag) : Z :=
  match tag with
  | Latest | Pending => latest tags
  | Safe => safe tags
  | Finalized => finalized tags
  | Earliest => 0
  | Number n => n
  end.

Definition hot_reader (ctx : RpcCtx) : res SE R := reader (ctx_storage ctx).

Definition resolve_block_id (ctx : RpcCtx) (id : BlockId) : res (ResolveError SE HE) Z :=
  match id with
  | IdNumber tag => Ok (resolve_block_tag (ctx_tags ctx) tag)
  | IdHash h =>
      rd ← map_err ResolveStorage (hot_reader ctx);
      num ← map_err ResolveDb (get_header_number rd h);
      ok_or num (HashNotFound h)
  end.

Definition resolve_header (ctx : RpcCtx) (id : BlockId) :
    res (ResolveError SE HE) (option SealedHeader) :=
  rd ← map_err ResolveStorage (hot_reader ctx);
  match id with
  | IdHash h => map_err ResolveDb (header_by_hash rd h)
  | IdNumber tag => map_err ResolveDb (get_header rd (resolve_block_tag (ctx_tags ctx) tag))
  end.

(** [EvmBlockContext]: the database is a reader pinned at a height. *)
Record EvmBlockContext := mkEvmBlock {
  eb_header : Header; eb_db : R * Z; eb_spec_id : Spec }.

(** The pending header: [+= 1] and [+= slot_duration] in [u64], then the
    projected base fee of the header as modified so far. *)
Definition pending_header (ctx : RpcCtx) (parent_hash : B256) (h : Header) : Header :=
  let h1 := mkHeader parent_hash (add64 (h_number h) 1)
              (add64 (h_timestamp h) (ctx_slot_duration ctx))
              (h_gas_limit h) (h_gas_used h) (h_base_fee_per_gas h) in
  mkHeader (h_parent_hash h1) (h_number h1) (h_timestamp h1) (h_gas_limit h1)
    (h_gas_used h1) (next_block_base_fee h1).

Definition resolve_evm_block {CE} (ctx : RpcCtx) (id : BlockId) :
    res (EthError CE SE HE) EvmBlockContext :=
  let pending := id_is_pending id in
  let id := if pending then IdNumber Latest else id in
  rd ← map_err EthHot (hot_reader ctx);
  found ← map_err (fun e => EthResolve (ResolveDb e))
            (match id with
             | IdHash h => header_by_hash rd h
             | IdNumber tag => get_header rd (resolve_block_tag (ctx_tags ctx) tag)
             end);
  sealed ← ok_or found (EthBlockNotFound id);
  let height := h_number (sh_header sealed) in
  let header := if pending then pending_header ctx (sh_hash sealed) (sh_header sealed)
                else sh_header sealed in
  Ok (mkEvmBlock header (rd, height) (ctx_spec_id_for_header ctx header)).

(** [hot_reader_at_block] ([eth/helpers.rs]). *)
Definition hot_reader_at_block {CE} (ctx : RpcCtx) (id : BlockId) :
    res (EthError CE SE HE) (R * Z) :=
  rd ← map_err EthHot (hot_reader ctx);
  height ← (match id with
            | IdNumber tag => Ok (resolve_block_tag (ctx_tags ctx) tag)
            | IdHash h =>
                num ← map_err (fun e => EthResolve (ResolveDb e)) (get_header_number rd h);
                ok_or num (EthResolve (HashNotFound h))
            end);
  Ok (rd, height).

(** ** Properties *)

(** No tag resolves above the chain the tags describe. *)
Lemma resolve_block_tag_bounded tags tag h :
  tags_below h tags -> 0 <= h -> (forall n, tag = Number n -> n <= h) ->
  resolve_block_tag tags tag <= h.
Proof. unfold tags_below. destruct tag; simpl; intros; auto with lia. Qed.

(** [resolve_evm_block] takes the header and the state from one read
    transaction: on success the database is the very reader that produced
    the header, pinned at that header's height, and for a pending id the
    header is the child of the latest block (number, parent hash, timestamp
    advanced by one slot) while the state stays at the latest block. *)
Theorem resolve_evm_block_consistent {CE} ctx id eb :
  resolve_evm_block (CE:=CE) ctx id = Ok eb ->
  exists rd sealed,
    reader (ctx_storage ctx) = Ok rd
    /\ (match id with
        | IdHash h => header_by_hash rd h = Ok (Some sealed)
        | IdNumber tag => get_header rd (resolve_block_tag (ctx_tags ctx) tag) = Ok (Some sealed)
        end)
    /\ eb_db eb = (rd, h_number (sh_header sealed))
    /\ eb_spec_id eb = ctx_spec_id_for_header ctx (eb_header eb)
    /\ if id_is_pending id
       then h_number (eb_header eb) = add64 (h_number (sh_header sealed)) 1
            /\ h_parent_hash (eb_header eb) = sh_hash sealed
            /\ h_timestamp (eb_header eb)
               = add64 (h_timestamp (sh_header sealed)) (ctx_slot_duration ctx)
       else eb_header eb = sh_header sealed.
Proof.
  unfold resolve_evm_block, hot_reader. intros Hok. res_inv.
  match goal with Hr : reader _ = Ok ?rd |- _ => exists rd end.
  eexists. split; [done|].
  destruct (id_is_pending id) eqn:Hp.
  - destruct id as [[]|]; simplify_eq/=. by split.
  - destruct id as [tag|h]; simpl in *; by split.
Qed.

(** The failures of [resolve_evm_block] are told apart: an absent block is
    reported as [BlockNotFound] of the id looked up (a pending id as latest),
    never as a storage error, and a storage error never as absence. *)
Theorem resolve_evm_block_not_found {CE} ctx id e :
  resolve_evm_block (CE:=CE) ctx id = Err e ->
  match e with
  | EthBlockNotFound id' =>
      id' = (if id_is_pending id then IdNumber Latest else id)
      /\ exists rd, reader (ctx_storage ctx) = Ok rd
           /\ match id' with
              | IdHash h => header_by_hash rd h = Ok None
              | IdNumber tag => get_header rd (resolve_block_tag (ctx_tags ctx) tag) = Ok None
              end
  | EthHot se => reader (ctx_storage ctx) = Err se
  | EthResolve (ResolveDb _) => exists rd, reader (ctx_storage ctx) = Ok rd
  | _ => False
  end.
Proof.
  unfold resolve_evm_block, hot_reader.
  set (id' := if id_is_pending id then IdNumber Latest else id).
  destruct (reader (ctx_storage ctx)) as [rd|se|] eqn:Hr; simpl; [|intros [= <-]; done|done].
  set (look := match id' with IdHash h => header_by_hash rd h | IdNumber tag => _ end).
  destruct look as [[sealed|]|he|] eqn:Hl; simpl; try done; intros [= <-].
  - split; [done|]. exists rd. split; [done|]. subst look. by destruct id'.
  - by exists rd.
Qed.

(** [hot_reader_at_block] and [resolve_block_id] agree on the height. *)
Theorem hot_reader_at_block_height {CE} ctx id rd height :
  hot_reader_at_block (CE:=CE) ctx id = Ok (rd, height) ->
  reader (ctx_storage ctx) = Ok rd /\ resolve_block_id ctx id = Ok height.
Proof.
  unfold hot_reader_at_block, resolve_block_id, hot_reader. intros Hok. res_inv.
  simplify_eq. split; [done|].
  match goal with Hr : reader _ = Ok _ |- _ => rewrite Hr end. simpl.
  destruct id as [tag|h]; [congruence|]. res_inv.
  match goal with Hn : get_header_number _ _ = Ok _ |- _ => by rewrite Hn end.
Qed.
End ctx.
Arguments RpcCtx : clear implicits.
Arguments EvmBlockContext : clear implicits.
