(* ===== verification/GasOracle.v ===== *)
(** * The gas oracle ([config/mod.rs], [config/gas_oracle.rs], [eth/endpoints.rs])

    [GasOracleCache], [suggest_tip_cap] and the two endpoints built on it.
    Transactions of the sampled blocks are read by tasks that finish in any
    order: [order] is the completion order of the join set, and a completion
    order is any permutation of the spawned tasks. *)

From S2P Require Import Prelude Primitives BlockTags Errors Storage Float64 RpcConfig.

(** ** [GasOracleCache]: two atomics; [u64::MAX] marks an empty cache *)
Record GasOracleCache := mkGasCache { gc_block : Z; gc_tip : Z }.

Definition GasOracleCache_new : GasOracleCache := mkGasCache max64 0.

Definition cache_get (current_block : Z) (c : GasOracleCache) : option Z :=
  if gc_block c =? current_block then Some (gc_tip c) else None.

(** [tip.try_into().unwrap_or(u64::MAX)]. *)
Definition cache_set (block tip : Z) (c : GasOracleCache) : GasOracleCache :=
  mkGasCache block (if tip <=? max64 then tip else max64).

Section oracle.
Context {CS CE T F L SE HE : Type} `{ColdStorage CS CE T F L, Transaction T}.

(** [blocks_with_fees]. *)
Definition blocks_with_fees (start : Z) (headers : list (option SealedHeader)) : list (Z * Z) :=
  omap id (imap (fun offset h =>
    (fun hd => (start + Z.of_nat offset, default 0 (h_base_fee_per_gas (sh_header hd)))) <$> h)
    headers).

(** The tips of one block that pass the [ignore_price] floor. *)
Definition qualifying_tips (config : StorageRpcConfig) (base_fee : Z) (txs : list T) : list Z :=
  omap (fun tx =>
    match effective_tip_per_gas tx base_fee with
    | Some tip =>
        if match ignore_price config with None => true | Some floor => floor <=? tip end
        then Some tip else None
    | None => None
    end) txs.

(** The [join_next] loop over the tasks in completion order. *)
Fixpoint collect_tips (cold : CS) (config : StorageRpcConfig) (tasks : list (Z * Z))
    (all_tips : list Z) : res CE (list Z) :=
  match tasks with
  | [] => Ok all_tips
  | (block_num, base_fee) :: tasks =>
      txs ← get_transactions_in_block cold block_num;
      collect_tips cold config tasks (all_tips ++ qualifying_tips config base_fee txs)
  end.

(** [((percentile / 100.0) * (len - 1) as f64) as usize], then clamped. *)
Definition percentile_index (config : StorageRpcConfig) (len : Z) : Z :=
  Z.min (f64_to_u64 (f64_mul (f64_div (gas_oracle_percentile config) (f64_of_int 100))
                             (f64_of_int (len - 1))))
    (len - 1).

Definition cap_price (config : StorageRpcConfig) (price : Z) : Z :=
  match max_price config with Some max => Z.min price max | None => price end.

(** The sampled range: [min(count, latest + 1)] blocks in [u64]. *)
Definition oracle_start (config : StorageRpcConfig) (latest : Z) : Z :=
  let block_count := Z.min (gas_oracle_block_count config) (add64 latest 1) in
  sat_sub latest (sub64 block_count 1).

Definition suggest_tip_cap (order : list (Z * Z) -> list (Z * Z)) (cold : CS) (latest : Z)
    (config : StorageRpcConfig) (cache : GasOracleCache) : res CE Z * GasOracleCache :=
  match cache_get latest cache with
  | Some cached_tip => (Ok cached_tip, cache)
  | None =>
      let start := oracle_start config latest in
      match (headers ← get_headers cold (range_incl start latest);
             collect_tips cold config (order (blocks_with_fees start headers)) []) with
      | Ok [] =>
          let default_price := default 0 (default_gas_price config) in
          (Ok default_price, cache_set latest default_price cache)
      | Ok all_tips =>
          let sorted := sort_z all_tips in
          let index := percentile_index config (Z.of_nat (length sorted)) in
          match sorted !! Z.to_nat index with
          | Some tip =>
              let price := cap_price config tip in
              (Ok price, cache_set latest price cache)
          | None => (Panic, cache)
          end
      | Err e => (Err e, cache)
      | Panic => (Panic, cache)
      end
  end.

(** [eth_maxPriorityFeePerGas] and [eth_gasPrice]: the spawned task. *)
Definition max_priority_fee_per_gas order (cold : CS) (tags : BlockTags)
    (config : StorageRpcConfig) (cache : GasOracleCache) (fate : task_fate) :
    res (EthError CE SE HE) Z * GasOracleCache :=
  let '(tip, cache) := suggest_tip_cap order cold (latest tags) config cache in
  (await_handler fate (map_err EthCold tip) task_panic, cache).

Definition gas_price order (cold : CS) (tags : BlockTags)
    (config : StorageRpcConfig) (cache : GasOracleCache) (fate : task_fate) :
    res (EthError CE SE HE) Z * GasOracleCache :=
  let latest := latest tags in
  let '(tip, cache) := suggest_tip_cap order cold latest config cache in
  let task :=
    tip ← map_err EthCold tip;
    header ← map_err EthCold (get_header_by_number cold latest);
    let base_fee := default 0 (header ≫= fun h => h_base_fee_per_gas (sh_header h)) in
    Ok (tip + base_fee) in
  (await_handler fate task task_panic, cache).

(** ** Specification *)

(** The tips of all sampled transactions, in block order. *)
Definition block_tips (cold : CS) (config : StorageRpcConfig) (task : Z * Z) : list Z :=
  match get_transactions_in_block cold task.1 with
  | Ok txs => qualifying_tips config task.2 txs
  | _ => []
  end.

Definition sampled_tips (cold : CS) (config : StorageRpcConfig) (tasks : list (Z * Z)) : list Z :=
  mjoin (block_tips cold config <$> tasks).

(** Every sampled block can be read. *)
Definition reads_ok (cold : CS) (tasks : list (Z * Z)) : Prop :=
  Forall (fun t => exists txs, get_transactions_in_block cold t.1 = Ok txs) tasks.

Lemma collect_tips_acc cold config tasks acc :
  reads_ok cold tasks ->
  collect_tips cold config tasks acc = Ok (acc ++ sampled_tips cold config tasks).
Proof.
  intros Hr. revert acc. induction Hr as [|[n fee] tasks (txs & Htx) _ IH]; intros acc; simpl.
  - by rewrite app_nil_r.
  - simpl in Htx. rewrite Htx. simpl. rewrite IH, <- app_assoc. do 3 f_equal.
    unfold sampled_tips. csimpl. unfold block_tips at 2. simpl. by rewrite Htx.
Qed.

Lemma reads_ok_perm cold a b : a ≡ₚ b -> reads_ok cold a -> reads_ok cold b.
Proof.
  unfold reads_ok. rewrite !Forall_forall. intros Hp Ha x Hx. apply Ha.
  by apply (elem_of_Permutation_proper x _ _ Hp).
Qed.

Lemma sampled_tips_perm cold config a b :
  a ≡ₚ b -> sampled_tips cold config a ≡ₚ sampled_tips cold config b.
Proof.
  unfold sampled_tips. induction 1; csimpl; [done|by apply Permutation_app_head| |by etrans].
  rewrite !app_assoc. apply Permutation_app_tail, Permutation_app_comm.
Qed.

Lemma collect_tips_ok cold config tasks acc all :
  collect_tips cold config tasks acc = Ok all ->
  all = acc ++ sampled_tips cold config tasks.
Proof.
  revert acc. induction tasks as [|[n fee] tasks IH]; intros acc; simpl.
  - intros [= <-]. by rewrite app_nil_r.
  - intros Hc. apply bind_ok in Hc as (txs & Htx & Hc). apply IH in Hc as ->.
    rewrite <- app_assoc. f_equal. unfold sampled_tips. csimpl.
    unfold block_tips at 2. simpl. by rewrite Htx.
Qed.

Lemma percentile_index_lt config (tips : list Z) :
  tips <> [] ->
  is_Some (tips !! Z.to_nat (percentile_index config (Z.of_nat (length tips)))).
Proof.
  intros Hne. apply lookup_lt_is_Some. unfold percentile_index.
  pose proof (f64_to_u64_ok (f64_mul (f64_div (gas_oracle_percentile config) (f64_of_int 100))
    (f64_of_int (Z.of_nat (length tips) - 1)))) as Hok.
  assert (0 < length tips)%nat by (destruct tips; simpl; lia || done). width.
Qed.

Lemma qualifying_floor config base_fee txs tip floor :
  ignore_price config = Some floor -> tip ∈ qualifying_tips config base_fee txs -> floor <= tip.
Proof.
  intros Hf Hin. apply list_elem_of_omap in Hin as (tx & _ & Htx).
  destruct (effective_tip_per_gas tx base_fee) as [t|]; [|done].
  rewrite Hf in Htx. destruct (Z.leb_spec floor t); by simplify_eq.
Qed.

Lemma sampled_floor cold config tasks tip floor :
  ignore_price config = Some floor -> tip ∈ sampled_tips cold config tasks -> floor <= tip.
Proof.
  intros Hf Hin. unfold sampled_tips in Hin. apply list_elem_of_join in Hin as (l & Hin & Hl).
  apply list_elem_of_fmap in Hl as ([n fee] & -> & _). unfold block_tips in Hin. simpl in Hin.
  destruct (get_transactions_in_block cold n) as [txs|e|]; [|by apply not_elem_of_nil in Hin..].
  by eapply qualifying_floor.
Qed.

(** ** Properties *)

(** C31: On a cache miss [suggest_tip_cap] answers, for every percentile
    setting (even NaN or out of range, never an index out of bounds), either
    the configured default when no sampled transaction qualifies, or a tip
    some sampled transaction really paid, at least the [ignore_price] floor,
    cut at [max_price]; and the cache then holds that answer for that
    height. *)
Theorem suggest_tip_cap_spec order cold latest config cache p cache' :
  (forall l, order l ≡ₚ l) ->
  cache_get latest cache = None ->
  suggest_tip_cap order cold latest config cache = (Ok p, cache') ->
  cache' = cache_set latest p cache
  /\ exists headers,
       get_headers cold (range_incl (oracle_start config latest) latest) = Ok headers
       /\ let tips := sampled_tips cold config
                        (blocks_with_fees (oracle_start config latest) headers) in
          (tips = [] /\ p = default 0 (default_gas_price config))
          \/ exists tip, tip ∈ tips /\ p = cap_price config tip
               /\ (forall floor, ignore_price config = Some floor -> floor <= tip)
               /\ (forall max, max_price config = Some max -> p <= max).
Proof.
  intros Ho Hc. unfold suggest_tip_cap. rewrite Hc.
  destruct (get_headers cold _) as [headers|e|] eqn:Hh; simpl; [|intros [=]..].
  destruct (collect_tips _ _ _ _) as [all|e|] eqn:Ha; [|intros [=]..].
  apply collect_tips_ok in Ha. simpl in Ha.
  set (tasks := blocks_with_fees (oracle_start config latest) headers) in *.
  pose proof (sampled_tips_perm cold config _ _ (Ho tasks)) as Hp. rewrite <- Ha in Hp.
  destruct all as [|t all].
  - intros [= <- <-]. split; [done|]. exists headers. split; [done|]. left. split; [|done].
    by apply Permutation_nil_l in Hp.
  - destruct (sort_z (t :: all) !! _) as [tip|] eqn:Hs; [|intros [=]].
    intros [= <- <-]. split; [done|]. exists headers. split; [done|]. right. exists tip.
    assert (tip ∈ sampled_tips cold config tasks) as Hin.
    { apply (elem_of_Permutation_proper tip _ _ Hp).
      apply (elem_of_Permutation_proper tip _ _ (sort_by_key_perm id (t :: all))).
      by eapply list_elem_of_lookup_2. }
    split; [done|]. split; [done|]. split.
    + intros floor Hf. by eapply sampled_floor.
    + intros max Hm. unfold cap_price. rewrite Hm. lia.
Qed.

(** The order in which the transaction reads of the sampled blocks complete
    does not matter: with every block readable, any two completion orders
    give the same answer and the same cache, and the oracle does not fail. *)
Theorem suggest_tip_cap_schedule_independent order1 order2 cold latest config cache headers :
  (forall l, order1 l ≡ₚ l) -> (forall l, order2 l ≡ₚ l) ->
  get_headers cold (range_incl (oracle_start config latest) latest) = Ok headers ->
  reads_ok cold (blocks_with_fees (oracle_start config latest) headers) ->
  suggest_tip_cap order1 cold latest config cache = suggest_tip_cap order2 cold latest config cache
  /\ exists p, (suggest_tip_cap order1 cold latest config cache).1 = Ok p.
Proof.
  intros Ho1 Ho2 Hh Hr. unfold suggest_tip_cap. rewrite Hh. simpl.
  destruct (cache_get latest cache) as [c|]; [split; [done|by exists c]|].
  set (tasks := blocks_with_fees (oracle_start config latest) headers) in *.
  rewrite !collect_tips_acc by (eapply reads_ok_perm; [symmetry; auto|done]). simpl.
  assert (sampled_tips cold config (order1 tasks) ≡ₚ sampled_tips cold config (order2 tasks)) as Hp.
  { apply sampled_tips_perm. etrans; [apply Ho1|]. by symmetry. }
  destruct (sampled_tips cold config (order1 tasks)) as [|a l] eqn:E1.
  - apply Permutation_nil_l in Hp. rewrite <- Hp. split; [done|by eexists].
  - destruct (sampled_tips cold config (order2 tasks)) as [|b k] eqn:E2;
      [by apply Permutation_nil_r in Hp|].
    rewrite (sort_z_perm _ _ Hp).
    assert (sort_z (b :: k) <> []) as Hne.
    { intros Hn. pose proof (sort_by_key_perm id (b :: k)) as Hp2. unfold sort_z in Hn.
      rewrite Hn in Hp2. by apply Permutation_nil_l in Hp2. }
    split; [done|]. destruct (percentile_index_lt config _ Hne) as [tip Ht]. rewrite Ht.
    by eexists.
Qed.

(** The cache is transparent: a new cache misses at every height but the
    sentinel, and after an answer that fits [u64] a second call at the same
    height returns the same answer without touching storage, whatever the
    storage, the schedule and the configuration have become. *)
Theorem suggest_tip_cap_cached order order' cold cold' latest config config' p cache cache' :
  latest <> max64 -> p <= max64 ->
  suggest_tip_cap order cold latest config cache = (Ok p, cache') ->
  cache_get latest GasOracleCache_new = None
  /\ suggest_tip_cap order' cold' latest config' cache' = (Ok p, cache').
Proof.
  intros Hl Hp Hs. split.
  { unfold cache_get, GasOracleCache_new. cbn [gc_block gc_tip]. destruct (Z.eqb_spec max64 latest); [congruence|done]. }
  assert (cache_get latest cache' = Some p) as Hg; [|unfold suggest_tip_cap; by rewrite Hg].
  assert (cache_get latest (cache_set latest p cache) = Some p) as Hset.
  { unfold cache_get, cache_set. simpl. rewrite Z.eqb_refl. destruct (Z.leb_spec p max64); [done|lia]. }
  unfold suggest_tip_cap in Hs. destruct (cache_get latest cache) as [c|] eqn:Hc; [by simplify_eq|].
  destruct (get_headers _ _ ≫= _) as [[|t l]|e|]; [by simplify_eq| |done..].
  destruct (sort_z _ !! _); by simplify_eq.
Qed.
End oracle.

(** The sampled range: a configured block count [n >= 1] reads the last
    [min n (latest + 1)] blocks, never more; but a count of [0] wraps in
    [block_count - 1] and reads the whole chain from block 0. *)
Theorem oracle_range config latest :
  u64_ok (gas_oracle_block_count config) -> 0 <= latest < max64 ->
  if gas_oracle_block_count config =? 0 then oracle_start config latest = 0
  else Z.of_nat (length (range_incl (oracle_start config latest) latest))
       = Z.min (gas_oracle_block_count config) (latest + 1).
Proof.
  intros Hc Hl. unfold oracle_start. rewrite add64_exact by width.
  destruct (Z.eqb_spec (gas_oracle_block_count config) 0) as [->|Hne].
  - replace (Z.min 0 (latest + 1)) with 0 by lia.
    replace (sub64 0 1) with max64 by reflexivity. width.
  - rewrite length_range_incl, sub64_exact by width. width.
Qed.
