(* ===== verification/GasCacheRace.v ===== *)
(** * The gas oracle's cache under concurrency ([crates/rpc/src/config/mod.rs])

    [GasOracleCache] is two atomics without a lock: [set] stores the tip and then
    the block, [get] loads the block and then the tip.  Here every store and load
    is one step, for any number of [set]s in flight while one [get] runs: what a
    hit may return, and where it is the tip of another height. *)

From S2P Require Import Prelude GasOracle.

(** The stores of [set]. *)
Inductive cache_op := StoreTip (tip : Z) | StoreBlock (block : Z).
Definition set_ops (block tip : Z) : list cache_op :=
  [StoreTip (if tip <=? max64 then tip else max64); StoreBlock block].
Definition run_cache_op (o : cache_op) (c : GasOracleCache) : GasOracleCache :=
  match o with
  | StoreTip tip => mkGasCache (gc_block c) tip
  | StoreBlock block => mkGasCache block (gc_tip c)
  end.

(** The progress of [get]. *)
Inductive reader := LoadBlock | LoadTip | Done (answer : option Z).
Record race := mkRace { rc_mem : GasOracleCache; rc_sets : list (list cache_op); rc_reader : reader }.

Inductive race_step (current_block : Z) : race -> race -> Prop :=
| step_store mem sets r i o rest :
    sets !! i = Some (o :: rest) ->
    race_step current_block (mkRace mem sets r) (mkRace (run_cache_op o mem) (<[i := rest]> sets) r)
| step_load_block mem sets :
    race_step current_block (mkRace mem sets LoadBlock)
      (mkRace mem sets (if gc_block mem =? current_block then LoadTip else Done None))
| step_load_tip mem sets :
    race_step current_block (mkRace mem sets LoadTip) (mkRace mem sets (Done (Some (gc_tip mem)))).

Definition race_start (mem : GasOracleCache) (calls : list (Z * Z)) : race :=
  mkRace mem ((fun c => set_ops c.1 c.2) <$> calls) LoadBlock.

(** Without other tasks the steps are those of [cache_set] and [cache_get]. *)
Lemma set_ops_exact block tip c : foldl (fun c o => run_cache_op o c) c (set_ops block tip) = cache_set block tip c.
Proof. reflexivity. Qed.

Lemma quiet_get n mem :
  rtc (race_step n) (race_start mem []) (mkRace mem [] (Done (cache_get n mem))).
Proof.
  eapply rtc_l; [apply step_load_block|]. unfold cache_get.
  destruct (gc_block mem =? n); [apply rtc_once, step_load_tip|apply rtc_refl].
Qed.

(** ** Invariants *)
Section race.
Variables (current_block : Z) (ok : Z -> Prop).

(** The stores of a thread only put [ok] tips. *)
Definition op_ok (o : cache_op) : Prop := match o with StoreTip t => ok t | StoreBlock _ => True end.

(** At [current_block] the memory holds an [ok] tip, also once a pending store
    of the block has run. *)
Record race_inv (r : race) : Prop := {
  ri_ops : Forall (Forall op_ok) (rc_sets r);
  ri_next : gc_block (rc_mem r) = current_block \/ Exists (fun ops => ops = [StoreBlock current_block]) (rc_sets r) ->
    ok (gc_tip (rc_mem r));
  ri_reader : match rc_reader r with
    | LoadBlock => True | LoadTip => ok (gc_tip (rc_mem r)) | Done a => forall t, a = Some t -> ok t end }.

(** The shapes a [set] of the height goes through. *)
Definition set_shape (ops : list cache_op) : Prop :=
  (exists t, ops = [StoreTip t; StoreBlock current_block]) \/ ops = [StoreBlock current_block] \/ ops = [].

Lemma race_inv_step r r' :
  Forall set_shape (rc_sets r) -> race_inv r -> race_step current_block r r' ->
  Forall set_shape (rc_sets r') /\ race_inv r'.
Proof.
  intros Hs [Ho Hn Hr] Hstep. destruct Hstep as [mem sets r i o rest Hi|mem sets|mem sets]; cbn in *.
  - assert (set_shape (o :: rest)) as Hsh by by eapply Forall_lookup_1 in Hs.
    assert (Forall op_ok (o :: rest)) as Hok by by eapply Forall_lookup_1 in Ho.
    inversion Hok as [|? ? Ho1 Hor]; subst.
    split; [apply Forall_insert; [done|]; destruct Hsh as [(t & [= -> ->])|[[= -> ->]|[=]]];
      [right; by left|right; by right]|].
    constructor; cbn; [by apply Forall_insert| |].
    + intros Hb. destruct o as [t|b]; cbn in *; [done|].
      destruct Hsh as [(t & [=])|[[= -> ->]|[=]]].
      apply Hn. right. apply Exists_exists. exists [StoreBlock current_block]. split; [|done].
      by eapply list_elem_of_lookup_2.
    + destruct r; [done| |done]. destruct o; cbn in *; done.
  - split; [done|]. constructor; cbn; [done..|].
    destruct (Z.eqb_spec (gc_block mem) current_block) as [He|]; [|done]. apply Hn. by left.
  - split; [done|]. constructor; cbn; [done..|]. by intros t [= <-].
Qed.

Lemma race_inv_steps r r' :
  rtc (race_step current_block) r r' -> Forall set_shape (rc_sets r) -> race_inv r -> race_inv r'.
Proof.
  induction 1 as [|r1 r2 r3 H1 _ IH]; [done|]. intros Hs Hi.
  destruct (race_inv_step _ _ Hs Hi H1) as [Hs2 Hi2]. by apply IH.
Qed.

(** Every tip in the memory and in a pending store is [ok], whatever the
    heights. *)
Definition tips_inv (r : race) : Prop :=
  Forall (Forall op_ok) (rc_sets r) /\ ok (gc_tip (rc_mem r))
  /\ forall t, rc_reader r = Done (Some t) -> ok t.

Lemma tips_inv_step r r' : tips_inv r -> race_step current_block r r' -> tips_inv r'.
Proof.
  intros (Ho & Hm & Hr) Hstep. destruct Hstep as [mem sets rd i o rest Hi|mem sets|mem sets]; cbn in *.
  - assert (Forall op_ok (o :: rest)) as Hok by by eapply Forall_lookup_1 in Ho.
    inversion Hok; subst. split; [by apply Forall_insert|]. split; [by destruct o|done].
  - split; [done|]. split; [done|]. intros t Ht. by destruct (_ =? _).
  - split; [done|]. split; [done|]. by intros t [= <-].
Qed.
End race.

(** ** Properties *)

(** What [set] stores of a tip. *)
Definition stored_tip (tip : Z) : Z := if tip <=? max64 then tip else max64.

(** The stores of the calls satisfy what their tips satisfy. *)
Lemma start_ops_ok (ok : Z -> Prop) (calls : list (Z * Z)) :
  Forall (fun c => ok (stored_tip c.2)) calls -> Forall (Forall (op_ok ok)) ((fun c => set_ops c.1 c.2) <$> calls).
Proof. intros H. apply Forall_fmap. eapply Forall_impl; [exact H|]. intros c Hc. by repeat constructor. Qed.

Lemma start_shapes n (calls : list (Z * Z)) :
  Forall (fun c => c.1 = n) calls -> Forall (set_shape n) ((fun c => set_ops c.1 c.2) <$> calls).
Proof. intros H. apply Forall_fmap. eapply Forall_impl; [exact H|]. intros [b t] <-. left. by eexists. Qed.

(** While the tips in flight are all for one height, a hit at that height is
    exact under every interleaving: it is the tip the cache held for that height
    or one that a call stores for it. *)
Theorem gas_cache_hit_exact n mem calls r t :
  Forall (fun c => c.1 = n) calls ->
  rtc (race_step n) (race_start mem calls) r -> rc_reader r = Done (Some t) ->
  (gc_block mem = n /\ t = gc_tip mem) \/ t ∈ (fun c => stored_tip c.2) <$> calls.
Proof.
  intros Hc Hr Ht.
  set (ok := fun t => (gc_block mem = n /\ t = gc_tip mem) \/ t ∈ (fun c : Z * Z => stored_tip c.2) <$> calls).
  assert (race_inv n ok r) as [_ _ Hd]; [|rewrite Ht in Hd; by apply Hd].
  eapply race_inv_steps; [exact Hr|by apply start_shapes|]. constructor; cbn.
  - apply start_ops_ok, Forall_forall. intros c Hin. right. apply list_elem_of_fmap. by exists c.
  - intros [Hb|He]; [by left|]. apply Exists_exists in He as (ops & Hin & ->).
    by apply list_elem_of_fmap in Hin as (c & [=] & _).
  - done.
Qed.

(** Whatever the heights, a hit returns a tip that was computed for some one of
    them. *)
Theorem gas_cache_hit_real n mem calls r t :
  rtc (race_step n) (race_start mem calls) r -> rc_reader r = Done (Some t) ->
  t ∈ gc_tip mem :: ((fun c => stored_tip c.2) <$> calls).
Proof.
  intros Hr Ht. set (ok := fun t => t ∈ gc_tip mem :: ((fun c : Z * Z => stored_tip c.2) <$> calls)).
  assert (tips_inv ok r) as (_ & _ & Hd); [|by apply Hd].
  assert (tips_inv ok (race_start mem calls)) as H0.
  { split; [|split; [left|done]]. apply start_ops_ok, Forall_forall. intros c Hin. right.
    apply list_elem_of_fmap. by exists c. }
  clear Ht. induction Hr as [|r1 r2 r3 H1 _ IH]; [done|]. apply IH. by eapply tips_inv_step.
Qed.

(** The next store of the [i]-th call. *)
Ltac store i := eapply rtc_l; [eapply (step_store _ _ _ _ i); reflexivity|]; cbn.

(** Across heights it is not: a reader at the old height gets the tip of the
    new one; and two calls that end in turn leave the old height's tip under the
    new height, where every later [get] finds it. *)
Theorem gas_cache_mixes_heights :
  (exists r, rtc (race_step 100) (race_start (mkGasCache 100 7) [(101, 9)]) r
     /\ rc_reader r = Done (Some 9))
  /\ exists r, rtc (race_step 100) (race_start GasOracleCache_new [(100, 7); (101, 9)]) r
     /\ rc_sets r = [[]; []] /\ cache_get 101 (rc_mem r) = Some 7.
Proof.
  split; eexists.
  - split; [eapply rtc_l; [apply step_load_block|]; store 0%nat; apply rtc_once, step_load_tip|reflexivity].
  - split; [store 1%nat; store 0%nat; store 0%nat; store 1%nat; apply rtc_refl|by split].
Qed.

Lemma gas_cache_hit_exact_witness :
  exists r, rtc (race_step 101) (race_start (mkGasCache 100 7) [(101, 9); (101, 9)]) r
    /\ rc_reader r = Done (Some 9) /\ 9 ∈ [9; 9].
Proof.
  set (m := mkGasCache 100 7).
  assert (exists r, rtc (race_step 101) (race_start m [(101, 9); (101, 9)]) r /\ rc_reader r = Done (Some 9))
    as (r & Hr & Hd).
  { eexists. split; [store 1%nat; store 1%nat; eapply rtc_l; [apply step_load_block|]; store 0%nat;
      apply rtc_once, step_load_tip|reflexivity]. }
  exists r. split; [exact Hr|]. split; [exact Hd|].
  destruct (gas_cache_hit_exact 101 m [(101, 9); (101, 9)] r 9 ltac:(by repeat constructor) Hr Hd)
    as [[Hb _]|Hin]; [discriminate Hb|exact Hin].
Defined.
