(* ===== verification/FeeHistory.v ===== *)
(** * [eth_feeHistory] ([crates/rpc/src/eth/endpoints.rs])

    The block range of the query, the per-block data and the reward
    percentiles.  [u64] arithmetic wraps as in the source and the percentile
    arithmetic is binary64. *)

From S2P Require Import Prelude Primitives BlockTags Errors Storage Float64 RpcConfig RpcCtx.

Record FeeHistory := mkFeeHistory {
  fh_base_fee_per_gas : list Z;
  fh_gas_used_ratio : list f64;
  fh_base_fee_per_blob_gas : list Z;
  fh_blob_gas_used_ratio : list f64;
  fh_oldest_block : Z;
  fh_reward : option (list (list Z)) }.

(** [FeeHistory::default()]. *)
Definition FeeHistory_default : FeeHistory := mkFeeHistory [] [] [] [] 0 None.

(** [percentiles.windows(2).any(|w| w[0] > w[1] || w[0] > 100.)]. *)
Fixpoint percentiles_invalid (percentiles : list f64) : bool :=
  match percentiles with
  | a :: (b :: _) as rest =>
      (f64_gt a b || f64_gt a (f64_of_int 100)) || percentiles_invalid rest
  | _ => false
  end.

(** [(gas_used as f64 * percentile / 100.0) as u64]. *)
Definition reward_threshold (gas_used : Z) (percentile : f64) : Z :=
  f64_to_u64 (f64_div (f64_mul (f64_of_int gas_used) percentile) (f64_of_int 100)).

(** The inner [while]: [rest] is the list from [tx_idx] on; the gas at
    [tx_idx] is added each time the condition is entered. *)
Fixpoint reward_scan (threshold cumulative_gas : Z) (tx_idx : nat) (rest : list (Z * Z)) :
    Z * nat :=
  match rest with
  | [] => (cumulative_gas, tx_idx)
  | (gas, _) :: rest =>
      let cumulative_gas := add64 cumulative_gas gas in
      if threshold <=? cumulative_gas then (cumulative_gas, tx_idx)
      else reward_scan threshold cumulative_gas (S tx_idx) rest
  end.

(** The [for] over the percentiles; [sorted] is not empty when it runs. *)
Fixpoint reward_loop (gas_used : Z) (sorted : list (Z * Z)) (percentiles : list f64)
    (cumulative_gas : Z) (tx_idx : nat) : option (list Z) :=
  match percentiles with
  | [] => Some []
  | percentile :: percentiles =>
      let threshold := reward_threshold gas_used percentile in
      let '(cumulative_gas, tx_idx) :=
        reward_scan threshold cumulative_gas tx_idx (drop tx_idx sorted) in
      '(_, lst) ← last sorted;
      let tip := from_option snd lst (sorted !! tx_idx) in
      result ← reward_loop gas_used sorted percentiles cumulative_gas tx_idx;
      Some (tip :: result)
  end.

Section fee_history.
Context {CS CE T F L SE HE HS R Code Spec : Type}
  `{ColdStorage CS CE T F L, Transaction T, HotStorage HS SE HE R Code, HeaderOps}.
Abbreviation Ctx := (RpcCtx HS Spec).

(** [tx_gas_and_tip], sorted. *)
Definition tx_gas_and_tip (base_fee : Z) (txs : list T) (receipts : list (ColdReceipt L)) :
    list (Z * Z) :=
  sort_by_key snd
    (zip_with (fun tx receipt =>
       (cr_gas_used receipt, default 0 (effective_tip_per_gas tx base_fee))) txs receipts).

(** [None] is the [unwrap] of the last element of an empty list. *)
Definition calculate_reward_percentiles (percentiles : list f64) (gas_used base_fee : Z)
    (txs : list T) (receipts : list (ColdReceipt L)) : option (list Z) :=
  if (gas_used =? 0) || (length txs =? 0)%nat then Some (replicate (length percentiles) 0)
  else reward_loop gas_used (tx_gas_and_tip base_fee txs receipts) percentiles 0 0.

(** The block range of a query: [(start_block, end_block)] after the clamps. *)
Definition fee_history_range (config : StorageRpcConfig) (tags : BlockTags)
    (block_count : Z) (newest : BlockNumberOrTag) (with_rewards : bool) : Z * Z :=
  let max_fee_history :=
    if with_rewards then max_block_history config else max_header_history config in
  let block_count := Z.min block_count max_fee_history in
  let '(block_count, newest) :=
    if tag_is_pending newest then (sat_sub block_count 1, Latest) else (block_count, newest) in
  let end_block := resolve_block_tag tags newest in
  let end_block_plus := add64 end_block 1 in
  let block_count := Z.min block_count end_block_plus in
  (sub64 end_block_plus block_count, end_block).

(** One iteration of the loop over the headers. *)
Definition block_fees (cold : CS) (reward_percentiles : option (list f64)) (block_num : Z)
    (maybe_header : option SealedHeader) :
    res (EthError CE SE HE) (Z * f64 * option (list Z)) :=
  sealed ← ok_or maybe_header (EthInternal "missing header at block");
  let header := sh_header sealed in
  let base_fee := default 0 (h_base_fee_per_gas header) in
  let ratio :=
    if 0 <? h_gas_limit header
    then f64_div (f64_of_int (h_gas_used header)) (f64_of_int (h_gas_limit header))
    else f64_of_int 0 in
  match reward_percentiles with
  | None => Ok (base_fee, ratio, None)
  | Some percentiles =>
      '(txs, receipts) ← map_err EthCold
        (try_join (get_transactions_in_block cold block_num) (get_receipts_in_block cold block_num));
      rewards ← expect (calculate_reward_percentiles percentiles (h_gas_used header) base_fee
                          txs receipts);
      Ok (base_fee, ratio, Some rewards)
  end.

Definition fee_history (cold : CS) (config : StorageRpcConfig) (tags : BlockTags)
    (block_count : Z) (newest : BlockNumberOrTag) (reward_percentiles : option (list f64)) :
    res (EthError CE SE HE) FeeHistory :=
  if block_count =? 0 then Ok FeeHistory_default
  else if from_option percentiles_invalid false reward_percentiles
  then Err (EthInvalidParams "invalid reward percentiles")
  else
    let '(start_block, end_block) :=
      fee_history_range config tags block_count newest
        (match reward_percentiles with None => false | Some _ => true end) in
    headers ← map_err EthCold (get_headers cold (range_incl start_block end_block));
    rows ← mapM (fun '(offset, h) =>
                   block_fees cold reward_percentiles (start_block + Z.of_nat offset) h)
             (imap pair headers);
    let next := match last headers with
                | Some (Some sealed) => [default 0 (next_block_base_fee (sh_header sealed))]
                | _ => []
                end in
    let base_fee_per_gas := ((fun r => r.1.1) <$> rows) ++ next in
    Ok {| fh_base_fee_per_gas := base_fee_per_gas;
          fh_gas_used_ratio := (fun r => r.1.2) <$> rows;
          fh_base_fee_per_blob_gas := replicate (length base_fee_per_gas) 0;
          fh_blob_gas_used_ratio := replicate (length rows) (f64_of_int 0);
          fh_oldest_block := start_block;
          fh_reward := (fun _ => omap (fun r => r.2) rows) <$> reward_percentiles |}.

(** ** Specification *)

(** The reward at one threshold: the tip of the first transaction, by ascending
    tip, at which the gas used so far reaches the threshold; the highest tip
    when the block's transactions never reach it. *)
Fixpoint reward_at (threshold gas_before : Z) (rest : list (Z * Z)) : option Z :=
  match rest with
  | [] => None
  | [(_, tip)] => Some tip
  | (gas, tip) :: rest =>
      if threshold <=? gas_before + gas then Some tip
      else reward_at threshold (gas_before + gas) rest
  end.

Definition total_gas (l : list (Z * Z)) : Z := foldr (fun e n => e.1 + n) 0 l.

Lemma total_gas_nonneg l : Forall (fun e => 0 <= e.1) l -> 0 <= total_gas l.
Proof. unfold total_gas. induction 1; simpl; lia. Qed.

Lemma reward_scan_idx threshold c i rest : (i <= (reward_scan threshold c i rest).2)%nat.
Proof.
  revert c i. induction rest as [|[g t] rest IH]; intros c i; simpl; [done|].
  destruct (threshold <=? add64 c g); simpl; [done|]. etrans; [|apply IH]. lia.
Qed.

Lemma reward_scan_ref threshold c i rest lst :
  Forall (fun e => 0 <= e.1) rest -> 0 <= c -> c + total_gas rest <= max64 ->
  last rest = Some lst ->
  Some (from_option snd lst.2 (rest !! ((reward_scan threshold c i rest).2 - i)%nat))
  = reward_at threshold c rest.
Proof.
  intros Hg. revert c i. induction Hg as [|[g t] rest Hgt Hg IH]; intros c i Hc Hsum Hl; [done|].
  pose proof (total_gas_nonneg _ Hg) as Hr.
  cbn [total_gas foldr fst] in Hsum, Hgt. fold (total_gas rest) in Hsum.
  cbn [reward_scan]. rewrite add64_exact by width.
  destruct (Z.leb_spec threshold (c + g)) as [Hle|Hgt'].
  - cbn [snd]. rewrite Nat.sub_diag. simpl. destruct rest; [done|].
    destruct (Z.leb_spec threshold (c + g)); [done|lia].
  - destruct rest as [|e rest].
    + simpl in *. injection Hl as <-. replace (S i - i)%nat with 1%nat by lia. done.
    + cbn [last] in Hl. specialize (IH (c + g) (S i) ltac:(lia) ltac:(lia) Hl).
      change (reward_at threshold c ((g, t) :: e :: rest)) with
        (if threshold <=? c + g then Some t else reward_at threshold (c + g) (e :: rest)).
      destruct (Z.leb_spec threshold (c + g)); [lia|].
      rewrite <- IH. f_equal.
      pose proof (reward_scan_idx threshold (c + g) (S i) (e :: rest)) as Hi.
      set (k := (reward_scan threshold (c + g) (S i) (e :: rest)).2) in *.
      by replace (k - i)%nat with (S (k - S i)) by lia.
Qed.

(** The tip the loop reads at an index. *)
Definition tip_at (sorted : list (Z * Z)) (i : nat) : option Z :=
  lst ← last sorted; Some (from_option snd lst.2 (sorted !! i)).

Lemma tip_at_mono sorted i j x y :
  key_sorted snd sorted -> (i <= j)%nat ->
  tip_at sorted i = Some x -> tip_at sorted j = Some y -> x <= y.
Proof.
  intros Hs Hij. unfold tip_at. destruct (last sorted) as [lst|] eqn:Hl; [|done]. simpl.
  rewrite last_lookup in Hl. intros [= <-] [= <-].
  assert (forall k e, sorted !! k = Some e -> e.2 <= lst.2) as Hmax.
  { intros k e He. apply (Hs k (pred (length sorted)) _ _); [|done..].
    apply lookup_lt_Some in He. lia. }
  destruct (sorted !! i) as [a|] eqn:Hi, (sorted !! j) as [b|] eqn:Hj; simpl.
  - exact (Hs i j _ _ Hij Hi Hj).
  - by eapply Hmax.
  - apply lookup_ge_None in Hi. apply lookup_lt_Some in Hj. lia.
  - done.
Qed.

Lemma tip_at_elem sorted i x : tip_at sorted i = Some x -> x ∈ sorted.*2.
Proof.
  unfold tip_at. destruct (last sorted) as [lst|] eqn:Hl; [|done]. simpl. intros [= <-].
  apply list_elem_of_fmap. destruct (sorted !! i) as [a|] eqn:Hi; simpl.
  - exists a. split; [done|]. by eapply list_elem_of_lookup_2.
  - exists lst. split; [done|]. by apply last_Some_elem_of.
Qed.

Lemma reward_loop_indices gas_used sorted ps c i rewards :
  reward_loop gas_used sorted ps c i = Some rewards ->
  exists ks : list nat, Forall2 (fun k r => tip_at sorted k = Some r) ks rewards
    /\ length ks = length ps
    /\ forall a b x y, (a <= b)%nat -> (i :: ks) !! a = Some x -> (i :: ks) !! b = Some y -> (x <= y)%nat.
Proof.
  revert c i rewards. induction ps as [|p ps IH]; intros c i rewards; simpl.
  { intros [= <-]. exists []. split; [constructor|]. split; [done|].
    intros [|a] [|b] x y Hab Ha Hb; simplify_eq/=; done. }
  pose proof (reward_scan_idx (reward_threshold gas_used p) c i (drop i sorted)) as Hi.
  destruct (reward_scan _ _ _ _) as [c' i']. simpl in Hi.
  intros Hr. apply bind_Some in Hr as ([g lst] & Hl & Hr).
  apply bind_Some in Hr as (rest & Hrest & [= <-]).
  apply IH in Hrest as (ks & Hall & Hlen & Hmono). exists (i' :: ks).
  split; [constructor; [by unfold tip_at; rewrite Hl|done]|]. split; [simpl; lia|].
  intros [|a] [|b] x y Hab Ha Hb; simplify_eq/=; [lia| |lia|].
  - pose proof (Hmono 0%nat b _ _ ltac:(lia) eq_refl Hb). lia.
  - apply (Hmono a b); [lia|done..].
Qed.

(** ** Properties *)

(** C32: The rewards of a block, one per requested percentile, are tips the
    block's transactions pay and never decrease along the request, for every
    list of percentiles; a block without gas or transactions reports zeros. *)
Theorem reward_percentiles_sound percentiles gas_used base_fee txs receipts rewards :
  calculate_reward_percentiles percentiles gas_used base_fee txs receipts = Some rewards ->
  length rewards = length percentiles
  /\ key_sorted id rewards
  /\ if (gas_used =? 0) || (length txs =? 0)%nat
     then Forall (fun r => r = 0) rewards
     else Forall (fun r => exists tx, tx ∈ txs /\ r = default 0 (effective_tip_per_gas tx base_fee))
            rewards.
Proof.
  unfold calculate_reward_percentiles. destruct (_ || _).
  { intros [= <-]. rewrite length_replicate. split; [done|]. split.
    - intros i j x y _ Hx Hy. apply lookup_replicate in Hx as [-> _], Hy as [-> _]. done.
    - by apply Forall_replicate. }
  intros Hr. apply reward_loop_indices in Hr as (ks & Hall & Hlen & Hmono).
  split; [rewrite <- Hlen; symmetry; by eapply Forall2_length|]. split.
  - intros i j x y Hij Hx Hy.
    eapply Forall2_lookup_r in Hx as (a & Ha & Hx); [|exact Hall].
    eapply Forall2_lookup_r in Hy as (b & Hb & Hy); [|exact Hall].
    refine (tip_at_mono _ a b _ _ (sort_by_key_sorted _ _) _ Hx Hy).
    apply (Hmono (S i) (S j)); [lia|done..].
  - apply Forall_forall. intros r Hin. apply list_elem_of_lookup in Hin as (i & Hi).
    eapply Forall2_lookup_r in Hi as (a & _ & Ha); [|exact Hall].
    apply tip_at_elem, list_elem_of_fmap in Ha as (e & -> & He).
    unfold tx_gas_and_tip in He.
    apply (proj1 (elem_of_Permutation_proper e _ _ (sort_by_key_perm snd _))) in He.
    apply elem_of_lookup_zip_with in He as (k & tx & rc & -> & Htx & _). simpl.
    exists tx. split; [by eapply list_elem_of_lookup_2|done].
Qed.

(** The first requested percentile is exact: it is the tip at which the
    cumulative gas, by ascending tip, first reaches that share of the block's
    gas. *)
Theorem first_reward_exact p percentiles gas_used base_fee txs receipts :
  let sorted := tx_gas_and_tip base_fee txs receipts in
  gas_used <> 0 -> txs <> [] -> receipts <> [] ->
  Forall (fun e => 0 <= e.1) sorted -> total_gas sorted <= max64 ->
  exists rewards,
    calculate_reward_percentiles (p :: percentiles) gas_used base_fee txs receipts = Some rewards
    /\ head rewards = reward_at (reward_threshold gas_used p) 0 sorted.
Proof.
  intros sorted Hg Ht Hr Hpos Hsum. unfold calculate_reward_percentiles.
  replace ((gas_used =? 0) || (length txs =? 0)%nat) with false
    by (symmetry; apply orb_false_iff; split; [by apply Z.eqb_neq|by destruct txs]).
  fold sorted. assert (sorted <> []) as Hne.
  { intros Hn. pose proof (sort_by_key_perm snd (zip_with (fun tx receipt =>
       (cr_gas_used receipt, default 0 (effective_tip_per_gas tx base_fee))) txs receipts)) as Hp.
    unfold sorted, tx_gas_and_tip in Hn. rewrite Hn in Hp. apply Permutation_nil_l in Hp.
    by destruct txs, receipts. }
  destruct (last sorted) as [[g lst]|] eqn:Hl; [|by apply last_None in Hl].
  assert (forall ps c i, exists r, reward_loop gas_used sorted ps c i = Some r) as Htot.
  { induction ps as [|q ps IH]; intros c i; simpl; [by eexists|].
    destruct (reward_scan _ _ _ _) as [c' i']. rewrite Hl. simpl.
    destruct (IH c' i') as [r ->]. by eexists. }
  cbn [reward_loop]. rewrite drop_0.
  pose proof (reward_scan_ref (reward_threshold gas_used p) 0 0 sorted (g, lst) Hpos ltac:(lia)
    ltac:(lia) Hl) as Href.
  destruct (reward_scan _ _ _ _) as [c' i']. rewrite Hl. simpl in *.
  destruct (Htot percentiles c' i') as [r Hrw]. rewrite Hrw. simpl. eexists. split; [done|].
  simpl. rewrite Nat.sub_0_r in Href. done.
Qed.

(** The block range of a fee history never starts below genesis or holds
    more blocks than asked for, than the configured history and than the chain
    has, and a pending query drops one block from the request. *)
Theorem fee_history_range_spec config tags block_count newest (with_rewards : bool)
    start_block end_block :
  0 <= block_count ->
  0 <= (if with_rewards then max_block_history config else max_header_history config) ->
  0 <= resolve_block_tag tags (if tag_is_pending newest then Latest else newest) < max64 ->
  fee_history_range config tags block_count newest with_rewards = (start_block, end_block) ->
  let asked := Z.min block_count
    (if with_rewards then max_block_history config else max_header_history config) in
  end_block = resolve_block_tag tags (if tag_is_pending newest then Latest else newest)
  /\ 0 <= start_block
  /\ Z.of_nat (length (range_incl start_block end_block))
     = Z.min (if tag_is_pending newest then sat_sub asked 1 else asked) (end_block + 1).
Proof.
  intros Hb Hc He. unfold fee_history_range. revert He.
  destruct (tag_is_pending newest); intros He [= <- <-]; simpl in He;
    (split; [done|]); rewrite add64_exact by width;
    set (m := if with_rewards then _ else _) in *;
    rewrite sub64_exact by width; rewrite length_range_incl; (split; [width|width]).
Qed.

(** The arrays of a fee history fit together: with a cold storage that answers
    one entry per requested header, a non-empty answer has one gas ratio and
    (when asked) one reward row per block of the range, one more base fee than
    blocks, and blob arrays of the same lengths. *)
Theorem fee_history_shape cold config tags block_count newest rp fh :
  (forall specs hs, get_headers cold specs = Ok hs -> length hs = length specs) ->
  block_count <> 0 ->
  fee_history cold config tags block_count newest rp = Ok fh ->
  let '(start_block, end_block) := fee_history_range config tags block_count newest
         (match rp with None => false | Some _ => true end) in
  let n := length (range_incl start_block end_block) in
  length (fh_gas_used_ratio fh) = n
  /\ length (fh_base_fee_per_gas fh) = (if n =? 0 then 0 else n + 1)%nat
  /\ length (fh_base_fee_per_blob_gas fh) = length (fh_base_fee_per_gas fh)
  /\ length (fh_blob_gas_used_ratio fh) = n
  /\ fh_oldest_block fh = start_block
  /\ match rp, fh_reward fh with
     | None, None => True
     | Some _, Some rewards => length rewards = n
     | _, _ => False
     end.
Proof.
  intros Hlen Hn0. unfold fee_history. destruct (Z.eqb_spec block_count 0); [lia|].
  destruct (from_option _ _ _); [discriminate|].
  destruct (fee_history_range _ _ _ _ _) as [sb eb] eqn:Hrange.
  intros Hf. apply bind_ok in Hf as (hs & Hhs & Hf). apply map_err_ok in Hhs.
  apply bind_ok in Hf as (rows & Hrows & Hf). injection Hf as <-. cbn.
  apply mapM_ok in Hrows. apply Hlen in Hhs.
  assert (length rows = length hs) as Hl.
  { apply Forall2_length in Hrows. by rewrite length_imap in Hrows. }
  assert (last hs = None \/ exists s, last hs = Some (Some s)) as Hlast.
  { destruct (last hs) as [[s|]|] eqn:E; [right; by exists s| |by left]. exfalso.
    apply last_Some_elem_of, list_elem_of_lookup in E as (i & Hi).
    assert (imap pair hs !! i = Some (i, None)) as Hii by (rewrite list_lookup_imap, Hi; done).
    eapply Forall2_lookup_l in Hii as (row & _ & Hrow); [|exact Hrows]. discriminate Hrow. }
  rewrite length_fmap, !length_replicate, !length_app, length_fmap.
  split; [lia|]. split; [|split; [done|split; [lia|split; [done|]]]].
  - destruct Hlast as [HN|[s Hs]].
    + rewrite HN. apply last_None in HN. subst hs. simpl in *. rewrite <- Hhs. simpl. lia.
    + rewrite Hs. simpl. destruct hs; [done|]. simpl in *.
      destruct (Nat.eqb_spec (length (range_incl sb eb)) 0); lia.
  - destruct rp as [ps|]; cbn; [|done]. rewrite <- Hhs, <- Hl. clear Hl.
    induction Hrows as [|x row xs rows Hx _ IH]; [done|]. cbn.
    assert (exists r, row.2 = Some r) as (r & ->); [|simpl; by rewrite IH].
    destruct x as [off h]. unfold block_fees in Hx.
    apply bind_ok in Hx as (sealed & _ & Hx). apply bind_ok in Hx as ([ts rs] & _ & Hx).
    apply bind_ok in Hx as (rw & _ & Hx). injection Hx as <-. by eexists.
Qed.

End fee_history.

Import Sample.

(** Later percentiles are not exact: the gas of the transaction at which the
    previous percentile stopped is counted again.  In a block of 100 gas whose
    transactions use 10 and 90 gas at tips 1 and 2, the 15th percentile is tip
    2, and is reported as 2 when asked for alone, but as 1 when the 5th is asked
    for with it. *)
Theorem later_reward_double_counts :
  let txs := [Sample.mkTx 1 1 false; Sample.mkTx 2 2 false] in
  let receipt gas := mkColdReceipt (L:=unit) Legacy true 0 [] 0 0 0 0 0 gas in
  let receipts := [receipt 10; receipt 90] in
  let p n := f64_of_int n in
  calculate_reward_percentiles [p 15] 100 0 txs receipts = Some [2]
  /\ reward_at (reward_threshold 100 (p 15)) 0 (tx_gas_and_tip 0 txs receipts) = Some 2
  /\ calculate_reward_percentiles [p 5; p 15] 100 0 txs receipts = Some [1; 1].
Proof. vm_compute. auto. Qed.

(** The validation of percentiles looks at adjacent pairs and at the first
    element of each pair only: a last or single percentile above 100 passes. *)
Theorem percentile_above_100_accepted (n : Z) (ps : list f64) :
  percentiles_invalid [f64_of_int n] = false
  /\ (percentiles_invalid (ps ++ [f64_of_int 100]) = false ->
      percentiles_invalid (ps ++ [f64_of_int 100; f64_of_int 5000]) = false).
Proof.
  split; [done|]. induction ps as [|a ps IH]; intros Hv; [done|].
  destruct ps as [|b ps]; simpl in *.
  - apply orb_false_iff in Hv as [-> _]. done.
  - apply orb_false_iff in Hv as [-> Hv]. simpl. by apply IH.
Qed.
