(* ===== verification/EthFilters.v ===== *)
(** * Log queries and filter polling ([crates/rpc/src/eth/endpoints.rs])

    [eth_getLogs] and the filter endpoints.  A poll takes and drops the lock of
    the filter's shard twice, so it is modelled as the phases the source runs
    between its await points, with whatever other tasks do in between as
    arguments. *)

From Stdlib Require Import Sorted.
From S2P Require Import Prelude Primitives BlockTags Interest ChainNotifier Filters RpcConfig Errors.
From S2P Require Import Storage RpcCtx.

(** The state handlers share: the chain notifier (tags and reorg buffer) and
    the filter table. *)
Record RpcShared (T R F L : Type) := mkShared {
  rpc_chain : ChainNotifier T R L;
  rpc_filters : FilterManager F }.
Arguments mkShared {T R F L} _ _.
Arguments rpc_chain {T R F L} _.
Arguments rpc_filters {T R F L} _.

Section endpoints.
Context {CS CE SE HE TX T R F L : Type}
  `{!ColdStorage CS CE TX F L, !LogFilter F L, !Display CE SE HE}.
Abbreviation EthErr := (EthError CE SE HE).
Abbreviation Shared := (RpcShared T R F L).
Abbreviation M := (st Shared EthErr).

(** [collect_log_stream]: the first error of the stream ends it. *)
Definition collect_log_stream (stream : list (res CE (Log L))) : res CE (list (Log L)) :=
  mapM id stream.

(** The range both log queries ask of cold storage. *)
Definition number_range (from to : Z) : FilterBlockOption :=
  Range (Some (Number from)) (Some (Number to)).

(** The resolution of the block option in [get_logs].  The tags are loaded for
    one bound and then for the other, so they may have moved in between. *)
Definition resolve_log_range (config : StorageRpcConfig) (tags_from tags_to : BlockTags) (filter : F) :
    res EthErr F :=
  match block_option filter with
  | AtBlockHash _ => Ok filter
  | Range from_block to_block =>
      let from := from_option (resolve_block_tag tags_from) (latest tags_from) from_block in
      let to := from_option (resolve_block_tag tags_to) (latest tags_to) to_block in
      if to <? from then Err (EthInvalidParams "fromBlock must not exceed toBlock")
      else
        let max_blocks := max_blocks_per_filter config in
        if max_blocks <=? sub64 to from
        then Err (EthInvalidParams ("query exceeds max block range (" ++ show_u64 max_blocks ++ ")"))
        else Ok (with_block_option (number_range from to) filter)
  end.

Definition query_logs (cold : CS) (config : StorageRpcConfig) (resolved : F) : res EthErr (list (Log L)) :=
  stream ← map_err EthCold
    (stream_logs cold resolved (max_logs_per_response config) (max_log_query_deadline config));
  map_err EthCold (collect_log_stream stream).

Definition get_logs (cold : CS) (config : StorageRpcConfig) (tags_from tags_to : BlockTags) (fate : task_fate)
    (filter : F) : res EthErr (list (Log L)) :=
  await_handler fate
    (resolved ← resolve_log_range config tags_from tags_to filter; query_logs cold config resolved)
    task_panic.

Definition on_filters {A} (f : FilterManager F -> A * FilterManager F) : M A := fun s =>
  let '(a, fm) := f (rpc_filters s) in (Ok a, mkShared (rpc_chain s) fm).

Definition new_filter (now : Z) (filter : F) : M Z :=
  s ← st_get; on_filters (install_log_filter (latest (cn_tags (rpc_chain s))) now filter).
Definition new_block_filter (now : Z) : M Z :=
  s ← st_get; on_filters (install_block_filter (latest (cn_tags (rpc_chain s))) now).
Definition uninstall_filter (id : Z) : M bool :=
  on_filters (fun fm => let '(r, fm) := uninstall id fm in (bool_decide (is_Some r), fm)).

(** ** [get_filter_changes] *)

(** What the first critical section copies out of the entry. *)
Record PollSnapshot := mkSnapshot {
  ps_is_block : bool;
  ps_filter : option F;
  ps_start : Z;
  ps_removed : list (Log L);
  ps_empty : FilterOutput (L:=L) }.

Definition poll_snapshot (id : Z) : M PollSnapshot := fun s =>
  match fm_filters (rpc_filters s) !! id with
  | None => (Err (EthInvalidParams ("filter not found: " ++ show_u64 id)), s)
  | Some entry =>
      let reorgs := reorgs_since (af_last_poll_time entry) (rpc_chain s) in
      let '(removed, entry) := compute_removed_logs reorgs entry in
      (Ok (mkSnapshot (is_block (af_kind entry)) (as_filter (af_kind entry))
             (af_next_start_block entry) removed (empty_output (af_kind entry))),
       mkShared (rpc_chain s) (update_filter id (fun _ => entry) (rpc_filters s)))
  end.

(** The cold reads of a poll over [start..=latest]. *)
Definition poll_fetch (cold : CS) (config : StorageRpcConfig) (latest : Z) (snap : PollSnapshot) :
    res EthErr (FilterOutput (L:=L)) :=
  if ps_is_block snap then
    headers ← map_err EthCold (get_headers cold (range_incl (ps_start snap) latest));
    Ok (BufBlock (sh_hash <$> omap id headers))
  else
    stored ← expect (ps_filter snap);
    logs ← query_logs cold config (with_block_option (number_range (ps_start snap) latest) stored);
    Ok (BufLog (ps_removed snap ++ logs)).

(** The task: [others1] is what other tasks do between the first critical
    section and the read of the tags, [others2] what they do while cold storage
    is read; [now] is the clock at the last critical section. *)
Definition poll_task (others1 others2 : Shared -> Shared) (cold : CS) (config : StorageRpcConfig)
    (now id : Z) : M (FilterOutput (L:=L)) :=
  snap ← poll_snapshot id;
  _ ← st_modify others1;
  s ← st_get;
  let latest := latest (cn_tags (rpc_chain s)) in
  if latest <? ps_start snap then
    _ ← on_filters (fun fm => (tt, update_filter id (touch_poll_time now) fm));
    mret (match ps_removed snap with [] => ps_empty snap | removed => BufLog removed end)
  else
    result ← st_lift (poll_fetch cold config latest snap);
    _ ← st_modify others2;
    _ ← on_filters (fun fm => (tt, update_filter id (mark_polled latest now) fm));
    mret result.

(** The handler awaits the task; a panic of the task is an error answer. *)
Definition get_filter_changes (others1 others2 : Shared -> Shared) (cold : CS)
    (config : StorageRpcConfig) (now id : Z) : M (FilterOutput (L:=L)) := fun s =>
  let '(r, s) := poll_task others1 others2 cold config now id s in
  (await_handler Finished r task_panic, s).

(** ** Properties *)

(** C30: A query that reaches cold storage covers an ordered range of at most
    [max_blocks_per_filter] blocks, with each end resolved against the tags at
    the moment it is read, or the single block whose hash it names; nothing else
    of the filter changes. *)
Theorem get_logs_bounded cold config tags_from tags_to fate filter logs :
  let resolve_from := from_option (resolve_block_tag tags_from) (latest tags_from) in
  let resolve_to := from_option (resolve_block_tag tags_to) (latest tags_to) in
  (forall from to, block_option filter = Range from to -> u64_ok (resolve_from from) /\ u64_ok (resolve_to to)) ->
  get_logs cold config tags_from tags_to fate filter = Ok logs ->
  exists resolved, query_logs cold config resolved = Ok logs
    /\ match block_option filter with
       | AtBlockHash _ => resolved = filter
       | Range from to =>
           resolved = with_block_option (number_range (resolve_from from) (resolve_to to)) filter
           /\ resolve_from from <= resolve_to to
           /\ Z.of_nat (length (range_incl (resolve_from from) (resolve_to to))) <= max_blocks_per_filter config
       end.
Proof.
  intros resolve_from resolve_to Hu Hg. apply await_handler_ok in Hg as [_ Hg].
  apply bind_ok in Hg as (resolved & Hr & Hq). exists resolved. split; [done|].
  unfold resolve_log_range in Hr. destruct (block_option filter) as [h|fb tb].
  { by injection Hr as <-. }
  destruct (Hu fb tb eq_refl) as [Hf Ht]. fold resolve_from resolve_to in Hr.
  destruct (Z.ltb_spec (resolve_to tb) (resolve_from fb)) as [|Hle]; [discriminate|].
  destruct (Z.leb_spec (max_blocks_per_filter config) (sub64 (resolve_to tb) (resolve_from fb))) as [|Hlt];
    [discriminate|].
  injection Hr as <-. rewrite sub64_exact in Hlt by width. do 2 (split; [done|]).
  rewrite length_range_incl. lia.
Qed.

Lemma update_filter_lookup id g (m : FilterManager F) a :
  fm_filters m !! id = Some a -> fm_filters (update_filter id g m) !! id = Some (g a).
Proof. intros Hm. unfold update_filter. cbn [fm_filters]. by rewrite lookup_alter_eq, Hm. Qed.

(** A poll that no other task interferes with, on a log filter. *)
Lemma poll_log_ok cold config now id (s : Shared) entry f out s' :
  fm_filters (rpc_filters s) !! id = Some entry -> af_kind entry = KLog f ->
  get_filter_changes (fun s => s) (fun s => s) cold config now id s = (Ok out, s') ->
  let chain := rpc_chain s in
  let reorgs := reorgs_since (af_last_poll_time entry) chain in
  let removed := (compute_removed_logs reorgs entry).1 in
  let start := af_next_start_block (compute_removed_logs reorgs entry).2 in
  rpc_chain s' = chain
  /\ exists entry', fm_filters (rpc_filters s') !! id = Some entry' /\ af_kind entry' = KLog f
    /\ af_last_poll_time entry' = now
    /\ ((latest (cn_tags chain) < start /\ af_next_start_block entry' = start /\ out = BufLog removed)
        \/ (start <= latest (cn_tags chain)
            /\ af_next_start_block entry' = add64 (latest (cn_tags chain)) 1
            /\ exists logs,
                 query_logs cold config (with_block_option (number_range start (latest (cn_tags chain))) f)
                   = Ok logs
                 /\ out = BufLog (removed ++ logs))).
Proof.
  intros He Hk Hg chain reorgs removed start.
  unfold get_filter_changes, poll_task, mbind, st_bind in Hg.
  unfold poll_snapshot in Hg. rewrite He in Hg. fold chain reorgs in Hg.
  destruct (compute_removed_logs reorgs entry) as [rm e1] eqn:Hc.
  assert (af_kind e1 = KLog f) as Hk1.
  { unfold compute_removed_logs in Hc. rewrite Hk in Hc. simpl in Hc.
    destruct (removed_loop _ _ _ _). by injection Hc as _ <-. }
  subst removed start. cbn [fst snd] in *.
  pose proof (update_filter_lookup id (fun _ => e1) _ _ He) as Hup.
  set (fm1 := update_filter id (fun _ => e1) (rpc_filters s)) in *.
  cbn [st_modify st_get st_lift rpc_chain rpc_filters] in Hg.
  unfold st_modify, st_get in Hg. cbn [rpc_chain rpc_filters ps_start ps_removed ps_empty] in Hg.
  fold chain in Hg.
  destruct (Z.ltb_spec (latest (cn_tags chain)) (af_next_start_block e1)) as [Hlt|Hle].
  - unfold on_filters in Hg. cbn in Hg. injection Hg as <- <-. split; [done|].
    exists (touch_poll_time now e1). split; [by apply update_filter_lookup|].
    split; [done|]. split; [done|]. left.
    split; [done|]. split; [done|]. rewrite Hk1. by destruct rm.
  - unfold st_lift, poll_fetch in Hg. cbn [ps_is_block ps_filter ps_start ps_removed] in Hg.
    rewrite Hk1 in Hg. cbn in Hg.
    destruct (query_logs _ _ _) as [logs| |] eqn:Hq; cbn in Hg; [|discriminate..].
    injection Hg as <- <-. split; [done|].
    exists (mark_polled (latest (cn_tags chain)) now e1). split; [by apply update_filter_lookup|].
    split; [done|]. split; [done|]. right. do 2 (split; [done|]). by exists logs.
Qed.

(** The snapshot of a poll has the kind of its filter, and removed logs only
    for a log filter. *)
Lemma poll_snapshot_kind id (s : Shared) snap s' :
  poll_snapshot id s = (Ok snap, s') ->
  exists entry, fm_filters (rpc_filters s) !! id = Some entry
    /\ ps_is_block snap = is_block (af_kind entry) /\ ps_filter snap = as_filter (af_kind entry)
    /\ ps_empty snap = empty_output (af_kind entry)
    /\ (as_filter (af_kind entry) = None -> ps_removed snap = []).
Proof.
  unfold poll_snapshot. destruct (fm_filters _ !! id) as [entry|]; [|done].
  destruct (compute_removed_logs _ entry) as [rm e1] eqn:Hc. intros [= <- _]. exists entry. split; [done|]. cbn [ps_is_block ps_filter ps_empty ps_removed].
  unfold compute_removed_logs in Hc. destruct (as_filter (af_kind entry)) as [f|] eqn:Hf.
  - destruct (removed_loop _ _ _ _). injection Hc as <- <-. simpl. by rewrite Hf.
  - injection Hc as <- <-. simpl. by rewrite Hf.
Qed.

(** C14: The answers of a filter have its type: whatever other tasks do to the
    shared state while a poll is in progress (polls of the same filter, reorgs,
    its removal), a poll of a block filter answers with block hashes and a poll
    of a log filter with logs; in particular the removed logs that
    [compute_removed_logs] collected never reach the client of a block filter. *)
Theorem poll_output_typed others1 others2 cold config now id (s : Shared) entry out s' :
  fm_filters (rpc_filters s) !! id = Some entry ->
  get_filter_changes others1 others2 cold config now id s = (Ok out, s') ->
  match af_kind entry with
  | KBlock => exists hashes, out = BufBlock hashes
  | KLog _ => exists logs, out = BufLog logs
  end.
Proof.
  intros He Hg. unfold get_filter_changes in Hg.
  destruct (poll_task _ _ _ _ _ _ s) as [r s1] eqn:Hp. injection Hg as Hr _.
  destruct r as [o|e|]; try done. injection Hr as ->. unfold poll_task in Hp.
  apply st_bind_ok in Hp as (snap & s2 & Hs & Hp). apply poll_snapshot_kind in Hs as (e & He' & Hb & Hf & Hem & Hrm).
  rewrite He in He'. injection He' as <-.
  apply st_bind_ok in Hp as ([] & s3 & _ & Hp). apply st_bind_ok in Hp as (s4 & s5 & _ & Hp).
  destruct (_ <? _).
  - apply st_bind_ok in Hp as (u & s6 & _ & Hp). injection Hp as <- _. rewrite Hem.
    destruct (af_kind entry); [|rewrite Hrm by done; by eexists].
    destruct (ps_removed snap); by eexists.
  - apply st_bind_ok in Hp as (result & s6 & Hres & Hp). injection Hres as Hres _.
    apply st_bind_ok in Hp as ([] & s7 & _ & Hp). apply st_bind_ok in Hp as (u & s8 & _ & Hp).
    injection Hp as <- _. unfold poll_fetch in Hres. rewrite Hb, Hf in Hres.
    destruct (af_kind entry); simpl in Hres; res_inv; by eexists.
Qed.
End endpoints.
