(* ===== verification/EthFilterProps.v ===== *)
(** * A polling client is a faithful replica

    A client that undoes the removed logs a filter reports and appends the
    others holds, after every successful poll, exactly the matching logs of the
    canonical chain, through any interleaving of commits, reorgs and polls.
    Below it, the two ways a filter does lose events. *)

From Stdlib Require Import Sorted.
From S2P Require Import Prelude Primitives BlockTags Interest ChainNotifier Filters RpcConfig Errors.
From S2P Require Import Storage RpcCtx EthFilters.

#[export] Instance Log_eq_dec {L} `{EqDecision L} : EqDecision (Log L).
Proof. solve_decision. Defined.

(** ** The chain and its matching logs *)
Section chain.
Context {F L : Type} `{!LogFilter F L, !EqDecision L}.

(** The logs of the block at each height. *)
Abbreviation Canon := (Z -> list (Log L)).
Implicit Types (canon seen : Canon) (tip base : Z).

(** A block's logs carry its number and are not marked removed. *)
Definition block_logs_ok (n : Z) (logs : list (Log L)) : Prop :=
  Forall (fun l => l_block_number l = Some n /\ l_removed l = false) logs.
Definition canon_ok canon : Prop := forall n, block_logs_ok n (canon n).

Definition set_block (n : Z) (logs : list (Log L)) canon : Canon :=
  fun m => if m =? n then logs else canon m.

Definition matching (f : F) (logs : list (Log L)) : list (Log L) :=
  base.filter (fun l => matches f (l_inner l) = true) logs.

(** The matching logs of the blocks [lo..=hi]. *)
Definition logs_between (f : F) canon (lo hi : Z) : list (Log L) :=
  matching f (mjoin (canon <$> range_incl lo hi)).

(** What a client does with an answer: undo the removed logs, append the rest. *)
Definition apply_output (out : FilterOutput (L:=L)) (client : list (Log L)) : list (Log L) :=
  match out with
  | BufLog logs =>
      let removed := base.filter (fun l => l_removed l = true) logs in
      base.filter (fun l => mark_removed l ∉ removed) client
        ++ base.filter (fun l => l_removed l = false) logs
  | BufBlock _ => client
  end.

(** The reorg that drops the chain to [ancestor]. *)
Definition reorg_to (ancestor tip : Z) canon (hash time : Z -> Z) : ReorgNotification L :=
  mkReorg ancestor ((fun n => mkRemovedBlock n (hash n) (time n) (canon n)) <$> range_incl (ancestor + 1) tip).

(** [evolve seen tip0 reorgs canon tip]: commits and exactly [reorgs] take the
    chain [seen] at height [tip0] to [canon] at height [tip]. *)
Inductive evolve (seen : Canon) (tip0 : Z) : list (ReorgNotification L) -> Canon -> Z -> Prop :=
| evolve_start : evolve seen tip0 [] seen tip0
| evolve_commit reorgs canon tip logs :
    evolve seen tip0 reorgs canon tip ->
    evolve seen tip0 reorgs (set_block (tip + 1) logs canon) (tip + 1)
| evolve_reorg reorgs canon tip a hash time :
    evolve seen tip0 reorgs canon tip -> 0 <= a < tip -> tip < max64 ->
    evolve seen tip0 (reorgs ++ [reorg_to a tip canon hash time]) canon a.

(** One above the highest block no reorg of the list took back. *)
Definition kept (tip0 : Z) (reorgs : list (ReorgNotification L)) : Z :=
  foldr Z.min (tip0 + 1) ((fun r => common_ancestor r + 1) <$> reorgs).

Lemma kept_snoc tip0 reorgs r :
  kept tip0 (reorgs ++ [r]) = Z.min (kept tip0 reorgs) (common_ancestor r + 1).
Proof.
  unfold kept. induction reorgs as [|q reorgs IH]; csimpl; [lia|]. rewrite IH. lia.
Qed.

Lemma kept_le tip0 reorgs : kept tip0 reorgs <= tip0 + 1.
Proof. unfold kept. induction reorgs; csimpl; lia. Qed.

Lemma kept_below tip0 reorgs n :
  n < kept tip0 reorgs <->
  n <= tip0 /\ forall j r, reorgs !! j = Some r -> n <= common_ancestor r.
Proof.
  unfold kept. induction reorgs as [|q reorgs IH]; csimpl.
  - split; [intros; split; [lia|done]|intros [? _]; lia].
  - rewrite Z.min_glb_lt_iff, IH. split.
    + intros (Hq & Ht & Hr). split; [done|]. intros [|j] r Hj; simplify_eq/=; [lia|by eapply Hr].
    + intros (Ht & Hr). split; [pose proof (Hr 0%nat q eq_refl); lia|]. split; [done|].
      intros j r Hj. by apply (Hr (S j)).
Qed.

Lemma reorg_to_blocks a tip canon hash time b :
  b ∈ removed_blocks (reorg_to a tip canon hash time) <->
  a < rb_number b <= tip /\ b = mkRemovedBlock (rb_number b) (hash (rb_number b))
                                  (time (rb_number b)) (canon (rb_number b)).
Proof.
  unfold reorg_to. cbn [removed_blocks]. rewrite list_elem_of_fmap. split.
  - intros (n & -> & Hn%elem_of_range_incl). cbn. split; [lia|done].
  - intros [Hn Hb]. exists (rb_number b). split; [done|]. apply elem_of_range_incl. lia.
Qed.

Lemma reorg_to_wf a tip canon hash time :
  0 <= a < tip -> tip < max64 -> reorg_wf (reorg_to a tip canon hash time).
Proof.
  intros Ha Ht. split; [cbn; lia|]. split.
  - unfold reorg_to. cbn [removed_blocks]. rewrite <- list_fmap_compose.
    replace (rb_number ∘ _) with (fun n : Z => n) by done. rewrite list_fmap_id. apply NoDup_seqZ.
  - apply Forall_forall. intros b Hb. apply reorg_to_blocks in Hb. cbn. lia.
Qed.

Lemma evolve_wf seen tip0 reorgs canon tip :
  evolve seen tip0 reorgs canon tip -> Forall reorg_wf reorgs.
Proof.
  induction 1; [constructor|done|]. apply Forall_app. split; [done|].
  by apply Forall_singleton, reorg_to_wf.
Qed.
(** Below [kept] the canonical chain is the one the client saw. *)
Lemma evolve_agree seen tip0 reorgs canon tip :
  evolve seen tip0 reorgs canon tip ->
  kept tip0 reorgs <= tip + 1 /\ forall n, n < kept tip0 reorgs -> canon n = seen n.
Proof.
  induction 1 as [|reorgs canon tip logs _ [IHk IH]|reorgs canon tip a hash time _ [IHk IH] Ha Ht].
  - split; [unfold kept; simpl; lia|done].
  - split; [lia|]. intros n Hn. unfold set_block. destruct (Z.eqb_spec n (tip + 1)); [lia|by apply IH].
  - rewrite kept_snoc. cbn [common_ancestor]. split; [cbn; lia|]. intros n Hn. apply IH. lia.
Qed.

Lemma delivered_at_prefix next (reorgs : list (ReorgNotification L)) r i b :
  (i < length reorgs)%nat ->
  delivered_at next (reorgs ++ [r]) i b <-> delivered_at next reorgs i b.
Proof.
  intros Hi. unfold delivered_at. split; intros [Hn Hd]; (split; [done|]); intros j q Hj Hq.
  - apply (Hd j q Hj). by apply lookup_app_l_Some.
  - rewrite lookup_app_l in Hq by lia. by apply (Hd j q Hj).
Qed.

Lemma delivered_at_last tip0 (reorgs : list (ReorgNotification L)) r b :
  delivered_at (tip0 + 1) (reorgs ++ [r]) (length reorgs) b <-> rb_number b < kept tip0 reorgs.
Proof.
  rewrite kept_below. unfold delivered_at. split; intros [Hn Hd]; (split; [lia|]).
  - intros j q Hq. apply (Hd j q); [by eapply lookup_lt_Some|by apply lookup_app_l_Some].
  - intros j q Hj Hq. rewrite lookup_app_l in Hq by done. by eapply Hd.
Qed.

(** The delivered removed blocks are exactly the blocks the client saw from
    [kept] up. *)
Lemma evolve_removed seen tip0 reorgs canon tip :
  evolve seen tip0 reorgs canon tip ->
  (forall i r b, reorgs !! i = Some r -> b ∈ removed_blocks r -> delivered_at (tip0 + 1) reorgs i b ->
     kept tip0 reorgs <= rb_number b <= tip0 /\ rb_logs b = seen (rb_number b))
  /\ (forall n, kept tip0 reorgs <= n <= tip0 ->
       exists i r b, reorgs !! i = Some r /\ b ∈ removed_blocks r
         /\ delivered_at (tip0 + 1) reorgs i b /\ rb_number b = n).
Proof.
  induction 1 as [|reorgs canon tip logs _ IH|reorgs canon tip a hash time He [IH1 IH2] Ha Ht]; [|done|].
  { split; [intros i r b Hr; by rewrite lookup_nil in Hr|]. unfold kept. simpl. lia. }
  apply evolve_agree in He as [Hk Hag]. rewrite kept_snoc. cbn [common_ancestor reorg_to].
  set (q := reorg_to a tip canon hash time). split.
  - intros i r b Hr Hb Hd. apply lookup_app_Some in Hr as [Hr|[Hi Hr]].
    + pose proof (lookup_lt_Some _ _ _ Hr) as Hlt. rewrite delivered_at_prefix in Hd by done.
      destruct (IH1 i r b Hr Hb Hd) as [? ?]. split; [lia|done].
    + apply list_lookup_singleton_Some in Hr as [Hi0 <-].
      assert (i = length reorgs) as -> by lia. apply delivered_at_last in Hd.
      apply reorg_to_blocks in Hb as [Hn Hb]. pose proof (kept_le tip0 reorgs).
      split; [lia|]. rewrite Hb. cbn. by apply Hag.
  - intros n Hn. destruct (Z.le_gt_cases (kept tip0 reorgs) n) as [Hle|Hgt].
    + destruct (IH2 n ltac:(lia)) as (i & r & b & Hr & Hb & Hd & Heq). exists i, r, b.
      split; [by apply lookup_app_l_Some|]. split; [done|]. split; [|done].
      apply delivered_at_prefix; [by eapply lookup_lt_Some|done].
    + exists (length reorgs), q, (mkRemovedBlock n (hash n) (time n) (canon n)).
      split; [by rewrite list_lookup_middle|]. split; [apply reorg_to_blocks; cbn; split; [lia|done]|].
      split; [|done]. by apply delivered_at_last.
Qed.
(** *** The client's list *)
Lemma logs_between_nil f canon lo hi : hi < lo -> logs_between f canon lo hi = [].
Proof. intros H. unfold logs_between. by rewrite range_incl_nil. Qed.

Lemma logs_between_split f canon lo mid hi :
  lo <= mid -> mid <= hi + 1 ->
  logs_between f canon lo hi = logs_between f canon lo (mid - 1) ++ logs_between f canon mid hi.
Proof.
  intros Hl Hh. unfold logs_between, matching. rewrite (range_incl_split lo mid hi) by done.
  by rewrite fmap_app, join_app, filter_app.
Qed.

Lemma elem_of_logs_between f canon lo hi l :
  l ∈ logs_between f canon lo hi <->
  matches f (l_inner l) = true /\ exists n, lo <= n <= hi /\ l ∈ canon n.
Proof.
  unfold logs_between, matching. rewrite list_elem_of_filter, list_elem_of_join. split.
  - intros (Hm & ls & Hl & Hls). apply list_elem_of_fmap in Hls as (n & -> & Hn%elem_of_range_incl).
    split; [done|]. by exists n.
  - intros (Hm & n & Hn & Hl). split; [done|]. exists (canon n). split; [done|].
    apply list_elem_of_fmap. exists n. by rewrite elem_of_range_incl.
Qed.

Lemma logs_between_ext f canon seen lo hi :
  (forall n, lo <= n <= hi -> canon n = seen n) ->
  logs_between f canon lo hi = logs_between f seen lo hi.
Proof.
  intros Heq. unfold logs_between. do 2 f_equal. apply list_fmap_ext. intros i n Hn.
  apply Heq, elem_of_range_incl. by eapply list_elem_of_lookup_2.
Qed.

Lemma canon_ok_log canon n l :
  canon_ok canon -> l ∈ canon n -> l_block_number l = Some n /\ l_removed l = false.
Proof. intros Hc Hl. specialize (Hc n). unfold block_logs_ok in Hc. rewrite Forall_forall in Hc. by apply Hc. Qed.

Lemma logs_between_unremoved f canon lo hi :
  canon_ok canon -> Forall (fun l => l_removed l = false) (logs_between f canon lo hi).
Proof.
  intros Hc. apply Forall_forall. intros l (_ & n & _ & Hl)%elem_of_logs_between.
  by apply (canon_ok_log canon n).
Qed.

(** What a poll's scan reports, in terms of the chain the client saw. *)
Lemma removed_logs_seen f seen tip0 reorgs canon tip l :
  evolve seen tip0 reorgs canon tip ->
  l ∈ (removed_loop f (tip0 + 1) reorgs []).1 <->
  exists n lg, kept tip0 reorgs <= n <= tip0 /\ lg ∈ seen n
    /\ matches f (l_inner lg) = true /\ l = mark_removed lg.
Proof.
  intros He. rewrite elem_of_removed_loop by by eapply evolve_wf.
  apply evolve_removed in He as [H1 H2]. split.
  - intros (i & r & b & lg & Hr & Hb & Hd & Hl & Hm & ->).
    destruct (H1 i r b Hr Hb Hd) as [Hn Hs]. exists (rb_number b), lg. by rewrite <- Hs.
  - intros (n & lg & Hn & Hl & Hm & ->). destruct (H2 n Hn) as (i & r & b & Hr & Hb & Hd & <-).
    destruct (H1 i r b Hr Hb Hd) as [_ Hs]. exists i, r, b, lg. by rewrite Hs.
Qed.

(** Undoing what the scan reports leaves the logs below [kept]. *)
Lemma client_undo f seen tip0 reorgs canon tip base :
  evolve seen tip0 reorgs canon tip -> canon_ok seen ->
  let removed := (removed_loop f (tip0 + 1) reorgs []).1 in
  base.filter (fun l => mark_removed l ∉ removed) (logs_between f seen base tip0)
  = logs_between f seen base (kept tip0 reorgs - 1).
Proof.
  intros He Hs removed. pose proof (kept_le tip0 reorgs) as Hk.
  assert (forall l n, kept tip0 reorgs <= n <= tip0 -> l ∈ seen n -> matches f (l_inner l) = true ->
    mark_removed l ∈ removed) as Hin.
  { intros l n Hn Hl Hm. apply (removed_logs_seen f _ _ _ _ _ _ He). by exists n, l. }
  assert (forall lo, kept tip0 reorgs <= lo ->
    base.filter (fun l => mark_removed l ∉ removed) (logs_between f seen lo tip0) = []) as Hnone.
  { intros lo Hlo. apply filter_none, Forall_forall. intros l (Hm & n & Hn & Hl)%elem_of_logs_between.
    intros Hno. apply Hno, (Hin l n); [lia|done..]. }
  destruct (Z.le_gt_cases base (kept tip0 reorgs)) as [Hle|Hgt].
  - rewrite (logs_between_split f seen base (kept tip0 reorgs) tip0), filter_app by lia.
    rewrite (Hnone (kept tip0 reorgs)) by lia. rewrite app_nil_r. apply filter_all, Forall_forall.
    intros l (Hm & n & Hn & Hl)%elem_of_logs_between Hrm.
    apply (removed_logs_seen f _ _ _ _ _ _ He) in Hrm as (n' & lg & Hn' & Hl' & _ & Heq).
    apply (f_equal l_block_number) in Heq. cbn in Heq.
    destruct (canon_ok_log _ _ _ Hs Hl) as [Hx _], (canon_ok_log _ _ _ Hs Hl') as [Hy _].
    rewrite Hx, Hy in Heq. injection Heq as Heq. lia.
  - rewrite Hnone by lia. by rewrite logs_between_nil by lia.
Qed.

(** Applying an answer of a poll brings the client up to the canonical chain. *)
Lemma client_catches_up f seen tip0 reorgs canon tip base :
  evolve seen tip0 reorgs canon tip -> canon_ok seen -> canon_ok canon ->
  apply_output
    (BufLog ((removed_loop f (tip0 + 1) reorgs []).1 ++ logs_between f canon (kept tip0 reorgs) tip))
    (logs_between f seen base tip0)
  = logs_between f canon (Z.min base (kept tip0 reorgs)) tip.
Proof.
  intros He Hs Hc. pose proof (client_undo f _ _ _ _ _ base He Hs) as Hundo. cbn zeta in Hundo.
  pose proof (evolve_agree _ _ _ _ _ He) as [Hk Hag].
  assert (Forall (fun l => l_removed l = true) (removed_loop f (tip0 + 1) reorgs []).1) as Hrm.
  { apply Forall_forall. intros l (n & lg & _ & _ & _ & ->)%(removed_logs_seen f _ _ _ _ _ _ He). done. }
  pose proof (logs_between_unremoved f canon (kept tip0 reorgs) tip Hc) as Hnew.
  unfold apply_output. rewrite !filter_app. rewrite (filter_all _ _ Hrm).
  rewrite (filter_none (fun l => l_removed l = true)) by (eapply Forall_impl; [done|]; intros; congruence).
  rewrite (filter_none (fun l => l_removed l = false)) by (eapply Forall_impl; [done|]; intros; congruence).
  rewrite (filter_all _ _ Hnew), app_nil_r, app_nil_l, Hundo.
  rewrite <- (logs_between_ext f canon) by (intros n Hn; apply Hag; lia).
  destruct (Z.le_gt_cases base (kept tip0 reorgs)) as [Hle|Hgt].
  - rewrite Z.min_l by done. by rewrite <- logs_between_split by lia.
  - rewrite Z.min_r by lia. by rewrite (logs_between_nil f canon base) by lia.
Qed.
End chain.

(** ** The reorg buffer keeps what a filter has not seen *)
Section pending.
Context {T R L : Type}.
Implicit Types (c : ChainNotifier T R L) (r : ReorgNotification L).

(** Entries are in clock order and none is in the future. *)
Definition buffer_ordered (now : Z) c : Prop :=
  clock_ordered (cn_reorgs c) /\ Forall (fun e => e.1 <= now) (cn_reorgs c).

Lemma reorgs_since_push since now clock r c :
  buffer_ordered clock c -> since < now ->
  (length (reorgs_since since c) < MAX_REORG_ENTRIES)%nat ->
  reorgs_since since (send_reorg now r c) = reorgs_since since c ++ [r].
Proof.
  intros [Ho _] Hs Hlen. unfold reorgs_since, send_reorg, send_event, push_reorg in *.
  cbn [cn_reorgs]. rewrite length_fmap in Hlen.
  rewrite filter_app, fmap_app, filter_cons_True, filter_nil by done. f_equal.
  destruct (Nat.leb_spec MAX_REORG_ENTRIES (length (cn_reorgs c))) as [Hfull|]; [|done].
  destruct (cn_reorgs c) as [|[t0 r0] buf]; [done|]. cbn [tail].
  destruct (decide (since < t0)) as [Hin|Hout]; [exfalso|by rewrite filter_cons_False].
  inversion Ho as [|x l _ Hall]; subst. rewrite filter_all in Hlen; [lia|].
  constructor; [done|]. eapply Forall_impl; [exact Hall|]. intros [t q]. cbn. lia.
Qed.

Lemma reorgs_since_now now c : buffer_ordered now c -> reorgs_since now c = [].
Proof.
  intros [_ Hb]. unfold reorgs_since. rewrite filter_none; [done|].
  eapply Forall_impl; [exact Hb|]. intros [t r]. cbn. lia.
Qed.

Lemma buffer_ordered_later clock now c : clock <= now -> buffer_ordered clock c -> buffer_ordered now c.
Proof. intros Hn [Ho Hb]. split; [done|]. eapply Forall_impl; [exact Hb|]. cbn. lia. Qed.

Lemma buffer_ordered_push clock now r c :
  clock < now -> buffer_ordered clock c -> buffer_ordered now (send_reorg now r c).
Proof.
  intros Hn [Ho Hb]. unfold buffer_ordered, send_reorg, send_event, push_reorg. cbn [cn_reorgs].
  set (old := if (MAX_REORG_ENTRIES <=? _)%nat then _ else _).
  assert (clock_ordered old /\ Forall (fun e : Z * ReorgNotification L => e.1 <= clock) old) as [Hko Hkb].
  { subst old. destruct (_ <=? _)%nat; [|done]. destruct (cn_reorgs c); [done|].
    inversion Ho; inversion Hb; by subst. }
  split.
  - unfold clock_ordered in *. clear - Hko Hkb Hn. induction Hko as [|e l _ IH He]; cbn.
    + repeat constructor.
    + inversion Hkb; subst. constructor; [by apply IH|]. apply Forall_app. split; [done|].
      repeat constructor. cbn. lia.
  - apply Forall_app. split; [|by repeat constructor].
    eapply Forall_impl; [exact Hkb|]. cbn. lia.
Qed.
End pending.

(** ** Sessions of one polling client *)
Section session.
Context {CS CE SE HE TX T R F L : Type}
  `{!ColdStorage CS CE TX F L, !LogFilter F L, !Display CE SE HE, !EqDecision L}.
Context (config : StorageRpcConfig) (f : F) (id : Z).
Abbreviation Shared := (RpcShared T R F L).
Abbreviation Canon := (Z -> list (Log L)).

(** A log query cold storage answers in full is answered from the canonical
    chain, in block order. *)
Definition serves (cold : CS) (canon : Canon) (tip : Z) : Prop :=
  forall from to max_logs deadline stream logs,
    to <= tip ->
    stream_logs cold (with_block_option (number_range from to) f) max_logs deadline = Ok stream ->
    collect_log_stream stream = Ok logs -> logs = logs_between f canon from to.

Record Session := mkSession {
  ss_cold : CS; ss_canon : Canon; ss_tip : Z; ss_clock : Z;
  ss_rpc : Shared; ss_client : list (Log L);
  ss_low : Z }.  (* the lowest block the client follows: where it started, or where a reorg took it *)

(** The filter was installed by [new_filter] on a chain at rest. *)
Definition session_start (s : Session) : Prop :=
  exists rpc0, new_filter (CE:=CE) (SE:=SE) (HE:=HE) (ss_clock s) f rpc0 = (Ok id, ss_rpc s)
    /\ latest (cn_tags (rpc_chain rpc0)) = ss_tip s /\ buffer_ordered (ss_clock s) (rpc_chain rpc0)
    /\ 0 <= ss_tip s < max64 /\ canon_ok (ss_canon s) /\ serves (ss_cold s) (ss_canon s) (ss_tip s)
    /\ ss_client s = [] /\ ss_low s = ss_tip s + 1.

(** A block is committed; the chain is reorged, at most 25 times between two
    polls; the client polls alone; other filters come and go. *)
Inductive session_step : Session -> Session -> Prop :=
| step_commit cold canon tip clock rpc client low cold' logs notif sf fn :
    tip + 1 < max64 -> block_logs_ok (tip + 1) logs ->
    serves cold' (set_block (tip + 1) logs canon) (tip + 1) ->
    session_step (mkSession cold canon tip clock rpc client low)
      (mkSession cold' (set_block (tip + 1) logs canon) (tip + 1) clock
         (mkShared (with_tags (update_all (tip + 1) sf fn) (send_new_block notif (rpc_chain rpc)))
            (rpc_filters rpc)) client low)
| step_reorg cold canon tip clock rpc client low cold' a now hash time entry :
    0 <= a < tip -> clock < now -> serves cold' canon a ->
    fm_filters (rpc_filters rpc) !! id = Some entry ->
    (length (reorgs_since (af_last_poll_time entry) (rpc_chain rpc)) < MAX_REORG_ENTRIES)%nat ->
    session_step (mkSession cold canon tip clock rpc client low)
      (mkSession cold' canon a now
         (mkShared (send_reorg now (reorg_to a tip canon hash time)
                      (with_tags (rewind_to a) (rpc_chain rpc))) (rpc_filters rpc)) client
         (Z.min low (a + 1)))
| step_poll cold canon tip clock rpc client low now out rpc' :
    clock < now ->
    get_filter_changes (CE:=CE) (SE:=SE) (HE:=HE) (fun s => s) (fun s => s) cold config now id rpc
      = (Ok out, rpc') ->
    session_step (mkSession cold canon tip clock rpc client low)
      (mkSession cold canon tip now rpc' (apply_output out client) low)
| step_others cold canon tip clock rpc client low fm :
    fm_filters fm !! id = fm_filters (rpc_filters rpc) !! id ->
    session_step (mkSession cold canon tip clock rpc client low)
      (mkSession cold canon tip clock (mkShared (rpc_chain rpc) fm) client low).

(** The client holds the chain it saw at its last poll, which the reorgs still
    in the buffer and commits connect to the canonical chain. *)
Definition session_inv (s : Session) : Prop :=
  exists seen tip0 last base,
    fm_filters (rpc_filters (ss_rpc s)) !! id = Some (mkActiveFilter (tip0 + 1) last (KLog f))
    /\ last <= ss_clock s
    /\ evolve seen tip0 (reorgs_since last (rpc_chain (ss_rpc s))) (ss_canon s) (ss_tip s)
    /\ canon_ok seen /\ canon_ok (ss_canon s) /\ serves (ss_cold s) (ss_canon s) (ss_tip s)
    /\ latest (cn_tags (rpc_chain (ss_rpc s))) = ss_tip s /\ 0 <= ss_tip s < max64
    /\ buffer_ordered (ss_clock s) (rpc_chain (ss_rpc s))
    /\ ss_client s = logs_between f seen base tip0
    /\ base <= tip0 + 1
    /\ ss_low s = Z.min base (kept tip0 (reorgs_since last (rpc_chain (ss_rpc s)))).

Lemma session_start_inv s : session_start s -> session_inv s.
Proof.
  intros (rpc0 & Hn & Ht & Hb & Htip & Hc & Hs & Hcl & Hlow).
  unfold new_filter, on_filters, mbind, st_bind, st_get in Hn. cbn in Hn. injection Hn as Hid Hrpc.
  exists (ss_canon s), (ss_tip s), (ss_clock s), (ss_tip s + 1). rewrite <- Hrpc. cbn.
  split. { rewrite <- Hid, lookup_insert_eq, Ht, add64_exact by width. done. }
  split; [lia|]. rewrite reorgs_since_now by done. split; [constructor|].
  do 6 (split; [done|]).
  rewrite logs_between_nil by lia. split; [done|]. split; [done|]. unfold kept. simpl. lia.
Qed.

Lemma canon_ok_set (canon : Canon) n logs : canon_ok canon -> block_logs_ok n logs -> canon_ok (set_block n logs canon).
Proof. intros Hc Hl m. unfold set_block. by destruct (Z.eqb_spec m n) as [->|]. Qed.

(** A poll brings the client up to date, whatever it had missed. *)
Lemma poll_catches_up cold canon tip clock rpc client low now out rpc' :
  session_inv (mkSession cold canon tip clock rpc client low) -> clock < now ->
  get_filter_changes (CE:=CE) (SE:=SE) (HE:=HE) (fun s => s) (fun s => s) cold config now id rpc
    = (Ok out, rpc') ->
  fm_filters (rpc_filters rpc') !! id = Some (mkActiveFilter (tip + 1) now (KLog f))
  /\ rpc_chain rpc' = rpc_chain rpc
  /\ apply_output out client = logs_between f canon low tip
  /\ low <= tip + 1.
Proof.
  intros (seen & tip0 & last & base & He & Hlast & Hev & Hseen & Hcanon & Hserves & Ht & Htip & Hb & Hmine & Hbase & Hlow)
    Hnow Hg.
  cbn [ss_rpc ss_clock ss_canon ss_tip ss_cold ss_client ss_low] in *. subst client.
  apply (poll_log_ok _ _ _ _ _ _ f _ _ He eq_refl) in Hg as (Hch & entry & He' & Hk & Hl & Hcase).
  cbn [af_last_poll_time] in *. unfold compute_removed_logs in Hcase. cbn [as_filter af_kind] in Hcase.
  cbn [af_next_start_block] in Hcase.
  pose proof (removed_loop_next f (tip0 + 1) _ [] (evolve_wf _ _ _ _ _ Hev)) as Hnext.
  pose proof (client_catches_up f _ _ _ _ _ base Hev Hseen Hcanon) as Hcl.
  destruct (removed_loop f (tip0 + 1) (reorgs_since last (rpc_chain rpc)) []) as [removed next].
  cbn [fst snd af_next_start_block] in *. fold (kept tip0 (reorgs_since last (rpc_chain rpc))) in Hnext.
  pose proof (evolve_agree _ _ _ _ _ Hev) as [Hkept _].
  set (k := kept tip0 (reorgs_since last (rpc_chain rpc))) in *. subst next. rewrite Ht in Hcase.
  destruct entry as [nx lp kd]. cbn in Hk, Hl. subst kd lp low. rewrite He'. cbn in Hcase.
  destruct Hcase as [(Hlt & -> & ->)|(Hle & -> & logs & Hq & ->)].
  - assert (k = tip + 1) as Hk by lia. split; [by rewrite Hk|]. split; [done|].
    split; [|lia].
    rewrite <- Hcl, Hk, (logs_between_nil f canon (tip + 1)) by lia. by rewrite app_nil_r.
  - rewrite add64_exact by width. split; [done|]. split; [done|]. split; [|lia].
    rewrite <- Hcl. do 2 f_equal.
    unfold query_logs in Hq. apply bind_ok in Hq as (stream & Hst & Hq).
    apply map_err_ok in Hst, Hq. f_equal. by eapply Hserves.
Qed.

Lemma session_step_inv s s' : session_step s s' -> session_inv s -> session_inv s'.
Proof.
  intros Hstep Hinv. destruct Hstep as
    [cold canon tip clock rpc client low cold' logs notif sf fn Htip Hlogs Hserves
    |cold canon tip clock rpc client low cold' a now hash time entry Ha Hnow Hserves Hent Hlen
    |cold canon tip clock rpc client low now out rpc' Hnow Hg
    |cold canon tip clock rpc client low fm Hfm].
  - destruct Hinv as (seen & tip0 & last & base & He & Hl & Hev & Hsn & Hc & _ & _ & Ht & Hb & Hcl).
    exists seen, tip0, last, base. cbn in *. do 2 (split; [done|]). split; [by apply evolve_commit|].
    split; [done|]. split; [by apply canon_ok_set|]. split; [exact Hserves|].
    split; [by destruct (cn_tags (rpc_chain rpc))|]. split; [lia|]. split; [exact Hb|exact Hcl].
  - destruct Hinv as (seen & tip0 & last & base & He & Hl & Hev & Hsn & Hc & _ & Ht & Htip & Hb & Hcl & Hbt & Hlow).
    exists seen, tip0, last, base.
    cbn [ss_rpc ss_clock ss_canon ss_tip ss_cold ss_client ss_low rpc_chain rpc_filters] in *.
    rewrite He in Hent. injection Hent as <-. split; [done|]. split; [lia|].
    rewrite (reorgs_since_push last now clock _ (with_tags (rewind_to a) (rpc_chain rpc)) Hb
        ltac:(lia) Hlen). rewrite kept_snoc. cbn [common_ancestor reorg_to].
    split; [by apply evolve_reorg; [|lia|lia]|].
    do 3 (split; [done|]). split.
    { change (latest (rewind_to a (cn_tags (rpc_chain rpc))) = a). rewrite rewind_to_eq. cbn. lia. }
    split; [lia|]. split; [by apply (buffer_ordered_push clock)|]. do 2 (split; [done|]).
    rewrite Hlow. change (reorgs_since last (with_tags (rewind_to a) (rpc_chain rpc)))
      with (reorgs_since last (rpc_chain rpc)). lia.
  - destruct (poll_catches_up _ _ _ _ _ _ _ _ _ _ Hinv Hnow Hg) as (He & Hch & Hcl & Hlow).
    destruct Hinv as (seen & tip0 & last & base & _ & _ & _ & _ & Hc & Hsv & Ht & Htip & Hb & _).
    exists canon, tip, now, low. cbn [ss_rpc ss_clock ss_canon ss_tip ss_cold ss_client ss_low] in *.
    rewrite Hch. apply (buffer_ordered_later _ now) in Hb; [|lia].
    split; [done|]. split; [lia|]. rewrite reorgs_since_now by done. split; [constructor|].
    do 6 (split; [done|]). split; [done|]. split; [lia|]. unfold kept. simpl. lia.
  - destruct Hinv as (seen & tip0 & last & base & He & Hrest). exists seen, tip0, last, base.
    cbn in *. by rewrite Hfm.
Qed.

(** C37: A polling log client is exact.  It starts with [eth_newFilter] on a chain
    at rest and undoes and appends what [eth_getFilterChanges] answers.  After
    any sequence of commits, reorgs (at most 25 between two polls), successful
    polls of this client and changes of other filters, a further successful
    poll leaves it with exactly the matching logs of the canonical chain, in
    order, from the block after its installation (or after the lowest reorg
    since) up to the tip. *)
Theorem polling_client_exact s0 s now out rpc' :
  session_start s0 -> rtc session_step s0 s -> ss_clock s < now ->
  get_filter_changes (CE:=CE) (SE:=SE) (HE:=HE) (fun s => s) (fun s => s) (ss_cold s) config now id
    (ss_rpc s) = (Ok out, rpc') ->
  apply_output out (ss_client s) = logs_between f (ss_canon s) (ss_low s) (ss_tip s).
Proof.
  intros Hs Hr. apply session_start_inv in Hs. revert Hs.
  induction Hr as [s|s s1 s2 Hstep _ IH]; intros Hinv Hnow Hg.
  - destruct s. by eapply poll_catches_up.
  - by apply (session_step_inv _ _ Hstep) in Hinv; auto.
Qed.
End session.

(** ** A sample chain

    Block [n] has one log of address 7; cold storage answers from the canonical
    chain, or is unavailable ([None]). *)
Module SamplePoll.
Import Sample.
Definition Canon : Type := Z -> list (Log raw_log).
Definition log_at (fork n : Z) : Log raw_log :=
  mkLog 7 (Some (1000 * fork + n)) (Some n) None None None (Some 0) false.
Definition canon (fork : Z) : Canon := fun n => [log_at fork n].
Definition watch : log_filter := (Range None None, 7).

#[export] Instance chain_cold : ColdStorage (option Canon) unit unit log_filter raw_log := {
  get_header_by_number _ _ := Ok None;
  get_headers _ ns := Ok ((fun _ => None) <$> ns);
  get_transactions_in_block _ _ := Ok [];
  get_transaction_count _ _ := Ok 0;
  get_receipts_in_block _ _ := Ok [];
  get_tx_by_hash _ _ := Ok None;
  get_tx_by_block_and_index _ _ _ := Ok None;
  get_receipt _ _ := Ok None;
  stream_logs c fl _ _ :=
    match c, fl.1 with
    | Some canon, Range (Some (Number a)) (Some (Number b)) => Ok (Ok <$> logs_between fl canon a b)
    | _, _ => Err tt
    end;
  get_latest_block _ := Ok None }.
#[export] Instance poll_display : Display unit unit unit := {
  show_hash _ := "h"%string; show_id _ := "i"%string; show_u64 _ := "n"%string;
  show_cold _ := "c"%string; show_hot _ := "s"%string; show_db _ := "d"%string }.

Definition Shared := RpcShared unit unit log_filter raw_log.
Definition at_rest (tip : Z) : Shared :=
  mkShared (with_tags (update_all tip 0 0) ChainNotifier_new) FilterManager_new.
Definition poll (cold : option Canon) (now : Z) (s : Shared) :=
  get_filter_changes (CE:=unit) (SE:=unit) (HE:=unit) (fun s => s) (fun s => s) cold
    StorageRpcConfig_default now 1 s.
(** The node's updates for a commit up to [tip] and a reorg back to [a]. *)
Definition commit_to (tip : Z) (s : Shared) : Shared :=
  mkShared (with_tags (update_all tip 0 0) (rpc_chain s)) (rpc_filters s).
Definition reorg_back (now a tip fork : Z) (s : Shared) : Shared :=
  mkShared (send_reorg now (reorg_to a tip (canon fork) id id) (with_tags (rewind_to a) (rpc_chain s)))
    (rpc_filters s).
(** A session: installed at block 10, block 11 committed and polled, a reorg
    back to 10, another block 11. *)
Definition new_block (n : Z) (s : Shared) : Shared :=
  mkShared (with_tags (update_all n 0 0) (send_new_block (mkNewBlock (header n) [] []) (rpc_chain s)))
    (rpc_filters s).
Definition chain1 : Canon := set_block 11 [log_at 1 11] (canon 1).
Definition chain2 : Canon := set_block 11 [log_at 2 11] chain1.
Definition rpc0 : Shared := (new_filter (CE:=unit) (SE:=unit) (HE:=unit) 1 watch (at_rest 10)).2.
Definition rpc1 : Shared := (poll (Some chain1) 2 (new_block 11 rpc0)).2.
Definition rpc2 : Shared :=
  new_block 11 (mkShared (send_reorg 3 (reorg_to 10 11 chain1 id id) (with_tags (rewind_to 10) (rpc_chain rpc1)))
    (rpc_filters rpc1)).
(** Installed at block 10, polled at block 12. *)
Definition polled_at_12 : Shared :=
  (poll (Some (canon 1)) 2
     (commit_to 12 ((new_filter (CE:=unit) (SE:=unit) (HE:=unit) 1 watch (at_rest 10)).2))).2.
End SamplePoll.
Import Sample SamplePoll.

Lemma serves_chain (c : Canon) tip : serves watch (Some c) c tip.
Proof.
  intros from to m d stream logs _ Hs Hl. cbn in Hs. injection Hs as <-.
  unfold collect_log_stream in Hl. apply mapM_ok in Hl. symmetry.
  change (logs_between (number_range from to, 7) c from to) with (logs_between watch c from to) in Hl.
  revert Hl. generalize (logs_between watch c from to). intros l. revert logs.
  induction l as [|x l IH]; intros logs Hl; [by apply Forall2_nil_inv_l in Hl|].
  apply Forall2_cons_inv_l in Hl as (y & ys & [= ->] & Hys & ->). by rewrite <- (IH ys).
Qed.

Lemma polling_client_exact_witness :
  let '(r, _) := poll (Some chain2) 4 rpc2 in
  r = Ok (BufLog [mark_removed (log_at 1 11); log_at 2 11])
  /\ apply_output (BufLog [mark_removed (log_at 1 11); log_at 2 11]) [log_at 1 11]
     = logs_between watch chain2 11 11.
Proof.
  destruct (poll (Some chain2) 4 rpc2) as [r rpc'] eqn:Hp.
  assert (r = Ok (BufLog [mark_removed (log_at 1 11); log_at 2 11])) as ->.
  { apply (f_equal fst) in Hp. vm_compute in Hp. by symmetry. }
  split; [done|].
  apply (polling_client_exact (CE:=unit) (SE:=unit) (HE:=unit) StorageRpcConfig_default watch 1
    (mkSession (Some (canon 1)) (canon 1) 10 1 rpc0 [] 11)
    (mkSession (Some chain2) chain2 11 3 rpc2 [log_at 1 11] 11) 4 _ rpc'); [| |reflexivity|exact Hp].
  - exists (at_rest 10). split; [reflexivity|]. split; [reflexivity|].
    split; [split; repeat constructor|]. split; [vm_compute; split; [discriminate|reflexivity]|].
    split; [|split; [apply serves_chain|by split]]. intros n. by repeat constructor.
  - eapply rtc_l; [apply (step_commit _ _ _ _ _ _ _ _ _ _ (Some chain1) [log_at 1 11]
      (mkNewBlock (header 11) [] []) 0 0); [reflexivity|by repeat constructor|apply serves_chain]|].
    eapply rtc_l; [apply (step_poll _ _ _ _ _ _ _ _ _ _ 2 (BufLog [log_at 1 11]) rpc1);
      reflexivity|].
    eapply rtc_l; [eapply (step_reorg _ _ _ _ _ _ _ _ _ _ (Some chain1) 10 3 id id);
      [split; [discriminate|reflexivity]|reflexivity|apply serves_chain|reflexivity|]|].
    { vm_compute. lia. }
    eapply rtc_l; [apply (step_commit _ _ _ _ _ _ _ _ _ _ (Some chain2) [log_at 2 11]
      (mkNewBlock (header 11) [] []) 0 0); [reflexivity|by repeat constructor|apply serves_chain]|].
    apply rtc_refl.
Defined.

(** Instance: the poll of the session above, on a log filter. *)
Lemma poll_output_typed_witness : exists logs, (poll (Some chain2) 4 rpc2).1 = Ok (BufLog logs).
Proof.
  destruct (poll (Some chain2) 4 rpc2) as [r rpc'] eqn:Hp.
  destruct r as [out|e|]; [|apply (f_equal fst) in Hp; vm_compute in Hp; discriminate..].
  destruct (fm_filters (rpc_filters rpc2) !! 1) as [entry|] eqn:He; [|vm_compute in He; discriminate].
  pose proof (poll_output_typed _ _ _ _ _ _ _ _ _ _ He Hp) as Ht.
  assert (af_kind entry = KLog watch) as Hk by (vm_compute in He; by injection He as <-).
  rewrite Hk in Ht. destruct Ht as [logs ->]. by exists logs.
Defined.

(** A poll that fails after its first critical section loses the reorg: the
    cursor is already rewound but the poll time is not, so the retry skips the
    removed blocks as undelivered.  Here cold storage is unavailable during one
    poll; the retry reports the replacement logs without the removals that the
    same poll reports when the failed one is left out. *)
Theorem failed_poll_loses_removals :
  let s := commit_to 12 (reorg_back 3 10 12 1 polled_at_12) in
  let '(first, s1) := poll None 4 s in
  first = Err (EthCold tt)
  /\ (poll (Some (canon 2)) 5 s1).1 = Ok (BufLog [log_at 2 11; log_at 2 12])
  /\ (poll (Some (canon 2)) 5 s).1
     = Ok (BufLog [mark_removed (log_at 1 11); mark_removed (log_at 1 12); log_at 2 11; log_at 2 12]).
Proof. vm_compute. auto. Qed.

(** A reorg that strikes while a poll reads cold storage is lost: the poll ends
    by stamping its own time and cursor over it, so no later poll reports the
    removed blocks. *)
Theorem concurrent_reorg_lost :
  let s := commit_to 13 polled_at_12 in
  let '(first, s1) := get_filter_changes (CE:=unit) (SE:=unit) (HE:=unit) (fun s => s)
     (reorg_back 3 10 13 1) (Some (canon 1)) StorageRpcConfig_default 4 1 s in
  first = Ok (BufLog [log_at 1 13])
  /\ latest (cn_tags (rpc_chain s1)) = 10
  /\ length (cn_reorgs (rpc_chain s1)) = 1%nat
  /\ (poll (Some (canon 2)) 5 s1).1 = Ok (BufLog [])
  /\ (poll (Some (canon 2)) 5 (commit_to 13 s1)).1 = Ok (BufLog []).
Proof. vm_compute. auto. Qed.
