(* ===== verification/EthQueries.v ===== *)
(** * Block, transaction and account queries ([crates/rpc/src/eth/endpoints.rs])

    The read-only handlers over cold and hot storage, the RPC objects they
    build ([eth/helpers.rs]) and their lazy serialisation ([eth/types.rs]). *)

From S2P Require Import Prelude Primitives BlockTags Errors Storage RpcConfig RpcCtx.

(** What the handlers read of a transaction beyond [Transaction]: its 2718
    encoding, and the address it creates. *)
Class TxEncoding (T : Type) := {
  encoded_2718 : T -> list Z;
  create_address : Address -> Z -> Address }.
(** The bloom of a stored receipt. *)
Class ReceiptBloom (L : Type) := { bloom : ColdReceipt L -> Z }.

(** [alloy::rpc::types::Transaction]. *)
Record RpcTransaction (T : Type) := mkRpcTx {
  rt_inner : T;
  rt_signer : Address;
  rt_block_hash : option B256;
  rt_block_number : option Z;
  rt_transaction_index : option Z;
  rt_effective_gas_price : option Z }.
Arguments mkRpcTx {T} _ _ _ _ _ _.
Arguments rt_inner {T} _.
Arguments rt_signer {T} _.
Arguments rt_block_hash {T} _.
Arguments rt_block_number {T} _.
Arguments rt_transaction_index {T} _.
Arguments rt_effective_gas_price {T} _.

(** [TransactionReceipt]; the envelope is its type with the inner receipt. *)
Record RpcReceipt (L : Type) := mkRpcReceipt {
  rr_tx_type : TxType;
  rr_status : bool;
  rr_cumulative_gas_used : Z;
  rr_logs : list (Log L);
  rr_logs_bloom : Z;
  rr_transaction_hash : B256;
  rr_transaction_index : option Z;
  rr_block_hash : option B256;
  rr_block_number : option Z;
  rr_from : Address;
  rr_to : option Address;
  rr_gas_used : Z;
  rr_contract_address : option Address;
  rr_effective_gas_price : Z;
  rr_blob_gas_price : option Z;
  rr_blob_gas_used : option Z }.
Arguments mkRpcReceipt {L} _ _ _ _ _ _ _ _ _ _ _ _ _ _ _ _.
Arguments rr_effective_gas_price {L} _.
Arguments rr_to {L} _.
Arguments rr_contract_address {L} _.
Arguments rr_transaction_hash {L} _.

(** [BlockTransactions], [RpcBlock] and [LazyReceipts]. *)
Inductive BlockTransactions (T : Type) :=
| Full (txs : list T) (block_num : Z) (block_hash : B256) (base_fee : option Z)
| Hashes (txs : list T).
Arguments Full {T} _ _ _ _.
Arguments Hashes {T} _.

Record RpcBlock (T : Type) := mkRpcBlk { rb_header : RpcHeader; rb_transactions : BlockTransactions T }.
Arguments mkRpcBlk {T} _ _.
Arguments rb_header {T} _.
Arguments rb_transactions {T} _.

Record LazyReceipts (T L : Type) := mkLazy {
  lr_txs : list T; lr_receipts : list (ColdReceipt L); lr_base_fee : option Z }.
Arguments mkLazy {T L} _ _ _.
Arguments lr_txs {T L} _.
Arguments lr_receipts {T L} _.
Arguments lr_base_fee {T L} _.

Section queries.
Context {CS CE T F L SE HE HS R Code Spec : Type}
  `{!ColdStorage CS CE T F L, !Transaction T, !TxEncoding T, !ReceiptBloom L,
    !HotStorage HS SE HE R Code, !Display CE SE HE}.
Abbreviation EthErr := (EthError CE SE HE).
Abbreviation Ctx := (RpcCtx HS Spec).

(** [effective_tip_per_gas(bf).unwrap_or_default() as u64 + bf], or
    [max_fee_per_gas() as u64] without a base fee. *)
Definition effective_gas_price (tx : T) (base_fee : option Z) : Z :=
  match base_fee with
  | Some bf => add64 (wrap64 (default 0 (effective_tip_per_gas tx bf))) bf
  | None => wrap64 (max_fee_per_gas tx)
  end.

Definition build_rpc_transaction (tx : T) (meta : ConfirmationMeta) (base_fee : option Z) :
    RpcTransaction T :=
  mkRpcTx tx (tx_signer tx) (Some (m_block_hash meta)) (Some (m_block_number meta))
    (Some (m_transaction_index meta)) (Some (effective_gas_price tx base_fee)).

Definition build_receipt (cr : ColdReceipt L) (tx : T) (base_fee : option Z) : RpcReceipt L :=
  let '(contract_address, to) :=
    match tx_kind tx with
    | Create => (Some (create_address (cr_from cr) (tx_nonce tx)), None)
    | Call addr => (None, Some addr)
    end in
  {| rr_tx_type := cr_tx_type cr; rr_status := cr_status cr;
     rr_cumulative_gas_used := cr_cumulative_gas_used cr; rr_logs := cr_logs cr;
     rr_logs_bloom := bloom cr; rr_transaction_hash := cr_tx_hash cr;
     rr_transaction_index := Some (cr_transaction_index cr);
     rr_block_hash := Some (cr_block_hash cr); rr_block_number := Some (cr_block_number cr);
     rr_from := cr_from cr; rr_to := to; rr_gas_used := cr_gas_used cr;
     rr_contract_address := contract_address;
     rr_effective_gas_price := effective_gas_price tx base_fee;
     rr_blob_gas_price := None; rr_blob_gas_used := None |}.

(** The elements [BlockTransactions::serialize] and [LazyReceipts::serialize]
    write. *)
Definition serialize_transactions (b : BlockTransactions T) : list (RpcTransaction T + B256) :=
  match b with
  | Full txs block_num block_hash base_fee =>
      imap (fun i tx =>
        inl (build_rpc_transaction tx (mkMeta block_num block_hash (Z.of_nat i)) base_fee)) txs
  | Hashes txs => (inr ∘ tx_hash) <$> txs
  end.
Definition serialize_receipts (lr : LazyReceipts T L) : list (RpcReceipt L) :=
  zip_with (fun tx cr => build_receipt cr tx (lr_base_fee lr)) (lr_txs lr) (lr_receipts lr).

Definition rpc_header_of (sealed : SealedHeader) : RpcHeader :=
  mkRpcHeader (sh_hash sealed) (sh_header sealed) None None.
Definition sealed_base_fee (h : option SealedHeader) : option Z :=
  h ≫= fun h => h_base_fee_per_gas (sh_header h).

(** *** Handlers; [?] on a resolution error is [EthResolve], on a cold error
    [EthCold]. *)
Definition block_num_of (ctx : Ctx) (id : BlockId) : res EthErr Z :=
  map_err EthResolve (resolve_block_id ctx id).

(** The handlers of a block read cold storage more than once, each time as it
    is then: [cold_h] and [cold_t] are the states at the read of the header and
    of the transactions. *)
Definition block_reads (cold_h cold_t : CS) (ctx : Ctx) (fate : task_fate) (id : BlockId)
    (full : option bool) : res EthErr (option (RpcBlock T)) :=
  let full := default false full in
  await_handler fate
    (block_num ← block_num_of ctx id;
     '(header, txs) ← map_err EthCold
       (try_join (get_header_by_number cold_h block_num) (get_transactions_in_block cold_t block_num));
     Ok (match header with
         | None => None
         | Some sealed =>
             let base_fee := h_base_fee_per_gas (sh_header sealed) in
             let transactions :=
               if full : bool then Full txs block_num (sh_hash sealed) base_fee else Hashes txs in
             Some (mkRpcBlk (rpc_header_of sealed) transactions)
         end))
    task_panic.

(** Nothing is written between the reads. *)
Definition block (cold : CS) := block_reads cold cold.

Definition block_tx_count (cold : CS) (ctx : Ctx) (fate : task_fate) (id : BlockId) :
    res EthErr (option Z) :=
  await_handler fate
    (block_num ← block_num_of ctx id;
     count ← map_err EthCold (get_transaction_count cold block_num);
     Ok (Some count))
    task_panic.

Definition block_receipts (cold : CS) (ctx : Ctx) (fate : task_fate) (id : BlockId) :
    res EthErr (option (LazyReceipts T L)) :=
  await_handler fate
    (block_num ← block_num_of ctx id;
     '(header, txs, receipts) ← map_err EthCold
       (try_join3 (get_header_by_number cold block_num) (get_transactions_in_block cold block_num)
          (get_receipts_in_block cold block_num));
     Ok (match header with
         | None => None
         | Some sealed => Some (mkLazy txs receipts (h_base_fee_per_gas (sh_header sealed)))
         end))
    task_panic.

Definition header_by (ctx : Ctx) (fate : task_fate) (id : BlockId) : res EthErr (option RpcHeader) :=
  await_handler fate
    (found ← map_err EthResolve (resolve_header ctx id); Ok (fmap (M:=option) rpc_header_of found))
    task_panic.

(** The common tail of the two transaction lookups. *)
Definition confirmed_transaction (cold : CS) (confirmed : option (T * ConfirmationMeta)) :
    res EthErr (option (RpcTransaction T)) :=
  match confirmed with
  | None => Ok None
  | Some (tx, meta) =>
      header ← map_err EthCold (get_header_by_number cold (m_block_number meta));
      Ok (Some (build_rpc_transaction tx meta (sealed_base_fee header)))
  end.

Definition transaction_by_hash (cold : CS) (fate : task_fate) (hash : B256) :
    res EthErr (option (RpcTransaction T)) :=
  await_handler fate
    (confirmed ← map_err EthCold (get_tx_by_hash cold hash); confirmed_transaction cold confirmed)
    task_panic.

Definition raw_transaction_by_hash (cold : CS) (fate : task_fate) (hash : B256) :
    res EthErr (option (list Z)) :=
  await_handler fate
    (confirmed ← map_err EthCold (get_tx_by_hash cold hash);
     Ok (fmap (M:=option) (fun c => encoded_2718 c.1) confirmed))
    task_panic.

Definition transaction_by_block_and_index (cold : CS) (ctx : Ctx) (fate : task_fate) (id : BlockId)
    (index : Z) : res EthErr (option (RpcTransaction T)) :=
  await_handler fate
    (block_num ← block_num_of ctx id;
     confirmed ← map_err EthCold (get_tx_by_block_and_index cold block_num index);
     confirmed_transaction cold confirmed)
    task_panic.

Definition raw_transaction_by_block_and_index (cold : CS) (ctx : Ctx) (fate : task_fate)
    (id : BlockId) (index : Z) : res EthErr (option (list Z)) :=
  await_handler fate
    (block_num ← block_num_of ctx id;
     confirmed ← map_err EthCold (get_tx_by_block_and_index cold block_num index);
     Ok (fmap (M:=option) (fun c => encoded_2718 c.1) confirmed))
    task_panic.

Definition transaction_receipt (cold : CS) (fate : task_fate) (hash : B256) :
    res EthErr (option (RpcReceipt L)) :=
  await_handler fate
    (found ← map_err EthCold (get_receipt cold hash);
     match found with
     | None => Ok None
     | Some cr =>
         '(tx, header) ← map_err EthCold
           (try_join (get_tx_by_hash cold (cr_tx_hash cr)) (get_header_by_number cold (cr_block_number cr)));
         tx ← ok_or (fst <$> tx) (EthTransactionMissing (cr_tx_hash cr));
         Ok (Some (build_receipt cr tx (sealed_base_fee header)))
     end)
    task_panic.

(** *** Account state at a height; hot read errors become [Internal] with the
    error's text. *)
Definition latest_or (block : option BlockId) : BlockId := default (IdNumber Latest) block.
Definition hot_err (e : HE) : EthErr := EthInternal (show_db e).

Definition account_at (ctx : Ctx) (address : Address) (block : option BlockId) :
    res EthErr (R * option Account) :=
  '(rd, height) ← hot_reader_at_block ctx (latest_or block);
  acct ← map_err hot_err (get_account_at_height rd address (Some height));
  Ok (rd, acct).

Definition balance (ctx : Ctx) (fate : task_fate) (address : Address) (block : option BlockId) :
    res EthErr Z :=
  await_handler fate
    ('(_, acct) ← account_at ctx address block; Ok (from_option acct_balance 0 acct)) task_panic.

Definition storage_at (ctx : Ctx) (fate : task_fate) (address : Address) (key : Z)
    (block : option BlockId) : res EthErr B256 :=
  await_handler fate
    ('(rd, height) ← hot_reader_at_block ctx (latest_or block);
     val ← map_err hot_err (get_storage_at_height rd address key (Some height));
     Ok (default 0 val))
    task_panic.

Definition addr_tx_count (ctx : Ctx) (fate : task_fate) (address : Address) (block : option BlockId) :
    res EthErr Z :=
  await_handler fate
    ('(_, acct) ← account_at ctx address block; Ok (from_option acct_nonce 0 acct)) task_panic.

Definition code_at (ctx : Ctx) (fate : task_fate) (address : Address) (block : option BlockId) :
    res EthErr (list Z) :=
  await_handler fate
    ('(rd, acct) ← account_at ctx address block;
     match acct with
     | None => Ok []
     | Some acct =>
         match acct_bytecode_hash acct with
         | None => Ok []
         | Some code_hash =>
             code ← map_err hot_err (get_bytecode rd code_hash);
             Ok (from_option original_bytes [] code)
         end
     end)
    task_panic.

(** ** Consistency across endpoints *)

(** The documented contract of cold storage: its indices by hash and by
    position, and its receipts, agree with the block bodies. *)
Class CoherentCold (cold : CS) : Prop := {
  coherent_tx n h txs i tx :
    get_header_by_number cold n = Ok (Some h) -> get_transactions_in_block cold n = Ok txs ->
    txs !! i = Some tx ->
    let meta := mkMeta n (sh_hash h) (Z.of_nat i) in
    get_tx_by_block_and_index cold n (Z.of_nat i) = Ok (Some (tx, meta))
    /\ get_tx_by_hash cold (tx_hash tx) = Ok (Some (tx, meta));
  coherent_receipt n h txs crs i tx cr :
    get_header_by_number cold n = Ok (Some h) ->
    get_transactions_in_block cold n = Ok txs -> get_receipts_in_block cold n = Ok crs ->
    txs !! i = Some tx -> crs !! i = Some cr ->
    cr_tx_hash cr = tx_hash tx /\ cr_block_number cr = n
    /\ get_receipt cold (cr_tx_hash cr) = Ok (Some cr) }.

Lemma try_join3_ok {E A B C} (a : res E A) (b : res E B) (c : res E C) x y z :
  try_join3 a b c = Ok (x, y, z) <-> a = Ok x /\ b = Ok y /\ c = Ok z.
Proof. unfold try_join3. destruct a, b, c; simpl; naive_solver. Qed.

(** What a successful [block_reads] read: when the block at the resolved height
    is replaced between its two reads, the answer joins the header and hash of
    one block with the transactions of the other. *)
Lemma block_reads_ok cold_h cold_t ctx fate id full blk :
  block_reads cold_h cold_t ctx fate id full = Ok (Some blk) ->
  exists n h txs, resolve_block_id ctx id = Ok n
    /\ get_header_by_number cold_h n = Ok (Some h) /\ get_transactions_in_block cold_t n = Ok txs
    /\ blk = mkRpcBlk (rpc_header_of h)
               (if default false full then Full txs n (sh_hash h) (h_base_fee_per_gas (sh_header h))
                else Hashes txs).
Proof.
  intros Hb. apply await_handler_ok in Hb as [_ Hb]. apply bind_ok in Hb as (n & Hn & Hb).
  apply map_err_ok in Hn. apply bind_ok in Hb as ([header txs] & Hj & Hb).
  apply map_err_ok, try_join_ok in Hj as [Hh Ht]. destruct header as [h|]; [|discriminate].
  injection Hb as <-. by exists n, h, txs.
Qed.

Lemma block_ok cold ctx fate id full blk :
  block cold ctx fate id full = Ok (Some blk) ->
  exists n h txs, resolve_block_id ctx id = Ok n
    /\ get_header_by_number cold n = Ok (Some h) /\ get_transactions_in_block cold n = Ok txs
    /\ blk = mkRpcBlk (rpc_header_of h)
               (if default false full then Full txs n (sh_hash h) (h_base_fee_per_gas (sh_header h))
                else Hashes txs).
Proof. apply block_reads_ok. Qed.

(** C23: The three ways to ask for a transaction agree.  Over coherent cold storage,
    entry [i] of a full block is what [eth_getTransactionByBlock*AndIndex]
    answers for index [i] of that block and what [eth_getTransactionByHash]
    answers for its hash, every derived field included; and the block with
    hashes lists exactly the hashes of those entries. *)
Theorem transaction_queries_agree cold ctx fate id blk `{!CoherentCold cold} :
  block cold ctx fate id (Some true) = Ok (Some blk) ->
  exists entries,
    serialize_transactions (rb_transactions blk) = inl <$> entries
    /\ (forall i rt, entries !! i = Some rt ->
          transaction_by_block_and_index cold ctx Finished id (Z.of_nat i) = Ok (Some rt)
          /\ transaction_by_hash cold Finished (tx_hash (rt_inner rt)) = Ok (Some rt))
    /\ exists blk', block cold ctx fate id None = Ok (Some blk') /\ rb_header blk' = rb_header blk
         /\ serialize_transactions (rb_transactions blk') = (fun rt => inr (tx_hash (rt_inner rt))) <$> entries.
Proof.
  intros Hb. pose proof Hb as Hb'. apply block_ok in Hb as (n & h & txs & Hn & Hh & Ht & ->).
  set (fee := h_base_fee_per_gas (sh_header h)) in *.
  exists (imap (fun i tx => build_rpc_transaction tx (mkMeta n (sh_hash h) (Z.of_nat i)) fee) txs).
  split; [simpl; by rewrite fmap_imap|]. split.
  - intros i rt Hi. rewrite list_lookup_imap in Hi.
    destruct (txs !! i) as [tx|] eqn:Htx; [|discriminate]. injection Hi as <-.
    destruct (coherent_tx n h txs i tx Hh Ht Htx) as [Hidx Hhash].
    unfold transaction_by_block_and_index, transaction_by_hash, block_num_of. cbn [rt_inner build_rpc_transaction].
    rewrite Hn, Hhash. cbn. rewrite Hidx. cbn. by rewrite Hh.
  - exists (mkRpcBlk (rpc_header_of h) (Hashes txs)). split.
    { apply await_handler_ok in Hb' as [-> _]. unfold block, block_reads, block_num_of. rewrite Hn. cbn.
      by rewrite Hh, Ht. }
    split; [done|]. cbn. rewrite fmap_imap. clear. apply list_eq. intros i.
    rewrite list_lookup_fmap, list_lookup_imap. by destruct (txs !! i).
Qed.

(** Receipts agree too: every receipt [eth_getBlockReceipts] serialises is what
    [eth_getTransactionReceipt] answers for its transaction hash, and there is
    one per stored transaction when the body and the receipts have one length. *)
Theorem receipt_queries_agree cold ctx fate id lr `{!CoherentCold cold} :
  block_receipts cold ctx fate id = Ok (Some lr) ->
  (forall i rr, serialize_receipts lr !! i = Some rr ->
     transaction_receipt cold Finished (rr_transaction_hash rr) = Ok (Some rr))
  /\ (length (lr_txs lr) = length (lr_receipts lr) ->
      length (serialize_receipts lr) = length (lr_txs lr)).
Proof.
  intros Hb. apply await_handler_ok in Hb as [_ Hb]. apply bind_ok in Hb as (n & Hn & Hb).
  apply bind_ok in Hb as ([[header txs] crs] & Hj & Hb).
  apply map_err_ok, try_join3_ok in Hj as (Hh & Ht & Hc).
  destruct header as [h|]; [|discriminate]. injection Hb as <-.
  unfold serialize_receipts. cbn [lr_txs lr_receipts lr_base_fee]. split.
  - intros i rr Hi. apply lookup_zip_with_Some in Hi as (tx & cr & -> & Htx & Hcr).
    destruct (coherent_receipt n h txs crs i tx cr Hh Ht Hc Htx Hcr) as (Hhash & Hnum & Hrec).
    destruct (coherent_tx n h txs i tx Hh Ht Htx) as [_ Hby].
    assert (rr_transaction_hash (build_receipt cr tx (h_base_fee_per_gas (sh_header h))) = cr_tx_hash cr)
      as -> by (unfold build_receipt; by destruct (tx_kind tx)).
    unfold transaction_receipt. rewrite Hrec. cbn. rewrite Hhash, Hnum, Hby. cbn. by rewrite Hh.
  - intros Hl. rewrite length_zip_with. lia.
Qed.

(** The price a transaction is reported to have paid: with the tip that alloy
    computes (the priority fee capped at the fee cap less the base fee) it is
    the base fee plus that tip and never more than the fee cap, and it is the
    same in the transaction and in its receipt. *)
Theorem effective_gas_price_bounds tx bf tip cr meta :
  effective_tip_per_gas tx bf = Some tip ->
  0 <= tip -> 0 <= bf -> bf + tip <= max_fee_per_gas tx -> max_fee_per_gas tx <= max64 ->
  rt_effective_gas_price (build_rpc_transaction tx meta (Some bf)) = Some (bf + tip)
  /\ bf <= bf + tip <= max_fee_per_gas tx
  /\ rr_effective_gas_price (build_receipt cr tx (Some bf)) = bf + tip.
Proof.
  intros Ht H0 H1 H2 H3. assert (effective_gas_price tx (Some bf) = bf + tip) as He.
  { unfold effective_gas_price. rewrite Ht. change (default 0 (Some tip)) with tip.
    unfold wrap64. rewrite Z.mod_small, add64_exact by width. lia. }
  split; [unfold build_rpc_transaction; cbn [rt_effective_gas_price]; by rewrite He|]. split; [lia|].
  unfold build_receipt. destruct (tx_kind tx); cbn [rr_effective_gas_price]; done.
Qed.

(** The account endpoints answer for one snapshot: a successful balance, nonce
    or code query reads one read transaction at the height its block resolves
    to, an absent account has balance and nonce zero and no code, and the code
    is read from the transaction that found the account. *)
Theorem account_queries_consistent ctx fate address block n b code :
  balance ctx fate address block = Ok b ->
  addr_tx_count ctx fate address block = Ok n ->
  code_at ctx fate address block = Ok code ->
  exists rd height acct,
    reader (ctx_storage ctx) = Ok rd /\ resolve_block_id ctx (latest_or block) = Ok height
    /\ get_account_at_height rd address (Some height) = Ok acct
    /\ b = from_option acct_balance 0 acct /\ n = from_option acct_nonce 0 acct
    /\ (code = [] \/ exists a hash c, acct = Some a /\ acct_bytecode_hash a = Some hash
          /\ get_bytecode rd hash = Ok (Some c) /\ code = original_bytes c).
Proof.
  unfold balance, addr_tx_count, code_at. intros Hb Hn Hc.
  apply await_handler_ok in Hb as [_ Hb], Hn as [_ Hn], Hc as [_ Hc].
  apply bind_ok in Hb as ([rd acct] & Ha & Hb). rewrite Ha in Hn, Hc. cbn in Hn, Hc.
  injection Hb as <-. injection Hn as <-.
  apply bind_ok in Ha as ([rd' height] & Hr & Ha). apply bind_ok in Ha as (acct' & Hg & Ha).
  injection Ha as <- <-. apply map_err_ok in Hg. apply hot_reader_at_block_height in Hr as [Hr Hh].
  exists rd', height, acct'. do 5 (split; [done|]).
  destruct acct' as [a|]; [|injection Hc as <-; by left].
  destruct (acct_bytecode_hash a) as [hash|] eqn:Hbh; [|injection Hc as <-; by left].
  apply bind_ok in Hc as (c & Hc & Hcode). apply map_err_ok in Hc. injection Hcode as <-.
  destruct c as [c|]; [|by left]. right. by exists a, hash, c.
Qed.
End queries.
