(* ===== verification/EthCall.v ===== *)
(** * Calls and transaction submission ([crates/rpc/src/eth/endpoints.rs],
    [crates/rpc/src/signet/endpoints.rs])

    [eth_call], [eth_estimateGas], [eth_createAccessList], [signet_callBundle],
    the two forwarding endpoints and the constant answers.  The EVM (trevm,
    revm, the bundle driver) is a parameter: what the code asks of it is the
    class below. *)

From S2P Require Import Prelude Primitives BlockTags Interest Errors Storage RpcConfig RpcCtx Subs.

(** [trevm::MIN_TRANSACTION_GAS]. *)
Definition MIN_TRANSACTION_GAS : Z := 21000.

(** [TransactionRequest]: its gas, and the rest of it. *)
Record TxRequest (Q : Type) := mkRequest { rq_gas : option Z; rq_rest : Q }.
Arguments mkRequest {Q} _ _.
Arguments rq_gas {Q} _.
Arguments rq_rest {Q} _.

(** [ExecutionResult] and [EstimationResult]; halt reasons are their [Debug]
    text. *)
Inductive ExecutionResult := ExSuccess (output : list Z) | ExRevert (output : list Z) | ExHalt (reason : string).
Inductive EstimationResult := EstSuccess (limit : Z) | EstRevert (reason : list Z) | EstHalt (reason : string).
Record AccessListResult (A : Type) := mkAccessList {
  al_access_list : A; al_gas_used : Z; al_error : option string }.
Arguments mkAccessList {A} _ _ _.
Arguments al_access_list {A} _.
Arguments al_gas_used {A} _.
Arguments al_error {A} _.

(** The EVM: [V] a configured machine over a database of type [DB], [Q] the
    request beyond its gas, [SO] and [BO] the overrides, [A] access lists.
    Fallible operations fail with the text of their error. *)
Class Evm (V DB Spec Q SO BO A : Type) := {
  evm_new : DB -> Spec -> Z -> Header -> V;
  apply_state_overrides : option SO -> V -> res string V;
  apply_block_overrides : option BO -> V -> V;
  fill_tx : TxRequest Q -> V -> V;
  cap_tx_gas : V -> res string V;
  evm_call : V -> res string ExecutionResult;
  estimate : V -> res string EstimationResult;
  access_list : Q -> option A;
  empty_access_list : A;
  run_access_list : A -> V -> res string Z * A }.

(** The transaction cache's decoding ([TxEnvelope::decode_2718]). *)
Class TxDecoder (X : Type) := { decode_2718 : list Z -> res string X; x_hash : X -> B256 }.

(** [signet_bundle]: the call bundle, its driver and its response. *)
Class BundleDriver (V B BR : Type) := {
  bundle_timeout : B -> option Z;
  state_block_number : B -> BlockNumberOrTag;
  drive_bundle : B -> V -> res string BR }.

(** [Some(..MIN_TRANSACTION_GAS)] first, then the cap. *)
Definition normalize_gas_stateless {Q} (request : TxRequest Q) (max_gas : Z) : TxRequest Q :=
  match rq_gas request with
  | Some val =>
      if val <? MIN_TRANSACTION_GAS then mkRequest None (rq_rest request)
      else if max_gas <? val then mkRequest (Some max_gas) (rq_rest request)
      else request
  | None => request
  end.

(** [SubscriptionKind] and the conversion of [eth_subscribe]'s arguments. *)
Inductive SubscriptionKind := SubLogs | SubNewHeads | SubOther (debug : string).

Section calls.
Context {V Q SO BO A X B BR SE HE CE HS R Code Spec F TX : Type}
  `{!HotStorage HS SE HE R Code, !HeaderOps, !Display CE SE HE, !Evm V (R * Z) Spec Q SO BO A,
    !TxDecoder X, !BundleDriver V B BR}.
Abbreviation EthErr := (EthError CE SE HE).
Abbreviation Ctx := (RpcCtx HS Spec).

(** [TxParams]. *)
Record TxParams := mkParams {
  tp_request : TxRequest Q; tp_block : option BlockId;
  tp_state_overrides : option SO; tp_block_overrides : option BO }.

Definition internal {E} (r : res string E) : res EthErr E := map_err EthInternal r.

(** The machine of a resolved block, before the request. *)
Definition block_evm (ctx : Ctx) (eb : EvmBlockContext R Spec) : V :=
  evm_new (eb_db eb) (eb_spec_id eb) (ctx_chain_id ctx) (eb_header eb).

(** The common prefix of the three endpoints: resolve, configure, override,
    fill. *)
Definition prepare_evm (ctx : Ctx) (id : BlockId) (p : TxParams) : res EthErr V :=
  eb ← resolve_evm_block ctx id;
  v ← internal (apply_state_overrides (tp_state_overrides p) (block_evm ctx eb));
  Ok (fill_tx (tp_request p) (apply_block_overrides (tp_block_overrides p) v)).

Definition run_call (ctx : Ctx) (fate : task_fate) (p : TxParams) : res EthErr ExecutionResult :=
  await_handler fate
    (v ← prepare_evm ctx (default (IdNumber Latest) (tp_block p)) p;
     v ← internal (cap_tx_gas v);
     internal (evm_call v))
    task_panic.

Definition normalized (ctx : Ctx) (p : TxParams) : TxParams :=
  mkParams (normalize_gas_stateless (tp_request p) (rpc_gas_cap (ctx_config ctx)))
    (tp_block p) (tp_state_overrides p) (tp_block_overrides p).

Definition call (ctx : Ctx) (fate inner_fate : task_fate) (p : TxParams) : res EthErr (list Z) :=
  await_handler fate
    (result ← run_call ctx inner_fate (normalized ctx p);
     match result with
     | ExSuccess output => Ok output
     | ExRevert output => Err (EthEvmRevert output)
     | ExHalt reason => Err (EthEvmHalt reason)
     end)
    task_panic.

Definition estimate_gas (ctx : Ctx) (fate : task_fate) (p : TxParams) : res EthErr Z :=
  await_handler fate
    (v ← prepare_evm ctx (default (IdNumber Pending) (tp_block p)) (normalized ctx p);
     estimation ← internal (estimate v);
     match estimation with
     | EstSuccess limit => Ok limit
     | EstRevert reason => Err (EthEvmRevert reason)
     | EstHalt reason => Err (EthEvmHalt reason)
     end)
    task_panic.

(** A failed run is an answer: gas zero and the error's text. *)
Definition create_access_list (ctx : Ctx) (fate : task_fate) (p : TxParams) :
    res EthErr (AccessListResult A) :=
  await_handler fate
    (v ← prepare_evm ctx (default (IdNumber Pending) (tp_block p)) (normalized ctx p);
     let initial := default empty_access_list (access_list (rq_rest (tp_request p))) in
     match run_access_list initial v with
     | (Ok gas_used, al) => Ok (mkAccessList al gas_used None)
     | (Err e, al) => Ok (mkAccessList al 0 (Some e))
     | (Panic, _) => Panic
     end)
    task_panic.

(** *** Submission: the forwarded items are what is handed to the spawned
    tasks; their outcome is only logged. *)
Definition send_raw_transaction (has_tx_cache : bool) (fate : task_fate) (raw : list Z) :
    st (list X) EthErr B256 := fun forwarded =>
  if negb has_tx_cache then (Err (EthInternal "tx-cache URL not provided"), forwarded)
  else
    match map_err EthInvalidParams (decode_2718 raw) with
    | Ok envelope =>
        match fate with
        | Finished => (Ok (x_hash envelope), forwarded ++ [envelope])
        | Cancelled => (Err task_panic, forwarded)
        end
    | Err e => (await_handler fate (Err e) task_panic, forwarded)
    | Panic => (Err task_panic, forwarded)
    end.

Definition send_order {O} (has_tx_cache : bool) (fate : task_fate) (order : O) :
    st (list O) (SignetError SE HE) unit := fun forwarded =>
  if negb has_tx_cache then (Err SignetTxCacheNotProvided, forwarded)
  else match fate with
       | Finished => (Ok tt, forwarded ++ [order])
       | Cancelled => (Err (SignetInternal "task panicked or cancelled"), forwarded)
       end.

(** [signet_callBundle]; [timed_out] tells which branch of the [select!] the
    runtime took for the bundle's timeout. *)
Definition bundle_timeout_ms (ctx : Ctx) (bundle : B) : Z :=
  default (default_bundle_timeout_ms (ctx_config ctx)) (bundle_timeout bundle).

Definition call_bundle (ctx : Ctx) (fate : task_fate) (timed_out : Z -> bool) (bundle : B) :
    res (SignetError SE HE) BR :=
  let task :=
    eb ← map_err signet_of_eth (resolve_evm_block (CE:=CE) ctx (IdNumber (state_block_number bundle)));
    map_err SignetEvmHalt (drive_bundle bundle (block_evm ctx eb)) in
  await_handler fate
    (if timed_out (bundle_timeout_ms ctx bundle) then Err SignetTimeout else task)
    (SignetInternal "task panicked or cancelled").

(** *** [eth_subscribe] *)
Definition interest_of_args (kind : SubscriptionKind) (filter : option F) :
    res EthErr (InterestKind F) :=
  match kind with
  | SubLogs => ok_or (KLog <$> filter) (EthInvalidParams "missing filter for Logs subscription")
  | SubNewHeads =>
      match filter with
      | Some _ => Err (EthInvalidParams "filter not supported for NewHeads subscription")
      | None => Ok KBlock
      end
  | SubOther debug => Err (EthInvalidParams ("unsupported subscription kind: " ++ debug))
  end.

(** ** Properties *)

(** The execution behind [eth_call] ended in [result]: one resolved block gave
    the header, the state and the hardfork, the request's gas was normalised and
    capped, and the overrides were applied before the request was filled in. *)
Definition call_runs (ctx : Ctx) (p : TxParams) (result : ExecutionResult) : Prop :=
  exists eb v capped,
    resolve_evm_block (CE:=CE) ctx (default (IdNumber Latest) (tp_block p)) = Ok eb
    /\ apply_state_overrides (tp_state_overrides p) (block_evm ctx eb) = Ok v
    /\ cap_tx_gas (fill_tx (normalize_gas_stateless (tp_request p) (rpc_gas_cap (ctx_config ctx)))
                     (apply_block_overrides (tp_block_overrides p) v)) = Ok capped
    /\ evm_call capped = Ok result.

(** The normalised gas is absent or the requested gas cut at the cap; it never
    exceeds the cap, and with a cap of at least 21000 it is never below it. *)
Lemma normalize_gas_bounds (request : TxRequest Q) max_gas :
  let gas := rq_gas (normalize_gas_stateless request max_gas) in
  rq_rest (normalize_gas_stateless request max_gas) = rq_rest request
  /\ match rq_gas request with
     | None => gas = None
     | Some val => gas = (if val <? MIN_TRANSACTION_GAS then None else Some (Z.min val max_gas))
     end
  /\ forall g, gas = Some g -> g <= max_gas /\ (MIN_TRANSACTION_GAS <= max_gas -> MIN_TRANSACTION_GAS <= g).
Proof.
  unfold normalize_gas_stateless. destruct request as [[val|] rest]; cbn [rq_gas rq_rest]; [|done].
  destruct (Z.ltb_spec val MIN_TRANSACTION_GAS) as [|Hmin]; cbn; [done|].
  destruct (Z.ltb_spec max_gas val) as [Hcap|Hcap]; cbn [rq_gas rq_rest].
  - rewrite Z.min_r by lia. do 2 (split; [done|]). intros g [= <-]. lia.
  - rewrite Z.min_l by lia. do 2 (split; [done|]). intros g [= <-]. lia.
Qed.

Lemma internal_err {E} (r : res string E) e : internal r = Err e -> exists msg, e = EthInternal msg.
Proof. destruct r; cbn; naive_solver. Qed.

(** Preparation fails without ever claiming a revert or a halt of the EVM. *)
Lemma prepare_evm_err ctx id p e :
  prepare_evm ctx id p = Err e -> (forall out, e <> EthEvmRevert out) /\ (forall r, e <> EthEvmHalt r).
Proof.
  unfold prepare_evm. destruct (resolve_evm_block ctx id) as [eb|e'|] eqn:Hr; cbn; intros He.
  - destruct (internal _) as [v|e'|] eqn:Hi; cbn in He; [done| |done].
    injection He as <-. apply internal_err in Hi as [msg ->]. done.
  - injection He as <-. apply resolve_evm_block_not_found in Hr. by destruct e'.
  - done.
Qed.

Lemma call_runs_prepared ctx p result :
  call_runs ctx p result <->
  exists v capped,
    prepare_evm ctx (default (IdNumber Latest) (tp_block p)) (normalized ctx p) = Ok v
    /\ cap_tx_gas v = Ok capped /\ evm_call capped = Ok result.
Proof.
  unfold call_runs, prepare_evm. split.
  - intros (eb & v & c & -> & Hv & Hc & Hr). cbn [mbind res_bind normalized tp_state_overrides].
    rewrite Hv. cbn. eexists _, c. by split.
  - intros (v & c & Hp & Hc & Hr). apply bind_ok in Hp as (eb & Heb & Hp).
    apply bind_ok in Hp as (v0 & Hv0 & Hp). injection Hp as <-. apply map_err_ok in Hv0.
    by exists eb, v0, c.
Qed.

(** C24: [eth_call] reports what the EVM did.  It answers with output exactly when
    the execution succeeded with it, with error code 3 and the revert data
    exactly when it reverted with them, with a halt exactly when it halted;
    every other failure is a storage, resolution, internal or task error, and
    the handler always answers. *)
Theorem call_outcomes ctx p :
  match call ctx Finished Finished p with
  | Ok output => call_runs ctx p (ExSuccess output)
  | Err (EthEvmRevert output) => call_runs ctx p (ExRevert output)
  | Err (EthEvmHalt reason) => call_runs ctx p (ExHalt reason)
  | Err e => eth_error_code e <> 3 /\ forall result, ~ call_runs ctx p result
  | Panic => False
  end.
Proof.
  pose proof (call_runs_prepared ctx p) as Hruns. revert Hruns. generalize (call_runs ctx p).
  intros runs Hruns. unfold call, run_call. cbn [normalized tp_block].
  destruct (prepare_evm ctx _ (normalized ctx p)) as [v|e|] eqn:Hp.
  - cbn [mbind res_bind]. unfold internal.
    destruct (cap_tx_gas v) as [capped|msg|] eqn:Hcap; cbn.
    + destruct (evm_call capped) as [[out|out|reason]|msg|] eqn:Hcall; cbn;
        [apply Hruns; by eauto..| |];
        (split; [done|]); intros result (v' & c & ? & ? & ?)%Hruns; congruence.
    + split; [done|]. intros result (v' & c & ? & ? & ?)%Hruns; congruence.
    + split; [done|]. intros result (v' & c & ? & ? & ?)%Hruns; congruence.
  - destruct (prepare_evm_err _ _ _ _ Hp) as [Hnr Hnh]. cbn.
    assert (forall result, ~ runs result) as Hno by (intros result (v & c & ? & _)%Hruns; done).
    destruct e as [| |r| | | | | |]; try (split; [done|exact Hno]);
      [|by exfalso; eapply Hnr|by exfalso; eapply Hnh].
    split; [by destruct r|exact Hno].
  - cbn. split; [done|]. by intros result (v & c & ? & _)%Hruns.
Qed.
End calls.
