(* ===== verification/Tracer.v ===== *)
(** * The tracer ([crates/rpc/src/debug/tracer.rs])

    How one transaction is traced: the dispatch on the Geth tracer options, the
    built-in tracers, and the two Parity forms.  The EVM (trevm) and the
    inspectors (revm-inspectors) are the two classes below. *)

From S2P Require Import Prelude Primitives Errors.

(** [TransactionInfo]. *)
Record TransactionInfo := mkTxInfo {
  ti_hash : option B256; ti_index : option Z; ti_block_hash : option B256;
  ti_block_number : option Z; ti_base_fee : option Z }.

(** trevm: [V] is a machine ready to run or waiting for a transaction, [X] one
    that ran and whose state is not committed, [RS] a result with its state.
    Errors are their text. *)
Class TraceEvm (V X RS I T : Type) := {
  te_run : V -> res string X;
  te_run_inspected : I -> V -> res string (I * X);
  run_tx : T -> V -> res string X;
  fill_tx : T -> V -> V;
  gas_limit : V -> Z;
  x_gas_limit : X -> Z;
  gas_used : X -> Z;
  accept_state : X -> V;
  take_result_and_state : X -> RS * V;
  commit : RS -> V -> V }.

(** revm-inspectors: [I] inspectors, [G] Geth traces, [PT] localized Parity
    traces, [TR] Parity results; the configurations of the tracers and the
    trace types. *)
Class Inspectors (V RS I G PT TR TC CallCfg PreCfg FlatCfg MuxCfg Types : Type) := {
  into_call_config : TC -> option CallCfg;
  into_pre_state_config : TC -> option PreCfg;
  into_flat_call_config : TC -> option FlatCfg;
  into_mux_config : TC -> option MuxCfg;
  four_byte_inspector : I;
  call_inspector : CallCfg -> I;
  prestate_inspector : PreCfg -> I;
  flat_call_inspector : FlatCfg -> I;
  mux_inspector : MuxCfg -> res string I;
  parity_inspector : I;
  parity_config_inspector : Types -> I;
  noop_frame : G;
  four_byte_frame : I -> G;
  geth_call_traces : I -> Z -> CallCfg -> Z -> G;
  geth_prestate_traces : I -> Z -> RS -> PreCfg -> V -> res string G;
  flat_call_frame : I -> Z -> TransactionInfo -> G;
  mux_frame : I -> RS -> V -> TransactionInfo -> res string G;
  into_localized_transaction_traces : I -> Z -> TransactionInfo -> list PT;
  into_trace_results_with_state : I -> RS -> Types -> V -> res string TR }.

(** [GethDebugTracingOptions]: the tracer and its configuration. *)
Inductive BuiltInTracer :=
| Erc7562Tracer | FourByteTracer | CallTracer | FlatCallTracer | PreStateTracer | NoopTracer | MuxTracer.
Inductive GethTracer := BuiltIn (t : BuiltInTracer) | JsTracer (code : string).
Record TracingOptions (TC : Type) := mkOptions { tracer : option GethTracer; tracer_config : TC }.
Arguments mkOptions {TC} _ _.
Arguments tracer {TC} _.
Arguments tracer_config {TC} _.

Section tracer.
Context {V X RS I T G PT TR TC CallCfg PreCfg FlatCfg MuxCfg Types CE SE HE : Type}
  `{!TraceEvm V X RS I T, !Inspectors V RS I G PT TR TC CallCfg PreCfg FlatCfg MuxCfg Types}.
Abbreviation DErr := (DebugError CE SE HE).

(** [map_err] to [EvmHalt] with the error's text. *)
Definition halted {A} (r : res string A) : res DErr A := map_err DebugEvmHalt r.
Definition config_or_err {A} (c : option A) : res DErr A := ok_or c DebugInvalidTracerConfig.

Definition trace_four_byte (v : V) : res DErr (G * V) :=
  '(i, x) ← halted (te_run_inspected four_byte_inspector v);
  Ok (four_byte_frame i, accept_state x).

Definition trace_call (tc : TC) (v : V) : res DErr (G * V) :=
  call_config ← config_or_err (into_call_config tc);
  '(i, x) ← halted (te_run_inspected (call_inspector call_config) v);
  Ok (geth_call_traces i (x_gas_limit x) call_config (gas_used x), accept_state x).

(** The state is uncommitted while the diff is computed, then committed. *)
Definition trace_pre_state (tc : TC) (v : V) : res DErr (G * V) :=
  prestate_config ← config_or_err (into_pre_state_config tc);
  '(i, x) ← halted (te_run_inspected (prestate_inspector prestate_config) v);
  let '(result, v) := take_result_and_state x in
  frame ← halted (geth_prestate_traces i (x_gas_limit x) result prestate_config v);
  Ok (frame, commit result v).

Definition trace_flat_call (tc : TC) (v : V) (info : TransactionInfo) : res DErr (G * V) :=
  flat_call_config ← config_or_err (into_flat_call_config tc);
  '(i, x) ← halted (te_run_inspected (flat_call_inspector flat_call_config) v);
  Ok (flat_call_frame i (x_gas_limit x) info, accept_state x).

Definition trace_mux (tc : TC) (v : V) (info : TransactionInfo) : res DErr (G * V) :=
  mux_config ← config_or_err (into_mux_config tc);
  inspector ← halted (mux_inspector mux_config);
  '(i, x) ← halted (te_run_inspected inspector v);
  let '(result, v) := take_result_and_state x in
  frame ← halted (mux_frame i result v info);
  Ok (frame, commit result v).

Definition trace (v : V) (config : TracingOptions TC) (info : TransactionInfo) : res DErr (G * V) :=
  match tracer config with
  | None => Err DebugInvalidTracerConfig
  | Some (JsTracer _) => Err (DebugUnsupported "JS tracer")
  | Some (BuiltIn built_in) =>
      match built_in with
      | Erc7562Tracer => Err (DebugUnsupported "ERC-7562 tracing is not yet implemented")
      | FourByteTracer => trace_four_byte v
      | CallTracer => trace_call (tracer_config config) v
      | FlatCallTracer => trace_flat_call (tracer_config config) v info
      | PreStateTracer => trace_pre_state (tracer_config config) v
      | NoopTracer => x ← halted (te_run v); Ok (noop_frame, accept_state x)
      | MuxTracer => trace_mux (tracer_config config) v info
      end
  end.

Definition trace_parity_localized (v : V) (info : TransactionInfo) : res DErr (list PT * V) :=
  let limit := gas_limit v in
  '(i, x) ← halted (te_run_inspected parity_inspector v);
  Ok (into_localized_transaction_traces i limit info, accept_state x).

Definition trace_parity_replay (v : V) (trace_types : Types) : res DErr (TR * V) :=
  '(i, x) ← halted (te_run_inspected (parity_config_inspector trace_types) v);
  let '(result, v) := take_result_and_state x in
  trace_res ← map_err (fun e => DebugEvmHalt ("state diff: " ++ e))
                (into_trace_results_with_state i result trace_types v);
  Ok (trace_res, commit result v).

(** The tracer never claims that a transaction is missing. *)
Lemma halted_finds_no_tx {A} (r : res string A) h : halted r <> Err (DebugTransactionNotFound h).
Proof. by destruct r. Qed.
Lemma config_finds_no_tx {A} (c : option A) h : config_or_err c <> Err (DebugTransactionNotFound h).
Proof. by destruct c. Qed.
Lemma trace_finds_no_tx v config info h : trace v config info <> Err (DebugTransactionNotFound h).
Proof.
  unfold trace. destruct (tracer config) as [[[]|]|]; try done;
    unfold trace_four_byte, trace_call, trace_flat_call, trace_pre_state, trace_mux; intros He;
    repeat match goal with
    | H : (_ ≫= _) = Err _ |- _ =>
        apply bind_err in H as [H|(? & _ & H)];
        [by first [apply halted_finds_no_tx in H|apply config_finds_no_tx in H]|]
    | H : (let '(_, _) := ?p in _) = Err _ |- _ => destruct p
    | H : Ok _ = Err _ |- _ => discriminate H
    end.
Qed.

(** ** Tracing does not change execution *)

(** The contract of the EVM with inspectors: an inspector only watches, running
    a transaction is filling it in and running, and committing a taken state is
    accepting it. *)
Class LawfulTraceEvm : Prop := {
  inspect_passive i v i' x : te_run_inspected i v = Ok (i', x) -> te_run v = Ok x;
  inspect_fails i v e : te_run_inspected i v = Err e -> te_run v = Err e;
  run_tx_fills tx v : run_tx tx v = te_run (fill_tx tx v);
  commit_taken x : (let '(result, v) := take_result_and_state x in commit result v) = accept_state x }.
Context `{!LawfulTraceEvm}.

(** What tracing leaves behind is what plainly running leaves behind. *)
Definition runs_to (v v' : V) : Prop := exists x, te_run v = Ok x /\ v' = accept_state x.

Lemma halted_ok {A} (r : res string A) a : halted r = Ok a <-> r = Ok a.
Proof. unfold halted. apply map_err_ok. Qed.

Lemma committed x result v : take_result_and_state x = (result, v) -> commit result v = accept_state x.
Proof. intros Ht. pose proof (commit_taken x) as Hc. by rewrite Ht in Hc. Qed.

(** Inverts a successful trace down to its run. *)
Ltac trace_inv :=
  repeat match goal with
  | H : (_ ≫= _) = Ok _ |- _ => apply bind_ok in H as (? & ? & H)
  | H : halted (te_run_inspected _ _) = Ok ?p |- _ =>
      destruct p; apply halted_ok, inspect_passive in H
  | H : halted (te_run _) = Ok _ |- _ => apply halted_ok in H
  | H : context [take_result_and_state ?x] |- _ =>
      let E := fresh in destruct (take_result_and_state x) eqn:E; apply committed in E
  | H : Ok _ = Ok _ |- _ => injection H as ? ?; subst
  end;
  unfold runs_to; eauto.

Lemma trace_parity_localized_runs v info traces v' :
  trace_parity_localized v info = Ok (traces, v') -> runs_to v v'.
Proof. unfold trace_parity_localized. intros. trace_inv. Qed.

Lemma trace_parity_replay_runs v types r v' :
  trace_parity_replay v types = Ok (r, v') -> runs_to v v'.
Proof. unfold trace_parity_replay. intros. trace_inv. Qed.

(** Every tracer, with every configuration, leaves the chain state exactly as
    executing the transaction without tracing would: the transactions traced
    after it in a block see the same state. *)
Theorem trace_commits_like_run v config info frame v' :
  trace v config info = Ok (frame, v') -> runs_to v v'.
Proof.
  unfold trace. destruct (tracer config) as [[[]|]|]; try discriminate;
    unfold trace_four_byte, trace_call, trace_flat_call, trace_pre_state, trace_mux; intros; trace_inv.
Qed.
End tracer.
