(* ===== verification/Tracing.v ===== *)
(** * The debug and trace namespaces ([crates/rpc/src/debug/endpoints.rs],
    [crates/rpc/src/trace/endpoints.rs])

    Block, transaction, call and raw-data handlers over the tracer.  The
    storage does not change while a handler runs. *)

From S2P Require Import Prelude Primitives BlockTags Errors Storage RpcConfig RpcCtx EthQueries Tracer.

(** What trevm is asked to build, and the decoders and encoders of the raw
    endpoints; [Q] is a transaction request, errors are their text. *)
Class TraceSetup (V DB Spec T Q SO BO : Type) := {
  te_new : DB -> Spec -> Z -> Header -> V;
  fill_request : Q -> V -> V;
  te_state_overrides : option SO -> V -> res string V;
  te_block_overrides : option BO -> V -> V }.
Class RawCodec (T L : Type) := {
  decode_block : list Z -> res string (Header * list (option T));
  decode_transaction : list Z -> res string (option T);
  encode_block : Header -> list T -> list Z;
  encode_header : Header -> list Z;
  encode_receipt : TxType -> bool -> Z -> list L -> Z -> list Z }.

(** The [Display] of [DebugError]. *)
Definition show_debug_error {CE SE HE} `{Display CE SE HE} (e : DebugError CE SE HE) : string :=
  match e with
  | DebugCold _ => "cold storage error"
  | DebugHot _ => "hot storage error"
  | DebugResolve r => "resolve: " ++ show_resolve_error r
  | DebugInvalidTracerConfig => "invalid tracer config"
  | DebugUnsupported what => "unsupported: " ++ what
  | DebugEvmHalt reason => "execution halted: " ++ reason
  | DebugBlockNotFound id => "block not found: " ++ show_id id
  | DebugTransactionNotFound h => "transaction not found: " ++ show_hash h
  | DebugInternal msg => msg
  | DebugRlpDecode msg => "RLP decode: " ++ msg
  | DebugSenderRecovery => "sender recovery failed"
  end.

(** [TraceFilter]. *)
Record TraceFilter (M : Type) := mkTraceFilter {
  tf_from_block : option Z; tf_to_block : option Z; tf_matcher : M;
  tf_after : option Z; tf_count : option Z }.
Arguments mkTraceFilter {M} _ _ _ _ _.
Arguments tf_from_block {M} _.
Arguments tf_to_block {M} _.
Arguments tf_matcher {M} _.
Arguments tf_after {M} _.
Arguments tf_count {M} _.
(** [filter.matcher().matches(&t.trace)]. *)
Class TraceMatcher (M PT : Type) := { trace_matches : M -> PT -> bool }.

Section tracing.
Context {V X RS I T G PT TR TC CallCfg PreCfg FlatCfg MuxCfg Types : Type}
  `{!TraceEvm V X RS I T, !Inspectors V RS I G PT TR TC CallCfg PreCfg FlatCfg MuxCfg Types}.
Context {CS CE F L SE HE HS R Code Spec Q SO BO M : Type}
  `{!ColdStorage CS CE T F L, !Transaction T, !TxEncoding T, !ReceiptBloom L, !HotStorage HS SE HE R Code,
    !HeaderOps, !Display CE SE HE, !TraceSetup V (R * Z) Spec T Q SO BO, !RawCodec T L, !TraceMatcher M PT}.
Abbreviation Ctx := (RpcCtx HS Spec).
Abbreviation DErr := (DebugError CE SE HE).
Abbreviation TErr := (TraceError CE SE HE).

Definition trace_task_panic : TErr := TraceEvmHalt "task panicked or cancelled".
Definition debug_task_panic : DErr := DebugInternal "task panicked or cancelled".
(** [map_err(|e| TraceError::EvmHalt { reason: e.to_string() })]. *)
Definition trace_halted {A} (r : res DErr A) : res TErr A :=
  map_err (fun e => TraceEvmHalt (show_debug_error e)) r.

(** *** Shared loops *)

(** [peeking_take_while] up to the first magic signature, one step each. *)
Fixpoint trace_txs {A E} (step : nat -> T -> V -> res E (A * V)) (idx : nat) (txs : list T) (v : V) :
    res E (list A) :=
  match txs with
  | [] => Ok []
  | tx :: txs =>
      if is_magic_sig tx then Ok []
      else
        '(a, v) ← step idx tx v;
        rest ← trace_txs step (S idx) txs v;
        Ok (a :: rest)
  end.

(** The replay of the transactions before a target. *)
Inductive Replay := ReplayMagic | ReplayEnd | ReplayAt (v : V) (index : nat) (tx : T).
Fixpoint replay_to (target : B256) (idx : nat) (txs : list T) (v : V) : res string Replay :=
  match txs with
  | [] => Ok ReplayEnd
  | tx :: txs =>
      if tx_hash tx =? target then Ok (ReplayAt v idx tx)
      else if is_magic_sig tx then Ok ReplayMagic
      else x ← run_tx tx v; replay_to target (S idx) txs (accept_state x)
  end.

Definition block_tx_info (header : Header) (block_hash : B256) (idx : nat) (tx : T) : TransactionInfo :=
  mkTxInfo (Some (tx_hash tx)) (Some (Z.of_nat idx)) (Some block_hash) (Some (h_number header))
    (h_base_fee_per_gas header).

(** The machine for a block on the state before it. *)
Definition block_machine (ctx : Ctx) (header : Header) (db : R * Z) : V :=
  te_new db (ctx_spec_id_for_header ctx header) (ctx_chain_id ctx) header.
Definition state_before (ctx : Ctx) (number : Z) : res SE (R * Z) :=
  revm_reader_at_height (ctx_storage ctx) (sat_sub number 1).

Definition localized_step (header : Header) (block_hash : B256) (idx : nat) (tx : T) (v : V) :
    res TErr (list PT * V) :=
  trace_halted (trace_parity_localized (fill_tx tx v) (block_tx_info header block_hash idx tx)).

Definition trace_block_localized (ctx : Ctx) (header : Header) (block_hash : B256) (txs : list T)
    (db : R * Z) : res TErr (list PT) :=
  groups ← trace_txs (localized_step header block_hash) 0 txs (block_machine ctx header db);
  Ok (mjoin (M:=list) groups).

Definition replay_step (trace_types : Types) (_ : nat) (tx : T) (v : V) : res TErr (TR * B256 * V) :=
  '(trace_res, v) ← trace_halted (trace_parity_replay (fill_tx tx v) trace_types);
  Ok ((trace_res, tx_hash tx), v).
Definition trace_block_replay (ctx : Ctx) (header : Header) (txs : list T) (db : R * Z)
    (trace_types : Types) : res TErr (list (TR * B256)) :=
  trace_txs (replay_step trace_types) 0 txs (block_machine ctx header db).

Definition geth_step (header : Header) (block_hash : B256) (opts : TracingOptions TC) (idx : nat) (tx : T)
    (v : V) : res DErr (G * B256 * V) :=
  '(frame, v) ← trace (fill_tx tx v) opts (block_tx_info header block_hash idx tx);
  Ok ((frame, tx_hash tx), v).
Definition trace_block_inner (ctx : Ctx) (header : Header) (block_hash : B256) (txs : list T)
    (db : R * Z) (opts : TracingOptions TC) : res DErr (list (G * B256)) :=
  trace_txs (geth_step header block_hash opts) 0 txs (block_machine ctx header db).

(** *** The trace namespace *)

(** The header, body and state of a block; [None] when there is no header. *)
Definition load_block (ctx : Ctx) (cold : CS) (block_num : Z) :
    res TErr (option (SealedHeader * list T * (R * Z))) :=
  sealed ← map_err TraceResolve (resolve_header ctx (IdNumber (Number block_num)));
  match sealed with
  | None => Ok None
  | Some sealed =>
      txs ← map_err TraceCold (get_transactions_in_block cold block_num);
      db ← map_err TraceHot (state_before ctx (h_number (sh_header sealed)));
      Ok (Some (sealed, txs, db))
  end.

(** The traces of a block by its number. *)
Definition trace_loaded (ctx : Ctx) (cold : CS) (block_num : Z) : res TErr (option (list PT)) :=
  loaded ← load_block ctx cold block_num;
  match loaded with
  | None => Ok None
  | Some (sealed, txs, db) =>
      traces ← trace_block_localized ctx (sh_header sealed) (sh_hash sealed) txs db;
      Ok (Some traces)
  end.

Definition trace_block (ctx : Ctx) (cold : CS) (fate : task_fate) (tag : BlockNumberOrTag) :
    res TErr (option (list PT)) :=
  await_handler fate
    (block_num ← map_err TraceResolve (resolve_block_id ctx (IdNumber tag));
     trace_loaded ctx cold block_num)
    trace_task_panic.

Definition replay_block_transactions (ctx : Ctx) (cold : CS) (fate : task_fate)
    (tag : BlockNumberOrTag) (trace_types : Types) : res TErr (option (list (TR * B256))) :=
  await_handler fate
    (block_num ← map_err TraceResolve (resolve_block_id ctx (IdNumber tag));
     loaded ← load_block ctx cold block_num;
     match loaded with
     | None => Ok None
     | Some (sealed, txs, db) =>
         results ← trace_block_replay ctx (sh_header sealed) txs db trace_types;
         Ok (Some results)
     end)
    trace_task_panic.

(** The block of a confirmed transaction and the replay up to it. *)
Definition load_and_replay (ctx : Ctx) (cold : CS) (tx_hash : B256) (meta : ConfirmationMeta) :
    res TErr (Header * Replay) :=
  let block_num := m_block_number meta in
  let block_id := IdNumber (Number block_num) in
  sealed ← map_err TraceResolve (resolve_header ctx block_id);
  sealed ← ok_or sealed (TraceBlockNotFound block_id);
  let header := sh_header sealed in
  txs ← map_err TraceCold (get_transactions_in_block cold block_num);
  db ← map_err TraceHot (state_before ctx block_num);
  replayed ← map_err TraceEvmHalt (replay_to tx_hash 0 txs (block_machine ctx header db));
  Ok (header, replayed).

Definition trace_transaction (ctx : Ctx) (cold : CS) (fate : task_fate) (hash : B256) :
    res TErr (option (list PT)) :=
  await_handler fate
    (confirmed ← map_err TraceCold (get_tx_by_hash cold hash);
     match confirmed with
     | None => Ok None
     | Some (_, meta) =>
         '(header, replayed) ← load_and_replay ctx cold hash meta;
         match replayed with
         | ReplayMagic | ReplayEnd => Ok None
         | ReplayAt v index tx =>
             '(traces, _) ← localized_step header (m_block_hash meta) index tx v;
             Ok (Some traces)
         end
     end)
    trace_task_panic.

Definition replay_transaction (ctx : Ctx) (cold : CS) (fate : task_fate) (hash : B256)
    (trace_types : Types) : res TErr TR :=
  await_handler fate
    (confirmed ← map_err TraceCold (get_tx_by_hash cold hash);
     '(_, meta) ← ok_or confirmed (TraceTransactionNotFound hash);
     '(header, replayed) ← load_and_replay ctx cold hash meta;
     match replayed with
     | ReplayMagic | ReplayEnd => Err (TraceTransactionNotFound hash)
     | ReplayAt v index tx =>
         '(results, _) ← trace_halted (trace_parity_replay (fill_tx tx v) trace_types);
         Ok results
     end)
    trace_task_panic.

(** The machine of a resolved block for the call endpoints. *)
Definition call_machine (ctx : Ctx) (eb : EvmBlockContext R Spec) : V :=
  te_new (eb_db eb) (eb_spec_id eb) (ctx_chain_id ctx) (eb_header eb).

(** [TraceCallParams]. *)
Record TraceCallParams := mkTraceCall {
  tc_request : Q; tc_types : Types; tc_block : option BlockId;
  tc_state_overrides : option SO; tc_block_overrides : option BO }.

Definition trace_call (ctx : Ctx) (fate : task_fate) (p : TraceCallParams) : res TErr TR :=
  let id := default (IdNumber Latest) (tc_block p) in
  await_handler fate
    (eb ← map_err trace_of_eth (resolve_evm_block ctx id);
     v ← map_err TraceEvmHalt (te_state_overrides (tc_state_overrides p) (call_machine ctx eb));
     let v := fill_request (tc_request p) (te_block_overrides (tc_block_overrides p) v) in
     '(results, _) ← trace_halted (trace_parity_replay v (tc_types p));
     Ok results)
    trace_task_panic.

(** The calls in turn, each on the state its predecessors left. *)
Fixpoint trace_calls (calls : list (Q * Types)) (v : V) : res TErr (list TR) :=
  match calls with
  | [] => Ok []
  | (request, trace_types) :: calls =>
      '(trace_res, next) ← trace_halted (trace_parity_replay (fill_request request v) trace_types);
      rest ← trace_calls calls next;
      Ok (trace_res :: rest)
  end.

Definition trace_call_many (ctx : Ctx) (fate : task_fate) (calls : list (Q * Types))
    (block_id : option BlockId) : res TErr (list TR) :=
  let id := default (IdNumber Pending) block_id in
  await_handler fate
    (eb ← map_err trace_of_eth (resolve_evm_block ctx id);
     trace_calls calls (call_machine ctx eb))
    trace_task_panic.

Definition trace_raw_transaction (ctx : Ctx) (fate : task_fate) (rlp_bytes : list Z)
    (trace_types : Types) (block_id : option BlockId) : res TErr TR :=
  let id := default (IdNumber Latest) block_id in
  await_handler fate
    (tx ← map_err TraceRlpDecode (decode_transaction rlp_bytes);
     recovered ← ok_or tx TraceSenderRecovery;
     eb ← map_err trace_of_eth (resolve_evm_block ctx id);
     '(results, _) ← trace_halted (trace_parity_replay (fill_tx recovered (call_machine ctx eb)) trace_types);
     Ok results)
    trace_task_panic.

(** One index exactly; any other number of them answers null. *)
Definition trace_get (ctx : Ctx) (cold : CS) (fate : task_fate) (hash : B256) (indices : list Z) :
    res TErr (option PT) :=
  match indices with
  | [index] =>
      traces ← trace_transaction ctx cold fate hash;
      Ok (match traces with Some t => t !! Z.to_nat index | None => None end)
  | _ => Ok None
  end.

(** One block of [trace_filter]'s loop: [continue] adds nothing. *)
Definition filter_block (ctx : Ctx) (cold : CS) (matcher : M) (block_num : Z) : res TErr (list PT) :=
  loaded ← load_block ctx cold block_num;
  match loaded with
  | None => Ok []
  | Some (sealed, txs, db) =>
      traces ← trace_block_localized ctx (sh_header sealed) (sh_hash sealed) txs db;
      Ok (filter (fun t => trace_matches matcher t = true) traces)
  end.

(** Skip [after] (nothing left answers the empty list), keep [count]. *)
Definition paginate (after count : option Z) (all_traces : list PT) : list PT :=
  let drained := match after with
    | Some after => if Z.of_nat (length all_traces) <=? after then None
                    else Some (drop (Z.to_nat after) all_traces)
    | None => Some all_traces
    end in
  match drained with
  | None => []
  | Some l => match count with Some count => take (Z.to_nat count) l | None => l end
  end.

Definition trace_filter (ctx : Ctx) (cold : CS) (fate : task_fate) (f : TraceFilter M) :
    res TErr (list PT) :=
  await_handler fate
    (let latest := latest (ctx_tags ctx) in
     let start := default 0 (tf_from_block f) in
     let end_ := default latest (tf_to_block f) in
     if latest <? start then Err (TraceBlockNotFound (IdNumber (Number start)))
     else if latest <? end_ then Err (TraceBlockNotFound (IdNumber (Number end_)))
     else if end_ <? start then
       Err (TraceInvalidBlockRange "fromBlock cannot be greater than toBlock")
     else
       let max := max_trace_filter_blocks (ctx_config ctx) in
       let distance := add64 (sat_sub end_ start) 1 in
       if max <? distance then Err (TraceBlockRangeExceeded distance max)
       else
         groups ← mapM (filter_block ctx cold (tf_matcher f)) (range_incl start end_);
         Ok (paginate (tf_after f) (tf_count f) (mjoin (M:=list) groups)))
    trace_task_panic.

(** *** The debug namespace *)

(** [debug_traceBlockByNumber] and [debug_traceBlockByHash]. *)
Definition debug_trace_block (ctx : Ctx) (cold : CS) (fate : task_fate) (id : BlockId)
    (opts : TracingOptions TC) : res DErr (list (G * B256)) :=
  await_handler fate
    (block_num ← map_err DebugResolve (resolve_block_id ctx id);
     sealed ← map_err DebugResolve (resolve_header ctx (IdNumber (Number block_num)));
     match sealed with
     | None => Err (DebugBlockNotFound id)
     | Some sealed =>
         txs ← map_err DebugCold (get_transactions_in_block cold block_num);
         db ← map_err DebugHot (state_before ctx (h_number (sh_header sealed)));
         trace_block_inner ctx (sh_header sealed) (sh_hash sealed) txs db opts
     end)
    debug_task_panic.

Definition debug_trace_transaction (ctx : Ctx) (cold : CS) (fate : task_fate) (hash : B256)
    (opts : TracingOptions TC) : res DErr G :=
  await_handler fate
    (confirmed ← map_err DebugCold (get_tx_by_hash cold hash);
     '(_, meta) ← ok_or confirmed (DebugTransactionNotFound hash);
     let block_num := m_block_number meta in
     let block_id := IdNumber (Number block_num) in
     sealed ← map_err DebugResolve (resolve_header ctx block_id);
     sealed ← ok_or sealed (DebugBlockNotFound block_id);
     let header := sh_header sealed in
     txs ← map_err DebugCold (get_transactions_in_block cold block_num);
     db ← map_err DebugHot (state_before ctx block_num);
     replayed ← map_err DebugEvmHalt (replay_to hash 0 txs (block_machine ctx header db));
     match replayed with
     | ReplayMagic | ReplayEnd => Err (DebugTransactionNotFound hash)
     | ReplayAt v index tx =>
         '(frame, _) ← trace (fill_tx tx v) opts (block_tx_info header (m_block_hash meta) index tx);
         Ok frame
     end)
    debug_task_panic.

(** [debug_traceBlock]: a block given as bytes. *)
Definition trace_block_rlp (ctx : Ctx) (fate : task_fate) (rlp_bytes : list Z)
    (opts : TracingOptions TC) : res DErr (list (G * B256)) :=
  await_handler fate
    ('(header, transactions) ← map_err DebugRlpDecode (decode_block rlp_bytes);
     txs ← mapM (fun tx => ok_or tx DebugSenderRecovery) transactions;
     db ← map_err DebugHot (state_before ctx (h_number header));
     trace_block_inner ctx header (hash_slow header) txs db opts)
    debug_task_panic.

Definition get_raw_header (ctx : Ctx) (fate : task_fate) (id : BlockId) : res DErr (list Z) :=
  await_handler fate
    (block_num ← map_err DebugResolve (resolve_block_id ctx id);
     sealed ← map_err DebugResolve (resolve_header ctx (IdNumber (Number block_num)));
     sealed ← ok_or sealed (DebugBlockNotFound id);
     Ok (encode_header (sh_header sealed)))
    debug_task_panic.

Definition get_raw_block (ctx : Ctx) (cold : CS) (fate : task_fate) (id : BlockId) : res DErr (list Z) :=
  await_handler fate
    (block_num ← map_err DebugResolve (resolve_block_id ctx id);
     sealed ← map_err DebugResolve (resolve_header ctx (IdNumber (Number block_num)));
     sealed ← ok_or sealed (DebugBlockNotFound id);
     txs ← map_err DebugCold (get_transactions_in_block cold block_num);
     Ok (encode_block (sh_header sealed) txs))
    debug_task_panic.

Definition encode_cold_receipt (cr : ColdReceipt L) : list Z :=
  encode_receipt (cr_tx_type cr) (cr_status cr) (cr_cumulative_gas_used cr)
    (l_inner <$> cr_logs cr) (bloom cr).

Definition get_raw_receipts (ctx : Ctx) (cold : CS) (fate : task_fate) (id : BlockId) :
    res DErr (list (list Z)) :=
  await_handler fate
    (block_num ← map_err DebugResolve (resolve_block_id ctx id);
     receipts ← map_err DebugCold (get_receipts_in_block cold block_num);
     Ok (fmap (M:=list) encode_cold_receipt receipts))
    debug_task_panic.

Definition debug_trace_call (ctx : Ctx) (fate : task_fate) (request : Q) (block_id : option BlockId)
    (opts : TracingOptions TC) : res DErr G :=
  let id := default (IdNumber Latest) block_id in
  await_handler fate
    (eb ← map_err debug_of_eth (resolve_evm_block ctx id);
     let header := eb_header eb in
     let tx_info := mkTxInfo None None None (Some (h_number header)) (h_base_fee_per_gas header) in
     '(frame, _) ← trace (fill_request request (call_machine ctx eb)) opts tx_info;
     Ok frame)
    debug_task_panic.

Definition get_raw_transaction (cold : CS) (fate : task_fate) (hash : B256) : res DErr (list Z) :=
  await_handler fate
    (confirmed ← map_err DebugCold (get_tx_by_hash cold hash);
     '(tx, _) ← ok_or confirmed (DebugTransactionNotFound hash);
     Ok (encoded_2718 tx))
    debug_task_panic.

End tracing.
