(* ===== verification/TracingPermits.v ===== *)
(** * Tracing requests under permits ([crates/rpc/src/debug/endpoints.rs],
    [crates/rpc/src/trace/endpoints.rs], [StorageRpcCtx::acquire_tracing_permit])

    The handlers that execute transactions take a permit of the context's
    semaphore first and hold it until they return.  Each handler of the two
    namespaces is a small program over the functions of [Tracing]; the server
    runs any number of them, a step at a time.  The semaphore is tokio's: an
    interface with the laws of its documentation. *)

From S2P Require Import Prelude Primitives BlockTags Errors Storage RpcConfig RpcCtx EthQueries Tracer Tracing.

(** [tokio::sync::Semaphore]: one poll of the future [acquire_owned] returns for
    a request, the drop of that future, and the drop of a permit. *)
Class Semaphore (Sem : Type) := {
  semaphore_new : nat -> Sem;
  poll_acquire : nat -> Sem -> bool * Sem;
  cancel_acquire : nat -> Sem -> Sem;
  drop_permit : Sem -> Sem }.
(** It never has more permits out than it was created with. *)
Class LawfulSemaphore (Sem : Type) `{!Semaphore Sem} (limit out : Sem -> nat) : Prop := {
  new_limit n : limit (semaphore_new n) = n;
  new_out n : out (semaphore_new n) = 0%nat;
  poll_ready id s s' : poll_acquire id s = (true, s') ->
    limit s' = limit s /\ out s' = S (out s) /\ (out s' <= limit s)%nat;
  poll_pending id s s' : poll_acquire id s = (false, s') -> limit s' = limit s /\ out s' = out s;
  cancel_keeps id s : limit (cancel_acquire id s) = limit s /\ out (cancel_acquire id s) = out s;
  drop_returns s : limit (drop_permit s) = limit s /\ out (drop_permit s) = pred (out s) }.

(** ** Handlers

    A handler answers at once, takes a permit and goes on ([let _permit =
    ctx.acquire_tracing_permit().await]), or spawns its task and awaits it
    ([await_handler!(hctx.spawn(fut))]).  What it holds is dropped when it
    returns or is itself dropped.  [Env] is what the task reads. *)
Inductive Handler (Env A : Type) :=
| Answer (a : A)
| Acquire (rest : Handler Env A)
| Await (task : Env -> task_fate -> A).
Arguments Answer {Env A} a.
Arguments Acquire {Env A} rest.
Arguments Await {Env A} task.

Section handlers.
Context {V X RS I T G PT TR TC CallCfg PreCfg FlatCfg MuxCfg Types : Type}
  `{!TraceEvm V X RS I T, !Inspectors V RS I G PT TR TC CallCfg PreCfg FlatCfg MuxCfg Types}.
Context {CS CE F L SE HE HS R Code Spec Q SO BO Mt : Type}
  `{!ColdStorage CS CE T F L, !Transaction T, !TxEncoding T, !ReceiptBloom L, !HotStorage HS SE HE R Code,
    !HeaderOps, !Display CE SE HE, !TraceSetup V (R * Z) Spec T Q SO BO, !RawCodec T L, !TraceMatcher Mt PT}.
Abbreviation Env := (RpcCtx HS Spec * CS)%type.
Abbreviation DRes A := (res (DebugError CE SE HE) A).
Abbreviation TRes A := (res (TraceError CE SE HE) A).

(** A request, and an answer, of either namespace. *)
Inductive Call :=
| CBlock (tag : BlockNumberOrTag) | CTransaction (hash : B256)
| CReplayBlock (tag : BlockNumberOrTag) (types : Types) | CReplayTransaction (hash : B256) (types : Types)
| CCall (p : TraceCallParams (Q:=Q) (Types:=Types) (SO:=SO) (BO:=BO))
| CCallMany (calls : list (Q * Types)) (id : option BlockId)
| CRaw (bytes : list Z) (types : Types) (id : option BlockId)
| CGet (hash : B256) (indices : list Z) | CFilter (f : TraceFilter Mt)
| CDebugBlock (id : BlockId) (opts : TracingOptions TC) | CDebugTransaction (hash : B256) (opts : TracingOptions TC)
| CDebugRlp (bytes : list Z) (opts : TracingOptions TC)
| CDebugCall (request : Q) (id : option BlockId) (opts : TracingOptions TC)
| CRawHeader (id : BlockId) | CRawBlock (id : BlockId) | CRawReceipts (id : BlockId) | CRawTransaction (hash : B256).
Inductive Reply :=
| RTraces (r : TRes (option (list PT))) | RReplays (r : TRes (option (list (TR * B256))))
| RReplay (r : TRes TR) | RMany (r : TRes (list TR)) | ROne (r : TRes (option PT)) | RFiltered (r : TRes (list PT))
| RFrames (r : DRes (list (G * B256))) | RFrame (r : DRes G) | RBytes (r : DRes (list Z))
| RByteLists (r : DRes (list (list Z))).
Abbreviation Prog := (Handler Env Reply).

Definition trace_block_handler (tag : BlockNumberOrTag) : Prog :=
  Acquire (Await (fun e fate => RTraces (trace_block e.1 e.2 fate tag))).
Definition trace_transaction_handler (hash : B256) : Prog :=
  Acquire (Await (fun e fate => RTraces (trace_transaction e.1 e.2 fate hash))).
Definition replay_block_transactions_handler (tag : BlockNumberOrTag) (types : Types) : Prog :=
  Acquire (Await (fun e fate => RReplays (replay_block_transactions e.1 e.2 fate tag types))).
Definition replay_transaction_handler (hash : B256) (types : Types) : Prog :=
  Acquire (Await (fun e fate => RReplay (replay_transaction e.1 e.2 fate hash types))).
Definition trace_call_handler (p : TraceCallParams) : Prog :=
  Acquire (Await (fun e fate => RReplay (trace_call e.1 fate p))).
Definition trace_call_many_handler (calls : list (Q * Types)) (id : option BlockId) : Prog :=
  Acquire (Await (fun e fate => RMany (trace_call_many e.1 fate calls id))).
Definition trace_raw_transaction_handler (bytes : list Z) (types : Types) (id : option BlockId) : Prog :=
  Acquire (Await (fun e fate => RReplay (trace_raw_transaction e.1 fate bytes types id))).
(** One index calls the handler of [trace_transaction], permit included. *)
Definition trace_get_handler (hash : B256) (indices : list Z) : Prog :=
  match indices with
  | [index] => Acquire (Await (fun e fate =>
      ROne (traces ← trace_transaction e.1 e.2 fate hash;
            Ok (match traces with Some t => t !! Z.to_nat index | None => None end))))
  | _ => Answer (ROne (Ok None))
  end.
Definition trace_filter_handler (f : TraceFilter Mt) : Prog :=
  Acquire (Await (fun e fate => RFiltered (trace_filter e.1 e.2 fate f))).
Definition debug_trace_block_handler (id : BlockId) (opts : TracingOptions TC) : Prog :=
  Acquire (Await (fun e fate => RFrames (debug_trace_block e.1 e.2 fate id opts))).
Definition debug_trace_transaction_handler (hash : B256) (opts : TracingOptions TC) : Prog :=
  Acquire (Await (fun e fate => RFrame (debug_trace_transaction e.1 e.2 fate hash opts))).
Definition trace_block_rlp_handler (bytes : list Z) (opts : TracingOptions TC) : Prog :=
  Acquire (Await (fun e fate => RFrames (trace_block_rlp e.1 fate bytes opts))).
Definition debug_trace_call_handler (request : Q) (id : option BlockId) (opts : TracingOptions TC) : Prog :=
  Acquire (Await (fun e fate => RFrame (debug_trace_call e.1 fate request id opts))).
Definition get_raw_header_handler (id : BlockId) : Prog :=
  Await (fun e fate => RBytes (get_raw_header e.1 fate id)).
Definition get_raw_block_handler (id : BlockId) : Prog :=
  Await (fun e fate => RBytes (get_raw_block e.1 e.2 fate id)).
Definition get_raw_receipts_handler (id : BlockId) : Prog :=
  Await (fun e fate => RByteLists (get_raw_receipts e.1 e.2 fate id)).
Definition get_raw_transaction_handler (hash : B256) : Prog :=
  Await (fun e fate => RBytes (get_raw_transaction e.2 fate hash)).

Definition handler (c : Call) : Prog :=
  match c with
  | CBlock tag => trace_block_handler tag
  | CTransaction hash => trace_transaction_handler hash
  | CReplayBlock tag types => replay_block_transactions_handler tag types
  | CReplayTransaction hash types => replay_transaction_handler hash types
  | CCall p => trace_call_handler p
  | CCallMany calls id => trace_call_many_handler calls id
  | CRaw bytes types id => trace_raw_transaction_handler bytes types id
  | CGet hash indices => trace_get_handler hash indices
  | CFilter f => trace_filter_handler f
  | CDebugBlock id opts => debug_trace_block_handler id opts
  | CDebugTransaction hash opts => debug_trace_transaction_handler hash opts
  | CDebugRlp bytes opts => trace_block_rlp_handler bytes opts
  | CDebugCall request id opts => debug_trace_call_handler request id opts
  | CRawHeader id => get_raw_header_handler id
  | CRawBlock id => get_raw_block_handler id
  | CRawReceipts id => get_raw_receipts_handler id
  | CRawTransaction hash => get_raw_transaction_handler hash
  end.
(** What a call answers: the function of [Tracing] it names. *)
Definition answer (c : Call) (e : Env) (fate : task_fate) : Reply :=
  match c with
  | CBlock tag => RTraces (trace_block e.1 e.2 fate tag)
  | CTransaction hash => RTraces (trace_transaction e.1 e.2 fate hash)
  | CReplayBlock tag types => RReplays (replay_block_transactions e.1 e.2 fate tag types)
  | CReplayTransaction hash types => RReplay (replay_transaction e.1 e.2 fate hash types)
  | CCall p => RReplay (trace_call e.1 fate p)
  | CCallMany calls id => RMany (trace_call_many e.1 fate calls id)
  | CRaw bytes types id => RReplay (trace_raw_transaction e.1 fate bytes types id)
  | CGet hash indices => ROne (trace_get e.1 e.2 fate hash indices)
  | CFilter f => RFiltered (trace_filter e.1 e.2 fate f)
  | CDebugBlock id opts => RFrames (debug_trace_block e.1 e.2 fate id opts)
  | CDebugTransaction hash opts => RFrame (debug_trace_transaction e.1 e.2 fate hash opts)
  | CDebugRlp bytes opts => RFrames (trace_block_rlp e.1 fate bytes opts)
  | CDebugCall request id opts => RFrame (debug_trace_call e.1 fate request id opts)
  | CRawHeader id => RBytes (get_raw_header e.1 fate id)
  | CRawBlock id => RBytes (get_raw_block e.1 e.2 fate id)
  | CRawReceipts id => RByteLists (get_raw_receipts e.1 e.2 fate id)
  | CRawTransaction hash => RBytes (get_raw_transaction e.2 fate hash)
  end.

(** The calls that execute transactions, against those that only read. *)
Definition executes (c : Call) : bool :=
  match c with
  | CRawHeader _ | CRawBlock _ | CRawReceipts _ | CRawTransaction _ => false
  | CGet _ indices => bool_decide (length indices = 1%nat)
  | _ => true
  end.

(** [progress h code n]: the handler [h] is at [code] and holds [n] permits. *)
Inductive progress (h : Prog) : Prog -> nat -> Prop :=
| progress_start : progress h h 0
| progress_acquired rest n : progress h (Acquire rest) n -> progress h rest (S n).

Definition awaits (code : Prog) : bool := match code with Await _ => true | _ => false end.
Definition returns (code : Prog) (e : Env) (fate : task_fate) : option Reply :=
  match code with Answer a => Some a | Await task => Some (task e fate) | Acquire _ => None end.

(** A handler is at its start, or has taken its only permit and awaits. *)
Lemma progress_cases c code n :
  progress (handler c) code n ->
  (code = handler c /\ n = 0%nat)
  \/ (exists task, handler c = Acquire (Await task) /\ code = Await task /\ n = 1%nat).
Proof.
  induction 1 as [|rest n _ IH]; [by left|right].
  destruct IH as [[Hh ->]|(task & _ & [=] & _)].
  assert (exists task, rest = Await task) as [task ->]; [|by exists task].
  destruct c as [| | | | | | |hash [|i [|j l]]| | | | | | | | |]; cbn in Hh; try discriminate;
    injection Hh as ->; by eexists.
Qed.

(** Every handler holds one permit while it awaits a task that executes
    transactions, and none otherwise. *)
Lemma handler_permits c code n :
  progress (handler c) code n -> n = if executes c && awaits code then 1%nat else 0%nat.
Proof.
  intros [[-> ->]|(task & Hh & -> & ->)]%progress_cases;
    destruct c as [| | | | | | |hash [|i [|j l]]| | | | | | | | |]; reflexivity || discriminate.
Qed.

(** A handler that returns gives the answer of the function it names. *)
Lemma handler_answers c code n e fate r :
  progress (handler c) code n -> returns code e fate = Some r -> r = answer c e fate.
Proof.
  intros [[-> ->]|(task & Hh & -> & ->)]%progress_cases Hr;
    destruct c as [| | | | | | |hash [|i [|j l]]| | | | | | | | |]; try discriminate;
    cbn in *; try (injection Hh as <-); by injection Hr as <-.
Qed.

(** ** The server

    Live requests by their number: the call, where its handler is and the
    permits it holds; and the answers given so far. *)
Context {Sem : Type} `{!Semaphore Sem}.
Record Live := mkLive { lv_call : Call; lv_code : Prog; lv_permits : nat }.
Record Server := mkServer { sv_sem : Sem; sv_live : gmap nat Live; sv_answered : list (Call * Reply) }.

Definition server_new (config : StorageRpcConfig) : Server :=
  mkServer (semaphore_new (Z.to_nat (max_tracing_requests config))) ∅ [].

(** A request comes in; the acquire future of a handler is polled; a handler
    returns, on whatever its task reads and however the task ends; a request is
    dropped, with what its handler holds, and its task is left to itself. *)
Inductive step : Server -> Server -> Prop :=
| step_call id c sem live answered :
    live !! id = None ->
    step (mkServer sem live answered) (mkServer sem (<[id := mkLive c (handler c) 0]> live) answered)
| step_acquired id c rest n sem sem' live answered :
    live !! id = Some (mkLive c (Acquire rest) n) -> poll_acquire id sem = (true, sem') ->
    step (mkServer sem live answered) (mkServer sem' (<[id := mkLive c rest (S n)]> live) answered)
| step_waits id c rest n sem sem' live answered :
    live !! id = Some (mkLive c (Acquire rest) n) -> poll_acquire id sem = (false, sem') ->
    step (mkServer sem live answered) (mkServer sem' live answered)
| step_returns id c code n e fate r sem live answered :
    live !! id = Some (mkLive c code n) -> returns code e fate = Some r ->
    step (mkServer sem live answered)
      (mkServer (Nat.iter n drop_permit sem) (delete id live) (answered ++ [(c, r)]))
| step_dropped id l sem live answered :
    live !! id = Some l ->
    step (mkServer sem live answered)
      (mkServer (Nat.iter (lv_permits l) drop_permit (cancel_acquire id sem)) (delete id live) answered).

(** The requests whose task is executing transactions for them. *)
Definition tracing (live : gmap nat Live) : gmap nat Live :=
  filter (fun '(_, l) => executes (lv_call l) && awaits (lv_code l) = true) live.
Definition permits (live : gmap nat Live) : nat := sum_list (lv_permits ∘ snd <$> map_to_list live).

Lemma permits_insert id l live : live !! id = None -> permits (<[id := l]> live) = (lv_permits l + permits live)%nat.
Proof. intros Hn. unfold permits. by rewrite map_to_list_insert. Qed.
Lemma permits_delete id l live : live !! id = Some l -> permits live = (lv_permits l + permits (delete id live))%nat.
Proof. intros Hl. rewrite <- (permits_insert id) by apply lookup_delete_eq. by rewrite insert_delete_id. Qed.

(** When each holds one permit exactly while it traces, the permits count the
    tracing requests. *)
Lemma permits_tracing live :
  (forall id l, live !! id = Some l -> progress (handler (lv_call l)) (lv_code l) (lv_permits l)) ->
  permits live = size (tracing live).
Proof.
  unfold tracing. induction live as [|id l live Hn IH] using map_ind; intros Hl.
  { unfold permits. by rewrite map_filter_empty, map_to_list_empty. }
  rewrite permits_insert by done. pose proof (handler_permits _ _ _ (Hl id l (lookup_insert_eq _ _ _))) as ->.
  rewrite IH by (intros id' l' Hl'; apply (Hl id'); rewrite lookup_insert_ne by congruence; done).
  destruct (executes (lv_call l) && awaits (lv_code l)) eqn:Ht.
  - rewrite map_filter_insert_True by done. rewrite map_size_insert_None; [done|].
    apply map_lookup_filter_None. by left.
  - rewrite map_filter_insert_not' by (by rewrite Ht || (intros y; congruence)). done.
Qed.

(** *** The invariant *)
Context (limit out : Sem -> nat) `{!LawfulSemaphore Sem limit out}.

Record server_inv (max : nat) (s : Server) : Prop := {
  si_limit : limit (sv_sem s) = max;
  si_out : out (sv_sem s) = permits (sv_live s);
  si_max : (out (sv_sem s) <= max)%nat;
  si_code id l : sv_live s !! id = Some l -> progress (handler (lv_call l)) (lv_code l) (lv_permits l);
  si_answered : Forall (fun '(c, r) => exists e fate, r = answer c e fate) (sv_answered s) }.

Lemma drop_permits n sem :
  limit (Nat.iter n drop_permit sem) = limit sem /\ out (Nat.iter n drop_permit sem) = (out sem - n)%nat.
Proof.
  induction n as [|n [IH1 IH2]]; simpl; [split; [done|lia]|].
  destruct (drop_returns (Nat.iter n drop_permit sem)) as [-> ->]. split; [done|lia].
Qed.

(** A handler leaves: its permits are back. *)
Lemma leave_inv max id l sem live answered answered' :
  server_inv max (mkServer sem live answered) -> live !! id = Some l ->
  Forall (fun '(c, r) => exists e fate, r = answer c e fate) answered' ->
  server_inv max (mkServer (Nat.iter (lv_permits l) drop_permit sem) (delete id live) answered').
Proof.
  intros [I1 I2 I3 I4 _] Hl Ha. cbn [sv_sem sv_live] in *. pose proof (permits_delete _ _ _ Hl) as Hp.
  destruct (drop_permits (lv_permits l) sem) as [D1 D2].
  constructor; cbn [sv_sem sv_live sv_answered]; [congruence|lia|lia| |done].
  intros id' l' Hl'. apply lookup_delete_Some in Hl' as [_ Hl']. by eapply I4.
Qed.

Lemma step_inv max s s' : step s s' -> server_inv max s -> server_inv max s'.
Proof.
  intros Hs Hi. destruct Hs as [id c sem live an Hn|id c rest n sem sem' live an Hl Hp|id c rest n sem sem' live an Hl Hp
    |id c code n e fate r sem live an Hl Hr|id l sem live an Hl].
  - destruct Hi as [I1 I2 I3 I4 I5]. constructor; cbn [sv_sem sv_live sv_answered] in *; [done| |done| |done].
    + by rewrite permits_insert.
    + intros id' l' [[<- <-]|[_ Hl']]%lookup_insert_Some; [constructor|by eapply I4].
  - destruct Hi as [I1 I2 I3 I4 I5]. cbn [sv_sem sv_live sv_answered] in *. apply poll_ready in Hp as (P1 & P2 & P3).
    pose proof (permits_delete _ _ _ Hl) as Hd. cbn [lv_permits] in Hd.
    constructor; cbn [sv_sem sv_live sv_answered]; [congruence| |lia| |done].
    + rewrite <- insert_delete_eq, permits_insert by apply lookup_delete_eq. cbn [lv_permits]. lia.
    + intros id' l' [[<- <-]|[_ Hl']]%lookup_insert_Some; [|by eapply I4]. apply I4 in Hl. by constructor.
  - destruct Hi as [I1 I2 I3 I4 I5]. cbn [sv_sem sv_live sv_answered] in *. apply poll_pending in Hp as [P1 P2].
    constructor; cbn [sv_sem sv_live sv_answered]; [congruence|congruence|lia|done|done].
  - apply (leave_inv max id (mkLive c code n) sem live an); [done|done|].
    apply Forall_app. split; [apply Hi|]. apply Forall_singleton. exists e, fate.
    apply (si_code _ _ Hi) in Hl. by eapply handler_answers.
  - apply (leave_inv max id l (cancel_acquire id sem) live an); [|done|apply Hi].
    destruct Hi as [I1 I2 I3 I4 I5], (cancel_keeps id sem) as [C1 C2]. cbn [sv_sem sv_live sv_answered] in *.
    constructor; cbn [sv_sem sv_live sv_answered]; [congruence|congruence|lia|done|done].
Qed.

Lemma steps_inv max s s' : rtc step s s' -> server_inv max s -> server_inv max s'.
Proof. induction 1; eauto using step_inv. Qed.

Lemma server_new_inv config : server_inv (Z.to_nat (max_tracing_requests config)) (server_new config).
Proof.
  constructor; cbn [sv_sem sv_live sv_answered server_new]; [apply new_limit|..|constructor].
  - rewrite new_out. unfold permits. by rewrite map_to_list_empty.
  - rewrite new_out. lia.
  - intros id l Hl. by rewrite lookup_empty in Hl.
Qed.

End handlers.
