(* ===== verification/TracingProps.v ===== *)
(** * Tracing: one transaction, a block, a range

    A transaction traced on its own is the transaction traced in its block, in
    the Parity and in the Geth form, and [trace_filter] is [trace_block] over
    the blocks of its range. *)

From S2P Require Import Prelude Primitives BlockTags Errors Storage RpcConfig RpcCtx EthQueries Tracer Tracing.

Section replay.
Context {V X RS I T : Type} `{!TraceEvm V X RS I T, !Transaction T}.

(** A step that leaves what running the transaction leaves. *)
Definition steps_like_run {A E} (step : nat -> T -> V -> res E (A * V)) : Prop :=
  forall idx tx v a v', step idx tx v = Ok (a, v') ->
    exists x, run_tx tx v = Ok x /\ v' = accept_state x.

(** How the replay to the [i]-th transaction relates to the traces [l] of the
    block: before the first magic signature it arrives where the block's own
    step started, at it it arrives too, and beyond it it gives up. *)
Definition replay_matches {A E} (step : nat -> T -> V -> res E (A * V)) (idx : nat) (l : list A)
    (i : nat) (tx : T) (r : res string Replay) : Prop :=
  if decide (i < length l)%nat then
    exists v a v', r = Ok (ReplayAt v (idx + i) tx) /\ step (idx + i)%nat tx v = Ok (a, v') /\ l !! i = Some a
  else if decide (i = length l) then
    is_magic_sig tx = true /\ exists v, r = Ok (ReplayAt v (idx + i) tx)
  else r = Ok ReplayMagic.

Lemma replay_matches_cons {A E} (step : nat -> T -> V -> res E (A * V)) idx a l i tx r :
  replay_matches step (S idx) l i tx r -> replay_matches step idx (a :: l) (S i) tx r.
Proof.
  unfold replay_matches. simpl. rewrite Nat.add_succ_r.
  repeat case_decide; try lia; auto.
Qed.

Lemma replay_at_hit v idx tx txs :
  replay_to (tx_hash tx) idx (tx :: txs) v = Ok (ReplayAt v idx tx).
Proof. simpl. by rewrite Z.eqb_refl. Qed.

Lemma later_hash (h : B256) (txs : list T) (i : nat) tx :
  txs !! i = Some tx -> h ∉ tx_hash <$> txs -> h <> tx_hash tx.
Proof. intros Hi Hnin ->. apply Hnin, list_elem_of_fmap_2. by eapply list_elem_of_lookup_2. Qed.

Lemma replay_to_matches {A E} (step : nat -> T -> V -> res E (A * V)) :
  steps_like_run step -> forall txs idx v l i tx,
  NoDup (tx_hash <$> txs) -> trace_txs step idx txs v = Ok l -> txs !! i = Some tx ->
  replay_matches step idx l i tx (replay_to (tx_hash tx) idx txs v).
Proof.
  intros Hstep. induction txs as [|t txs IH]; intros idx v l i tx Hnd Hl Hi; [done|].
  apply NoDup_cons in Hnd as [Hnin Hnd]. simpl in Hl.
  destruct (is_magic_sig t) eqn:Hm.
  - injection Hl as <-. destruct i as [|i]; simplify_eq/=.
    + unfold replay_matches. simpl. rewrite Z.eqb_refl, Nat.add_0_r. eauto.
    + destruct (tx_hash t =? tx_hash tx) eqn:Heq.
      * apply Z.eqb_eq in Heq. by destruct (later_hash _ _ _ _ Hi Hnin).
      * by rewrite Hm.
  - res_inv. destruct x as [a v']. res_inv.
    destruct i as [|i].
    + injection Hi as ->. rewrite replay_at_hit. unfold replay_matches. simpl.
      rewrite Nat.add_0_r. eauto 10.
    + simpl in Hi. apply replay_matches_cons. simpl.
      destruct (tx_hash t =? tx_hash tx) eqn:Heq.
      * apply Z.eqb_eq in Heq. by destruct (later_hash _ _ _ _ Hi Hnin).
      * rewrite Hm. destruct (Hstep _ _ _ _ _ H) as (x1 & -> & ->). simpl. by apply IH.
Qed.
End replay.

Section agreement.
Context {V X RS I T G PT TR TC CallCfg PreCfg FlatCfg MuxCfg Types : Type}
  `{!TraceEvm V X RS I T, !Inspectors V RS I G PT TR TC CallCfg PreCfg FlatCfg MuxCfg Types,
    !LawfulTraceEvm}.
Context {CS CE F L SE HE HS R Code Spec Q SO BO M : Type}
  `{!ColdStorage CS CE T F L, !Transaction T, !TxEncoding T, !ReceiptBloom L, !HotStorage HS SE HE R Code,
    !HeaderOps, !Display CE SE HE, !TraceSetup V (R * Z) Spec T Q SO BO, !RawCodec T L, !TraceMatcher M PT}.
Abbreviation Ctx := (RpcCtx HS Spec).

Lemma runs_to_run_tx tx v v' :
  runs_to (fill_tx tx v) v' -> exists x, run_tx tx v = Ok x /\ v' = accept_state x.
Proof. intros (x & Hx & ->). exists x. by rewrite run_tx_fills. Qed.

Lemma localized_steps header block_hash :
  steps_like_run (localized_step (CE:=CE) (SE:=SE) (HE:=HE) header block_hash).
Proof.
  intros idx tx v a v' Hs. unfold localized_step, trace_halted in Hs. apply map_err_ok in Hs.
  eapply runs_to_run_tx, trace_parity_localized_runs, Hs.
Qed.

Lemma replay_steps types : steps_like_run (replay_step (CE:=CE) (SE:=SE) (HE:=HE) types).
Proof.
  intros idx tx v a v' Hs. unfold replay_step, trace_halted in Hs. res_inv. destruct x. res_inv.
  eapply runs_to_run_tx, trace_parity_replay_runs; eauto.
Qed.

Lemma geth_steps header block_hash opts :
  steps_like_run (geth_step (CE:=CE) (SE:=SE) (HE:=HE) header block_hash opts).
Proof.
  intros idx tx v a v' Hs. unfold geth_step in Hs. res_inv. destruct x. res_inv.
  eapply runs_to_run_tx, trace_commits_like_run; eauto.
Qed.

(** The block as both stores hold it. *)
Record stored_block (ctx : Ctx) (cold : CS) (n : Z) (h : SealedHeader) (txs : list T) : Prop := {
  sb_hot : resolve_header ctx (IdNumber (Number n)) = Ok (Some h);
  sb_cold : get_header_by_number cold n = Ok (Some h);
  sb_number : h_number (sh_header h) = n;
  sb_txs : get_transactions_in_block cold n = Ok txs;
  sb_hashes : NoDup (tx_hash <$> txs) }.

(** What a transaction handler answers against the traces of its block. *)
Definition agrees {A B} (groups : list A) (i : nat) (tx : T) (found : A -> B) (missing r : B) : Prop :=
  if decide (i < length groups)%nat then exists g, groups !! i = Some g /\ r = found g
  else if decide (i = length groups) then is_magic_sig tx = true /\ r <> missing
  else r = missing.

Section stored.
Context {ctx : Ctx} {cold : CS} {n : Z} {h : SealedHeader} {txs : list T}.
Context `{!CoherentCold cold} (Hb : stored_block ctx cold n h txs).

Lemma stored_tx i tx :
  txs !! i = Some tx ->
  get_tx_by_hash cold (tx_hash tx) = Ok (Some (tx, mkMeta n (sh_hash h) (Z.of_nat i))).
Proof. intros Hi. destruct Hb. by eapply coherent_tx. Qed.

Lemma load_block_stored db :
  state_before ctx n = Ok db -> load_block (CE:=CE) ctx cold n = Ok (Some (h, txs, db)).
Proof.
  intros Hdb. destruct Hb as [Hh _ Hn Ht _]. unfold load_block.
  rewrite Hh. simpl. rewrite Ht. simpl. by rewrite Hn, Hdb.
Qed.

Lemma load_block_stored_inv found :
  load_block (CE:=CE) ctx cold n = Ok found ->
  exists db, state_before ctx n = Ok db /\ found = Some (h, txs, db).
Proof.
  destruct Hb as [Hh _ Hn Ht _]. unfold load_block. rewrite Hh. simpl. rewrite Ht. simpl.
  rewrite Hn. intros Hok. res_inv. eauto.
Qed.

Lemma load_and_replay_stored db hash i r :
  state_before ctx n = Ok db ->
  replay_to hash 0 txs (block_machine ctx (sh_header h) db) = Ok r ->
  load_and_replay (CE:=CE) ctx cold hash (mkMeta n (sh_hash h) i) = Ok (sh_header h, r).
Proof.
  intros Hdb Hr. destruct Hb as [Hh _ Hn Ht _]. unfold load_and_replay. simpl.
  rewrite Hh. simpl. rewrite Ht. simpl. rewrite Hdb. simpl. by rewrite Hr.
Qed.

(** C33: [trace_transaction] is [trace_block], one transaction at a time: the traces
    of a block are the groups the transactions before the first
    magic-signature one have on their own, in order; every transaction after
    that one is answered with null.  The first magic-signature transaction
    itself is traced (or fails) on its own although the block's traces stop
    before it: only the transactions before the target are checked. *)
Theorem parity_traces_agree traces :
  trace_block ctx cold Finished (Number n) = Ok (Some traces) ->
  exists groups, traces = mjoin (M:=list) groups /\ forall i tx, txs !! i = Some tx ->
    agrees groups i tx (fun g => Ok (Some g)) (Ok None)
      (trace_transaction ctx cold Finished (tx_hash tx)).
Proof.
  intros Hok. unfold trace_block, trace_loaded in Hok. apply await_handler_ok in Hok as [_ Hok]. simpl in Hok.
  apply bind_ok in Hok as (found & Hload & Hok).
  destruct (load_block_stored_inv _ Hload) as (db & Hdb & ->).
  unfold trace_block_localized in Hok. res_inv. eexists. split; [reflexivity|].
  intros i tx Hi. unfold agrees, trace_transaction. rewrite (stored_tx i tx Hi). simpl.
  match goal with Hg : trace_txs _ _ _ _ = Ok ?l |- _ =>
    pose proof (replay_to_matches _ (localized_steps _ _) txs 0 _ l i tx (sb_hashes _ _ _ _ _ Hb) Hg Hi) as Hm
  end.
  unfold replay_matches in Hm. repeat case_decide; try done.
  - destruct Hm as (v & g & v' & Hr & Hs & Hg). exists g. split; [done|].
    rewrite (load_and_replay_stored db _ _ _ Hdb Hr). simpl. simpl in Hs. by rewrite Hs.
  - destruct Hm as (Hmagic & v & Hr). split; [done|].
    rewrite (load_and_replay_stored db _ _ _ Hdb Hr). simpl.
    by destruct (localized_step _ _ _ _ _) as [[]| |].
  - rewrite (load_and_replay_stored db _ _ _ Hdb Hm). done.
Qed.

(** [trace_replayTransaction] answers the entry of [trace_replayBlockTransactions],
    and "not found" beyond the block's first magic-signature transaction. *)
Theorem replays_agree types results :
  replay_block_transactions ctx cold Finished (Number n) types = Ok (Some results) ->
  forall i tx, txs !! i = Some tx ->
    agrees results i tx (fun g => Ok g.1) (Err (TraceTransactionNotFound (tx_hash tx)))
      (replay_transaction ctx cold Finished (tx_hash tx) types).
Proof.
  intros Hok i tx Hi. unfold replay_block_transactions in Hok.
  apply await_handler_ok in Hok as [_ Hok]. simpl in Hok.
  apply bind_ok in Hok as (found & Hload & Hok).
  destruct (load_block_stored_inv _ Hload) as (db & Hdb & ->).
  unfold trace_block_replay in Hok. res_inv.
  unfold agrees, replay_transaction. rewrite (stored_tx i tx Hi). simpl.
  match goal with Hg : trace_txs _ _ _ _ = Ok ?l |- _ =>
    pose proof (replay_to_matches _ (replay_steps _) txs 0 _ l i tx (sb_hashes _ _ _ _ _ Hb) Hg Hi) as Hm
  end.
  unfold replay_matches in Hm. repeat case_decide; try done.
  - destruct Hm as (v & g & v' & Hr & Hs & Hg). exists g. split; [done|].
    rewrite (load_and_replay_stored db _ _ _ Hdb Hr). simpl.
    unfold replay_step in Hs. res_inv. destruct x. res_inv.
    match goal with Ht : trace_halted _ = _ |- _ => by rewrite Ht end.
  - destruct Hm as (Hmagic & v & Hr). split; [done|].
    rewrite (load_and_replay_stored db _ _ _ Hdb Hr). simpl.
    unfold trace_halted. by destruct (trace_parity_replay _ _) as [[]| |].
  - rewrite (load_and_replay_stored db _ _ _ Hdb Hm). done.
Qed.

(** C34: [debug_traceTransaction] is [debug_traceBlockBy...], one transaction at a
    time: the frames of a block are, in order and under their hashes, what the
    transactions before the first magic-signature one answer on their own, and
    those after it are "not found".  The first magic-signature transaction
    itself is not told apart from a missing one by a block trace, but is
    executed when it is asked for. *)
Theorem geth_traces_agree id opts frames :
  resolve_block_id ctx id = Ok n ->
  debug_trace_block ctx cold Finished id opts = Ok frames ->
  forall i tx, txs !! i = Some tx ->
    agrees frames i tx (fun f => Ok f.1) (Err (DebugTransactionNotFound (tx_hash tx)))
      (debug_trace_transaction ctx cold Finished (tx_hash tx) opts)
    /\ forall f, frames !! i = Some f -> f.2 = tx_hash tx.
Proof.
  intros Hid Hok i tx Hi. destruct Hb as [Hh _ Hn Ht Hnd]. unfold debug_trace_block in Hok.
  apply await_handler_ok in Hok as [_ Hok]. rewrite Hid in Hok. simpl in Hok.
  rewrite Hh in Hok. simpl in Hok. rewrite Ht in Hok. simpl in Hok. rewrite Hn in Hok.
  apply bind_ok in Hok as (db & Hdb & Hok). apply map_err_ok in Hdb.
  pose proof (replay_to_matches _ (geth_steps _ _ _) txs 0 _ _ i tx Hnd Hok Hi) as Hm.
  unfold agrees, debug_trace_transaction. rewrite (stored_tx i tx Hi). simpl.
  rewrite Hh. simpl. rewrite Ht. simpl. rewrite Hdb. simpl.
  unfold replay_matches in Hm. repeat case_decide.
  - destruct Hm as (v & g & v' & -> & Hs & Hg). simpl.
    unfold geth_step in Hs. res_inv. destruct x. res_inv. simpl in *.
    match goal with Htr : trace _ _ _ = _ |- _ => rewrite Htr end. split.
    + eauto.
    + intros f Hf. by simplify_eq.
  - destruct Hm as (Hmagic & v & ->). simpl. split; [split; [done|]|].
    + destruct (trace _ _ _) as [[]|e|] eqn:Htr; try done. simpl. intros [= ->].
      by apply (trace_finds_no_tx _ _ _ _ Htr).
    + intros f Hf. apply lookup_lt_Some in Hf. lia.
  - rewrite Hm. split; [done|]. intros f Hf. apply lookup_lt_Some in Hf. lia.
Qed.
End stored.

(** *** Ranges *)
Lemma filter_block_answers ctx cold matcher n :
  filter_block ctx cold matcher n =
  (found ← trace_loaded ctx cold n;
   Ok (filter (fun t => trace_matches matcher t = true) (default [] found))).
Proof.
  unfold filter_block, trace_loaded. destruct (load_block ctx cold n) as [[[[sealed txs] db]|]| |]; try done.
  simpl. by destruct (trace_block_localized _ _ _ _ _).
Qed.

Lemma trace_block_number ctx cold n :
  trace_block ctx cold Finished (Number n)
  = await_handler Finished (trace_loaded ctx cold n) trace_task_panic.
Proof. done. Qed.

Lemma filtered_blocks ctx cold matcher ns groups :
  Forall2 (fun n g => filter_block ctx cold matcher n = Ok g) ns groups ->
  exists blocks,
    Forall2 (fun n traces => trace_block ctx cold Finished (Number n) = Ok traces) ns blocks
    /\ groups = (fun traces => filter (fun t => trace_matches matcher t = true) (default [] traces)) <$> blocks.
Proof.
  induction 1 as [|n g ns groups Hg _ (blocks & Hb & ->)]; [by exists []|].
  rewrite filter_block_answers in Hg. res_inv. eexists (_ :: blocks). split; [|reflexivity].
  constructor; [|done]. rewrite trace_block_number.
  match goal with H : trace_loaded _ _ _ = _ |- _ => by rewrite H end.
Qed.

Lemma paginate_slice after count (l : list PT) :
  paginate after count l
  = (match count with Some c => take (Z.to_nat c) | None => id end) (drop (Z.to_nat (default 0 after)) l).
Proof.
  unfold paginate. destruct after as [a|]; simpl; [|by destruct count].
  destruct (Z.leb_spec (Z.of_nat (length l)) a) as [Hle|Hlt].
  - rewrite (drop_ge l) by lia. destruct count as [c|]; [by destruct (Z.to_nat c)|done].
  - by destruct count.
Qed.

(** C35: [trace_filter] is [trace_block] over its range: when it answers, the range
    lies in the chain and holds between one block and the configured maximum;
    the answer is the matching traces of its blocks in ascending order (a block
    without header adds none), without the first [after], cut to [count].  A
    range above the maximum is refused with both numbers, before any read. *)
Theorem trace_filter_spec ctx cold (f : TraceFilter M) start end_ max r :
  trace_filter ctx cold Finished f = r ->
  start = default 0 (tf_from_block f) ->
  end_ = default (latest (ctx_tags ctx)) (tf_to_block f) ->
  max = max_trace_filter_blocks (ctx_config ctx) ->
  0 <= start -> latest (ctx_tags ctx) < max64 ->
  match r with
  | Ok answer =>
      start <= end_ <= latest (ctx_tags ctx) /\ end_ - start + 1 <= max
      /\ exists blocks,
           Forall2 (fun n traces => trace_block ctx cold Finished (Number n) = Ok traces)
             (range_incl start end_) blocks
           /\ answer = (match tf_count f with Some c => take (Z.to_nat c) | None => id end)
                (drop (Z.to_nat (default 0 (tf_after f)))
                   (mjoin (M:=list) ((fun traces =>
                      filter (fun t => trace_matches (tf_matcher f) t = true) (default [] traces)) <$> blocks)))
  | Err e =>
      start <= end_ <= latest (ctx_tags ctx) -> max < end_ - start + 1 ->
      e = TraceBlockRangeExceeded (end_ - start + 1) max
  | Panic => False
  end.
Proof.
  intros <- Hstart Hend Hmax Hs Hlatest. unfold trace_filter. rewrite <- Hstart, <- Hend, <- Hmax.
  destruct (Z.ltb_spec (latest (ctx_tags ctx)) start); [simpl; lia|].
  destruct (Z.ltb_spec (latest (ctx_tags ctx)) end_); [simpl; lia|].
  destruct (Z.ltb_spec end_ start); [simpl; lia|].
  replace (add64 (sat_sub end_ start) 1) with (end_ - start + 1)
    by (unfold sat_sub; rewrite Z.max_r by lia; rewrite add64_exact; width).
  destruct (Z.ltb_spec max (end_ - start + 1)); [done|].
  destruct (mapM _ _) as [groups|e|] eqn:Hm; simpl; [|lia|lia].
  split; [lia|]. split; [lia|].
  apply mapM_ok in Hm. destruct (filtered_blocks _ _ _ _ _ Hm) as (blocks & Hb & ->).
  exists blocks. split; [done|]. apply paginate_slice.
Qed.
End agreement.
