(* ===== verification/HostRpc.v ===== *)
(** * The RPC host notifier ([crates/host-rpc])

    Follows the host chain over RPC: the provider interface, blocks and
    segments, the coalescing header stream, the chain view with its backward
    walk, backfill, and the [HostNotifier] operations.  The provider's answers
    change as the host advances, so every call threads the provider's state
    [P]; the notifier and the provider together are the state of the monad
    [st]. *)

From S2P Require Import Prelude HostTypes Primitives.

Definition DEFAULT_BUFFER_CAPACITY : Z := 64.
Definition DEFAULT_BACKFILL_BATCH_SIZE : Z := 32.
Definition DEFAULT_MAX_RPC_CONCURRENCY : Z := 8.
Definition DEFAULT_SLOT_SECONDS : Z := 12.
Definition SLOTS_PER_EPOCH : Z := 32.

(** [RpcHostError]. *)
Inductive RpcHostError (PE : Type) :=
| Rpc (e : PE)
| MissingBlockByHash (hash : B256)
| MissingBlock (tag : BlockNumberOrTag)
| BackfillContinuityBreak.
Arguments Rpc {PE} e.
Arguments MissingBlockByHash {PE} hash.
Arguments MissingBlock {PE} tag.
Arguments BackfillContinuityBreak {PE}.

(** The alloy [Provider] and the conversions of its RPC types: [PB] is a full
    RPC block, [PR] an RPC receipt, [T] and [R] the consensus transaction and
    receipt they convert to. *)
Class Provider (P PE PB PR T R : Type) := {
  get_block_by_hash : B256 -> P -> res PE (option RpcHeader) * P;
  get_full_block_by_hash : B256 -> P -> res PE (option PB) * P;
  get_block_by_number : BlockNumberOrTag -> P -> res PE (option RpcHeader) * P;
  get_full_block_by_number : BlockNumberOrTag -> P -> res PE (option PB) * P;
  get_block_receipts : BlockId -> P -> res PE (option (list PR)) * P;
  get_block_number : P -> res PE Z * P;
  get_code_at : Address -> P -> res PE (list Z) * P;
  block_header : PB -> Header;
  block_transactions : PB -> list T;
  into_primitives_receipt : PR -> R }.

(** ** Blocks and segments ([segment.rs]) *)

(** The recovered block is its header and transactions. *)
Record RpcBlock (T R : Type) := mkRpcBlock {
  b_header : Header; b_transactions : list T; b_receipts : list R }.
Arguments mkRpcBlock {T R} _ _ _.
Arguments b_header {T R} _.
Arguments b_transactions {T R} _.
Arguments b_receipts {T R} _.

Record RpcChainSegment (T R : Type) := mkSegment { blocks : list (RpcBlock T R) }.
Arguments mkSegment {T R} _.
Arguments blocks {T R} _.

(** ** The notifier's own state ([RpcHostNotifier]) *)
Record RpcHostNotifier := mkNotifier {
  chain_view : list (Z * B256);
  buffer_capacity : nat;
  cached_safe : option Z;
  cached_finalized : option Z;
  last_tag_epoch : option Z;
  backfill_from : option Z;
  backfill_batch_size : Z;
  max_rpc_concurrency : Z;
  last_emitted : option (Z * B256);
  slot_seconds : Z;
  genesis_timestamp : Z;
  head_set : bool }.

(** [RpcHostNotifier::new]. *)
Definition RpcHostNotifier_new (capacity : nat) (batch concurrency slot genesis : Z) :
    RpcHostNotifier :=
  mkNotifier [] capacity None None None None batch concurrency None slot genesis false.

(** Field updates. *)
Definition with_view (v : list (Z * B256)) (n : RpcHostNotifier) : RpcHostNotifier :=
  mkNotifier v (buffer_capacity n) (cached_safe n) (cached_finalized n) (last_tag_epoch n)
    (backfill_from n) (backfill_batch_size n) (max_rpc_concurrency n) (last_emitted n)
    (slot_seconds n) (genesis_timestamp n) (head_set n).
Definition with_tags (safe finalized epoch : option Z) (n : RpcHostNotifier) : RpcHostNotifier :=
  mkNotifier (chain_view n) (buffer_capacity n) safe finalized epoch
    (backfill_from n) (backfill_batch_size n) (max_rpc_concurrency n) (last_emitted n)
    (slot_seconds n) (genesis_timestamp n) (head_set n).
Definition with_backfill_from (from : option Z) (n : RpcHostNotifier) : RpcHostNotifier :=
  mkNotifier (chain_view n) (buffer_capacity n) (cached_safe n) (cached_finalized n)
    (last_tag_epoch n) from (backfill_batch_size n) (max_rpc_concurrency n) (last_emitted n)
    (slot_seconds n) (genesis_timestamp n) (head_set n).
Definition with_last_emitted (e : option (Z * B256)) (n : RpcHostNotifier) : RpcHostNotifier :=
  mkNotifier (chain_view n) (buffer_capacity n) (cached_safe n) (cached_finalized n)
    (last_tag_epoch n) (backfill_from n) (backfill_batch_size n) (max_rpc_concurrency n) e
    (slot_seconds n) (genesis_timestamp n) (head_set n).

(** *** Chain view helpers *)
Definition view_tip (v : list (Z * B256)) : option (Z * B256) := last v.

(** [view_hash]: an index computed from the front's number. *)
Definition view_hash (v : list (Z * B256)) (number : Z) : option B256 :=
  '(front_number, _) ← head v;
  if number <? front_number then None
  else '(_, hash) ← v !! Z.to_nat (number - front_number); Some hash.

(** [extend_view]: push back, then evict one from the front when over
    capacity. *)
Definition push_view (capacity : nat) (v : list (Z * B256)) (entry : Z * B256) :
    list (Z * B256) :=
  let v := v ++ [entry] in
  if (capacity <? length v)%nat then tail v else v.

Definition extend_view (capacity : nat) (entries v : list (Z * B256)) : list (Z * B256) :=
  fold_left (push_view capacity) entries v.

(** The [pop_back] loop of [reorg_view], from the back. *)
Fixpoint pop_back_from (fork_number : Z) (rev_view : list (Z * B256)) : list (Z * B256) :=
  match rev_view with
  | [] => []
  | (n, h) :: rest => if fork_number <=? n then pop_back_from fork_number rest else rev_view
  end.

Definition reorg_view (capacity : nat) (fork_number : Z) (entries v : list (Z * B256)) :
    list (Z * B256) :=
  extend_view capacity entries (reverse (pop_back_from fork_number (reverse v))).

(** [epoch_of]: the division panics when the divisor wraps to 0. *)
Definition epoch_of {E} (slot_seconds genesis_timestamp timestamp : Z) : res E Z :=
  let d := wrap64 (slot_seconds * SLOTS_PER_EPOCH) in
  if d =? 0 then Panic else Ok (sat_sub timestamp genesis_timestamp / d).

(** [WalkResult]. *)
Inductive WalkResult :=
| AlreadySeen
| Advance (new_chain : list (Z * B256))
| Reorg (fork_number old_tip : Z) (new_chain : list (Z * B256))
| Exhausted.

Section segment.
Context {T R : Type} `{HeaderOps}.

Definition block_number (b : RpcBlock T R) : Z := h_number (b_header b).
(** The header is resealed, so the hash is recomputed. *)
Definition block_hash (b : RpcBlock T R) : B256 := hash_slow (b_header b).
Definition block_parent_hash (b : RpcBlock T R) : B256 := h_parent_hash (b_header b).

(** [Extractable]: [first_number] and [tip_number] panic on an empty segment. *)
Definition blocks_and_receipts (s : RpcChainSegment T R) : list (RpcBlock T R * list R) :=
  (fun b => (b, b_receipts b)) <$> blocks s.
Definition first_number {E} (s : RpcChainSegment T R) : res E Z :=
  expect (block_number <$> head (blocks s)).
Definition tip_number {E} (s : RpcChainSegment T R) : res E Z :=
  expect (block_number <$> last (blocks s)).
Definition segment_len (s : RpcChainSegment T R) : nat := length (blocks s).
End segment.

Section notifier.
Context {P PE PB PR T R : Type} `{Provider P PE PB PR T R, HeaderOps}.
Abbreviation Error := (RpcHostError PE).
Abbreviation PM := (st P Error).

(** A provider call; the transport error is converted by [?]. *)
Definition rpc {A} (call : P -> res PE A * P) : PM A := st_map_err Rpc call.

(** *** Block fetching *)
Definition convert_rpc_block (rpc_block : PB) (rpc_receipts : option (list PR)) : RpcBlock T R :=
  mkRpcBlock (block_header rpc_block) (block_transactions rpc_block)
    (into_primitives_receipt <$> default [] rpc_receipts).

Definition fetch_block_by_hash (hash : B256) : PM (RpcBlock T R) :=
  rpc_block ← rpc (get_full_block_by_hash hash);
  rpc_receipts ← rpc (get_block_receipts (IdHash hash));
  rpc_block ← st_lift (ok_or rpc_block (MissingBlockByHash hash));
  mret (convert_rpc_block rpc_block rpc_receipts).

(** [buffered] yields in the order of the requests. *)
Definition fetch_blocks_by_hash (hashes : list (Z * B256)) : PM (list (RpcBlock T R)) :=
  st_mapM (fun '(_, hash) => fetch_block_by_hash hash) hashes.

Definition fetch_block_by_number (number : Z) : PM (RpcBlock T R) :=
  let tag := Number number in
  rpc_block ← rpc (get_full_block_by_number tag);
  rpc_receipts ← rpc (get_block_receipts (IdNumber tag));
  rpc_block ← st_lift (ok_or rpc_block (MissingBlock tag));
  mret (convert_rpc_block rpc_block rpc_receipts).

Definition fetch_range (from to : Z) : PM (list (RpcBlock T R)) :=
  if to <? from then mret [] else st_mapM fetch_block_by_number (range_incl from to).

(** *** The walk *)

(** One loop iteration per unit of fuel; [None] is out of fuel.  [walked] is
    newest first in the source's vector order. *)
Fixpoint walk_loop (fuel : nat) (n : RpcHostNotifier) (current_hash : B256)
    (walked : list (Z * B256)) : PM (option WalkResult) :=
  match fuel with
  | O => mret None
  | S fuel =>
      found ← rpc (get_block_by_hash current_hash);
      block ← st_lift (ok_or found (MissingBlockByHash current_hash));
      let number := h_number (rh_inner block) in
      let before := walked in
      let walked := walked ++ [(number, current_hash)] in
      let continue : PM (option WalkResult) :=
        if (buffer_capacity n <? length walked)%nat then mret (Some Exhausted)
        else walk_loop fuel n (h_parent_hash (rh_inner block)) walked in
      match view_hash (chain_view n) number with
      | Some local_hash =>
          if local_hash =? current_hash then
            match before with
            | [] => mret (Some AlreadySeen)
            | _ =>
                let new_chain := reverse before in
                let tip_num := from_option fst 0 (view_tip (chain_view n)) in
                if number =? tip_num then mret (Some (Advance new_chain))
                else mret (Some (Reorg (add64 number 1) tip_num new_chain))
            end
          else continue
      | None =>
          match chain_view n with
          | [] => mret (Some (Advance (reverse walked)))
          | (front_num, _) :: _ =>
              if number <? front_num then mret (Some Exhausted) else continue
          end
      end
  end.

(** The depth limit stops the loop after [buffer_capacity + 1] iterations. *)
Definition walk_fuel (n : RpcHostNotifier) : nat := S (S (buffer_capacity n)).

Definition walk_chain (n : RpcHostNotifier) (start_hash : B256) : PM WalkResult :=
  if match view_tip (chain_view n) with Some (_, h) => h =? start_hash | None => false end
  then mret AlreadySeen
  else r ← walk_loop (walk_fuel n) n start_hash []; st_lift (expect r).

(** *** Operations on notifier and provider *)
Abbreviation NM := (st (RpcHostNotifier * P) Error).

Definition provider {A} (m : PM A) : NM A :=
  fun '(n, p) => let '(r, p') := m p in (r, (n, p')).
Definition this : NM RpcHostNotifier := fun '(n, p) => (Ok n, (n, p)).
Definition update (f : RpcHostNotifier -> RpcHostNotifier) : NM unit :=
  fun '(n, p) => (Ok tt, (f n, p)).

Definition maybe_refresh_tags (timestamp : Z) : NM unit :=
  n ← this;
  epoch ← st_lift (epoch_of (slot_seconds n) (genesis_timestamp n) timestamp);
  if decide (last_tag_epoch n = Some epoch) then mret tt
  else
    safe ← provider (rpc (get_block_by_number Safe));
    finalized ← provider (rpc (get_block_by_number Finalized));
    update (with_tags ((fun b => h_number (rh_inner b)) <$> safe)
                      ((fun b => h_number (rh_inner b)) <$> finalized) (Some epoch)).

(** The walk of [handle_new_head], with the fallback to the latest block when
    the hint is stale. *)
Definition walk_from_hint (n : RpcHostNotifier) (hint_hash : B256) : PM WalkResult :=
  fun p => match walk_chain n hint_hash p with
  | (Err (MissingBlockByHash _), p) =>
      (found ← rpc (get_block_by_number Latest);
       latest ← st_lift (ok_or found (MissingBlock Latest));
       walk_chain n (rh_hash latest)) p
  | rp => rp
  end.

Definition notification (kind : HostNotificationKind (RpcChainSegment T R)) (n : RpcHostNotifier) :
    HostNotification (RpcChainSegment T R) :=
  mkHostNotification kind (cached_safe n) (cached_finalized n).

Definition handle_new_head (header : RpcHeader) :
    NM (option (HostNotification (RpcChainSegment T R))) :=
  n ← this;
  walk ← provider (walk_from_hint n (rh_hash header));
  let finish (kind : HostNotificationKind (RpcChainSegment T R)) :=
    _ ← maybe_refresh_tags (h_timestamp (rh_inner header));
    n ← this;
    mret (Some (notification kind n)) in
  match walk with
  | AlreadySeen => mret None
  | Exhausted =>
      _ ← update (fun n =>
        with_tags (cached_safe n) (cached_finalized n) None
          (with_backfill_from ((fun e => add64 e.1 1) <$> last_emitted n) (with_view [] n)));
      mret None
  | Advance new_chain =>
      blocks ← provider (fetch_blocks_by_hash new_chain);
      _ ← update (fun n => with_last_emitted (last new_chain)
                    (with_view (extend_view (buffer_capacity n) new_chain (chain_view n)) n));
      finish (ChainCommitted (mkSegment blocks))
  | Reorg fork_number old_tip new_chain =>
      blocks ← provider (fetch_blocks_by_hash new_chain);
      _ ← update (fun n => with_last_emitted (last new_chain)
            (with_view (reorg_view (buffer_capacity n) fork_number new_chain (chain_view n)) n));
      old ← st_lift (RevertRange_new fork_number old_tip);
      finish (ChainReorged old (mkSegment blocks))
  end.

(** [effective_ceiling] and [to] of one backfill batch. *)
Definition effective_ceiling (n : RpcHostNotifier) (from tip : Z) : Z :=
  let backfill_ceiling := sat_sub tip (Z.of_nat (buffer_capacity n) / 2) in
  if backfill_ceiling <? from then tip else backfill_ceiling.

Definition batch_end (n : RpcHostNotifier) (from tip : Z) : Z :=
  Z.min (effective_ceiling n from tip) (sub64 (add64 from (backfill_batch_size n)) 1).

(** [drain_backfill]: [Ok None] is the [None] of the source. *)
Definition drain_backfill : NM (option (HostNotification (RpcChainSegment T R))) :=
  n ← this;
  match backfill_from n with
  | None => mret None
  | Some from =>
      tip ← provider (rpc get_block_number);
      match Z.compare from (sat_add tip 1) with
      | Eq => _ ← update (with_backfill_from None); mret None
      | Gt => st_fail BackfillContinuityBreak
      | Lt =>
          let to := batch_end n from tip in
          blocks ← provider (fetch_range from to);
          if match last_emitted n, head blocks with
             | Some (_, expected_parent), Some first =>
                 negb (block_parent_hash first =? expected_parent)
             | _, _ => false
             end
          then _ ← update (with_view []); st_fail BackfillContinuityBreak
          else
            let view_entries := (fun b => (block_number b, block_hash b)) <$> blocks in
            let backfill_done := effective_ceiling n from tip <=? to in
            _ ← update (fun n =>
              with_backfill_from (if backfill_done then None else Some (add64 to 1))
                (with_last_emitted
                   (match last view_entries with Some e => Some e | None => last_emitted n end)
                   (with_view (extend_view (buffer_capacity n) view_entries (chain_view n)) n)));
            _ ← match last blocks with
                | Some b => maybe_refresh_tags (h_timestamp (b_header b))
                | None => mret tt
                end;
            n ← this;
            mret (Some (notification (ChainCommitted (mkSegment blocks)) n))
      end
  end.

(** *** [HostNotifier] *)

(** [next_notification] over the headers the coalesced subscription will
    yield, with the headers it leaves; [Ok None] is the end of the stream. *)
Fixpoint next_notification_loop (headers : list RpcHeader) (s : RpcHostNotifier * P) :
    res Error (option (HostNotification (RpcChainSegment T R))) * list RpcHeader
    * (RpcHostNotifier * P) :=
  match drain_backfill s with
  | (Ok None, s) =>
      match headers with
      | [] => (Ok None, [], s)
      | header :: rest =>
          match handle_new_head header s with
          | (Ok None, s) => next_notification_loop rest s
          | (r, s) => (r, rest, s)
          end
      end
  | (r, s) => (r, headers, s)
  end.
End notifier.

Definition notifier_set_head (block_number : Z) (n : RpcHostNotifier) : RpcHostNotifier :=
  if head_set n then n
  else mkNotifier (chain_view n) (buffer_capacity n) (cached_safe n) (cached_finalized n)
    (last_tag_epoch n) (Some block_number) (backfill_batch_size n) (max_rpc_concurrency n) None
    (slot_seconds n) (genesis_timestamp n) true.

Definition notifier_set_backfill_thresholds (max_blocks : option Z) (n : RpcHostNotifier) :
    RpcHostNotifier :=
  mkNotifier (chain_view n) (buffer_capacity n) (cached_safe n) (cached_finalized n)
    (last_tag_epoch n) (backfill_from n)
    (from_option (fun m => Z.max m 1) DEFAULT_BACKFILL_BATCH_SIZE max_blocks)
    (max_rpc_concurrency n) (last_emitted n) (slot_seconds n) (genesis_timestamp n) (head_set n).

(** The notifier with its provider and the headers still to come. *)
Record RpcHost (P : Type) := mkRpcHost {
  host_notifier : RpcHostNotifier; host_provider : P; host_headers : list RpcHeader }.
Arguments mkRpcHost {P} _ _ _.
Arguments host_notifier {P} _.
Arguments host_provider {P} _.
Arguments host_headers {P} _.

(** A poll of the stream either yields ([Ok (Some _)]), ends, or fails. *)
#[export] Instance rpc_host_notifier {P PE PB PR T R} `{Provider P PE PB PR T R, HeaderOps} :
  HostNotifier (RpcHost P) unit (RpcChainSegment T R) (RpcHostError PE) := {
  next_notification _ h :=
    let '(r, rest, (n, p)) :=
      next_notification_loop (host_headers h) (host_notifier h, host_provider h) in
    (mkRpcHost n p rest,
     match r with
     | Ok notif => Ok <$> notif
     | Err e => Some (Err e)
     | Panic => Some Panic
     end);
  set_head b h := mkRpcHost (notifier_set_head b (host_notifier h)) (host_provider h) (host_headers h);
  set_backfill_thresholds m h :=
    mkRpcHost (notifier_set_backfill_thresholds m (host_notifier h)) (host_provider h)
      (host_headers h);
  send_finished_height _ h := (h, Ok tt) }.

(** ** [Latest] ([latest.rs])

    The inner stream is the list of answers it gives to successive polls;
    once the list is used up it is pending. *)
Inductive Poll (A : Type) := PollPending | PollReady (item : option A).
Arguments PollPending {A}.
Arguments PollReady {A} item.

Definition inner_poll {A} (inner : list (Poll A)) : Poll A * list (Poll A) :=
  match inner with [] => (PollPending, []) | a :: inner => (a, inner) end.

(** The draining [while let]; also counts the skipped items. *)
Fixpoint drain_ready {A} (latest : A) (skipped : Z) (inner : list (Poll A)) :
    A * Z * list (Poll A) :=
  match inner with
  | [] => (latest, skipped, [])
  | PollReady (Some newer) :: inner => drain_ready newer (add64 skipped 1) inner
  | _ :: inner => (latest, skipped, inner)
  end.

Definition latest_poll_next {A} (inner : list (Poll A)) : Poll A * Z * list (Poll A) :=
  match inner_poll inner with
  | (PollPending, inner) => (PollPending, 0, inner)
  | (PollReady None, inner) => (PollReady None, 0, inner)
  | (PollReady (Some first), inner) =>
      let '(latest, skipped, inner) := drain_ready first 0 inner in
      (PollReady (Some latest), skipped, inner)
  end.

(** ** The builder ([builder.rs], [config.rs]) *)
Record RpcHostNotifierBuilder := mkHostBuilder {
  bu_buffer_capacity : Z; bu_backfill_batch_size : Z; bu_max_rpc_concurrency : Z;
  bu_slot_seconds : Z; bu_genesis_timestamp : Z }.

Definition RpcHostNotifierBuilder_new : RpcHostNotifierBuilder :=
  mkHostBuilder DEFAULT_BUFFER_CAPACITY DEFAULT_BACKFILL_BATCH_SIZE DEFAULT_MAX_RPC_CONCURRENCY
    DEFAULT_SLOT_SECONDS 0.

Inductive host_setter :=
| WithBufferCapacity (v : Z) | WithBackfillBatchSize (v : Z) | WithMaxRpcConcurrency (v : Z)
| WithSlotSeconds (v : Z) | WithGenesisTimestamp (v : Z).

Definition apply_host_setter (b : RpcHostNotifierBuilder) (s : host_setter) :
    RpcHostNotifierBuilder :=
  let '(mkHostBuilder c f m t g) := b in
  match s with
  | WithBufferCapacity v => mkHostBuilder (if 0 <? v then v else 1) f m t g
  | WithBackfillBatchSize v => mkHostBuilder c (if 0 <? v then v else 1) m t g
  | WithMaxRpcConcurrency v => mkHostBuilder c f (if 0 <? v then v else 1) t g
  | WithSlotSeconds v => mkHostBuilder c f m v g
  | WithGenesisTimestamp v => mkHostBuilder c f m t v
  end.

(** [build]: [subscribe] is the outcome of [subscribe_blocks]. *)
Definition build_notifier {PE} (b : RpcHostNotifierBuilder) (subscribe : res PE unit) :
    res (RpcHostError PE) RpcHostNotifier :=
  _ ← map_err Rpc subscribe;
  Ok (RpcHostNotifier_new (Z.to_nat (bu_buffer_capacity b)) (bu_backfill_batch_size b)
        (bu_max_rpc_concurrency b) (bu_slot_seconds b) (bu_genesis_timestamp b)).

(** [HostRpcConfig::into_builder]: [connect] is the outcome of the connection. *)
Record HostRpcConfig := mkHostRpcConfig {
  hc_buffer_capacity : option Z; hc_backfill_batch_size : option Z;
  hc_max_rpc_concurrency : option Z }.

Definition into_builder {PE} (c : HostRpcConfig) (start_timestamp : Z) (connect : res PE unit) :
    res PE RpcHostNotifierBuilder :=
  _ ← connect;
  Ok (fold_left apply_host_setter
        [WithBufferCapacity (default DEFAULT_BUFFER_CAPACITY (hc_buffer_capacity c));
         WithBackfillBatchSize (default DEFAULT_BACKFILL_BATCH_SIZE (hc_backfill_batch_size c));
         WithMaxRpcConcurrency (default DEFAULT_MAX_RPC_CONCURRENCY (hc_max_rpc_concurrency c));
         WithGenesisTimestamp start_timestamp] RpcHostNotifierBuilder_new).
