(* ===== verification/HostRpcView.v ===== *)
(** * The chain view and the walk of the RPC notifier: lemmas and properties

    The view invariant (consecutive numbers, bounded length), the lookup by
    index, eviction and truncation, and the specification and termination of
    [walk_chain] against an append-only graph of host blocks. *)

From S2P Require Import Prelude HostTypes Primitives HostRpc.

(** ** The view invariant *)

(** Entries carry consecutive numbers from [base] on. *)
Definition numbered (base : Z) (v : list (Z * B256)) : Prop :=
  v.*1 = seqZ base (Z.of_nat (length v)).

Definition view_ok (capacity : nat) (v : list (Z * B256)) : Prop :=
  (length v <= capacity)%nat /\ exists base, 0 <= base /\ numbered base v.

Lemma numbered_nil base : numbered base [].
Proof. done. Qed.

Lemma numbered_lookup base v i e :
  numbered base v -> v !! i = Some e -> e.1 = base + Z.of_nat i.
Proof.
  unfold numbered. intros Hn Hi.
  assert (v.*1 !! i = Some e.1) as H by (rewrite list_lookup_fmap, Hi; done).
  rewrite Hn in H. apply lookup_seqZ in H as [-> _]. done.
Qed.

Lemma numbered_app base v w :
  numbered base (v ++ w) <->
  numbered base v /\ numbered (base + Z.of_nat (length v)) w.
Proof.
  unfold numbered. rewrite fmap_app, length_app, Nat2Z.inj_add, seqZ_app by lia. split.
  - intros H. apply app_inj_1 in H; [done|]. rewrite length_fmap, length_seqZ. lia.
  - intros [-> ->]. done.
Qed.

Lemma numbered_cons base e v : numbered base (e :: v) <-> e.1 = base /\ numbered (base + 1) v.
Proof.
  change (e :: v) with ([e] ++ v). rewrite numbered_app.
  assert (numbered base [e] <-> e.1 = base) as ->; [|done].
  unfold numbered. csimpl. rewrite seqZ_cons, seqZ_nil by lia. split; [by intros [= ->]|by intros ->].
Qed.

Lemma numbered_last base v e :
  numbered base v -> last v = Some e -> e.1 = base + Z.of_nat (length v) - 1.
Proof.
  intros Hn Hl. rewrite last_lookup in Hl. pose proof (lookup_lt_Some _ _ _ Hl).
  rewrite (numbered_lookup base v _ e Hn Hl). lia.
Qed.

(** The indexed lookup finds exactly the entry with that number. *)
Lemma view_hash_spec base v number h :
  numbered base v -> view_hash v number = Some h <-> (number, h) ∈ v.
Proof.
  intros Hn. unfold view_hash. destruct v as [|[f fh] v]; simpl.
  - split; [done|]. intros Hin. by apply not_elem_of_nil in Hin.
  - pose proof Hn as Hb. apply numbered_cons in Hb as [Hb _]. simpl in Hb. subst f.
    destruct (Z.ltb_spec number base) as [Hlt|Hge].
    + split; [done|]. intros Hin. apply list_elem_of_lookup in Hin as (i & Hi).
      pose proof (numbered_lookup _ _ _ _ Hn Hi). simpl in *. lia.
    + split.
      * intros Hs. apply bind_Some in Hs as ([m h'] & Hi & [= ->]).
        pose proof (numbered_lookup _ _ _ _ Hn Hi) as Hm. simpl in Hm.
        apply list_elem_of_lookup_2 in Hi. by replace number with m by lia.
      * intros Hin. apply list_elem_of_lookup in Hin as (i & Hi).
        pose proof (numbered_lookup _ _ _ _ Hn Hi) as Hm. simpl in Hm.
        replace (Z.to_nat (number - base)) with i by lia. by rewrite Hi.
Qed.

Lemma extend_view_eq capacity entries v :
  (0 < capacity)%nat -> (length v <= capacity)%nat ->
  extend_view capacity entries v = last_n capacity (v ++ entries).
Proof.
  intros Hc. revert v. induction entries as [|e es IH]; intros v Hv.
  - rewrite app_nil_r. by rewrite last_n_all.
  - change (extend_view capacity (e :: es) v)
      with (extend_view capacity es (push_view capacity v e)).
    unfold push_view. rewrite length_app. simpl.
    destruct (Nat.ltb_spec capacity (length v + 1)) as [Hlt|Hge].
    + assert (tail (v ++ [e]) = last_n capacity (v ++ [e])) as ->.
      { unfold last_n. rewrite length_app. simpl.
        replace (length v + 1 - capacity)%nat with 1%nat by lia. by destruct (v ++ [e]). }
      rewrite IH by (rewrite last_n_length; lia). rewrite last_n_app_l, <- app_assoc. done.
    + rewrite IH by (rewrite length_app; simpl; lia). by rewrite <- app_assoc.
Qed.

Lemma numbered_last_n base n v :
  numbered base v -> exists base', base <= base' /\ numbered base' (last_n n v).
Proof.
  intros Hn. unfold last_n. set (k := (length v - n)%nat). exists (base + Z.of_nat k).
  split; [lia|]. rewrite <- (take_drop k v) in Hn. apply numbered_app in Hn as [_ Hn].
  rewrite length_take in Hn. replace (k `min` length v)%nat with k in Hn by lia. done.
Qed.

Lemma extend_view_ok capacity base entries v :
  (0 < capacity)%nat -> (length v <= capacity)%nat -> 0 <= base ->
  numbered base (v ++ entries) ->
  view_ok capacity (extend_view capacity entries v).
Proof.
  intros Hc Hv Hb Hn. rewrite extend_view_eq by done. split; [rewrite last_n_length; lia|].
  destruct (numbered_last_n base capacity _ Hn) as (b' & Hle & Hn'). exists b'. split; [lia|done].
Qed.

Lemma extend_view_last capacity entries v :
  (0 < capacity)%nat -> (length v <= capacity)%nat ->
  last (extend_view capacity entries v) = last (v ++ entries).
Proof. intros. rewrite extend_view_eq by done. by apply last_last_n. Qed.

(** Truncation keeps exactly the entries below the fork. *)
Lemma pop_back_from_take base v fork :
  numbered base v -> base <= fork ->
  reverse (pop_back_from fork (reverse v)) = take (Z.to_nat (fork - base)) v.
Proof.
  intros Hn Hf. induction v as [|[n h] v IH] using rev_ind; [by rewrite take_nil|].
  rewrite reverse_snoc. simpl. apply numbered_app in Hn as [Hv He].
  apply numbered_cons in He as [He _]. simpl in He.
  destruct (Z.leb_spec fork n) as [Hle|Hgt].
  - rewrite IH by done. rewrite take_app_le by lia. done.
  - rewrite <- (reverse_snoc v (n, h)), reverse_involutive, take_ge; [done|].
    rewrite length_app. simpl. lia.
Qed.

(** ** Linked chains of host blocks *)
Section walk.
Context {P PE PB PR T R : Type} `{Provider P PE PB PR T R, HeaderOps}.

(** The host's block graph: a hash determines its header for ever. *)
Context (header_of : B256 -> option Header).

(** [l] continues the block [parent]: each entry's block exists, carries the
    entry's number, and points to the entry before it. *)
Fixpoint extends (parent : B256) (l : list (Z * B256)) : Prop :=
  match l with
  | [] => True
  | (n, h) :: l =>
      (exists hd, header_of h = Some hd /\ h_number hd = n /\ h_parent_hash hd = parent)
      /\ extends h l
  end.

(** Providers answer by-hash queries from the graph. *)
Definition by_hash_ok : Prop :=
  forall h p b p', get_block_by_hash h p = (Ok (Some b), p') -> header_of h = Some (rh_inner b).

(** Numbers are [u64] and a block is one above its parent. *)
Definition graph_ok : Prop :=
  (forall h hd, header_of h = Some hd -> 0 <= h_number hd < max64)
  /\ (forall h hd hd', header_of h = Some hd -> header_of (h_parent_hash hd) = Some hd' ->
        h_number hd = h_number hd' + 1).

(** The view's entries are blocks of the graph. *)
Definition view_known (v : list (Z * B256)) : Prop :=
  Forall (fun e => exists hd, header_of e.2 = Some hd /\ h_number hd = e.1) v.

Lemma extends_snoc parent l n h :
  extends parent (l ++ [(n, h)]) <->
  extends parent l
  /\ exists hd, header_of h = Some hd /\ h_number hd = n
       /\ h_parent_hash hd = from_option snd parent (last l).
Proof.
  revert parent. induction l as [|[m g] l IH]; intros parent; simpl; [naive_solver|].
  rewrite IH. destruct l as [|e l]; simpl; [naive_solver|].
  destruct (last (e :: l)) eqn:E; [naive_solver|by apply last_None in E].
Qed.

Lemma extends_numbered parent hd l :
  graph_ok -> header_of parent = Some hd -> extends parent l -> numbered (h_number hd + 1) l.
Proof.
  intros [_ Hg]. revert parent hd. induction l as [|[n h] l IH]; intros parent hd Hp; [done|].
  intros [(hd' & Hh & Hn & Hpar) Hl]. apply numbered_cons. simpl. subst parent n.
  rewrite (Hg _ _ _ Hh Hp). split; [done|]. specialize (IH _ _ Hh Hl).
  by rewrite (Hg _ _ _ Hh Hp) in IH.
Qed.

Lemma extends_known parent l : extends parent l -> view_known l.
Proof.
  revert parent. induction l as [|[n h] l IH]; intros parent; [constructor|].
  intros [(hd & Hh & Hn & _) Hl]. constructor; [by exists hd|by eapply IH].
Qed.

Lemma extends_known_numbered v parent number l base :
  graph_ok -> view_known v -> numbered base v -> (number, parent) ∈ v -> extends parent l ->
  numbered (number + 1) l.
Proof.
  intros Hg Hk Hn Hin Hl. unfold view_known in Hk. rewrite Forall_forall in Hk.
  destruct (Hk _ Hin) as (hd & Hh & Hnum). simpl in *. subst number.
  by eapply extends_numbered.
Qed.

(** What a walk result means for the view it was computed from.  [newest] is
    the block the walk started at. *)
Definition walk_result_ok (n : RpcHostNotifier) (newest : B256) (r : WalkResult) : Prop :=
  match r with
  | AlreadySeen => exists number, view_hash (chain_view n) number = Some newest
  | Exhausted => chain_view n <> []
  | Advance new_chain =>
      snd <$> last new_chain = Some newest /\
      if decide (chain_view n = []) then
        exists hd, header_of newest = Some hd /\ new_chain = [(h_number hd, newest)]
      else (length new_chain <= buffer_capacity n)%nat
           /\ exists tip_num ancestor,
                view_hash (chain_view n) tip_num = Some ancestor
                /\ from_option fst 0 (view_tip (chain_view n)) = tip_num
                /\ extends ancestor new_chain
  | Reorg fork_number old_tip new_chain =>
      snd <$> last new_chain = Some newest
      /\ (length new_chain <= buffer_capacity n)%nat
      /\ exists number ancestor,
           view_hash (chain_view n) number = Some ancestor
           /\ fork_number = number + 1
           /\ old_tip = from_option fst 0 (view_tip (chain_view n))
           /\ number <> old_tip
           /\ extends ancestor new_chain
  end.

(** The newest block of a partial walk, newest first. *)
Definition walk_newest (current_hash : B256) (walked : list (Z * B256)) : B256 :=
  from_option snd current_hash (head walked).

Lemma walk_newest_last walked x :
  walked <> [] -> snd <$> last (reverse walked) = Some (walk_newest x walked).
Proof. rewrite last_reverse. by destruct walked. Qed.

Lemma walk_loop_spec fuel n current walked p r p' :
  by_hash_ok -> graph_ok ->
  (length walked <= buffer_capacity n)%nat ->
  (chain_view n = [] -> walked = []) ->
  extends current (reverse walked) ->
  walk_loop fuel n current walked p = (Ok (Some r), p') ->
  walk_result_ok n (walk_newest current walked) r.
Proof.
  intros Hby Hg. revert current walked p. induction fuel as [|fuel IH];
    intros current walked p Hlen Hempty Hext; [discriminate|]. cbn [walk_loop].
  intros Hw. apply st_bind_ok in Hw as (found & p1 & Hf & Hw).
  apply st_map_err_ok in Hf.
  apply st_bind_ok in Hw as (block & p2 & Hb & Hw). injection Hb as Hb <-.
  apply ok_or_ok in Hb as ->. pose proof (Hby _ _ _ _ Hf) as Hhd.
  set (number := h_number (rh_inner block)) in *.
  assert (extends (h_parent_hash (rh_inner block)) (reverse (walked ++ [(number, current)]))) as Hext'.
  { rewrite reverse_snoc. simpl. split; [by exists (rh_inner block)|done]. }
  assert (walk_newest (h_parent_hash (rh_inner block)) (walked ++ [(number, current)])
          = walk_newest current walked) as Hnew by by destruct walked.
  destruct (view_hash (chain_view n) number) as [local|] eqn:Hv.
  - destruct (Z.eqb_spec local current) as [->|Hne].
    + destruct walked as [|e walked]; [injection Hw as <- <-; by exists number|].
      set (w := e :: walked) in *.
      assert (snd <$> last (reverse w) = Some (walk_newest current w)) as Hlast
        by by apply walk_newest_last.
      assert (length (reverse w) <= buffer_capacity n)%nat as Hlr by by rewrite length_reverse.
      destruct (Z.eqb_spec number (from_option fst 0 (view_tip (chain_view n)))) as [He|Hne];
        injection Hw as <- <-; simpl; (split; [done|]).
      * destruct (decide (chain_view n = [])) as [Hnil|_]; [by rewrite Hnil in Hv|].
        split; [done|]. exists number, current. done.
      * split; [done|]. exists number, current. split; [done|]. split; [|done].
        destruct Hg as [Hrange _]. specialize (Hrange _ _ Hhd). apply add64_exact. width.
    + destruct (Nat.ltb_spec (buffer_capacity n) (length (walked ++ [(number, current)]))).
      * injection Hw as <- <-. intros Hnil. by rewrite Hnil in Hv.
      * rewrite <- Hnew. eapply IH; [lia| |done..]. intros Hnil. by rewrite Hnil in Hv.
  - destruct (chain_view n) as [|[front fh] view] eqn:Hview.
    + rewrite (Hempty eq_refl) in *. injection Hw as <- <-. simpl. split; [done|].
      rewrite Hview. simpl. by exists (rh_inner block).
    + destruct (number <? front); [injection Hw as <- <-; simpl; by rewrite Hview|].
      destruct (Nat.ltb_spec (buffer_capacity n) (length (walked ++ [(number, current)]))).
      * injection Hw as <- <-. simpl. by rewrite Hview.
      * rewrite <- Hnew. eapply IH; [lia| |done..]. intros Hnil. exfalso. congruence.
Qed.

Lemma walk_loop_fuel fuel n current walked p p' :
  (length walked <= buffer_capacity n)%nat ->
  (buffer_capacity n + 2 <= fuel + length walked)%nat ->
  walk_loop fuel n current walked p <> (Ok None, p').
Proof.
  revert current walked p. induction fuel as [|fuel IH]; intros current walked p Hl Hf; [lia|].
  cbn [walk_loop]. intros Hw. apply st_bind_ok in Hw as (found & p1 & _ & Hw).
  apply st_bind_ok in Hw as (block & p2 & _ & Hw).
  assert (forall e, (buffer_capacity n <? length (walked ++ [e]))%nat = false ->
    walk_loop fuel n (h_parent_hash (rh_inner block)) (walked ++ [e]) p2 <> (Ok None, p')) as Hc.
  { intros e He. apply Nat.ltb_ge in He. apply IH; [done|]. rewrite length_app. simpl. lia. }
  set (e := (h_number (rh_inner block), current)) in *. specialize (Hc e).
  destruct (buffer_capacity n <? length (walked ++ [e]))%nat.
  - destruct (view_hash _ _) as [local|].
    + destruct (local =? current); [|discriminate]. destruct walked; [discriminate|].
      destruct (_ =? _); discriminate.
    + destruct (chain_view n) as [|[f fh] v]; [discriminate|]. destruct (_ <? f); discriminate.
  - specialize (Hc eq_refl). destruct (view_hash _ _) as [local|].
    + destruct (local =? current); [|by apply Hc]. destruct walked; [discriminate|].
      destruct (_ =? _); discriminate.
    + destruct (chain_view n) as [|[f fh] v]; [discriminate|].
      destruct (_ <? f); [discriminate|by apply Hc].
Qed.

Lemma walk_loop_no_panic fuel n current walked p p' :
  (forall h q, (get_block_by_hash h q).1 <> Panic) ->
  walk_loop fuel n current walked p <> (Panic, p').
Proof.
  intros Hp. revert current walked p. induction fuel as [|fuel IH]; intros current walked p;
    cbn [walk_loop]; [discriminate|]. intros Hw.
  apply st_bind_panic in Hw as [Hw|(found & p1 & _ & Hw)].
  { unfold rpc, st_map_err in Hw. pose proof (Hp current p) as Hq.
    destruct (get_block_by_hash current p) as [[]]; simpl in *; congruence. }
  apply st_bind_panic in Hw as [Hw|(block & p2 & _ & Hw)].
  { unfold st_lift in Hw. destruct found; discriminate. }
  set (e := (h_number (rh_inner block), current)) in *.
  destruct (view_hash _ _) as [local|].
  - destruct (local =? current).
    + destruct walked; [discriminate|]. destruct (_ =? _); discriminate.
    + destruct (_ <? _)%nat; [discriminate|by apply IH in Hw].
  - destruct (chain_view n) as [|[f fh] v]; [discriminate|].
    destruct (_ <? f); [discriminate|]. destruct (_ <? _)%nat; [discriminate|by apply IH in Hw].
Qed.

Lemma view_tip_hash base v number h :
  numbered base v -> view_tip v = Some (number, h) -> view_hash v number = Some h.
Proof.
  intros Hn Ht. apply (view_hash_spec base); [done|]. by apply last_Some_elem_of.
Qed.

Lemma walk_chain_ok n start p r p' base :
  by_hash_ok -> graph_ok -> numbered base (chain_view n) ->
  walk_chain n start p = (Ok r, p') ->
  walk_result_ok n start r.
Proof.
  intros Hby Hg Hn. unfold walk_chain.
  destruct (view_tip (chain_view n)) as [[num h]|] eqn:Ht.
  - destruct (Z.eqb_spec h start) as [->|Hne].
    + intros [= <- <-]. exists num. by eapply view_tip_hash.
    + intros Hw. apply st_bind_ok in Hw as (o & p1 & Hw & Ho). injection Ho as Ho <-.
      apply expect_ok in Ho as ->.
      apply (walk_loop_spec _ _ _ _ _ _ _ Hby Hg) in Hw; [done|simpl; lia|done..].
  - intros Hw. apply st_bind_ok in Hw as (o & p1 & Hw & Ho). injection Ho as Ho <-.
    apply expect_ok in Ho as ->.
    apply (walk_loop_spec _ _ _ _ _ _ _ Hby Hg) in Hw; [done|simpl; lia|done..].
Qed.

(** ** Properties *)

(** C13: The walk is right.  Against any provider that answers by-hash queries
    from one block graph, a completed walk says [AlreadySeen] only for a block
    in the view; an [Advance] is a chain of linked blocks that starts on the
    view's tip and ends at the announced block (with an empty view, just that
    block); a [Reorg] is such a chain starting on a block of the view below the
    tip, with the fork one above that block; neither is longer than the
    buffer. *)
Theorem walk_chain_correct n start p r p' base :
  by_hash_ok -> graph_ok -> numbered base (chain_view n) ->
  walk_chain n start p = (Ok r, p') ->
  walk_result_ok n start r.
Proof. apply walk_chain_ok. Qed.

(** [asks k p p']: [k] by-hash queries take the provider from [p] to [p']. *)
Inductive asks : nat -> P -> P -> Prop :=
| asks_done p : asks 0 p p
| asks_more h k p p' : asks k (get_block_by_hash h p).2 p' -> asks (S k) p p'.

Lemma walk_loop_asks fuel n current walked p r p' :
  (length walked <= buffer_capacity n)%nat ->
  walk_loop fuel n current walked p = (r, p') ->
  exists k, (k + length walked <= S (buffer_capacity n))%nat /\ asks k p p'.
Proof.
  revert current walked p r p'. induction fuel as [|fuel IH]; intros current walked p r p' Hl Hw.
  { injection Hw as _ <-. exists 0%nat. split; [lia|constructor]. }
  assert (forall q, asks 0 (get_block_by_hash current p).2 q ->
    exists k, (k + length walked <= S (buffer_capacity n))%nat /\ asks k p q) as Hone.
  { intros q Hq. exists 1%nat. split; [lia|by apply asks_more with current]. }
  cbn [walk_loop] in Hw. unfold mbind, st_bind, rpc, st_map_err, st_lift in Hw.
  destruct (get_block_by_hash current p) as [f p1] eqn:Eq. cbn [snd] in Hone.
  destruct f as [[block|]|e|]; cbn [map_err ok_or] in Hw;
    [|injection Hw as _ <-; by apply Hone, asks_done..].
  set (e := (h_number (rh_inner block), current)) in *.
  assert (forall o q, (if (buffer_capacity n <? length (walked ++ [e]))%nat then mret (Some Exhausted)
      else walk_loop fuel n (h_parent_hash (rh_inner block)) (walked ++ [e])) p1 = (o, q) ->
    exists k, (k + length walked <= S (buffer_capacity n))%nat /\ asks k p q) as Hc.
  { intros o q Hq. destruct (Nat.ltb_spec (buffer_capacity n) (length (walked ++ [e]))) as [_|Hle].
    { injection Hq as _ <-. apply Hone, asks_done. }
    apply IH in Hq as (k & Hk & Hq); [|done]. rewrite length_app in Hk. simpl in Hk.
    exists (S k). split; [lia|]. apply asks_more with current. by rewrite Eq. }
  destruct (view_hash _ _) as [local|].
  - destruct (local =? current); [|by eapply Hc].
    destruct walked; [|destruct (_ =? _)]; injection Hw as _ <-; apply Hone, asks_done.
  - destruct (chain_view n) as [|[front fh] v]; [injection Hw as _ <-; by apply Hone, asks_done|].
    destruct (_ <? front); [injection Hw as _ <-; by apply Hone, asks_done|by eapply Hc].
Qed.

(** C38: The walk always stops: whatever chain of parents the provider serves,
    even an endless or cyclic one, it makes at most [buffer_capacity + 1]
    by-hash queries and nothing else, and with a provider whose calls return it
    ends with a result or an error, never by running out of fuel. *)
Theorem walk_chain_terminates n start p :
  (forall h q, (get_block_by_hash h q).1 <> Panic) ->
  let '(r, p') := walk_chain n start p in
  r <> Panic /\ exists k, (k <= S (buffer_capacity n))%nat /\ asks k p p'.
Proof.
  intros Hp. destruct (walk_chain n start p) as [r p'] eqn:Hr. unfold walk_chain in Hr.
  destruct (match view_tip _ with Some _ => _ | None => _ end).
  { injection Hr as <- <-. split; [done|]. exists 0%nat. split; [lia|constructor]. }
  destruct (walk_loop (walk_fuel n) n start [] p) as [o p1] eqn:Hw.
  pose proof (walk_loop_asks _ _ start [] _ _ _ (Nat.le_0_l _) Hw) as (k & Hk & Ha).
  unfold mbind, st_bind in Hr. rewrite Hw in Hr.
  assert (p' = p1 /\ r <> Panic) as [-> Hr'].
  { destruct o as [[o|]|e|]; [by injection Hr as <- <-| |by injection Hr as <- <-|].
    - apply walk_loop_fuel in Hw; [done|simpl; lia|unfold walk_fuel; simpl; lia].
    - by apply walk_loop_no_panic in Hw. }
  split; [done|]. exists k. simpl in Hk. split; [lia|done].
Qed.
End walk.
