(* ===== verification/HostRpcNotifier.v ===== *)
(** * The RPC notifier's operations: invariant and properties

    [host_inv] relates the chain view, the delivery position and the backfill
    cursor; every [HostNotifier] operation keeps it, and each emitted
    notification attaches where the previous one ended.  The provider is any
    instance of [LawfulProvider]. *)

From S2P Require Import Prelude HostTypes Primitives HostRpc HostRpcView.

(** ** What the notifier relies on

    Hashes identify blocks ([lp_by_hash], [lp_full], [lp_hash]); a query by
    number answers a block of that number; heights are far below [2^63]. *)
Class LawfulProvider {P PE PB PR T R : Type} `{Provider P PE PB PR T R, HeaderOps}
    (header_of : B256 -> option Header) : Prop := {
  lp_by_hash : by_hash_ok (P:=P) header_of;
  lp_graph : graph_ok header_of;
  lp_small h hd : header_of h = Some hd -> h_number hd + 1 < 2 ^ 63;
  lp_hash h hd : header_of h = Some hd -> hash_slow hd = h;
  lp_full h p b p' :
    get_full_block_by_hash h p = (Ok (Some b), p') -> header_of h = Some (block_header b);
  lp_by_number k p b p' :
    get_full_block_by_number (Number k) p = (Ok (Some b), p') ->
    h_number (block_header b) = k
    /\ header_of (hash_slow (block_header b)) = Some (block_header b);
  lp_tip p t p' : get_block_number p = (Ok t, p') -> u64_ok t }.

Section notifier_facts.
Context {P PE PB PR T R : Type} `{!Provider P PE PB PR T R, !HeaderOps}.
Context (header_of : B256 -> option Header) `{!LawfulProvider (P:=P) header_of}.
Abbreviation segment := (RpcChainSegment T R).

Definition block_entry (b : RpcBlock T R) : Z * B256 := (block_number b, block_hash b).
Definition seg_entries (s : segment) : list (Z * B256) := block_entry <$> blocks s.

(** View bounded and made of known blocks with consecutive numbers; the last
    emitted block is the view's tip; a pending cursor continues the view. *)
Record host_inv (n : RpcHostNotifier) : Prop := {
  hi_capacity : (0 < buffer_capacity n)%nat;
  hi_view : view_ok (buffer_capacity n) (chain_view n);
  hi_known : view_known header_of (chain_view n);
  hi_emitted : chain_view n <> [] -> last_emitted n = view_tip (chain_view n);
  hi_last : forall k h, last_emitted n = Some (k, h) -> 0 <= k /\ k + 1 < 2 ^ 63;
  hi_batch : 1 <= backfill_batch_size n <= 2 ^ 63;
  hi_cursor : forall from, backfill_from n = Some from ->
    0 <= from < 2 ^ 63 /\ (forall k h, last_emitted n = Some (k, h) -> from = k + 1) }.

(** A non-empty view has a position. *)
Lemma host_inv_position n : host_inv n -> chain_view n <> [] -> is_Some (last_emitted n).
Proof.
  intros Hi Hne. rewrite (hi_emitted n Hi Hne). destruct (view_tip (chain_view n)) eqn:E; [done|].
  by apply last_None in E.
Qed.

(** *** Fetching *)
Lemma fetch_blocks_entries new_chain p bs p' :
  view_known header_of new_chain ->
  fetch_blocks_by_hash new_chain p = (Ok bs, p') -> block_entry <$> bs = new_chain.
Proof.
  unfold fetch_blocks_by_hash. revert p bs. induction new_chain as [|[k h] l IH]; intros p bs Hk Hf.
  { injection Hf as <- _. done. }
  cbn [st_mapM] in Hf. st_inv. inversion Hk as [|? ? (hd & Hh & Hn) Hl]; subst. csimpl.
  erewrite IH by done. f_equal. simpl in *.
  match goal with Hx : fetch_block_by_hash h _ = _ |- _ => unfold fetch_block_by_hash, rpc in Hx end.
  st_inv. match goal with Hx : ok_or _ _ = Ok _ |- _ => apply ok_or_ok in Hx; subst end.
  match goal with Hx : get_full_block_by_hash _ _ = _ |- _ => apply lp_full in Hx; rename Hx into Hb end.
  unfold block_entry, block_number, block_hash. simpl. rewrite Hh in Hb. injection Hb as ->.
  f_equal. by apply lp_hash.
Qed.

(** A block that is the graph's block of its hash. *)
Definition block_known (b : RpcBlock T R) : Prop := header_of (block_hash b) = Some (b_header b).

Lemma blocks_view_known bs : Forall block_known bs -> view_known header_of (block_entry <$> bs).
Proof.
  intros Hk. apply Forall_fmap. eapply Forall_impl; [exact Hk|]. intros b Hb. by exists (b_header b).
Qed.

Lemma fetch_range_ok from to p bs p' :
  fetch_range from to p = (Ok bs, p') ->
  block_number <$> bs = range_incl from to /\ Forall block_known bs.
Proof.
  unfold fetch_range. destruct (Z.ltb_spec to from) as [Hlt|Hge].
  { intros [= <- _]. rewrite range_incl_nil by done. split; [done|constructor]. }
  generalize (range_incl from to) as l. intros l. revert p bs.
  induction l as [|k l IH]; intros p bs Hf; [injection Hf as <- _; split; [done|constructor]|].
  cbn [st_mapM] in Hf. st_inv.
  match goal with Hx : st_mapM _ _ _ = _ |- _ => apply IH in Hx as [Hn Hk] end. csimpl.
  match goal with Hx : fetch_block_by_number k _ = _ |- _ =>
    unfold fetch_block_by_number, rpc in Hx end.
  st_inv. match goal with Hx : ok_or _ _ = Ok _ |- _ => apply ok_or_ok in Hx; subst end.
  match goal with Hx : get_full_block_by_number _ _ = _ |- _ =>
    apply lp_by_number in Hx as [Hnum Hh] end.
  split; [f_equal; first [done|exact Hn]|]. constructor; [|exact Hk].
  exact Hh.
Qed.

Lemma entries_numbered (bs : list (RpcBlock T R)) from to :
  from <= to -> block_number <$> bs = range_incl from to -> numbered from (block_entry <$> bs).
Proof.
  intros Hle Hn. unfold numbered. rewrite <- list_fmap_compose.
  change (fst ∘ block_entry) with (block_number (T:=T) (R:=R)). rewrite Hn, length_fmap.
  apply (f_equal length) in Hn. rewrite length_fmap in Hn. rewrite Hn, length_range_incl.
  unfold range_incl. f_equal. lia.
Qed.

(** Appending a batch that continues the position keeps the invariant. *)
Lemma host_inv_append n entries cursor e :
  host_inv n -> last entries = Some e -> view_known header_of entries ->
  (exists from, 0 <= from /\ numbered from entries /\
     (chain_view n <> [] -> (fun e => fst e + 1) <$> last_emitted n = Some from)) ->
  (forall k, cursor = Some k -> k = e.1 + 1) ->
  host_inv (with_backfill_from cursor (with_last_emitted (Some e)
    (with_view (extend_view (buffer_capacity n) entries (chain_view n)) n))).
Proof.
  intros [Hc [Hlen (base & Hb & Hnum)] Hk He Hla Hba Hcur] Hl Hke (from & Hf & Hnf & Hat) Hcu.
  assert (exists base', 0 <= base' /\ numbered base' (chain_view n ++ entries)) as (base' & Hb' & Hn').
  { destruct (decide (chain_view n = [])) as [->|Hne]; [by exists from|].
    specialize (Hat Hne). specialize (He Hne). exists base. split; [done|]. apply numbered_app.
    split; [done|]. rewrite He in Hat. destruct (view_tip (chain_view n)) as [t|] eqn:Ht; [|done].
    injection Hat as <-. rewrite (numbered_last _ _ _ Hnum Ht) in Hnf.
    by replace (base + Z.of_nat (length (chain_view n)))
      with (base + Z.of_nat (length (chain_view n)) - 1 + 1) by lia. }
  assert (last (chain_view n ++ entries) = Some e) as Hlast by by apply last_app_some.
  assert (0 <= e.1 /\ e.1 + 1 < 2 ^ 63) as Hes.
  { assert (e ∈ entries) as Hin by by apply last_Some_elem_of.
    unfold view_known in Hke. rewrite Forall_forall in Hke.
    destruct (Hke _ Hin) as (hd & Hh & Hnu).
    destruct lp_graph as [Hr _]. specialize (Hr _ _ Hh). pose proof (lp_small _ _ Hh). lia. }
  constructor; cbn -[Z.pow]; try done.
  - by eapply extend_view_ok.
  - rewrite extend_view_eq by done. unfold last_n, view_known. apply Forall_drop, Forall_app.
    by split.
  - intros _. unfold view_tip. by rewrite extend_view_last.
  - intros k h [= ->]. done.
  - intros k Hk'. specialize (Hcu _ Hk'). split; [lia|]. intros k1 h1 [= ->]. done.
Qed.

Lemma host_inv_clear n cursor :
  host_inv n ->
  (forall from, cursor = Some from -> 0 <= from < 2 ^ 63
     /\ (forall k h, last_emitted n = Some (k, h) -> from = k + 1)) ->
  host_inv (with_backfill_from cursor (with_view [] n)).
Proof.
  intros [Hc Hv Hk He Hla Hba Hcur] Hcu. constructor; cbn -[Z.pow]; try done.
  - split; [simpl; lia|]. exists 0. by split.
  - constructor.
Qed.

Lemma host_inv_tags n a b c : host_inv n -> host_inv (with_tags a b c n).
Proof. intros [Hc Hv Hk He Hla Hba Hcur]. by constructor. Qed.

Lemma host_inv_cursor n : host_inv n -> host_inv (with_backfill_from None n).
Proof. intros [Hc Hv Hk He Hla Hba Hcur]. by constructor. Qed.

(** Refreshing the tags touches only the cached tags. *)
Lemma refresh_tags_frame ts n p r n' p' :
  maybe_refresh_tags (P:=P) ts (n, p) = (r, (n', p')) ->
  exists a b c, n' = with_tags a b c n.
Proof.
  assert (exists a b c, n = with_tags a b c n) as Hsame
    by (exists (cached_safe n), (cached_finalized n), (last_tag_epoch n); by destruct n).
  unfold maybe_refresh_tags, mbind, st_bind, mret, st_ret. cbn [this]. unfold st_lift.
  destruct (epoch_of _ _ _) as [epoch|e|]; [|intros [= _ <- _]; exact Hsame..].
  destruct (decide _); [intros [= _ <- _]; exact Hsame|].
  unfold provider, rpc, st_map_err.
  destruct (get_block_by_number Safe p) as [[safe|e|] p1]; cbn [map_err];
    [|intros [= _ <- _]; exact Hsame..].
  destruct (get_block_by_number Finalized p1) as [[fin|e|] p2]; cbn [map_err];
    [|intros [= _ <- _]; exact Hsame..].
  unfold update. intros [= _ <- _]. by eexists _, _, _.
Qed.

(** *** [handle_new_head] *)

(** The view after an emission: what the revert keeps, the new entries, the
    oldest evicted. *)
Definition view_after (n n' : RpcHostNotifier) (k : HostNotificationKind segment) : Prop :=
  chain_view n' = last_n (buffer_capacity n)
    (match kind_revert_range k with
     | Some old => filter (fun e => fst e < first old) (chain_view n)
     | None => chain_view n
     end ++ default [] (seg_entries <$> kind_committed_chain k)).

(** Where an emitted notification attaches: [n] before, [n'] after. *)
Definition attaches (n n' : RpcHostNotifier) (k : HostNotificationKind segment) : Prop :=
  view_after n n' k /\
  exists entries, entries <> [] /\ last_emitted n' = last entries
  /\ match k with
     | ChainCommitted seg =>
         seg_entries seg = entries
         /\ (chain_view n <> [] -> exists num hash, last_emitted n = Some (num, hash)
               /\ extends header_of hash entries /\ numbered (num + 1) entries)
     | ChainReorged old seg =>
         seg_entries seg = entries
         /\ exists num hash ancestor,
              last_emitted n = Some (num, hash) /\ tip old = num
              /\ (first old - 1, ancestor) ∈ chain_view n
              /\ extends header_of ancestor entries /\ numbered (first old) entries
              /\ 0 < first old <= tip old
     | ChainReverted _ => False
     end.

Lemma attaches_tags n n' a b c k : attaches n n' k -> attaches n (with_tags a b c n') k.
Proof. done. Qed.

Lemma walk_from_hint_ok n hint p r p' base :
  numbered base (chain_view n) ->
  walk_from_hint n hint p = (Ok r, p') -> exists newest, walk_result_ok header_of n newest r.
Proof.
  intros Hn. unfold walk_from_hint. destruct (walk_chain n hint p) as [[w|e|] p1] eqn:Hw.
  - intros [= <- <-]. exists hint. by eapply walk_chain_ok; [apply lp_by_hash|apply lp_graph|..].
  - destruct e; try done. intros Hl. st_inv.
    eexists. by eapply walk_chain_ok; [apply lp_by_hash|apply lp_graph|..].
  - done.
Qed.

(** A view's tip is its last entry, at a height above every other entry. *)
Lemma view_below_tip base v num h k :
  numbered base v -> view_tip v = Some (num, h) -> forall g, (k, g) ∈ v -> base <= k <= num.
Proof.
  intros Hn Ht g Hin. pose proof (numbered_last _ _ _ Hn Ht) as Hl.
  apply list_elem_of_lookup in Hin as (i & Hi). pose proof (lookup_lt_Some _ _ _ Hi).
  pose proof (numbered_lookup _ _ _ _ Hn Hi). simpl in *. lia.
Qed.

Lemma view_entry_number base v k g : numbered base v -> (k, g) ∈ v -> base <= k.
Proof.
  intros Hn Hin. apply list_elem_of_lookup in Hin as (i & Hi).
  pose proof (numbered_lookup _ _ _ _ Hn Hi). simpl in *. lia.
Qed.

Lemma reorg_view_eq capacity base fork entries v :
  numbered base v -> base <= fork ->
  reorg_view capacity fork entries v
  = extend_view capacity entries (take (Z.to_nat (fork - base)) v).
Proof. intros Hn Hf. unfold reorg_view. by rewrite (pop_back_from_take base). Qed.

Lemma advance_step n new_chain newest :
  host_inv n -> backfill_from n = None ->
  walk_result_ok header_of n newest (Advance new_chain) ->
  let n' := with_last_emitted (last new_chain)
              (with_view (extend_view (buffer_capacity n) new_chain (chain_view n)) n) in
  host_inv n' /\ view_known header_of new_chain /\ new_chain <> []
  /\ (chain_view n <> [] -> exists num hash, last_emitted n = Some (num, hash)
        /\ extends header_of hash new_chain /\ numbered (num + 1) new_chain).
Proof.
  intros Hi Hb [Hl Hw] n'. destruct (last new_chain) as [e|] eqn:Hlast; [|done].
  assert (new_chain <> []) as Hne by by intros ->.
  assert (view_known header_of new_chain
    /\ (exists from, 0 <= from /\ numbered from new_chain
          /\ (chain_view n <> [] -> (fun e => fst e + 1) <$> last_emitted n = Some from))
    /\ (chain_view n <> [] -> exists num hash, last_emitted n = Some (num, hash)
          /\ extends header_of hash new_chain /\ numbered (num + 1) new_chain))
    as (Hk & Hfrom & Hat).
  { destruct (decide (chain_view n = [])) as [Hnil|Hnn].
    - destruct Hw as (hd & Hh & ->). split; [by constructor; [exists hd|]|]. split; [|done].
      exists (h_number hd). destruct lp_graph as [Hr _]. specialize (Hr _ _ Hh).
      split; [lia|]. split; [by apply numbered_cons|done].
    - destruct Hw as (Hlen & tipn & anc & Hv & Htip & Hext).
      destruct (hi_view n Hi) as [_ (base & Hb0 & Hnum)].
      pose proof (hi_emitted n Hi Hnn) as Hem.
      destruct (view_tip (chain_view n)) as [[num h]|] eqn:Ht; [|by apply last_None in Ht].
      simpl in Htip. subst tipn. rewrite (view_tip_hash _ _ _ _ Hnum Ht) in Hv.
      injection Hv as ->.
      assert (numbered (num + 1) new_chain) as Hnc.
      { eapply extends_known_numbered; [apply lp_graph|apply (hi_known n Hi)|done| |done].
        by apply last_Some_elem_of. }
      split; [by eapply extends_known|]. split; [|intros _; by exists num, anc].
      exists (num + 1). destruct (hi_last n Hi _ _ Hem). rewrite Hem. split; [lia|]. by split. }
  split; [|done]. apply (host_inv_append n new_chain None e) in Hi; [|done..].
  destruct Hi as [I1 I2 I3 I4 I5 I6 I7]. constructor; try done. cbn. rewrite Hb. done.
Qed.

Lemma reorg_step n fork old_tip new_chain newest :
  host_inv n -> backfill_from n = None ->
  walk_result_ok header_of n newest (Reorg fork old_tip new_chain) ->
  let n' := with_last_emitted (last new_chain)
              (with_view (reorg_view (buffer_capacity n) fork new_chain (chain_view n)) n) in
  host_inv n' /\ view_known header_of new_chain /\ new_chain <> [] /\ 0 < fork <= old_tip
  /\ exists hash ancestor, last_emitted n = Some (old_tip, hash)
       /\ (fork - 1, ancestor) ∈ chain_view n
       /\ extends header_of ancestor new_chain /\ numbered fork new_chain.
Proof.
  intros Hi Hb (Hl & Hlen & number & anc & Hv & -> & Hold & Hne & Hext) n'.
  destruct (hi_view n Hi) as [Hcap (base & Hb0 & Hnum)].
  apply (view_hash_spec base) in Hv; [|done].
  assert (chain_view n <> []) as Hnn by (intros Hnil; rewrite Hnil in Hv; by apply not_elem_of_nil in Hv).
  pose proof (hi_emitted n Hi Hnn) as Hem.
  destruct (view_tip (chain_view n)) as [[num h]|] eqn:Ht; [|by apply last_None in Ht].
  simpl in Hold. subst old_tip. pose proof (view_below_tip _ _ _ _ _ Hnum Ht _ Hv) as Hbound.
  assert (numbered (number + 1) new_chain) as Hnc.
  { eapply extends_known_numbered; [apply lp_graph|apply (hi_known n Hi)|done..]. }
  destruct (last new_chain) as [e|] eqn:Hlast; [|done].
  assert (new_chain <> []) as Hnc0 by by intros ->.
  split; [|split; [by eapply extends_known|split; [done|split; [lia|]]]].
  2: { exists h, anc. replace (number + 1 - 1) with number by lia. done. }
  set (kept := take (Z.to_nat (number + 1 - base)) (chain_view n)).
  assert (kept <> [] /\ last kept = Some (number, anc)) as [Hkn Hkl].
  { apply list_elem_of_lookup in Hv as (i & Hiv). pose proof (numbered_lookup _ _ _ _ Hnum Hiv) as Hin.
    simpl in Hin. assert (Z.to_nat (number + 1 - base) = S i) as Hs by lia. unfold kept. rewrite Hs.
    split; [by destruct (chain_view n)|]. rewrite last_lookup, length_take.
    pose proof (lookup_lt_Some _ _ _ Hiv).
    replace (pred (S i `min` length (chain_view n))) with i by lia.
    by rewrite lookup_take_lt by lia. }
  set (m := with_last_emitted (Some (number, anc)) (with_view kept n)).
  assert (host_inv m) as Hm.
  { destruct Hi as [I1 I2 I3 I4 I5 I6 I7]. constructor; cbn -[Z.pow]; try done.
    - split; [unfold kept; rewrite length_take; lia|]. exists base. split; [done|].
      rewrite <- (take_drop (Z.to_nat (number + 1 - base)) (chain_view n)) in Hnum.
      by apply numbered_app in Hnum as [? _].
    - by apply Forall_take.
    - intros k g [= <- <-]. destruct (I5 _ _ Hem). lia.
    - rewrite Hb. done. }
  apply (host_inv_append m new_chain None e) in Hm; [|done| |exists (number + 1)|done].
  - destruct Hm as [I1 I2 I3 I4 I5 I6 I7]. unfold n'. rewrite (reorg_view_eq _ base) by (done || lia).
    constructor; try done. cbn. rewrite Hb. done.
  - by eapply extends_known.
  - split; [lia|]. split; [done|]. by intros _.
Qed.

(** The tail of [handle_new_head]. *)
Lemma finish_frame ts k n p r n' p' :
  (_ ← maybe_refresh_tags (P:=P) (T:=T) (R:=R) ts; m ← this; mret (Some (notification k m))) (n, p)
    = (r, (n', p')) ->
  (exists a b c, n' = with_tags a b c n)
  /\ (forall o, r = Ok o -> exists notif, o = Some notif /\ kind (C:=segment) notif = k).
Proof.
  unfold mbind at 1, st_bind at 1.
  destruct (maybe_refresh_tags ts (n, p)) as [r1 [n1 p1]] eqn:Hr.
  pose proof (refresh_tags_frame _ _ _ _ _ _ Hr) as Hf.
  destruct r1 as [[]|e|]; cbn; intros [= <- <- <-]; (split; [done|]); intros o [= <-].
  by eexists.
Qed.

Lemma attaches_advance n new_chain bs p p' :
  fetch_blocks_by_hash new_chain p = (Ok bs, p') ->
  view_known header_of new_chain -> new_chain <> [] ->
  (chain_view n <> [] -> exists num hash, last_emitted n = Some (num, hash)
     /\ extends header_of hash new_chain /\ numbered (num + 1) new_chain) ->
  (0 < buffer_capacity n)%nat -> (length (chain_view n) <= buffer_capacity n)%nat ->
  attaches n (with_last_emitted (last new_chain)
                (with_view (extend_view (buffer_capacity n) new_chain (chain_view n)) n))
              (ChainCommitted (mkSegment bs)).
Proof.
  intros Hf Hk Hne Hat Hc Hv. pose proof (fetch_blocks_entries _ _ _ _ Hk Hf) as He. split.
  { unfold view_after. simpl. rewrite extend_view_eq by done. unfold seg_entries. simpl. by rewrite He. }
  exists new_chain. do 3 (split; [done|]). done.
Qed.

(** Entries below a height are the first ones of a numbered view. *)
Lemma numbered_filter_below base v k :
  numbered base v -> filter (fun e => fst e < k) v = take (Z.to_nat (k - base)) v.
Proof.
  revert base. induction v as [|e v IH]; intros base Hn; [by rewrite take_nil|].
  apply numbered_cons in Hn as [He Hn]. rewrite filter_cons, (IH _ Hn). case_decide.
  - by replace (Z.to_nat (k - base)) with (S (Z.to_nat (k - (base + 1)))) by lia.
  - by rewrite !Z2Nat.nonpos by lia.
Qed.

Lemma attaches_reorg n fork old_tip new_chain hash anc bs p p' :
  host_inv n -> fetch_blocks_by_hash new_chain p = (Ok bs, p') ->
  view_known header_of new_chain -> new_chain <> [] -> 0 < fork <= old_tip ->
  last_emitted n = Some (old_tip, hash) -> (fork - 1, anc) ∈ chain_view n ->
  extends header_of anc new_chain -> numbered fork new_chain ->
  attaches n (with_last_emitted (last new_chain) (with_view
      (reorg_view (buffer_capacity n) fork new_chain (chain_view n)) n))
    (ChainReorged (mkRevertRange fork old_tip) (mkSegment bs)).
Proof.
  intros Hi Hf Hk Hne Hr Hla Hin Hext Hnc. pose proof (fetch_blocks_entries _ _ _ _ Hk Hf) as He.
  destruct (hi_view n Hi) as [Hlen (base & _ & Hnum)]. split.
  - unfold view_after. simpl. pose proof (view_entry_number _ _ _ _ Hnum Hin).
    rewrite (reorg_view_eq _ base), (numbered_filter_below base) by (done || lia).
    rewrite extend_view_eq by (rewrite ?length_take; done || lia || apply Hi).
    unfold seg_entries. simpl. by rewrite He.
  - exists new_chain. do 3 (split; [done|]). by exists old_tip, hash, anc.
Qed.

(** Falling back to backfill on an exhausted walk. *)
Lemma exhausted_step n :
  host_inv n ->
  let n' := with_tags (cached_safe n) (cached_finalized n) None
    (with_backfill_from ((fun e => add64 e.1 1) <$> last_emitted n) (with_view [] n)) in
  host_inv n' /\ backfill_from n' = (fun e => fst e + 1) <$> last_emitted n.
Proof.
  intros Hi n'.
  assert (((fun e => add64 e.1 1) <$> last_emitted n) = ((fun e => fst e + 1) <$> last_emitted n)) as He.
  { destruct (last_emitted n) as [[k h]|] eqn:El; [|done]. simpl. f_equal.
    destruct (hi_last n Hi _ _ El). apply add64_exact. width. }
  subst n'. rewrite He. split; [|done].
  apply host_inv_tags. apply host_inv_clear; [done|]. intros from Hf.
  destruct (last_emitted n) as [[k h]|] eqn:El; [|done]. injection Hf as <-.
  destruct (hi_last n Hi _ _ El). simpl in *. split; [lia|]. by intros k1 h1 [= <- <-].
Qed.

(** What [handle_new_head] did by the result it returned. *)
Definition new_head_outcome (n n' : RpcHostNotifier)
    (r : res (RpcHostError PE) (option (HostNotification segment))) : Prop :=
  match r with
  | Ok (Some notif) => attaches n n' (kind notif)
  | Ok None => n' = n
      \/ (chain_view n' = [] /\ last_emitted n' = last_emitted n
          /\ backfill_from n' = (fun e => fst e + 1) <$> last_emitted n)
  | Err _ => n' = n \/ exists k, attaches n n' k
  | Panic => True
  end.

(** A delivery: the state changes, the tags are refreshed, the kind goes out. *)
Lemma finish_outcome ts k n n1 p r n' p' :
  host_inv n1 -> attaches n n1 k ->
  (_ ← maybe_refresh_tags (P:=P) (T:=T) (R:=R) ts; m ← this; mret (Some (notification k m))) (n1, p)
    = (r, (n', p')) ->
  host_inv n' /\ new_head_outcome n n' r.
Proof.
  intros Hi Ha Hfin. apply finish_frame in Hfin as [(a & b & c & ->) Ho].
  split; [by apply host_inv_tags|].
  destruct r as [o|e|]; cbn; [destruct (Ho o eq_refl) as (notif & -> & ->); done| |done].
  right. by eexists.
Qed.

(** Case analysis of one [handle_new_head]. *)
Lemma handle_new_head_cases header n p r n' p' :
  host_inv n -> backfill_from n = None ->
  handle_new_head header (n, p) = (r, (n', p')) ->
  host_inv n' /\ new_head_outcome n n' r.
Proof.
  intros Hi Hb. destruct (hi_view n Hi) as [Hlen (base & _ & Hnum)].
  unfold handle_new_head. unfold mbind at 1, st_bind at 1. cbn [this].
  unfold mbind at 1, st_bind at 1. cbn [provider].
  destruct (walk_from_hint n (rh_hash header) p) as [rw p1] eqn:Hw.
  destruct rw as [walk|e|]; [|intros [= <- <- <-]; split; [done|by left]
                             |intros [= <- <- <-]; done].
  destruct (walk_from_hint_ok _ _ _ _ _ _ Hnum Hw) as (newest & Hres).
  destruct walk as [|new_chain|fork old_tip new_chain|].
  - intros [= <- <- <-]. split; [done|by left].
  - destruct (advance_step _ _ _ Hi Hb Hres) as (Hi' & Hk & Hne & Hat).
    unfold mbind at 1, st_bind at 1. cbn [provider].
    destruct (fetch_blocks_by_hash new_chain p1) as [[bs|e|] p2] eqn:Hf;
      [|intros [= <- <- <-]; split; [done|by left]|intros [= <- <- <-]; done].
    unfold mbind at 1, st_bind at 1. cbn [update]. apply finish_outcome; [done|].
    eapply attaches_advance; [done..|apply Hi|apply Hlen].
  - destruct (reorg_step _ _ _ _ _ Hi Hb Hres) as (Hi' & Hk & Hne & Hr & hash & anc & Hla & Hin & Hext & Hnc).
    unfold mbind at 1, st_bind at 1. cbn [provider].
    destruct (fetch_blocks_by_hash new_chain p1) as [[bs|e|] p2] eqn:Hf;
      [|intros [= <- <- <-]; split; [done|by left]|intros [= <- <- <-]; done].
    unfold mbind at 1, st_bind at 1. cbn [update]. rewrite (RevertRange_new_total fork old_tip Hr).
    unfold mbind at 1, st_bind at 1. cbn [st_lift]. apply finish_outcome; [done|].
    by eapply attaches_reorg.
  - intros [= <- <- <-]. destruct (exhausted_step n Hi) as [Hi' Hbf]. split; [done|by right].
Qed.

(** *** [drain_backfill] *)
Lemma batch_end_bounds n from tip :
  1 <= backfill_batch_size n <= 2 ^ 63 -> 0 <= from < 2 ^ 63 -> from <= tip -> 0 <= tip ->
  from <= batch_end n from tip <= effective_ceiling n from tip
  /\ effective_ceiling n from tip <= tip
  /\ (batch_end n from tip < effective_ceiling n from tip ->
      batch_end n from tip = from + backfill_batch_size n - 1).
Proof.
  intros Hba Hf Ht H0. unfold batch_end, effective_ceiling.
  rewrite add64_exact by width. rewrite sub64_exact by width.
  assert (0 <= Z.of_nat (buffer_capacity n) / 2) by (apply Z.div_pos; lia).
  destruct (Z.ltb_spec (sat_sub tip (Z.of_nat (buffer_capacity n) / 2)) from); width.
Qed.

(** The state after a batch, before the tags are refreshed. *)
Definition batch_state (n : RpcHostNotifier) (from tip : Z) (bs : list (RpcBlock T R)) : RpcHostNotifier :=
  let to := batch_end n from tip in
  with_backfill_from (if effective_ceiling n from tip <=? to then None else Some (add64 to 1))
    (with_last_emitted
       (match last (block_entry <$> bs) with Some e => Some e | None => last_emitted n end)
       (with_view (extend_view (buffer_capacity n) (block_entry <$> bs) (chain_view n)) n)).

(** What a batch up to [to] promises. *)
Definition batch_outcome (n n' : RpcHostNotifier) (from to : Z) (bs : list (RpcBlock T R)) : Prop :=
  from <= to /\ block_number <$> bs = range_incl from to /\ Forall block_known bs
  /\ Z.of_nat (length bs) <= backfill_batch_size n
  /\ last_emitted n' = last (block_entry <$> bs)
  /\ view_after n n' (ChainCommitted (mkSegment bs))
  /\ (forall k h, last_emitted n = Some (k, h) ->
       from = k + 1 /\ exists b, head bs = Some b /\ block_parent_hash b = h)
  /\ (backfill_from n' = None \/ backfill_from n' = Some (to + 1)).

Lemma batch_state_ok n from tip bs :
  host_inv n -> backfill_from n = Some from -> from <= tip -> 0 <= tip < 2 ^ 64 ->
  block_number <$> bs = range_incl from (batch_end n from tip) -> Forall block_known bs ->
  (match last_emitted n, head bs with
   | Some (_, h), Some b => negb (block_parent_hash b =? h) | _, _ => false end) = false ->
  host_inv (batch_state n from tip bs)
  /\ batch_outcome n (batch_state n from tip bs) from (batch_end n from tip) bs.
Proof.
  intros Hi Hb Hle Ht Hnums Hbk Hpar. destruct (hi_cursor n Hi _ Hb) as [Hfr Hat].
  destruct (batch_end_bounds n from tip (hi_batch n Hi) Hfr Hle ltac:(lia)) as (Hto & Hceil & Hfull).
  set (to := batch_end n from tip) in *. pose proof (blocks_view_known _ Hbk) as Hk.
  assert (bs <> []) as Hbs by (intros ->; rewrite range_incl_cons in Hnums by lia; done).
  destruct (last bs) as [lb|] eqn:Hlb; [|by apply last_None in Hlb].
  assert (last (block_entry <$> bs) = Some (block_entry lb)) as Hle1 by by rewrite fmap_last, Hlb.
  pose proof (entries_numbered bs from to ltac:(lia) Hnums) as Hen.
  assert (Z.of_nat (length bs) = to - from + 1) as Hlen.
  { rewrite <- (length_fmap block_number), Hnums, length_range_incl. lia. }
  assert ((block_entry lb).1 = to) as Hlast by (rewrite (numbered_last _ _ _ Hen Hle1), length_fmap; lia).
  unfold batch_state. fold to. rewrite Hle1.
  set (cursor := if effective_ceiling n from tip <=? to then None else Some (add64 to 1)).
  assert (forall k, cursor = Some k -> k = to + 1) as Hcu.
  { unfold cursor. destruct (Z.leb_spec (effective_ceiling n from tip) to) as [|Hlt']; [done|].
    intros k [= <-]. apply add64_exact. clear -Ht Hto Hceil Hfr Hlt'. width. }
  split.
  { apply (host_inv_append n _ cursor (block_entry lb) Hi Hle1 Hk); [|by rewrite Hlast].
    exists from. split; [lia|split; [done|]]. intros Hne.
    destruct (host_inv_position n Hi Hne) as [[k h] Hkh]. rewrite Hkh. simpl. by rewrite (Hat _ _ Hkh). }
  split; [lia|]. do 2 (split; [done|]). split.
  { rewrite Hlen. subst to. unfold batch_end. destruct (hi_batch n Hi).
    rewrite add64_exact by width. rewrite sub64_exact by width. lia. }
  split; [done|]. split.
  { unfold view_after. simpl. destruct (hi_view n Hi). by rewrite extend_view_eq by (done || apply Hi). }
  split.
  - intros k h Hla. rewrite Hla in Hpar. destruct bs as [|b0 bs]; [done|]. simpl in *.
    split; [by eapply Hat|]. exists b0. split; [done|]. by apply negb_false_iff, Z.eqb_eq in Hpar.
  - cbn. destruct cursor eqn:Ec; [right; by rewrite (Hcu _ eq_refl)|by left].
Qed.

Lemma drain_backfill_cases n p r n' p' from :
  host_inv n -> backfill_from n = Some from ->
  drain_backfill (P:=P) (T:=T) (R:=R) (n, p) = (r, (n', p')) ->
  host_inv n' /\
  match r with
  | Ok None => n' = with_backfill_from None n
  | Ok (Some notif) => exists seg to, kind notif = ChainCommitted seg
      /\ batch_outcome n n' from to (blocks seg)
  | _ => True
  end.
Proof.
  intros Hi Hb. unfold drain_backfill. unfold mbind at 1, st_bind at 1. cbn [this]. rewrite Hb.
  unfold mbind at 1, st_bind at 1. cbn [provider]. unfold rpc at 1, st_map_err at 1.
  destruct (get_block_number p) as [[tip|e|] p1] eqn:Ht; cbn [map_err];
    [|intros [= <- <- <-]; done..].
  apply lp_tip in Ht. destruct (hi_cursor n Hi _ Hb) as [Hfr Hat].
  destruct (Z.compare_spec from (sat_add tip 1)) as [Heq|Hlt|Hgt].
  - intros [= <- <- <-]. split; [by apply host_inv_cursor|done].
  - assert (from <= tip) as Hle by width.
    unfold mbind at 1, st_bind at 1. cbn [provider].
    destruct (fetch_range from _ p1) as [[bs|e|] p2] eqn:Hf; [|intros [= <- <- <-]; done..].
    destruct (fetch_range_ok _ _ _ _ _ Hf) as [Hnums Hbk].
    destruct (match last_emitted n with Some _ => _ | None => _ end) eqn:Hpar.
    + intros [= <- <- <-]. split; [|done]. apply (host_inv_clear n (backfill_from n)); [done|].
      rewrite Hb. by intros ? [= <-].
    + destruct (batch_state_ok n from tip bs Hi Hb Hle ltac:(width) Hnums Hbk Hpar) as [Hi' Ho].
      unfold mbind at 1, st_bind at 1. cbn [update].
      change (with_backfill_from _ (with_last_emitted _ (with_view _ n))) with (batch_state n from tip bs).
      destruct (last bs) as [lb|] eqn:Hlb; cycle 1.
      { apply last_None in Hlb as ->. destruct Ho as (Hto & _). by rewrite range_incl_cons in Hnums by done. }
      unfold mbind at 1, st_bind at 1.
      destruct (maybe_refresh_tags _ _) as [r1 [n1 p3]] eqn:Hr.
      apply refresh_tags_frame in Hr as (a & b & c & ->).
      destruct r1 as [[]|e|]; cbn [this mbind st_bind];
        (intros Hx; injection Hx as <- <- <-; split; [by apply host_inv_tags|]); [|done..].
      by exists (mkSegment bs), (batch_end n from tip).
  - intros [= <- <- <-]. done.
Qed.

Lemma drain_backfill_none n p :
  backfill_from n = None -> drain_backfill (P:=P) (T:=T) (R:=R) (n, p) = (Ok None, (n, p)).
Proof. intros Hb. unfold drain_backfill, mbind, st_bind. cbn [this]. by rewrite Hb. Qed.

(** *** One call of [next_notification] *)

(** A segment continues a position: numbers go on, and its first block is a
    child of the block at the position. *)
Definition continues (pos : option (Z * B256)) (seg : segment) : Prop :=
  forall k h, pos = Some (k, h) ->
    numbered (k + 1) (seg_entries seg)
    /\ exists e hd, head (seg_entries seg) = Some e
         /\ header_of e.2 = Some hd /\ h_parent_hash hd = h.

(** What a notification emitted from state [m] promises. *)
Definition emitted_ok (m n' : RpcHostNotifier) (notif : HostNotification segment) : Prop :=
  match kind notif with
  | ChainCommitted seg =>
      blocks seg <> [] /\ last_emitted n' = last (seg_entries seg)
      /\ (continues (last_emitted m) seg \/ (chain_view m = [] /\ backfill_from m = None))
  | ChainReorged old seg =>
      blocks seg <> [] /\ last_emitted n' = last (seg_entries seg)
      /\ 0 < first old <= tip old
      /\ fst <$> last_emitted m = Some (tip old)
      /\ exists ancestor, (first old - 1, ancestor) ∈ chain_view m
           /\ extends header_of ancestor (seg_entries seg)
           /\ numbered (first old) (seg_entries seg)
  | ChainReverted _ => False
  end.

Lemma attaches_emitted m n' notif :
  backfill_from m = None -> attaches m n' (kind notif) -> emitted_ok m n' notif.
Proof.
  intros Hb (_ & entries & Hne & Hl & Hk). unfold emitted_ok.
  destruct (kind notif) as [seg|old|old seg]; [|done|].
  - destruct Hk as [<- Hat]. unfold seg_entries in *. split; [by destruct (blocks seg)|].
    split; [done|]. destruct (decide (chain_view m = [])) as [|Hnn]; [by right|left].
    destruct (Hat Hnn) as (num & hash & Hla & Hext & Hnum). rewrite Hla. intros k h [= <- <-].
    split; [done|]. unfold seg_entries in *.
    destruct (block_entry <$> blocks seg) as [|[j g] es]; [done|].
    destruct Hext as [(hd & Hh & _ & Hp) _]. by exists (j, g), hd.
  - destruct Hk as [<- (num & hash & anc & Hla & <- & Hin & Hext & Hnum & Hf)].
    rewrite Hla. unfold seg_entries in Hne. split; [by destruct (blocks seg)|].
    do 3 (split; [done|]). by exists anc.
Qed.

(** What happens inside one call: silent steps (a finished backfill, a head
    already seen, a walk that gives up) and one emission. *)
Inductive silent : RpcHost P -> RpcHost P -> Prop :=
| silent_backfill n p n' p' headers :
    drain_backfill (T:=T) (R:=R) (n, p) = (Ok None, (n', p')) ->
    silent (mkRpcHost n p headers) (mkRpcHost n' p' headers)
| silent_head n p n' p' header headers :
    backfill_from n = None -> handle_new_head (T:=T) (R:=R) header (n, p) = (Ok None, (n', p')) ->
    silent (mkRpcHost n p (header :: headers)) (mkRpcHost n' p' headers).

Inductive emits : RpcHost P -> HostNotification segment -> RpcHost P -> Prop :=
| emits_batch n p n' p' headers notif from :
    backfill_from n = Some from -> drain_backfill (n, p) = (Ok (Some notif), (n', p')) ->
    emits (mkRpcHost n p headers) notif (mkRpcHost n' p' headers)
| emits_head n p n' p' header headers notif :
    backfill_from n = None -> handle_new_head header (n, p) = (Ok (Some notif), (n', p')) ->
    emits (mkRpcHost n p (header :: headers)) notif (mkRpcHost n' p' headers).

Lemma drain_backfill_quiet n p n' p' :
  host_inv n -> drain_backfill (T:=T) (R:=R) (n, p) = (Ok None, (n', p')) ->
  host_inv n' /\ n' = with_backfill_from None n.
Proof.
  intros Hi Hd. destruct (backfill_from n) as [from|] eqn:Hb.
  - by destruct (drain_backfill_cases _ _ _ _ _ _ Hi Hb Hd).
  - rewrite (drain_backfill_none n p Hb) in Hd. injection Hd as <- <-. split; [done|].
    destruct n; simpl in *. by rewrite Hb.
Qed.

(** A silent step keeps the position and at most forgets the view. *)
Lemma silent_ok h h' :
  silent h h' -> host_inv (host_notifier h) ->
  host_inv (host_notifier h')
  /\ last_emitted (host_notifier h') = last_emitted (host_notifier h)
  /\ (chain_view (host_notifier h') = chain_view (host_notifier h) \/ chain_view (host_notifier h') = [])
  /\ (backfill_from (host_notifier h') = None
      \/ backfill_from (host_notifier h') = (fun e => fst e + 1) <$> last_emitted (host_notifier h)).
Proof.
  intros [n p n' p' hs Hd|n p n' p' hd hs Hb Hh] Hi; simpl in *.
  - destruct (drain_backfill_quiet _ _ _ _ Hi Hd) as [Hi' ->]. split; [done|]. by auto.
  - destruct (handle_new_head_cases _ _ _ _ _ _ Hi Hb Hh) as [Hi' [->|(-> & -> & ->)]];
      (split; [done|]); auto.
Qed.

Lemma silent_steps_ok h h' :
  rtc silent h h' -> host_inv (host_notifier h) ->
  host_inv (host_notifier h')
  /\ last_emitted (host_notifier h') = last_emitted (host_notifier h)
  /\ (chain_view (host_notifier h') = chain_view (host_notifier h) \/ chain_view (host_notifier h') = [])
  /\ (backfill_from (host_notifier h') = backfill_from (host_notifier h)
      \/ backfill_from (host_notifier h') = None
      \/ backfill_from (host_notifier h') = (fun e => fst e + 1) <$> last_emitted (host_notifier h)).
Proof.
  induction 1 as [h|h1 h2 h3 H1 _ IH]; intros Hi; [by auto|].
  destruct (silent_ok _ _ H1 Hi) as (Hi2 & Hl2 & Hv2 & Hb2).
  destruct (IH Hi2) as (Hi3 & Hl3 & Hv3 & Hb3). rewrite Hl3, Hl2. rewrite Hl2 in Hb3.
  split; [done|]. split; [done|]. split; [destruct Hv3 as [->| ->]; auto|].
  destruct Hb3 as [Hb3|[Hb3|Hb3]]; rewrite Hb3; [destruct Hb2|..]; auto.
Qed.

Lemma emits_ok h notif h' :
  emits h notif h' -> host_inv (host_notifier h) ->
  host_inv (host_notifier h')
  /\ emitted_ok (host_notifier h) (host_notifier h') notif
  /\ view_after (host_notifier h) (host_notifier h') (kind notif).
Proof.
  intros [n p n' p' hs no from Hb Hd|n p n' p' hd hs no Hb Hh] Hi; simpl in *.
  - destruct (drain_backfill_cases _ _ _ _ _ _ Hi Hb Hd) as [Hi1 Hc]. split; [done|].
    destruct Hc as (seg & to & Hk & Hle & Hnums & Hbk & _ & Hl & Hv & Hpos & _). split; [|by rewrite Hk].
    unfold emitted_ok. rewrite Hk.
    assert (blocks seg <> []) as Hbs by (intros Hnil; rewrite Hnil, range_incl_cons in Hnums by lia; done).
    split; [done|]. split; [done|]. left. intros k g Hkg.
    destruct (Hpos _ _ Hkg) as (-> & b & Hhd & Hp).
    split; [by eapply entries_numbered|]. exists (block_entry b), (b_header b).
    unfold seg_entries. destruct (blocks seg) as [|b0 bs]; [done|]. injection Hhd as ->.
    by inversion Hbk; subst.
  - destruct (handle_new_head_cases _ _ _ _ _ _ Hi Hb Hh) as [Hi' Ha]. split; [done|].
    split; [by apply attaches_emitted|apply Ha].
Qed.

(** One call is a run of silent steps that an emission, the end of the
    headers or an error closes. *)
Lemma next_notification_loop_steps headers n p r rest n' p' :
  host_inv n ->
  next_notification_loop headers (n, p) = (r, rest, (n', p')) ->
  match r with
  | Ok (Some notif) => exists m, rtc silent (mkRpcHost n p headers) m /\ emits m notif (mkRpcHost n' p' rest)
  | Ok None => rest = [] /\ rtc silent (mkRpcHost n p headers) (mkRpcHost n' p' rest)
  | _ => host_inv n'
  end.
Proof.
  revert n p. induction headers as [|hd headers IH]; intros n p Hi; cbn [next_notification_loop];
    destruct (drain_backfill (n, p)) as [rd [n1 p1]] eqn:Hd.
  all: destruct (backfill_from n) as [from|] eqn:Hb;
    [pose proof (drain_backfill_cases _ _ _ _ _ _ Hi Hb Hd) as [Hi1 _]
    |rewrite (drain_backfill_none n p Hb) in Hd; injection Hd as <- <- <-].
  all: try (destruct rd as [[notif|]|e|];
    [intros [= <- <- <- <-]; eexists; split; [apply rtc_refl|by econstructor]| |by intros [= <- <- <- <-]..]).
  - intros [= <- <- <- <-]. split; [done|]. apply rtc_once. by constructor.
  - intros [= <- <- <- <-]. split; [done|]. apply rtc_refl.
  - destruct (drain_backfill_quiet _ _ _ _ Hi Hd) as [_ Hn1].
    assert (backfill_from n1 = None) as Hb1 by by rewrite Hn1.
    assert (silent (mkRpcHost n p (hd :: headers)) (mkRpcHost n1 p1 (hd :: headers))) as Hs by by constructor.
    destruct (handle_new_head hd (n1, p1)) as [rh [n2 p2]] eqn:Hh.
    pose proof (handle_new_head_cases _ _ _ _ _ _ Hi1 Hb1 Hh) as [Hi2 _].
    destruct rh as [[notif|]|e|]; [| |by intros [= <- <- <- <-]..].
    + intros [= <- <- <- <-]. eexists. split; [by apply rtc_once|]. by constructor.
    + intros Hn. pose proof (IH _ _ Hi2 Hn) as Hr.
      assert (rtc silent (mkRpcHost n p (hd :: headers)) (mkRpcHost n2 p2 headers)) as Hs2
        by (eapply rtc_l; [exact Hs|]; apply rtc_once; by constructor).
      destruct r as [[notif|]|e|]; [|split; [tauto|etrans; [exact Hs2|apply Hr]]|done..].
      destruct Hr as (m & Hm & He). exists m. split; [by etrans|done].
  - destruct (handle_new_head hd (n, p)) as [rh [n2 p2]] eqn:Hh.
    pose proof (handle_new_head_cases _ _ _ _ _ _ Hi Hb Hh) as [Hi2 _].
    destruct rh as [[notif|]|e|]; [| |by intros [= <- <- <- <-]..].
    + intros [= <- <- <- <-]. eexists. split; [by apply rtc_refl|]. by constructor.
    + intros Hn. pose proof (IH _ _ Hi2 Hn) as Hr.
      assert (rtc silent (mkRpcHost n p (hd :: headers)) (mkRpcHost n2 p2 headers)) as Hs2
        by (apply rtc_once; by constructor).
      destruct r as [[notif|]|e|]; [|split; [tauto|etrans; [exact Hs2|apply Hr]]|done..].
      destruct Hr as (m & Hm & He). exists m. split; [by etrans|done].
Qed.

Lemma next_notification_steps (h h' : RpcHost P) r :
  host_inv (host_notifier h) -> next_notification (E:=RpcHostError PE) tt h = (h', r) ->
  match r with
  | Some (Ok notif) => exists m, rtc silent h m /\ emits m notif h'
  | None => host_headers h' = [] /\ rtc silent h h'
  | _ => host_inv (host_notifier h')
  end.
Proof.
  destruct h as [n p hs]. intros Hi. cbn [next_notification rpc_host_notifier host_headers host_notifier host_provider].
  destruct (next_notification_loop _ _) as [[ro rest] [n' p']] eqn:Hn. intros [= <- <-].
  apply next_notification_loop_steps in Hn; [|done]. by destruct ro as [[notif|]|e|].
Qed.
End notifier_facts.
