(* ===== verification/HostRpcProps.v ===== *)
(** * Properties of the RPC host notifier

    Delivery through the [HostNotifier] interface, the coalescing stream and the
    builder, on a sample provider whose host has one block per height. *)

From S2P Require Import Prelude HostTypes Primitives HostRpc HostRpcView HostRpcNotifier.

(** C15: Delivery.  From any state satisfying the invariant, one call of
    [next_notification] keeps it, whatever the provider answers, and what it
    emits it emits from a state that silent steps reach with the position
    unchanged: a committed segment is non-empty, becomes the new position, and
    continues the previous position (next number, parent hash) unless that
    state's view was empty with no backfill pending; a reorg reverts from just
    above a block of the view up to exactly the previous position and its
    segment is linked to that block; a pure revert is never emitted, and the
    call only ends without a notification when the header stream does. *)
Theorem rpc_notifier_delivery {P PE PB PR T R} `{Provider P PE PB PR T R, HeaderOps}
    header_of `{!LawfulProvider (P:=P) header_of} (h h' : RpcHost P) r :
  host_inv header_of (host_notifier h) ->
  next_notification tt h = (h', r) ->
  host_inv header_of (host_notifier h')
  /\ match r with
     | Some (Ok notif) => exists m, rtc silent h m /\ emits m notif h'
         /\ host_inv header_of (host_notifier m)
         /\ last_emitted (host_notifier m) = last_emitted (host_notifier h)
         /\ emitted_ok header_of (host_notifier m) (host_notifier h') notif
     | None => host_headers h' = [] /\ last_emitted (host_notifier h') = last_emitted (host_notifier h)
     | _ => True
     end.
Proof.
  intros Hi Hn. apply (next_notification_steps header_of) in Hn; [|done].
  destruct r as [[notif|e|]|]; [|by split..|].
  - destruct Hn as (m & Hm & He). destruct (silent_steps_ok header_of _ _ Hm Hi) as (Him & Hl & _).
    destruct (emits_ok header_of _ _ _ He Him) as (Hi' & Ho & _). split; [done|]. by exists m.
  - destruct Hn as [? Hm]. destruct (silent_steps_ok header_of _ _ Hm Hi) as (Hi' & Hl & _). done.
Qed.

(** C16: A backfill batch is exactly the next blocks: while a cursor is pending, a
    successful batch carries the blocks [from..=to] without a gap, at most
    [backfill_batch_size] of them, starting where the last emitted block
    stopped and linked to it by parent hash, and the cursor either moves to
    [to + 1] or is cleared. *)
Theorem backfill_batch_exact {P PE PB PR T R} `{Provider P PE PB PR T R, HeaderOps}
    header_of `{!LawfulProvider (P:=P) header_of} n p n' p' from notif :
  host_inv header_of n -> backfill_from n = Some from ->
  drain_backfill (n, p) = (Ok (Some notif), (n', p')) ->
  exists seg to, kind notif = ChainCommitted seg
    /\ from <= to /\ block_number <$> blocks seg = range_incl from to
    /\ Z.of_nat (length (blocks seg)) <= backfill_batch_size n
    /\ (forall k h, last_emitted n = Some (k, h) ->
         from = k + 1 /\ exists b, head (blocks seg) = Some b /\ block_parent_hash b = h)
    /\ (backfill_from n' = None \/ backfill_from n' = Some (to + 1)).
Proof.
  intros Hi Hb Hd. destruct (drain_backfill_cases _ _ _ _ _ _ _ Hi Hb Hd) as [_ Hc].
  destruct Hc as (seg & to & ? & ? & ? & _ & ? & _ & ? & ?). by exists seg, to.
Qed.

(** A run of ready items, then [rest]. *)
Definition ready_run {A} (items : list A) (rest : list (Poll A)) : list (Poll A) :=
  (PollReady ∘ Some <$> items) ++ rest.

(** [Latest] returns the newest ready header: of a run of ready items the
    last one is yielded and the others are counted as skipped; an ended or
    pending stream is reported as such. *)
Theorem latest_yields_newest {A} (first : A) (newer : list A) (rest : list (Poll A)) :
  match rest with PollReady (Some _) :: _ => False | _ => True end ->
  Z.of_nat (length newer) <= max64 ->
  latest_poll_next (ready_run (first :: newer) rest)
  = (PollReady (Some (default first (last newer))), Z.of_nat (length newer), tail rest).
Proof.
  intros Hrest Hlen. unfold ready_run. csimpl. unfold latest_poll_next. simpl.
  assert (forall cur k, 0 <= k -> k + Z.of_nat (length newer) <= max64 ->
    drain_ready cur k ((PollReady ∘ Some <$> newer) ++ rest)
    = (default cur (last newer), k + Z.of_nat (length newer), tail rest)) as Hd.
  { clear Hlen. induction newer as [|x newer IH]; intros cur k Hk Hl; csimpl.
    - change (Z.of_nat 0) with 0. rewrite Z.add_0_r. destruct rest as [|[|[i|]] rest]; cbn in *; reflexivity || done.
    - simpl in Hl. rewrite add64_exact by width. rewrite IH by lia.
      destruct newer as [|y newer]; [simpl; do 2 f_equal; lia|].
      change (last (x :: y :: newer)) with (last (y :: newer)).
      destruct (last (y :: newer)) eqn:E; [|by apply last_None in E].
      replace (k + 1 + Z.of_nat (length (y :: newer)))
        with (k + Z.of_nat (length (x :: y :: newer))) by (simpl; lia). done. }
  by rewrite Hd by lia.
Qed.

Lemma latest_yields_newest_witness :
  latest_poll_next [PollReady (Some 1); PollReady (Some 2); PollReady (Some 3); PollPending]
  = (PollReady (Some 3), 2, []).
Proof. apply (latest_yields_newest 1 [2; 3] [PollPending]); [exact I|discriminate]. Defined.

(** The builder keeps the capacity, batch size and concurrency at least one,
    whatever the environment says, so a built notifier satisfies the invariant
    for every configured batch size up to [2^63]. *)
Theorem into_builder_invariant {PE} header_of c start_timestamp connect subscribe b n :
  into_builder (PE:=PE) c start_timestamp connect = Ok b ->
  build_notifier (PE:=PE) b subscribe = Ok n ->
  default DEFAULT_BACKFILL_BATCH_SIZE (hc_backfill_batch_size c) <= 2 ^ 63 ->
  host_inv header_of n /\ 1 <= max_rpc_concurrency n
  /\ buffer_capacity n = Z.to_nat (Z.max 1 (default DEFAULT_BUFFER_CAPACITY (hc_buffer_capacity c))).
Proof.
  unfold into_builder, build_notifier. intros Hb Hn Hs. res_inv.
  destruct c as [c1 c2 c3]. cbn in *.
  assert (forall v, (if 0 <? v then v else 1) = Z.max 1 v) as Hm
    by (intros v; destruct (Z.ltb_spec 0 v); lia).
  rewrite !Hm. split; [|split; [lia|done]].
  constructor; cbn -[Z.pow Z.max]; try done; try lia.
  - split; [simpl; lia|]. exists 0. by split.
  - constructor.
Qed.

(** ** A sample host

    Height [n] holds the block of hash [1000 + n] whose parent is the block
    below; the provider's state is its current tip, which every query of the
    block number advances by the host's pace. *)
Module SampleHost.
Import Sample.

Definition header_of (h : B256) : option Header :=
  if (1000 <=? h) && (h <? 1000 + 2 ^ 40) then Some (Sample.header (h - 1000)) else None.
Definition rpc_header (n : Z) : RpcHeader := mkRpcHeader (1000 + n) (Sample.header n) None None.
Definition by_number (n : Z) : option Header := header_of (1000 + n).

(** The pace: how far the tip moves at each query of the block number. *)
Definition host : Type := Z * Z.

#[export] Instance sample_provider : Provider host unit Header unit unit unit := {
  get_block_by_hash h p := (Ok ((fun hd => mkRpcHeader h hd None None) <$> header_of h), p);
  get_full_block_by_hash h p := (Ok (header_of h), p);
  get_block_by_number t p :=
    (Ok (Some (rpc_header (match t with Number n => n | _ => p.1 end))), p);
  get_full_block_by_number t p :=
    (Ok (by_number (match t with Number n => n | _ => p.1 end)), p);
  get_block_receipts _ p := (Ok None, p);
  get_block_number p := if (0 <=? p.1) && (p.1 <=? max64) then (Ok p.1, (p.1 + p.2, p.2)) else (Err tt, p);
  get_code_at _ p := (Ok [], p);
  block_header b := b;
  block_transactions _ := [];
  into_primitives_receipt r := r }.

Lemma header_of_some h hd :
  header_of h = Some hd -> hd = Sample.header (h - 1000) /\ 0 <= h - 1000 < 2 ^ 40.
Proof.
  unfold header_of. destruct (Z.leb_spec 1000 h), (Z.ltb_spec h (1000 + 2 ^ 40)); simpl;
    intros [=]; lia || (split; [done|lia]).
Qed.

#[export] Instance sample_lawful : LawfulProvider (P:=host) header_of.
Proof.
  constructor.
  - intros h p b p' [= Hb <-]. by apply fmap_Some in Hb as (hd & Hh & ->).
  - split.
    + intros h hd Hh. apply header_of_some in Hh as [-> Hr]. simpl. width.
    + intros h hd hd' Hh Hp. apply header_of_some in Hh as [-> Hr].
      apply header_of_some in Hp as [-> _]. simpl. lia.
  - intros h hd Hh. apply header_of_some in Hh as [-> Hr]. simpl. lia.
  - intros h hd Hh. apply header_of_some in Hh as [-> Hr]. simpl. lia.
  - intros h p b p' [= Hb <-]. done.
  - intros k p b p' [= Hb <-]. unfold by_number in Hb. pose proof Hb as Hh.
    apply header_of_some in Hh as [-> Hr]. simpl. split; [lia|]. by rewrite Hb || (rewrite <- Hb; f_equal; lia).
  - intros p t p'. simpl. destruct (Z.leb_spec 0 p.1), (Z.leb_spec p.1 max64); simpl; intros [=].
    subst. width.
Qed.

(** One call of the interface. *)
Definition next (h : RpcHost host) :
    RpcHost host * option (res (RpcHostError unit) (HostNotification (RpcChainSegment unit unit))) :=
  next_notification tt h.

(** A notifier built with the defaults, its head set to [n]. *)
Definition started (n : Z) : RpcHostNotifier :=
  notifier_set_head n (RpcHostNotifier_new 64 32 8 12 0).

Lemma started_inv n : 0 <= n < 2 ^ 63 -> host_inv header_of (started n).
Proof.
  intros Hn. constructor; cbn -[Z.pow]; try done; try lia.
  - split; [simpl; lia|]. exists 0. by split.
  - constructor.
  - intros from [= <-]. by split.
Qed.
End SampleHost.
Import Sample SampleHost.

(** Instances: two batches of a backfill, and the walk back over one block. *)
Lemma rpc_notifier_delivery_witness :
  let h := mkRpcHost (started 5) (100, 0) [] in
  let '(h', r) := next h in
  host_inv header_of (host_notifier h')
  /\ last_emitted (host_notifier h') = Some (36, 1036)
  /\ match r with
     | Some (Ok notif) => exists m, rtc silent h m /\ emits m notif h'
         /\ host_inv header_of (host_notifier m) /\ last_emitted (host_notifier m) = None
         /\ emitted_ok header_of (host_notifier m) (host_notifier h') notif
     | _ => False
     end.
Proof.
  intros h. destruct (next h) as [h' r] eqn:E.
  pose proof (rpc_notifier_delivery header_of h h' r (started_inv 5 ltac:(lia)) E) as [Hi Hr].
  split; [exact Hi|]. vm_compute in E. injection E as <- <-. split; [reflexivity|exact Hr].
Defined.

Lemma backfill_batch_exact_witness :
  exists (seg : RpcChainSegment unit unit) to,
    5 <= to /\ block_number <$> blocks seg = range_incl 5 to.
Proof.
  destruct (drain_backfill (T:=unit) (R:=unit) (started 5, (100, 0))) as [[[notif|]|e|] [n' p']] eqn:E;
    [|vm_compute in E; discriminate..].
  destruct (backfill_batch_exact header_of _ _ _ _ _ _ (started_inv 5 ltac:(lia)) eq_refl E)
    as (seg & to & _ & Hle & Hnum & _).
  by exists seg, to.
Defined.

Lemma walk_chain_correct_witness :
  let n := with_last_emitted (Some (7, 1007)) (with_view [(6, 1006); (7, 1007)] (started 5)) in
  walk_result_ok header_of n 1009 (Advance [(8, 1008); (9, 1009)]).
Proof.
  intros n. apply (walk_chain_correct header_of n 1009 (9, 0) _ (9, 0) 6).
  - exact lp_by_hash.
  - exact lp_graph.
  - reflexivity.
  - vm_compute. reflexivity.
Defined.

Lemma walk_chain_terminates_witness :
  let '(r, p') := walk_chain (started 5) 1009 (9, 0) in
  r <> Panic /\ exists k, (k <= S (buffer_capacity (started 5)))%nat /\ asks k (9, 0) p'.
Proof. apply (walk_chain_terminates (started 5) 1009 (9, 0)). intros h q. discriminate. Defined.

Lemma into_builder_invariant_witness :
  host_inv header_of (RpcHostNotifier_new 1 32 8 12 7).
Proof.
  refine (proj1 (into_builder_invariant (PE:=unit) header_of (mkHostRpcConfig (Some 0) None None) 7
    (Ok tt) (Ok tt) _ _ eq_refl eq_refl _)). discriminate.
Defined.

(** The exception in the delivery property is reachable.  Started at block 10
    of a host whose tip is 9, backfill completes without fetching anything; if
    the next header to arrive is 12 (11 coalesced, or the host three blocks
    ahead), the empty view makes the walk commit block 12 alone, and blocks 10
    and 11 are never emitted. *)
Theorem empty_view_skips_blocks :
  let h := mkRpcHost (started 10) (9, 3) [rpc_header 12] in
  let '(h', r) := next h in
  match r with
  | Some (Ok notif) => exists seg, kind notif = ChainCommitted seg /\ block_number <$> blocks seg = [12]
  | _ => False
  end
  /\ host_inv header_of (host_notifier h)
  /\ last_emitted (host_notifier h') = Some (12, 1012) /\ backfill_from (host_notifier h') = None.
Proof.
  intros h. split; [|split; [exact (started_inv 10 ltac:(lia))|split; reflexivity]].
  eexists. split; reflexivity.
Qed.

(** A batch size near [u64::MAX] (a caller's "no limit") breaks backfill: the
    end of the batch wraps below its start, an empty segment is emitted, on
    which [first_number] panics, and the cursor moves backwards. *)
Theorem unlimited_batch_emits_empty_segment :
  let h := mkRpcHost (notifier_set_backfill_thresholds (Some max64) (started 10)) (100, 0) [] in
  let '(h', r) := next h in
  match r with
  | Some (Ok notif) => kind notif = ChainCommitted (mkSegment [])
      /\ first_number (E:=unit) (T:=unit) (R:=unit) (mkSegment []) = Panic
  | _ => False
  end
  /\ backfill_from (host_notifier h') = Some 9.
Proof. vm_compute. auto. Qed.
