(* ===== verification/Alias.v ===== *)
(** * Alias oracles ([block-processor/src/alias.rs], [host-rpc/src/alias.rs],
      [host-reth/src/alias.rs])

    An oracle decides whether a host address is a contract that must be
    aliased.  The interface [AliasOracle] is a stateful query over a shared
    world [W] (a set, an RPC provider with its cache, a state provider); the
    block processor only uses the interface. *)

From S2P Require Import Prelude Primitives HostRpc.

(** [AliasError]: an internal error of the implementation. *)
Inductive AliasError (E : Type) := AliasInternal (e : E).
Arguments AliasInternal {E} e.

(** [AliasOracleFactory::create] followed by the created oracle's
    [should_alias]; both act on the shared world. *)
Class AliasOracle (W E : Type) := {
  create : st W (AliasError E) unit;
  should_alias : Address -> st W (AliasError E) bool }.

(** What an implementation promises its client: queries answer one status of
    the address and do not change it. *)
Class LawfulAlias (W E : Type) `{AliasOracle W E} (good : W -> Prop)
    (status : W -> Address -> bool) : Prop := {
  create_good w r w' : good w -> create w = (r, w') ->
    good w' /\ forall a, status w' a = status w a;
  should_alias_good a w r w' : good w -> should_alias a w = (r, w') ->
    good w' /\ (forall b, status w' b = status w b) /\ (forall b, r = Ok b -> b = status w a) }.

(** ** A fixed set ([HashSet<Address>]) *)
#[export] Instance set_oracle {E} : AliasOracle (gset Z) E := {
  create s := (Ok tt, s);
  should_alias address s := (Ok (bool_decide (address ∈ s)), s) }.

(** [Mutex<T>]: a poisoned lock is an internal error. *)
Definition mutex_create {W E} `{AliasOracle W E} (lock_error : E) (poisoned : bool) :
    st W (AliasError E) unit :=
  if poisoned then st_fail (AliasInternal lock_error) else create.

(** ** Host bytecode *)

(** The EIP-7702 designator is a constant of alloy. *)
Class Eip7702 := { DELEGATION_DESIGNATOR : list Z }.
Definition EIP7702_DELEGATION_LEN : nat := 23.

(** [slice::starts_with]. *)
Definition starts_with (code prefix : list Z) : bool :=
  bool_decide (take (length prefix) code = prefix).

Definition should_alias_bytecode `{Eip7702} (code : list Z) : bool :=
  if (length code =? 0)%nat then false
  else if (length code =? EIP7702_DELEGATION_LEN)%nat && starts_with code DELEGATION_DESIGNATOR
  then false
  else true.

(** ** [RpcAliasOracle]: the provider and the cache shared by all clones *)
Record RpcAliasOracle (P : Type) := mkRpcAlias { ra_provider : P; ra_cache : gset Z }.
Arguments mkRpcAlias {P} _ _.
Arguments ra_provider {P} _.
Arguments ra_cache {P} _.

Section rpc.
Context {P PE PB PR T R : Type} `{Provider P PE PB PR T R, Eip7702}.

Definition rpc_should_alias (address : Address) : st (RpcAliasOracle P) (AliasError PE) bool :=
  fun w =>
    if decide (address ∈ ra_cache w) then (Ok true, w)
    else
      match get_code_at address (ra_provider w) with
      | (Ok code, p) =>
          let alias := should_alias_bytecode code in
          (Ok alias,
           mkRpcAlias p (if alias then {[address]} ∪ ra_cache w else ra_cache w))
      | (Err e, p) => (Err (AliasInternal e), mkRpcAlias p (ra_cache w))
      | (Panic, p) => (Panic, mkRpcAlias p (ra_cache w))
      end.
End rpc.

(** [create] clones the handle, so the cache stays shared. *)
#[export] Instance rpc_oracle {P PE PB PR T R} `{Provider P PE PB PR T R, Eip7702} :
  AliasOracle (RpcAliasOracle P) PE := {
  create w := (Ok tt, w);
  should_alias := rpc_should_alias }.

(** ** [RethAliasOracle] *)

(** The state provider: accounts, bytecode by hash, [is_eip7702] and the
    constants of alloy. *)
Record HostAccount := mkHostAccount { ha_bytecode_hash : option B256 }.
Class StateProvider (S E Code : Type) := {
  basic_account : S -> Address -> res E (option HostAccount);
  bytecode_by_hash : S -> B256 -> res E (option Code);
  is_eip7702 : Code -> bool;
  KECCAK_EMPTY : B256;
  code_not_found : E }.

Definition check_alias {S E Code} `{StateProvider S E Code} (s : S) (address : Address) :
    res (AliasError E) bool :=
  acct ← map_err AliasInternal (basic_account s address);
  match acct with
  | None => Ok false
  | Some acct =>
      match ha_bytecode_hash acct with
      | None => Ok false
      | Some bch =>
          if bch =? KECCAK_EMPTY then Ok false
          else
            code ← map_err AliasInternal (bytecode_by_hash s bch);
            code ← ok_or code (AliasInternal code_not_found);
            Ok (negb (is_eip7702 code))
      end
  end.

(** The factory holds the latest state; [create] pins a snapshot of it. *)
Record RethAliasWorld (S E : Type) := mkRethAlias {
  re_latest : res E S; re_snapshot : option S }.
Arguments mkRethAlias {S E} _ _.
Arguments re_latest {S E} _.
Arguments re_snapshot {S E} _.

#[export] Instance reth_oracle {S E Code} `{StateProvider S E Code} :
  AliasOracle (RethAliasWorld S E) E := {
  create w :=
    match re_latest w with
    | Ok s => (Ok tt, mkRethAlias (re_latest w) (Some s))
    | Err e => (Err (AliasInternal e), w)
    | Panic => (Panic, w)
    end;
  should_alias address w :=
    match re_snapshot w with
    | Some s => (check_alias s address, w)
    | None => (Panic, w)
    end }.

(** ** The alias set of a block ([run_evm]) *)
Fixpoint alias_loop {W E} `{AliasOracle W E} (senders : list Address) (to_alias : gset Z) :
    st W (AliasError E) (gset Z) :=
  match senders with
  | [] => mret to_alias
  | addr :: senders =>
      if decide (addr ∈ to_alias) then alias_loop senders to_alias
      else
        alias ← should_alias addr;
        alias_loop senders (if (alias : bool) then {[addr]} ∪ to_alias else to_alias)
  end.

(** ** Properties *)

#[export] Instance set_lawful {E} :
  LawfulAlias (gset Z) E (fun _ => True) (fun s a => bool_decide (a ∈ s)).
Proof.
  constructor.
  - by intros w r w' _ [= <- <-].
  - intros a w r w' _ [= <- <-]. split; [done|]. split; [done|]. by intros b [= <-].
Qed.

Section rpc_lawful.
Context {P PE PB PR T R : Type} `{!Provider P PE PB PR T R, !Eip7702}.
(** The host code of an address while the oracle is used. *)
Context (code_of : Address -> list Z).
Hypothesis code_stable :
  forall a (p : P) c p', get_code_at a p = (Ok c, p') -> c = code_of a.

Definition cache_sound (w : RpcAliasOracle P) : Prop :=
  set_Forall (fun a => should_alias_bytecode (code_of a) = true) (ra_cache w).

(** While the host code of the queried addresses is stable, the RPC oracle
    with its cache keeps the oracle's promise. *)
Lemma rpc_lawful :
  LawfulAlias (RpcAliasOracle P) PE cache_sound (fun _ a => should_alias_bytecode (code_of a)).
Proof using code_stable.
  constructor.
  - by intros w r w' Hg [= <- <-].
  - intros a w r w' Hg. cbn [should_alias rpc_oracle]. unfold rpc_should_alias.
    destruct (decide (a ∈ ra_cache w)) as [Hin|Hout].
    + intros [= <- <-]. split; [done|]. split; [done|]. intros b [= <-]. symmetry. by apply Hg.
    + destruct (get_code_at a (ra_provider w)) as [[c|e|] p] eqn:Hc; intros [= <- <-];
        [|by split..].
      apply code_stable in Hc as ->. split; [|split; [done|by intros b [= <-]]].
      unfold cache_sound. cbn [ra_cache].
      destruct (should_alias_bytecode (code_of a)) eqn:Ea; [|done].
      apply set_Forall_union; [by apply set_Forall_singleton|done].
Qed.
End rpc_lawful.

(** [alias_loop] keeps the promise and collects exactly the contracts. *)
Lemma alias_loop_ok {W E} `{!AliasOracle W E, !LawfulAlias W E good status} senders acc w r w' :
  good w -> alias_loop senders acc w = (r, w') ->
  good w' /\ forall s, r = Ok s ->
    forall a, a ∈ s <-> a ∈ acc \/ (a ∈ senders /\ status w a = true).
Proof.
  revert acc w. induction senders as [|x senders IH]; intros acc w Hg; cbn [alias_loop].
  - intros [= <- <-]. split; [done|]. intros s [= <-] a. split; [by left|]. intros [?|[Hn _]]; [done|]. by apply not_elem_of_nil in Hn.
  - destruct (decide (x ∈ acc)) as [Hin|Hout].
    + intros Ha. destruct (IH _ _ Hg Ha) as [Hg' Hs]. split; [done|].
      intros s Hr a. rewrite (Hs s Hr a), elem_of_cons. split; [tauto|].
      intros [?|[[->|?] ?]]; auto.
    + unfold mbind, st_bind. destruct (should_alias x w) as [[b|e|] w1] eqn:Hx.
      * destruct (should_alias_good _ _ _ _ Hg Hx) as (Hg1 & Hst & Hb).
        rewrite (Hb _ eq_refl). intros Ha. destruct (IH _ _ Hg1 Ha) as [Hg' Hs]. split; [done|].
        intros s Hr a. rewrite (Hs s Hr a), Hst, elem_of_cons.
        destruct (status w x) eqn:Ex.
        -- rewrite elem_of_union, elem_of_singleton. split.
           ++ intros [[->|?]|[? ?]]; auto.
           ++ intros [?|[[->|?] ?]]; auto.
        -- split; [tauto|]. intros [?|[[->|?] ?]]; [by left|congruence|by right].
      * destruct (should_alias_good _ _ _ _ Hg Hx) as (Hg1 & _). by intros [= <- <-].
      * destruct (should_alias_good _ _ _ _ Hg Hx) as (Hg1 & _). by intros [= <- <-].
Qed.

(** The alias set of a block is exact against any oracle that keeps its
    promise: an address is aliased if and only if it sent a host transaction of
    the block and the oracle says it is a contract. *)
Theorem alias_set_exact {W E} `{!AliasOracle W E, !LawfulAlias W E good status} senders w s w' :
  good w -> alias_loop senders ∅ w = (Ok s, w') ->
  forall a, a ∈ s <-> a ∈ senders /\ status w a = true.
Proof.
  intros Hg Ha a. destruct (alias_loop_ok _ _ _ _ _ Hg Ha) as [_ Hs].
  rewrite (Hs _ eq_refl a). split; [|by right].
  intros [Hn|?]; [by apply not_elem_of_empty in Hn|done].
Qed.

Lemma alias_set_exact_witness :
  7 ∈ ({[7]} : gset Z) <-> 7 ∈ [5; 7; 7] /\ bool_decide (7 ∈ ({[7; 9]} : gset Z)) = true.
Proof.
  exact (alias_set_exact (W:=gset Z) (E:=unit) [5; 7; 7] {[7; 9]} {[7]} {[7; 9]} I eq_refl 7).
Defined.

(** Host bytecode classification: an address is aliased exactly when it has
    code that is not a 23-byte EIP-7702 delegation; in particular neither an
    account without code nor a cleared or set delegation ever is, and a
    truncated or overlong delegation is. *)
Theorem should_alias_bytecode_spec `{Eip7702} code :
  should_alias_bytecode code = true <->
  code <> [] /\ ~ (length code = 23%nat /\ exists addr, code = DELEGATION_DESIGNATOR ++ addr).
Proof.
  unfold should_alias_bytecode, EIP7702_DELEGATION_LEN, starts_with.
  destruct (Nat.eqb_spec (length code) 0) as [H0|H0].
  - apply nil_length_inv in H0 as ->. naive_solver.
  - assert (code <> []) as Hne by by intros ->.
    assert (take (length DELEGATION_DESIGNATOR) code = DELEGATION_DESIGNATOR
      <-> exists addr, code = DELEGATION_DESIGNATOR ++ addr) as Hp.
    { split.
      - intros Ht. exists (drop (length DELEGATION_DESIGNATOR) code).
        rewrite <- Ht at 1. by rewrite take_drop.
      - intros [addr ->]. by rewrite take_app_length. }
    rewrite <- Hp. destruct (Nat.eqb_spec (length code) 23); case_bool_decide; simpl; naive_solver.
Qed.

(** The Reth oracle aliases exactly the accounts whose code is present and not
    a delegation. *)
Lemma check_alias_true {S E Code} `{StateProvider S E Code} s a :
  check_alias s a = Ok true <->
  exists acct bch code, basic_account s a = Ok (Some acct) /\ ha_bytecode_hash acct = Some bch
    /\ bch <> KECCAK_EMPTY /\ bytecode_by_hash s bch = Ok (Some code) /\ is_eip7702 code = false.
Proof.
  unfold check_alias.
  assert (forall P Q : Prop, ~ P -> ~ Q -> P <-> Q) as Hno by tauto.
  destruct (basic_account s a) as [[[[bch|]]|]|e|]; simpl;
    try (apply Hno; [discriminate|intros (?&?&?&?&?&?&?&?); simplify_eq/=; congruence]).
  destruct (Z.eqb_spec bch KECCAK_EMPTY) as [->|Hne];
    [apply Hno; [discriminate|intros (?&?&?&?&?&?&?&?); simplify_eq/=; congruence]|].
  destruct (bytecode_by_hash s bch) as [[code|]|e|] eqn:Hb; simpl;
    try (apply Hno; [discriminate|intros (?&?&?&?&?&?&?&?); simplify_eq/=; congruence]).
  split.
  - intros [= He]. apply negb_true_iff in He. by eexists _, _, _.
  - intros (acct & b' & c & Ha & Hh & _ & Hc & He). injection Ha as <-. simpl in Hh.
    injection Hh as <-. rewrite Hb in Hc. injection Hc as <-. by rewrite He.
Qed.
