(* ===== verification/Blobber.v ===== *)
(** * Blob retrieval and decoding ([crates/blobber])

    The fetcher over ordered synchronous sources and racing asynchronous ones,
    the caching actor with its retries, and the decoding of a block from its
    blobs, with the split between decode errors (an empty block) and fetch
    errors (a failure). *)

From S2P Require Import Prelude Primitives.

(** ** Errors ([error.rs], [blobs/error.rs], [coder/error.rs]) *)
Inductive FetchError (E : Type) :=
| Reqwest (e : E) | MissingSidecar (tx : B256) | BlobSourceErr (e : E) | UrlParse (e : E).
Arguments Reqwest {E} e.
Arguments MissingSidecar {E} tx.
Arguments BlobSourceErr {E} e.
Arguments UrlParse {E} e.

Inductive DecodeError (E : Type) :=
| Non4844Transaction | BlobDecodeError | BlockDataNotFound (h : B256) | BlockDecodeError (e : E).
Arguments Non4844Transaction {E}.
Arguments BlobDecodeError {E}.
Arguments BlockDataNotFound {E} h.
Arguments BlockDecodeError {E} e.

Inductive BlobberError (E : Type) := Fetch (e : FetchError E) | Decode (e : DecodeError E).
Arguments Fetch {E} e.
Arguments Decode {E} e.

Definition is_decode {E} (e : BlobberError E) : bool :=
  match e with Decode _ => true | Fetch _ => false end.
Definition is_fetch {E} (e : BlobberError E) : bool :=
  match e with Fetch _ => true | Decode _ => false end.
Definition non_4844_transaction {E} : BlobberError E := Decode Non4844Transaction.
Definition blob_decode_error {E} : BlobberError E := Decode BlobDecodeError.
Definition block_data_not_found {E} (h : B256) : BlobberError E := Decode (BlockDataNotFound h).
Definition missing_sidecar {E} (tx : B256) : BlobberError E := Fetch (MissingSidecar tx).

(** ** Blobs ([blobs/fetch.rs]) *)
Abbreviation bytes := (list Z) (only parsing).

Inductive SidecarVariant (Blob : Type) := Eip4844 (blobs : list Blob) | Eip7594 (blobs : list Blob).
Arguments Eip4844 {Blob} blobs.
Arguments Eip7594 {Blob} blobs.

Inductive Blobs (Blob : Type) :=
| FromSidecar (sidecar : SidecarVariant Blob) | Other (blobs : list Blob).
Arguments FromSidecar {Blob} sidecar.
Arguments Other {Blob} blobs.

Definition as_vec {Blob} (b : Blobs Blob) : list Blob :=
  match b with
  | FromSidecar (Eip4844 blobs) => blobs
  | FromSidecar (Eip7594 blobs) => blobs
  | Other blobs => blobs
  end.
Definition blobs_len {Blob} (b : Blobs Blob) : nat := length (as_vec b).
Definition blobs_is_empty {Blob} (b : Blobs Blob) : bool := (blobs_len b =? 0)%nat.

Record BlobSpec := mkBlobSpec { bs_tx_hash : B256; bs_slot : Z; bs_versioned_hashes : list B256 }.

(** ** Sources ([blobs/sources]) *)

(** What a source answers to a request. *)
Definition BlobSource (E Blob : Type) : Type := BlobSpec -> res E (option (Blobs Blob)).

(** The remote sources treat an empty answer as absence. [fetch] and
    [transaction] are the HTTP exchange. *)
Definition beacon_get_blob {E Blob} (fetch : Z -> list B256 -> res E (list Blob)) :
    BlobSource E Blob := fun spec =>
  blobs ← Other <$> fetch (bs_slot spec) (bs_versioned_hashes spec);
  Ok (if negb (blobs_is_empty blobs) then Some blobs else None).

Definition explorer_get_blob {E Blob} (transaction : B256 -> res E (list Blob)) :
    BlobSource E Blob := fun spec =>
  sidecar ← transaction (bs_tx_hash spec);
  let blobs := Other sidecar in
  Ok (if negb (blobs_is_empty blobs) then Some blobs else None).

Definition pylon_get_blob {E Blob} (fetch : B256 -> res E (SidecarVariant Blob)) :
    BlobSource E Blob := fun spec =>
  blobs ← FromSidecar <$> fetch (bs_tx_hash spec);
  Ok (if negb (blobs_is_empty blobs) then Some blobs else None).

(** [MemoryBlobSource]. *)
Definition memory_insert {Blob} (tx : B256) (s : SidecarVariant Blob) (m : gmap Z (SidecarVariant Blob)) :=
  <[tx := s]> m.
Definition memory_remove {Blob} (tx : B256) (m : gmap Z (SidecarVariant Blob)) := delete tx m.
Definition memory_get_blob {E Blob} (m : gmap Z (SidecarVariant Blob)) : BlobSource E Blob :=
  fun spec => Ok (FromSidecar <$> m !! bs_tx_hash spec).

(** ** [BlobFetcher] *)
Record BlobFetcher (E Blob : Type) := mkFetcher {
  sync_sources : list (BlobSource E Blob); async_sources : list (BlobSource E Blob) }.
Arguments mkFetcher {E Blob} _ _.
Arguments sync_sources {E Blob} _.
Arguments async_sources {E Blob} _.

Section fetcher.
Context {E Blob : Type}.

(** Both phases look at answers one by one, skip failures and stop at the
    first success; a panicking source panics the caller. *)
Fixpoint first_success (answers : list (res E (option (Blobs Blob)))) :
    res (FetchError E) (option (Blobs Blob)) :=
  match answers with
  | [] => Ok None
  | Ok (Some blobs) :: _ => Ok (Some blobs)
  | Panic :: _ => Panic
  | _ :: answers => first_success answers
  end.

(** [order] is the order in which the asynchronous requests complete. *)
Definition fetch_blobs (f : BlobFetcher E Blob)
    (order : list (BlobSource E Blob) -> list (BlobSource E Blob)) (spec : BlobSpec) :
    res (FetchError E) (Blobs Blob) :=
  found ← first_success ((fun s => s spec) <$> sync_sources f);
  match found with
  | Some blobs => Ok blobs
  | None =>
      found ← first_success ((fun s => s spec) <$> order (async_sources f));
      ok_or found (MissingSidecar (bs_tx_hash spec))
  end.

(** *** The builder ([blobs/builder.rs], [blobs/config.rs]) *)
Definition with_source (s : BlobSource E Blob) (f : BlobFetcher E Blob) : BlobFetcher E Blob :=
  mkFetcher (sync_sources f ++ [s]) (async_sources f).
Definition with_async_source (s : BlobSource E Blob) (f : BlobFetcher E Blob) : BlobFetcher E Blob :=
  mkFetcher (sync_sources f) (async_sources f ++ [s]).

Record BlobFetcherConfig := mkFetcherConfig {
  blob_explorer_url : string; cl_url : option string; pylon_url : option string }.

(** [with_config]: the sources are made from their URLs; [parse] is
    [url::Url::parse]. *)
Definition with_config {U} (parse : string -> res E U)
    (explorer : string -> BlobSource E Blob) (beacon pylon : U -> BlobSource E Blob)
    (config : BlobFetcherConfig) (f : BlobFetcher E Blob) : res E (BlobFetcher E Blob) :=
  let f := with_async_source (explorer (blob_explorer_url config)) f in
  f ← (match cl_url config with
       | Some cl => url ← parse cl; Ok (with_async_source (beacon url) f)
       | None => Ok f
       end);
  match pylon_url config with
  | Some p => url ← parse p; Ok (with_async_source (pylon url) f)
  | None => Ok f
  end.
End fetcher.

(** ** The caching actor ([blobs/cache.rs]) *)
Definition FETCH_RETRIES : nat := 3.

(** The LRU map is a third-party container: a lookup also refreshes the entry. *)
Class LruMap (M V : Type) := {
  lru_get : Z * B256 -> M -> option V * M;
  lru_insert : Z * B256 -> V -> M -> M }.

Section cacher.
Context {E Blob M : Type} `{LruMap M (Blobs Blob)}.

(** The fetch attempts: attempt [i] finds its own answers and completion
    order. *)
Definition Attempts : Type := nat -> BlobSpec -> res (FetchError E) (Blobs Blob).

Fixpoint retry_loop (attempts : Attempts) (spec : BlobSpec) (attempt remaining : nat) :
    res (BlobberError E) (option (Blobs Blob)) :=
  match remaining with
  | O => Ok None
  | S remaining =>
      match attempts attempt spec with
      | Ok blobs => Ok (Some blobs)
      | Err _ => retry_loop attempts spec (S attempt) remaining
      | Panic => Panic
      end
  end.

(** [BlobCacher::fetch_blobs]. *)
Definition cacher_fetch_blobs (attempts : Attempts) (slot : Z) (tx_hash : B256)
    (versioned_hashes : list B256) : st M (BlobberError E) (Blobs Blob) := fun cache =>
  let '(hit, cache) := lru_get (slot, tx_hash) cache in
  match hit with
  | Some blobs => (Ok blobs, cache)
  | None =>
      let spec := mkBlobSpec tx_hash slot versioned_hashes in
      match retry_loop attempts spec 1 FETCH_RETRIES with
      | Ok (Some blobs) => (Ok blobs, lru_insert (slot, tx_hash) blobs cache)
      | Ok None => (Err (missing_sidecar tx_hash), cache)
      | Err e => (Err e, cache)
      | Panic => (Panic, cache)
      end
  end.

(** [CacheHandle::fetch_blobs]: the request runs in a task of its own; when it
    does not answer (a failure or a panic drops the reply channel, or the actor
    is gone) the caller sees a missing sidecar. *)
Definition handle_fetch_blobs (actor_alive : bool) (attempts : Attempts) (slot : Z)
    (tx_hash : B256) (versioned_hashes : list B256) : st M (BlobberError E) (Blobs Blob) :=
  fun cache =>
    if actor_alive then
      match cacher_fetch_blobs attempts slot tx_hash versioned_hashes cache with
      | (Ok blobs, cache) => (Ok blobs, cache)
      | (_, cache) => (Err (missing_sidecar tx_hash), cache)
      end
    else (Err (missing_sidecar tx_hash), cache).
End cacher.

(** ** Decoding ([coder/trait.rs], [blobs/cache.rs]) *)

(** The sidecar coder, the hash and the block format of the SDK. *)
Class Coder (Blob ZB : Type) := {
  decode_all : list Blob -> option (list bytes);
  keccak256 : bytes -> B256;
  from_header_and_data : Z -> bytes -> ZB }.

(** The extracted [BlockSubmitted] event: its transaction, and the header it
    describes at a host block (headers are opaque to the blobber). *)
Record Submitted := mkSubmitted {
  ev_tx_hash : B256;
  ev_versioned_hashes : option (list B256);
  ev_block_data_hash : B256;
  ev_ru_header : Z -> Z }.

Section decode.
Context {E Blob ZB M : Type} `{Coder Blob ZB, LruMap M (Blobs Blob)}.

(** [SignetBlockDecoder]. *)
Definition decode_block (blobs : Blobs Blob) (header : Z) (data_hash : B256) :
    res (DecodeError E) ZB :=
  all ← ok_or (decode_all (as_vec blobs)) BlobDecodeError;
  block_data ← ok_or (find_first (fun data => keccak256 data =? data_hash) all)
                 (BlockDataNotFound data_hash);
  Ok (from_header_and_data header block_data).

Definition decode_block_or_default (blobs : Blobs Blob) (header : Z) (data_hash : B256) : ZB :=
  match decode_block blobs header data_hash with
  | Ok b => b
  | _ => from_header_and_data header []
  end.

(** [CacheHandle::fetch_and_decode]. *)
Definition fetch_and_decode (actor_alive : bool) (attempts : Attempts) (slot : Z)
    (extract : Submitted) : st M (BlobberError E) bytes :=
  versioned_hashes ← st_lift (ok_or (ev_versioned_hashes extract) non_4844_transaction);
  blobs ← handle_fetch_blobs actor_alive attempts slot (ev_tx_hash extract) versioned_hashes;
  all ← st_lift (ok_or (decode_all (as_vec blobs)) blob_decode_error);
  st_lift (ok_or (find_first (fun data => keccak256 data =? ev_block_data_hash extract) all)
             (block_data_not_found (ev_block_data_hash extract))).

(** [CacheHandle::signet_block]. *)
Definition signet_block (actor_alive : bool) (attempts : Attempts) (host_block_number slot : Z)
    (extract : Submitted) : st M (FetchError E) ZB := fun cache =>
  let header := ev_ru_header extract host_block_number in
  match fetch_and_decode actor_alive attempts slot extract cache with
  | (Ok buf, cache) => (Ok (from_header_and_data header buf), cache)
  | (Err (Decode _), cache) => (Ok (from_header_and_data header []), cache)
  | (Err (Fetch err), cache) => (Err err, cache)
  | (Panic, cache) => (Panic, cache)
  end.
End decode.

(** ** Lemmas *)
Section facts.
Context {E Blob ZB M : Type} `{Coder Blob ZB, LruMap M (Blobs Blob)}.
Implicit Types (outcomes : list (res E (option (Blobs Blob)))).

Lemma first_success_some outcomes b :
  first_success outcomes = Ok (Some b) -> Ok (Some b) ∈ outcomes.
Proof.
  induction outcomes as [|[[c|]|e|] outcomes IH]; simpl; [discriminate| | | |discriminate].
  - intros [= ->]. left.
  - intros Hs. right. auto.
  - intros Hs. right. auto.
Qed.

(** Without panics, one pass succeeds exactly when some source has an answer. *)
Lemma first_success_spec outcomes :
  Panic ∉ outcomes ->
  (first_success outcomes = Ok None /\ forall b, Ok (Some b) ∉ outcomes)
  \/ exists b, first_success outcomes = Ok (Some b) /\ Ok (Some b) ∈ outcomes.
Proof.
  induction outcomes as [|[[c|]|e|] outcomes IH]; simpl; intros Hp.
  - left. split; [done|]. intros b. apply not_elem_of_nil.
  - right. exists c. split; [done|left].
  - rewrite not_elem_of_cons in Hp. destruct (IH (proj2 Hp)) as [[Hn Ha]|(b & Hb & Hin)].
    + left. split; [done|]. intros b. rewrite not_elem_of_cons. by split.
    + right. exists b. split; [done|by right].
  - rewrite not_elem_of_cons in Hp. destruct (IH (proj2 Hp)) as [[Hn Ha]|(b & Hb & Hin)].
    + left. split; [done|]. intros b. rewrite not_elem_of_cons. by split.
    + right. exists b. split; [done|by right].
  - rewrite not_elem_of_cons in Hp. by destruct Hp.
Qed.

Lemma retry_loop_spec (attempts : Attempts (E:=E) (Blob:=Blob)) spec a k :
  (forall i s, attempts i s <> Panic) ->
  match retry_loop attempts spec a k with
  | Ok (Some b) => exists i, (a <= i < a + k)%nat /\ attempts i spec = Ok b
      /\ forall j, (a <= j < i)%nat -> exists e, attempts j spec = Err e
  | Ok None => forall i, (a <= i < a + k)%nat -> exists e, attempts i spec = Err e
  | _ => False
  end.
Proof.
  intros Hp. revert a. induction k as [|k IH]; intros a; simpl; [intros i Hi; lia|].
  destruct (attempts a spec) as [b|e|] eqn:Ha; [|specialize (IH (S a))|by apply Hp in Ha].
  - exists a. split; [lia|]. split; [done|]. intros j Hj. lia.
  - destruct (retry_loop attempts spec (S a) k) as [[b|]|e'|]; [| |done..].
    + destruct IH as (i & Hi & Hb & Hprev). exists i. split; [lia|]. split; [done|].
      intros j Hj. destruct (decide (j = a)) as [->|]; [by exists e|apply Hprev; lia].
    + intros i Hi. destruct (decide (i = a)) as [->|]; [by exists e|apply IH; lia].
Qed.

(** The source has blobs for the request. *)
Definition answers (spec : BlobSpec) (s : BlobSource E Blob) : bool :=
  match s spec with Ok (Some _) => true | _ => false end.

(** ** Properties *)

(** C29: The race is harmless when sources agree: if no source panics and every
    answer a source gives for the request is the same blobs, the fetch returns
    those blobs for every completion order as soon as one source has them, and
    a missing sidecar when none has. *)
Theorem fetch_blobs_race_independent (f : BlobFetcher E Blob) order spec b :
  (forall l, order l ≡ₚ l) ->
  Forall (fun s => s spec <> Panic /\ forall c, s spec = Ok (Some c) -> c = b)
    (sync_sources f ++ async_sources f) ->
  fetch_blobs f order spec
  = if decide (Exists (fun s => answers spec s = true) (sync_sources f ++ async_sources f))
    then Ok b else Err (MissingSidecar (bs_tx_hash spec)).
Proof.
  intros Ho Hall. apply Forall_app in Hall as [Hs Ha].
  assert (forall l : list (BlobSource E Blob),
    Forall (fun s => s spec <> Panic /\ forall c, s spec = Ok (Some c) -> c = b) l ->
    first_success ((fun s => s spec) <$> l) = Ok None
      /\ ~ Exists (fun s => answers spec s = true) l
    \/ first_success ((fun s => s spec) <$> l) = Ok (Some b)
      /\ Exists (fun s => answers spec s = true) l) as Hone.
  { clear. intros l Hl. rewrite Forall_forall in Hl.
    destruct (first_success_spec ((fun s => s spec) <$> l)) as [[Hn Hno]|(c & Hc & Hin)].
    - intros Hin. apply list_elem_of_fmap in Hin as (s & Hp & Hin). destruct (Hl s Hin) as [Hnp _].
      by symmetry in Hp.
    - left. split; [done|]. intros Hex. apply Exists_exists in Hex as (s & Hin & Hc).
      unfold answers in Hc. destruct (s spec) as [[c|]|e|] eqn:Hsc; [|done..].
      apply (Hno c). rewrite <- Hsc. by apply (list_elem_of_fmap_2 (fun s => s spec)).
    - apply list_elem_of_fmap in Hin as (s & Hsc & Hin). right.
      destruct (Hl s Hin) as [_ Heq]. symmetry in Hsc. rewrite (Heq c Hsc) in Hc. split; [done|].
      apply Exists_exists. exists s. split; [done|]. unfold answers. by rewrite Hsc. }
  unfold fetch_blobs. destruct (decide _) as [Hex|Hnex]; rewrite Exists_app in *.
  - destruct (Hone _ Hs) as [[-> Hn]|[-> _]]; simpl; [|done].
    destruct Hex as [Hex|Hex]; [done|].
    assert (Forall (fun s => s spec <> Panic /\ forall c, s spec = Ok (Some c) -> c = b)
      (order (async_sources f))) as Ha' by by rewrite Ho.
    destruct (Hone _ Ha') as [[_ Hn']|[-> _]]; simpl; [|done].
    rewrite Exists_exists in Hn', Hex. destruct Hex as (s & Hin & Hc). destruct Hn'.
    exists s. split; [|done]. by apply (elem_of_Permutation_proper s _ _ (Ho _)).
  - destruct (Hone _ Hs) as [[-> _]|[_ Hex]]; simpl; [|tauto].
    assert (Forall (fun s => s spec <> Panic /\ forall c, s spec = Ok (Some c) -> c = b)
      (order (async_sources f))) as Ha' by by rewrite Ho.
    destruct (Hone _ Ha') as [[-> _]|[_ Hex]]; simpl; [done|].
    destruct Hnex. right. rewrite Exists_exists in *. destruct Hex as (s & Hin & Hc).
    exists s. split; [|done]. by apply (elem_of_Permutation_proper s _ _ (Ho _)).
Qed.

(** Retries: a cache miss makes at most three attempts, stops at the first
    that succeeds and caches its blobs under the slot and transaction; only
    when all three fail is the sidecar reported missing, and then nothing is
    cached. *)
Theorem cacher_retries (attempts : Attempts (E:=E) (Blob:=Blob)) slot tx_hash vh (cache : M) :
  (forall i s, attempts i s <> Panic) ->
  (lru_get (slot, tx_hash) cache).1 = None ->
  let spec := mkBlobSpec tx_hash slot vh in
  let cache1 := (lru_get (slot, tx_hash) cache).2 in
  (exists i b, (1 <= i <= 3)%nat /\ attempts i spec = Ok b
     /\ (forall j, (1 <= j < i)%nat -> exists e, attempts j spec = Err e)
     /\ cacher_fetch_blobs attempts slot tx_hash vh cache
        = (Ok b, lru_insert (slot, tx_hash) b cache1))
  \/ ((forall i, (1 <= i <= 3)%nat -> exists e, attempts i spec = Err e)
     /\ cacher_fetch_blobs attempts slot tx_hash vh cache = (Err (missing_sidecar tx_hash), cache1)).
Proof.
  intros Hp Hmiss spec cache1. unfold cacher_fetch_blobs.
  destruct (lru_get (slot, tx_hash) cache) as [hit c1] eqn:Hg.
  cbn [fst snd] in *. subst hit.
  pose proof (retry_loop_spec attempts spec 1 FETCH_RETRIES Hp) as Hr. fold spec.
  destruct (retry_loop attempts spec 1 FETCH_RETRIES) as [[b|]|e|]; [| |done..].
  - left. destruct Hr as (i & Hi & Hb & Hprev). exists i, b. unfold FETCH_RETRIES in Hi.
    split; [lia|]. done.
  - right. split; [|done]. intros i Hi. apply Hr. unfold FETCH_RETRIES. lia.
Qed.

(** What the coder finds in the blobs for a hash: the first piece of data with
    that hash, or nothing when the blobs do not decode or no piece has it. *)
Definition finds (blobs : Blobs Blob) (hash : B256) (found : option bytes) : Prop :=
  match found with
  | Some data => exists before after, decode_all (as_vec blobs) = Some (before ++ data :: after)
      /\ keccak256 data = hash /\ Forall (fun d => keccak256 d <> hash) before
  | None => forall all, decode_all (as_vec blobs) = Some all -> Forall (fun d => keccak256 d <> hash) all
  end.

(** C26: What a submitted block becomes.  [signet_block] returns the block with
    empty data when the transaction carries no blobs; otherwise it asks the
    cache for them.  When they come, it returns the block built from the first
    piece of data whose hash is the event's, whenever there is one, and the
    block with empty data exactly when the blobs do not decode or no piece has
    that hash.  When they do not come it returns a fetch error, never an empty
    block, and so it does when the cache actor is dead; it never panics. *)
Theorem signet_block_outcomes alive (attempts : Attempts (E:=E) (Blob:=Blob)) hn slot ev
    (cache : M) r cache' :
  signet_block (ZB:=ZB) alive attempts hn slot ev cache = (r, cache') ->
  match ev_versioned_hashes ev with
  | None => r = Ok (from_header_and_data (ev_ru_header ev hn) []) /\ cache' = cache
  | Some vh =>
      (exists blobs found, handle_fetch_blobs alive attempts slot (ev_tx_hash ev) vh cache = (Ok blobs, cache')
         /\ finds blobs (ev_block_data_hash ev) found
         /\ r = Ok (from_header_and_data (ev_ru_header ev hn) (default [] found)))
      \/ (handle_fetch_blobs alive attempts slot (ev_tx_hash ev) vh cache
            = (Err (missing_sidecar (ev_tx_hash ev)), cache')
          /\ r = Err (MissingSidecar (ev_tx_hash ev)))
  end
  /\ (alive = false -> ev_versioned_hashes ev <> None -> r = Err (MissingSidecar (ev_tx_hash ev))).
Proof.
  unfold signet_block, fetch_and_decode, mbind, st_bind, st_lift.
  destruct (ev_versioned_hashes ev) as [vh|]; simpl; [|by intros [= <- <-]].
  assert (exists o c, handle_fetch_blobs alive attempts slot (ev_tx_hash ev) vh cache = (o, c)
    /\ (o = Err (missing_sidecar (ev_tx_hash ev)) \/ alive = true /\ exists b, o = Ok b)) as (o & c & Ho & Hk).
  { unfold handle_fetch_blobs. destruct alive; [|eexists _, _; split; [done|by left]].
    destruct (cacher_fetch_blobs _ _ _ _ _) as [[b|e|] c];
      [exists (Ok b), c; split; [done|right; split; [done|by exists b]]|eexists _, _; split; [done|by left]..]. }
  rewrite Ho. destruct Hk as [->|[-> [b ->]]].
  { intros [= <- <-]. split; [by right|done]. }
  intros Hr. split; [left; exists b|done]. unfold finds.
  destruct (decode_all (as_vec b)) as [all|]; simpl in Hr; [|by injection Hr as <- <-; exists None].
  destruct (find_first _ all) as [data|] eqn:Hf; simpl in Hr; injection Hr as <- <-.
  - exists (Some data). apply find_first_split in Hf as (Hk & before & after & -> & Hb).
    apply Z.eqb_eq in Hk. split_and!; [done| |done]. exists before, after. split_and!; [done..|].
    eapply Forall_impl; [exact Hb|]. intros d Hd. by apply Z.eqb_neq.
  - exists None. split_and!; [done| |done]. intros all' [= <-].
    apply Forall_forall. intros d Hd. apply Z.eqb_neq. by eapply find_first_none in Hf.
Qed.

(** The two decoders agree: on the blobs the handle fetched, [signet_block]
    builds the block that [decode_block_or_default] builds from them. *)
Theorem signet_block_decodes alive (attempts : Attempts (E:=E) (Blob:=Blob)) hn slot ev vh blobs
    (cache cache' : M) :
  ev_versioned_hashes ev = Some vh ->
  handle_fetch_blobs alive attempts slot (ev_tx_hash ev) vh cache = (Ok blobs, cache') ->
  signet_block alive attempts hn slot ev cache
  = (Ok (decode_block_or_default (E:=E) (ZB:=ZB) blobs (ev_ru_header ev hn) (ev_block_data_hash ev)),
     cache').
Proof.
  intros Hv Hf. unfold signet_block, fetch_and_decode, mbind, st_bind, st_lift.
  rewrite Hv. simpl. rewrite Hf. unfold decode_block_or_default, decode_block.
  destruct (decode_all (as_vec blobs)) as [all|]; simpl; [|done].
  by destruct (find_first _ all).
Qed.
End facts.
