(* ===== verification/BlobSources.v ===== *)
(** * Remote blob sources ([crates/blobber/src/blobs/sources], [crates/host-reth/src/blob_source.rs])

    The requests the beacon and the Pylon source make, over an HTTP client that
    is a parameter, and the transaction pool of Reth as a source. *)

From Stdlib Require Import Ascii.
From stdpp Require Import pretty.
From S2P Require Import Prelude Primitives Blobber.
#[local] Open Scope string_scope.

(** [reqwest] and [url]: joining a path to a base, appending a query pair, and
    a [GET] with its headers whose answer is checked for an error status and
    parsed, as a list of blobs or as a sidecar. *)
Class HttpClient (U E Blob : Type) := {
  url_join : U -> string -> res E U;
  append_pair : string -> string -> U -> U;
  get_blobs : U -> list (string * string) -> res E (list Blob);
  get_sidecar : U -> list (string * string) -> res E (SidecarVariant Blob) }.

Section sources.
Context {U E Blob : Type} `{!HttpClient U E Blob} (show_hash : B256 -> string).

(** [collect::<Vec<_>>().join(",")]. *)
Definition join_hashes (versioned_hashes : list B256) : string :=
  String.concat "," (show_hash <$> versioned_hashes).

Definition accept_json : list (string * string) := [("accept", "application/json")].

Definition fetch_from_cl (base_url : U) (slot : Z) (versioned_hashes : list B256) : res E (list Blob) :=
  url ← url_join base_url ("/eth/v1/beacon/blobs/" +:+ pretty slot);
  let url := append_pair "versioned_hashes" (join_hashes versioned_hashes) url in
  get_blobs url accept_json.

Definition fetch_from_pylon (base_url : U) (tx_hash : B256) : res E (SidecarVariant Blob) :=
  url ← url_join base_url ("sidecar/" +:+ show_hash tx_hash);
  get_sidecar url accept_json.

(** [BeaconBlobSource] and [PylonBlobSource]. *)
Definition BeaconBlobSource (url : U) : BlobSource E Blob := beacon_get_blob (fetch_from_cl url).
Definition PylonBlobSource (url : U) : BlobSource E Blob := pylon_get_blob (fetch_from_pylon url).

(** [RethBlobSource]: the pool's sidecar, empty or not. *)
Definition RethBlobSource (pool : B256 -> res E (option (SidecarVariant Blob))) : BlobSource E Blob := fun spec =>
  mbind (M:=res E) (fun found => Ok (option_map FromSidecar found)) (pool (bs_tx_hash spec)).

(** ** The query names the hashes *)

(** What the consensus client reads off the query. *)
Fixpoint split_commas (s : string) (word : string) : list string :=
  match s with
  | EmptyString => [word]
  | String c s => if Ascii.eqb c "," then word :: split_commas s EmptyString else split_commas s (word +:+ String c EmptyString)
  end.

Fixpoint no_comma (s : string) : bool :=
  match s with EmptyString => true | String c s => negb (Ascii.eqb c ",") && no_comma s end.

Lemma app_string d w s : String d w +:+ s = String d (w +:+ s).
Proof. done. Qed.

Lemma app_cons_string w c s : (w +:+ String c EmptyString) +:+ s = w +:+ String c s.
Proof. induction w as [|d w IH]; [done|]. by rewrite !app_string, IH. Qed.

Lemma app_nil_string w : w +:+ EmptyString = w.
Proof. induction w as [|d w IH]; [done|]. by rewrite app_string, IH. Qed.

Lemma split_word w s word :
  no_comma w = true ->
  split_commas (w +:+ s) word
  = match s with EmptyString => [word +:+ w] | String _ _ => split_commas s (word +:+ w) end.
Proof.
  revert word. induction w as [|c w IH]; intros word Hw.
  - rewrite app_nil_string. by destruct s.
  - simpl in Hw. apply andb_true_iff in Hw as [Hc Hw]. apply negb_true_iff in Hc.
    rewrite app_string. cbn [split_commas]. rewrite Hc, IH by done.
    by rewrite app_cons_string.
Qed.

(** Splitting the query at its commas gives the hashes back. *)
Lemma split_join_hashes versioned_hashes :
  (forall h, no_comma (show_hash h) = true) -> versioned_hashes <> [] ->
  split_commas (join_hashes versioned_hashes) EmptyString = show_hash <$> versioned_hashes.
Proof.
  intros Hs Hne. unfold join_hashes. destruct versioned_hashes as [|h hs]; [done|]. clear Hne. csimpl.
  revert h. induction hs as [|h' hs IH]; intros h.
  - pose proof (split_word (show_hash h) EmptyString EmptyString (Hs h)) as Hw.
    rewrite app_nil_string in Hw. exact Hw.
  - pose proof (split_word (show_hash h) (String "," (String.concat "," (show_hash h' :: (show_hash <$> hs))))
      EmptyString (Hs h)) as Hw.
    etrans; [exact Hw|]. cbn [split_commas]. f_equal. apply IH.
Qed.

(** A successful answer of the beacon source is what the client got for a
    request of the slot and of exactly the hashes asked for, and is not empty;
    with no hashes at all the request names one empty hash. *)
Theorem beacon_request_exact base_url spec blobs :
  (forall h, no_comma (show_hash h) = true) ->
  BeaconBlobSource base_url spec = Ok (Some blobs) ->
  exists url query data,
    url_join base_url ("/eth/v1/beacon/blobs/" +:+ pretty (bs_slot spec)) = Ok url
    /\ get_blobs (append_pair "versioned_hashes" query url) accept_json = Ok data
    /\ blobs = Other data /\ data <> []
    /\ split_commas query EmptyString
       = match bs_versioned_hashes spec with [] => [EmptyString] | hs => show_hash <$> hs end.
Proof.
  intros Hs. unfold BeaconBlobSource, beacon_get_blob, fetch_from_cl. intros Hb.
  apply bind_ok in Hb as (b & Hf & Hb). apply fmap_ok in Hf as (data & Hf & <-).
  apply bind_ok in Hf as (url & Hu & Hg).
  destruct data as [|d data]; [discriminate|]. injection Hb as <-.
  exists url, (join_hashes (bs_versioned_hashes spec)), (d :: data). do 4 (split; [done|]).
  destruct (bs_versioned_hashes spec) as [|h hs] eqn:Hv; [done|]. by apply split_join_hashes.
Qed.
End sources.
