(* ===== verification/BlobCache.v ===== *)
(** * The blob cache actor ([crates/blobber/src/blobs/cache.rs])

    [CacheHandle]s send requests over a bounded channel to the actor, which
    runs each request in a task of its own on a shared LRU cache.  The actor is
    a step relation over all interleavings of the tasks; [Blobber] has the
    same request as one sequential function. *)

From S2P Require Import Prelude Primitives Blobber.

(** [MAX_BLOBS_PER_BLOCK_ELECTRA] is 9 and [EPOCH_SLOTS] 32. *)
Definition BLOB_CACHE_SIZE : nat := 9 * 32.
Definition CACHE_REQUEST_CHANNEL_SIZE : nat := 9 * 2.

(** [CacheInst::Retrieve]; the request's number stands for its reply channel. *)
Record CacheInst := mkRetrieve {
  ci_resp : nat; ci_slot : Z; ci_tx_hash : B256; ci_version_hashes : list B256 }.
Definition ci_key (i : CacheInst) : Z * B256 := (ci_slot i, ci_tx_hash i).
Definition ci_spec (i : CacheInst) : BlobSpec := mkBlobSpec (ci_tx_hash i) (ci_slot i) (ci_version_hashes i).

(** What an LRU map holds: a lookup finds it, an insertion may evict. *)
Class LawfulLru (M V : Type) `{LruMap M V} (entries : M -> Z * B256 -> option V) : Prop := {
  lru_get_found k m : (lru_get k m).1 = entries m k;
  lru_get_keeps k m : entries (lru_get k m).2 = entries m;
  lru_insert_sub k v m j w : entries (lru_insert k v m) j = Some w ->
    (j = k /\ w = v) \/ entries m j = Some w }.

Section actor.
Context {E Blob M : Type} `{LruMap M (Blobs Blob)}.
(** What one call of [BlobFetcher::fetch_blobs] may return. *)
Context (outcome : BlobSpec -> res (FetchError E) (Blobs Blob) -> Prop).

(** Where a task is in [BlobCacher::fetch_blobs] and [handle_inst]. *)
Inductive TaskPhase :=
| Lookup
| Fetching (attempt : nat)
| Sleeping (attempt : nat)
| Fetched (blobs : Blobs Blob).

(** The actor: senders waiting for room, the channel, the running tasks, the
    cache, and what became of each reply channel ([None]: dropped). *)
Record Cacher := mkCacher {
  c_blocked : list CacheInst;
  c_channel : list CacheInst;
  c_tasks : gmap nat (CacheInst * TaskPhase);
  c_cache : M;
  c_replies : gmap nat (option (Blobs Blob));
  c_log : list CacheInst }.

Definition cacher_new (cache : M) : Cacher := mkCacher [] [] ∅ cache ∅ [].

(** [CacheHandle::fetch_blobs], up to the wait for the reply. *)
Definition request (slot : Z) (tx_hash : B256) (version_hashes : list B256) (s : Cacher) : Cacher :=
  let i := mkRetrieve (length (c_log s)) slot tx_hash version_hashes in
  if (length (c_channel s) <? CACHE_REQUEST_CHANNEL_SIZE)%nat && bool_decide (c_blocked s = [])
  then mkCacher (c_blocked s) (c_channel s ++ [i]) (c_tasks s) (c_cache s) (c_replies s) (c_log s ++ [i])
  else mkCacher (c_blocked s ++ [i]) (c_channel s) (c_tasks s) (c_cache s) (c_replies s) (c_log s ++ [i]).

(** A task moves on, or ends and answers or drops its reply channel. *)
Definition goto (r : nat) (i : CacheInst) (ph : TaskPhase) (s : Cacher) : Cacher :=
  mkCacher (c_blocked s) (c_channel s) (<[r := (i, ph)]> (c_tasks s)) (c_cache s) (c_replies s) (c_log s).
Definition finish (r : nat) (reply : option (Blobs Blob)) (s : Cacher) : Cacher :=
  mkCacher (c_blocked s) (c_channel s) (delete r (c_tasks s)) (c_cache s)
    (<[r := reply]> (c_replies s)) (c_log s).
Definition set_cache (m : M) (s : Cacher) : Cacher :=
  mkCacher (c_blocked s) (c_channel s) (c_tasks s) m (c_replies s) (c_log s).

(** [task_future]: receive one instruction, which makes room for the first
    waiting sender, and spawn its task. *)
Definition receive (i : CacheInst) (rest : list CacheInst) (s : Cacher) : Cacher :=
  mkCacher (drop 1 (c_blocked s)) (rest ++ take 1 (c_blocked s))
    (<[ci_resp i := (i, Lookup)]> (c_tasks s)) (c_cache s) (c_replies s) (c_log s).

(** The cache lookup: a hit answers, a miss starts the first attempt. *)
Definition look_up (r : nat) (i : CacheInst) (s : Cacher) : Cacher :=
  let '(hit, m) := lru_get (ci_key i) (c_cache s) in
  match hit with
  | Some blobs => finish r (Some blobs) (set_cache m s)
  | None => goto r i (Fetching 1) (set_cache m s)
  end.

(** The result of an attempt. *)
Definition fetch_done (r : nat) (i : CacheInst) (attempt : nat)
    (result : res (FetchError E) (Blobs Blob)) (s : Cacher) : Cacher :=
  match result with
  | Ok blobs => goto r i (Fetched blobs) s
  | Err _ => goto r i (Sleeping attempt) s
  | Panic => finish r None s
  end.

(** The end of the pause after a failed attempt; the loop is over after
    [FETCH_RETRIES] of them. *)
Definition wake (r : nat) (i : CacheInst) (attempt : nat) (s : Cacher) : Cacher :=
  if (attempt <? FETCH_RETRIES)%nat then goto r i (Fetching (S attempt)) s else finish r None s.

Inductive work : Cacher -> Cacher -> Prop :=
| work_receive i rest s : c_channel s = i :: rest -> work s (receive i rest s)
| work_lookup r i s : c_tasks s !! r = Some (i, Lookup) -> work s (look_up r i s)
| work_fetch r i attempt result s :
    c_tasks s !! r = Some (i, Fetching attempt) -> outcome (ci_spec i) result ->
    work s (fetch_done r i attempt result s)
| work_wake r i attempt s : c_tasks s !! r = Some (i, Sleeping attempt) -> work s (wake r i attempt s)
| work_insert r i blobs s :
    c_tasks s !! r = Some (i, Fetched blobs) ->
    work s (finish r (Some blobs) (set_cache (lru_insert (ci_key i) blobs (c_cache s)) s)).

Inductive step : Cacher -> Cacher -> Prop :=
| step_request slot tx_hash vh s : step s (request slot tx_hash vh s)
| step_work s s' : work s s' -> step s s'.

(** ** Invariant *)

(** A request is waiting, queued, running or settled, and never two of these;
    senders wait only while the channel has something to receive. *)
Definition in_flight (s : Cacher) (i : CacheInst) : Prop :=
  i ∈ c_channel s ++ c_blocked s \/ exists ph, c_tasks s !! ci_resp i = Some (i, ph).

Record cacher_inv (s : Cacher) : Prop := {
  ca_log : forall r i, c_log s !! r = Some i -> ci_resp i = r;
  ca_queued : forall i, i ∈ c_channel s ++ c_blocked s -> i ∈ c_log s;
  ca_tasks : forall r i ph, c_tasks s !! r = Some (i, ph) -> c_log s !! r = Some i;
  ca_settled : forall r i, c_log s !! r = Some i -> in_flight s i \/ is_Some (c_replies s !! r);
  ca_blocked : c_blocked s <> [] -> c_channel s <> [];
  ca_bound : (length (c_channel s) <= CACHE_REQUEST_CHANNEL_SIZE)%nat }.

(** A change of one task that keeps the rest. *)
Lemma goto_inv r i ph0 ph s :
  cacher_inv s -> c_tasks s !! r = Some (i, ph0) -> cacher_inv (goto r i ph s).
Proof.
  intros [I1 I2 I3 I4 I5 I6] Ht. constructor; simpl; try done.
  - intros q j p. rewrite lookup_insert_Some. intros [[<- [= <- <-]]|[_ Hq]]; eauto.
  - intros q j Hq. destruct (I4 _ _ Hq) as [[Hin|[p Hp]]|]; [left; by left| |by right].
    left. right. simpl. destruct (decide (r = ci_resp j)) as [->|Hne].
    + rewrite lookup_insert_eq. assert (i = j) as -> by congruence. eauto.
    + rewrite lookup_insert_ne by done. eauto.
Qed.

Lemma finish_inv r i ph reply s :
  cacher_inv s -> c_tasks s !! r = Some (i, ph) -> cacher_inv (finish r reply s).
Proof.
  intros [I1 I2 I3 I4 I5 I6] Ht. constructor; simpl; try done.
  - intros q j p. rewrite lookup_delete_Some. intros [_ Hq]. eauto.
  - intros q j Hq. destruct (decide (q = r)) as [->|Hne]; [right; by rewrite lookup_insert_eq|].
    destruct (I4 _ _ Hq) as [[Hin|[p Hp]]|Hr]; [left; by left| |].
    + left. right. exists p. simpl. rewrite lookup_delete_Some. split; [|done].
      pose proof (I1 _ _ Hq). congruence.
    + right. by rewrite lookup_insert_ne.
Qed.

Lemma set_cache_inv m s : cacher_inv s -> cacher_inv (set_cache m s).
Proof. intros [I1 I2 I3 I4 I5 I6]. by constructor. Qed.

Lemma work_inv s s' : work s s' -> cacher_inv s -> cacher_inv s'.
Proof.
  intros Hw Hi. destruct Hw as [i rest s Hc|r i s Ht|r i k [b|e|] s Ht _|r i k s Ht|r i b s Ht].
  - destruct Hi as [I1 I2 I3 I4 I5 I6]. rewrite Hc in *.
    assert (c_log s !! ci_resp i = Some i) as Hl.
    { assert (i ∈ c_log s) as Hin by (apply I2; by left).
      apply list_elem_of_lookup in Hin as [q Hq]. by rewrite (I1 _ _ Hq). }
    assert (forall j, j ∈ rest ++ c_blocked s -> j ∈ (rest ++ take 1 (c_blocked s)) ++ drop 1 (c_blocked s))
      as Hmove by (intros j; by rewrite <- app_assoc, take_drop).
    constructor; simpl; try done.
    + intros j. rewrite <- app_assoc, take_drop. intros Hj. apply I2. by right.
    + intros q j p. rewrite lookup_insert_Some. intros [[<- [= <- <-]]|[_ Hq]]; eauto.
    + intros q j Hq. destruct (I4 _ _ Hq) as [[Hin|[p Hp]]|]; [| |by right]; left.
      * rewrite Hc in Hin. simpl in Hin. rewrite elem_of_cons in Hin. destruct Hin as [->|Hin]; [right|left; by apply Hmove].
        exists Lookup. simpl. by rewrite lookup_insert_eq.
      * right. simpl. destruct (decide (ci_resp i = ci_resp j)) as [He|Hne].
        { rewrite <- He, lookup_insert_eq. pose proof (I1 _ _ Hq). rewrite <- He in *.
          assert (i = j) as -> by congruence. eauto. }
        rewrite lookup_insert_ne by done. eauto.
    + destruct (c_blocked s) as [|j [|]]; simpl; [done|done|]. intros _. by destruct rest.
    + rewrite length_app, length_take. simpl in I6. lia.
  - unfold look_up. destruct (lru_get _ _) as [[b|] m];
      [eapply finish_inv|eapply goto_inv]; (by apply set_cache_inv) || done.
  - by eapply goto_inv.
  - by eapply goto_inv.
  - by eapply finish_inv.
  - unfold wake. destruct (_ <? _)%nat; [by eapply goto_inv|by eapply finish_inv].
  - eapply finish_inv; (by apply set_cache_inv) || done.
Qed.

Lemma request_inv slot tx_hash vh s : cacher_inv s -> cacher_inv (request slot tx_hash vh s).
Proof.
  intros [I1 I2 I3 I4 I5 I6]. unfold request. set (i := mkRetrieve _ _ _ _).
  assert (forall q j, (c_log s ++ [i]) !! q = Some j -> c_log s !! q = Some j \/ q = ci_resp i /\ j = i) as Hlog.
  { intros q j Hq. apply lookup_app_Some in Hq as [?|[Hle Hq]]; [by left|right].
    apply list_lookup_singleton_Some in Hq as [Hz <-]. simpl. split; [lia|done]. }
  destruct (Nat.ltb_spec (length (c_channel s)) CACHE_REQUEST_CHANNEL_SIZE) as [Hlt|Hge];
    [destruct (decide (c_blocked s = [])) as [Hb|Hb]|];
    [rewrite bool_decide_eq_true_2 by done|rewrite bool_decide_eq_false_2 by done|]; simpl.
  all: constructor; simpl; try done.
  all: try (intros q j Hq; destruct (Hlog _ _ Hq) as [Hq'|[-> ->]]; [by apply I1|done]).
  all: try (intros q j p Hq; apply lookup_app_l_Some; by eapply I3).
  all: try (intros j Hj; apply elem_of_app; repeat (apply elem_of_app in Hj as [Hj|Hj]);
    solve [by right|left; apply I2, elem_of_app; by left|left; apply I2, elem_of_app; by right]).
  all: try (intros q j Hq; destruct (Hlog _ _ Hq) as [Hq'|[-> ->]];
    [destruct (I4 _ _ Hq') as [[Hin|[p Hp]]|]; [left; left|left; right; by exists p|by right]
    |left; left]; simpl; rewrite !elem_of_app, ?list_elem_of_singleton in *; tauto).
  - rewrite length_app. simpl. lia.
  - intros _. by apply I5.
  - intros _ Hnil. rewrite Hnil in Hge. unfold CACHE_REQUEST_CHANNEL_SIZE in Hge. simpl in Hge. lia.
Qed.

Lemma cacher_new_inv cache : cacher_inv (cacher_new cache).
Proof.
  constructor; simpl; try done. unfold CACHE_REQUEST_CHANNEL_SIZE. lia.
Qed.

Lemma reachable_inv s s' : rtc step s s' -> cacher_inv s -> cacher_inv s'.
Proof.
  induction 1 as [|? ? ? [] ? IH]; intros Hi; [done| |]; apply IH; [by apply request_inv|by eapply work_inv].
Qed.

(** ** The work left

    A bound on the steps the actor can take without new requests. *)
Definition phase_weight (ph : TaskPhase) : nat :=
  match ph with
  | Lookup => 9
  | Fetching k => 2 * (S FETCH_RETRIES - k) + 2
  | Sleeping k => 2 * (S FETCH_RETRIES - k) + 1
  | Fetched _ => 1
  end.
Definition tasks_left (ts : gmap nat (CacheInst * TaskPhase)) : nat :=
  sum_list_with (fun e => phase_weight e.2.2) (map_to_list ts).
Definition work_left (s : Cacher) : nat :=
  11 * length (c_blocked s) + 10 * length (c_channel s) + tasks_left (c_tasks s).

Lemma tasks_left_delete ts r i ph :
  ts !! r = Some (i, ph) -> tasks_left ts = (phase_weight ph + tasks_left (delete r ts))%nat.
Proof. intros Hr. unfold tasks_left. by rewrite <- (map_to_list_delete ts r (i, ph) Hr). Qed.

Lemma tasks_left_insert ts r i ph :
  tasks_left (<[r := (i, ph)]> ts) = (phase_weight ph + tasks_left (delete r ts))%nat.
Proof.
  rewrite (tasks_left_delete _ r i ph) by by rewrite lookup_insert_eq. by rewrite delete_insert_eq.
Qed.

Lemma tasks_left_delete_le ts r : (tasks_left (delete r ts) <= tasks_left ts)%nat.
Proof.
  destruct (ts !! r) as [[i ph]|] eqn:Hr; [rewrite (tasks_left_delete _ _ _ _ Hr); lia|].
  by rewrite delete_id.
Qed.

(** Every step uses up some of it, so the actor always comes to rest. *)
Lemma work_decreases s s' : work s s' -> (work_left s' < work_left s)%nat.
Proof.
  unfold work_left. intros [i rest t Hc|r i t Ht|r i k [b|e|] t Ht _|r i k t Ht|r i b t Ht].
  - cbn [receive c_blocked c_channel c_tasks].
    rewrite Hc, tasks_left_insert, length_app, length_take, length_drop. cbn [phase_weight length].
    pose proof (tasks_left_delete_le (c_tasks t) (ci_resp i)). lia.
  - unfold look_up. destruct (lru_get _ _) as [[b|] m]; simpl; rewrite ?tasks_left_insert,
      (tasks_left_delete _ _ _ _ Ht); unfold phase_weight, FETCH_RETRIES; lia.
  - simpl. rewrite tasks_left_insert, (tasks_left_delete _ _ _ _ Ht). unfold phase_weight. lia.
  - simpl. rewrite tasks_left_insert, (tasks_left_delete _ _ _ _ Ht). unfold phase_weight. lia.
  - simpl. rewrite (tasks_left_delete _ _ _ _ Ht). unfold phase_weight. lia.
  - unfold wake. destruct (Nat.ltb_spec k FETCH_RETRIES); simpl; rewrite ?tasks_left_insert,
      (tasks_left_delete _ _ _ _ Ht); unfold phase_weight, FETCH_RETRIES in *; lia.
  - simpl. rewrite (tasks_left_delete _ _ _ _ Ht). unfold phase_weight. lia.
Qed.

Lemma work_bounded n s s' : nsteps work n s s' -> (n + work_left s' <= work_left s)%nat.
Proof. induction 1 as [|n s t s' Hw _ IH]; [done|]. apply work_decreases in Hw. lia. Qed.

Lemma work_log s s' : work s s' -> c_log s' = c_log s.
Proof.
  intros [i rest t Hc|r i t Ht|r i k [b|e|] t Ht _|r i k t Ht|r i b t Ht]; try done.
  - unfold look_up. by destruct (lru_get _ _) as [[b|] m].
  - unfold wake. by destruct (_ <? _)%nat.
Qed.

(** An actor at rest has nothing queued and nothing running. *)
Lemma rest_idle s :
  (forall spec, exists r, outcome spec r) -> cacher_inv s -> (forall s', ~ work s s') ->
  c_channel s ++ c_blocked s = [] /\ c_tasks s = ∅.
Proof.
  intros Hout Hi Hrest. assert (c_channel s = []) as Hc.
  { destruct (c_channel s) as [|i rest] eqn:Hc; [done|]. by destruct (Hrest _ (work_receive i rest s Hc)). }
  split; [rewrite Hc; destruct (decide (c_blocked s = [])) as [->|Hb]; [done|by apply (ca_blocked s Hi) in Hb]|].
  apply map_eq. intros r. rewrite lookup_empty. destruct (c_tasks s !! r) as [[i ph]|] eqn:Ht; [|done].
  destruct ph as [|k|k|b]; exfalso.
  - by eapply Hrest, work_lookup.
  - destruct (Hout (ci_spec i)) as [o Ho]. by eapply Hrest, work_fetch.
  - by eapply Hrest, work_wake.
  - by eapply Hrest, work_insert.
Qed.

(** C27: Every request is settled: whatever the order in which the actor's tasks
    run and however the fetches end, without new requests it comes to rest
    within [work_left] steps, and at rest every request made so far has an
    answer or a dropped reply channel, which the caller sees as a missing
    sidecar.  No request is lost in the channel, behind it or in a task. *)
Theorem requests_settled cache s :
  (forall spec, exists r, outcome spec r) -> rtc step (cacher_new cache) s ->
  (forall n s', nsteps work n s s' -> (n <= work_left s)%nat)
  /\ (forall s', rtc work s s' -> (forall s'', ~ work s' s'') ->
       forall r, (r < length (c_log s))%nat -> is_Some (c_replies s' !! r)).
Proof.
  intros Hout Hs. apply reachable_inv in Hs; [|apply cacher_new_inv]. split.
  - intros n s' Hn. apply work_bounded in Hn. lia.
  - intros s' Hw Hrest r Hr. assert (cacher_inv s' /\ c_log s' = c_log s) as [Hi Hl].
    { clear Hrest. induction Hw as [|a b c Hab _ IH]; [done|]. rewrite <- (work_log _ _ Hab) in *.
      apply IH; [by eapply work_inv|done]. }
    destruct (rest_idle s' Hout Hi Hrest) as [Hq Ht]. rewrite <- Hl in Hr.
    apply lookup_lt_is_Some in Hr as [i Hr].
    destruct (ca_settled s' Hi _ _ Hr) as [[Hin|[ph Hp]]|]; [| |done].
    + rewrite Hq in Hin. by apply not_elem_of_nil in Hin.
    + rewrite Ht, lookup_empty in Hp. done.
Qed.

(** ** The sequential function

    [cacher_fetch_blobs] of [Blobber] is a run of the actor: the steps of a
    single task, uninterrupted. *)
Lemma retry_loop_runs (attempts : Attempts (E:=E) (Blob:=Blob)) r i a k s :
  (forall n, outcome (ci_spec i) (attempts n (ci_spec i))) -> (a + k = S FETCH_RETRIES)%nat -> (0 < k)%nat ->
  c_tasks s !! r = Some (i, Fetching a) ->
  exists s', rtc work s s' /\ delete r (c_tasks s') = delete r (c_tasks s) /\
    match retry_loop attempts (ci_spec i) a k with
    | Ok (Some b) => c_tasks s' !! r = Some (i, Fetched b) /\ c_cache s' = c_cache s
    | _ => c_tasks s' !! r = None /\ c_cache s' = c_cache s /\ c_replies s' !! r = Some None
    end.
Proof.
  intros Ho. revert a s. induction k as [|k IH]; intros a s Hk Hpos Ht; [lia|]. simpl.
  pose proof (work_fetch r i a _ s Ht (Ho a)) as Hw.
  destruct (attempts a (ci_spec i)) as [b|e|]; simpl in Hw.
  - eexists. split; [by apply rtc_once|]. simpl. rewrite delete_insert_eq, lookup_insert_eq. done.
  - assert (c_tasks (goto r i (Sleeping a) s) !! r = Some (i, Sleeping a)) as Hs by apply lookup_insert_eq.
    pose proof (work_wake r i a _ Hs) as Hw2. unfold wake in Hw2.
    destruct (Nat.ltb_spec a FETCH_RETRIES) as [Hlt|Hge].
    + destruct (IH (S a) (goto r i (Fetching (S a)) (goto r i (Sleeping a) s))) as (s' & Hr & Hd & Hm);
        [lia|lia|apply lookup_insert_eq|].
      exists s'. split; [eapply rtc_l; [exact Hw|]; by eapply rtc_l|].
      rewrite Hd. simpl. rewrite !delete_insert_eq. split; [done|]. exact Hm.
    + assert (k = 0%nat) as -> by (unfold FETCH_RETRIES in *; lia). simpl.
      eexists. split; [eapply rtc_l; [exact Hw|]; by apply rtc_once|]. simpl.
      rewrite delete_delete_eq, delete_insert_eq, lookup_delete_eq, lookup_insert_eq. done.
  - eexists. split; [by apply rtc_once|]. simpl.
    rewrite delete_delete_eq, lookup_delete_eq, lookup_insert_eq. done.
Qed.

(** On an idle actor a request's uninterrupted run is [handle_fetch_blobs]:
    the same reply, the same cache, and no task left behind. *)
Theorem idle_request_runs (attempts : Attempts (E:=E) (Blob:=Blob)) slot tx_hash vh s result m :
  cacher_inv s -> c_channel s = [] -> c_blocked s = [] -> c_tasks s = ∅ ->
  (forall n, outcome (mkBlobSpec tx_hash slot vh) (attempts n (mkBlobSpec tx_hash slot vh))) ->
  handle_fetch_blobs true attempts slot tx_hash vh (c_cache s) = (result, m) ->
  exists s', rtc work (request slot tx_hash vh s) s'
    /\ c_replies s' !! length (c_log s) = Some (res_ok result) /\ c_cache s' = m /\ c_tasks s' = ∅.
Proof.
  intros Hi Hc Hb Ht Ho Hf. unfold request. rewrite Hc, Hb, Ht. simpl.
  set (i := mkRetrieve _ _ _ _). set (s0 := mkCacher _ _ _ _ _ _).
  pose proof (work_receive i [] s0 eq_refl) as W1. set (s1 := receive i [] s0) in *.
  assert (c_tasks s1 !! ci_resp i = Some (i, Lookup)) as Ht1 by apply lookup_insert_eq.
  pose proof (work_lookup _ _ _ Ht1) as W2. unfold look_up in W2.
  unfold handle_fetch_blobs, cacher_fetch_blobs in Hf.
  change (c_cache s1) with (c_cache s) in W2. change (ci_key i) with (slot, tx_hash) in W2.
  destruct (lru_get (slot, tx_hash) (c_cache s)) as [[b|] m1].
  - injection Hf as <- <-. eexists. split; [eapply rtc_l; [exact W1|]; by apply rtc_once|]. simpl.
    by rewrite lookup_insert_eq, delete_insert_eq, delete_empty.
  - set (s2 := goto _ _ _ _) in W2.
    destruct (retry_loop_runs attempts (ci_resp i) i 1 FETCH_RETRIES s2) as (s3 & W3 & Hd & Hr);
      [done|done|unfold FETCH_RETRIES; lia|apply lookup_insert_eq|].
    assert (delete (ci_resp i) (c_tasks s3) = ∅) as Hd0
      by (rewrite Hd; simpl; by rewrite !delete_insert_eq, delete_empty).
    assert (rtc work s0 s3) as W by (eapply rtc_l; [exact W1|]; by eapply rtc_l).
    change (ci_spec i) with (mkBlobSpec tx_hash slot vh) in Hr.
    destruct (retry_loop attempts _ 1 FETCH_RETRIES) as [[b|]|e|]; injection Hf as <- <-.
    2-4: destruct Hr as (Hn & Hm & Hrep); exists s3; rewrite delete_id in Hd0 by done; by split_and!.
    destruct Hr as [Hb3 Hm]. eexists. split; [eapply rtc_r; [exact W|]; by eapply work_insert|].
    simpl. rewrite lookup_insert_eq. split; [done|]. split; [by rewrite Hm|done].
Qed.

(** ** What is answered *)
Context (entries : M -> Z * B256 -> option (Blobs Blob)) `{!LawfulLru M (Blobs Blob) entries}.

(** Blobs that some fetch for the slot and transaction returned. *)
Definition fetched (key : Z * B256) (blobs : Blobs Blob) : Prop :=
  exists version_hashes, outcome (mkBlobSpec key.2 key.1 version_hashes) (Ok blobs).

Record sound (s : Cacher) : Prop := {
  so_cache : forall k b, entries (c_cache s) k = Some b -> fetched k b;
  so_tasks : forall r i b, c_tasks s !! r = Some (i, Fetched b) -> fetched (ci_key i) b;
  so_replies : forall r b, c_replies s !! r = Some (Some b) ->
    exists i, c_log s !! r = Some i /\ fetched (ci_key i) b }.

Lemma goto_sound r i ph s :
  sound s -> (forall b, ph = Fetched b -> fetched (ci_key i) b) -> sound (goto r i ph s).
Proof.
  intros [S1 S2 S3] Hp. constructor; simpl; [done| |done].
  intros q j b. rewrite lookup_insert_Some. intros [[_ [= <- ->]]|[_ Hq]]; eauto.
Qed.

Lemma finish_sound r i ph reply s :
  cacher_inv s -> c_tasks s !! r = Some (i, ph) -> sound s ->
  (forall b, reply = Some b -> fetched (ci_key i) b) -> sound (finish r reply s).
Proof.
  intros Hi Ht [S1 S2 S3] Hr. constructor; simpl; [done|..].
  - intros q j b. rewrite lookup_delete_Some. intros [_ Hq]. eauto.
  - intros q b. rewrite lookup_insert_Some. intros [[<- ->]|[_ Hq]]; [|eauto].
    exists i. split; [by eapply ca_tasks|eauto].
Qed.

Lemma set_cache_sound m s :
  sound s -> (forall k b, entries m k = Some b -> fetched k b) -> sound (set_cache m s).
Proof. intros [S1 S2 S3] Hm. by constructor. Qed.

Lemma work_sound s s' : work s s' -> cacher_inv s -> sound s -> sound s'.
Proof.
  intros Hw Hi Hs. destruct Hw as [i rest s Hc|r i s Ht|r i k [b|e|] s Ht Ho|r i k s Ht|r i b s Ht].
  - destruct Hs as [S1 S2 S3]. constructor; simpl; [done| |done].
    intros q j b. rewrite lookup_insert_Some. intros [[_ [=]]|[_ Hq]]; eauto.
  - unfold look_up. pose proof (lru_get_found (ci_key i) (c_cache s)) as Hf.
    pose proof (lru_get_keeps (ci_key i) (c_cache s)) as Hk.
    destruct (lru_get _ _) as [hit m]. simpl in Hf, Hk. subst hit.
    assert (sound (set_cache m s)) as Hm by (apply set_cache_sound; [done|]; rewrite Hk; apply Hs).
    destruct (entries (c_cache s) (ci_key i)) as [b|] eqn:Hb.
    + eapply finish_sound; [by apply set_cache_inv|done..|]. intros ? [= <-]. by apply Hs.
    + by apply goto_sound.
  - apply goto_sound; [done|]. intros ? [= <-]. by exists (ci_version_hashes i).
  - by apply goto_sound.
  - by eapply finish_sound.
  - unfold wake. destruct (_ <? _)%nat; [by apply goto_sound|by eapply finish_sound].
  - pose proof (so_tasks s Hs _ _ _ Ht) as Hb. eapply finish_sound; [by apply set_cache_inv|done|..].
    + apply set_cache_sound; [done|]. intros k w Hw.
      apply lru_insert_sub in Hw as [[-> ->]|Hw]; [done|by apply Hs].
    + by intros ? [= <-].
Qed.

Lemma request_sound slot tx_hash vh s : sound s -> sound (request slot tx_hash vh s).
Proof.
  intros [S1 S2 S3]. unfold request. destruct (_ && _); constructor; simpl; try done;
    intros r b Hr; destruct (S3 _ _ Hr) as (i & Hl & Hf); exists i; (split; [|done]);
    by apply lookup_app_l_Some.
Qed.

Lemma reachable_sound s s' : rtc step s s' -> cacher_inv s -> sound s -> sound s'.
Proof.
  induction 1 as [|? ? ? [] ? IH]; intros Hi Hs; [done| |]; apply IH.
  - by apply request_inv.
  - by apply request_sound.
  - by eapply work_inv.
  - by eapply work_sound.
Qed.

(** C28: An answer is never another request's: from an empty cache, the blobs sent
    to a caller were returned by a fetch for its slot and transaction, under
    every interleaving of the tasks on the shared cache. *)
Theorem replies_sound cache s r b :
  (forall k, entries cache k = None) -> rtc step (cacher_new cache) s ->
  c_replies s !! r = Some (Some b) ->
  exists i, c_log s !! r = Some i /\ fetched (ci_key i) b.
Proof.
  intros He Hs Hr. apply reachable_sound in Hs; [by apply (so_replies s Hs)|apply cacher_new_inv|].
  constructor; simpl; intros *; [by rewrite He|by rewrite lookup_empty..].
Qed.
End actor.

(** ** Instances: two interleaved requests for one transaction

    The cache is one entry; a fetch either finds the blobs of the transaction
    or fails. *)
Module SampleCache.
Definition cache : Type := option (Z * B256 * Blobs Z).
#[export] Instance one_entry : LruMap cache (Blobs Z) := {
  lru_get k m := (match m with Some (k', b) => if decide (k' = k) then Some b else None | None => None end, m);
  lru_insert k b _ := Some (k, b) }.
Definition entries (m : cache) (k : Z * B256) : option (Blobs Z) := (lru_get k m).1.
#[export] Instance one_entry_lawful : LawfulLru cache (Blobs Z) entries.
Proof.
  constructor; unfold entries; simpl; [done|done|]. intros k v m j w.
  destruct (decide (k = j)) as [->|]; [intros [= ->]; by left|done].
Qed.

Definition outcome (spec : BlobSpec) (r : res (FetchError unit) (Blobs Z)) : Prop :=
  r = Ok (Other [bs_tx_hash spec]) \/ r = Err (MissingSidecar (bs_tx_hash spec)).

Abbreviation Actor := (Cacher (Blob:=Z) (M:=cache)).
Definition one : Actor := request 5 77 [1] (cacher_new None).
Definition two : Actor := request 5 77 [2] one.

Lemma two_reachable : rtc (step outcome) (cacher_new None) two.
Proof. eapply rtc_l; [apply step_request|]. apply rtc_once, step_request. Qed.

(** The second of two requests, after its own fetch. *)
Definition looked_up : Actor :=
  goto 1 (mkRetrieve 1 5 77 [2]) (Fetching 1)
    (receive (mkRetrieve 1 5 77 [2]) [] (receive (mkRetrieve 0 5 77 [1]) [mkRetrieve 1 5 77 [2]] two)).
Definition stored : Actor :=
  finish 1 (Some (Other [77]))
    (set_cache (Some (5, 77, Other [77])) (goto 1 (mkRetrieve 1 5 77 [2]) (Fetched (Other [77])) looked_up)).

Lemma stored_reachable : rtc (step outcome) (cacher_new None) stored.
Proof.
  etrans; [apply two_reachable|].
  eapply rtc_l; [apply step_work, (work_receive outcome (mkRetrieve 0 5 77 [1]) [mkRetrieve 1 5 77 [2]]); done|].
  eapply rtc_l; [apply step_work, (work_receive outcome (mkRetrieve 1 5 77 [2]) []); done|].
  eapply rtc_l; [apply step_work, (work_lookup outcome 1 (mkRetrieve 1 5 77 [2])); done|].
  eapply rtc_l.
  { apply step_work, (work_fetch outcome 1 (mkRetrieve 1 5 77 [2]) 1 (Ok (Other [77]))); [done|by left]. }
  eapply rtc_l; [|apply rtc_refl].
  apply step_work. exact (work_insert outcome 1 (mkRetrieve 1 5 77 [2]) (Other [77])
    (goto 1 (mkRetrieve 1 5 77 [2]) (Fetched (Other [77])) looked_up) eq_refl).
Qed.

Lemma outcome_total spec : exists r, outcome spec r.
Proof. eexists. by left. Qed.
End SampleCache.
Import SampleCache.

Lemma requests_settled_witness :
  (forall n s', nsteps (work outcome) n two s' -> (n <= 20)%nat)
  /\ (forall s', rtc (work outcome) two s' -> (forall s'', ~ work outcome s' s'') ->
       is_Some (c_replies s' !! 0%nat) /\ is_Some (c_replies s' !! 1%nat)).
Proof.
  destruct (requests_settled outcome None two outcome_total two_reachable) as [H1 H2].
  split; [exact H1|]. intros s' Hs Hrest. split; apply (H2 s' Hs Hrest); cbn; lia.
Defined.

Lemma replies_sound_witness :
  exists i, c_log stored !! 1%nat = Some i /\ fetched outcome (ci_key i) (Other [77]).
Proof.
  apply (replies_sound outcome entries None stored 1); [done|exact stored_reachable|vm_compute; reflexivity].
Defined.
