(* ===== verification/Metrics.v ===== *)
(** * Metrics ([crates/block-processor], [crates/node] and [crates/host-reth], [src/metrics.rs])

    The recorder of the [metrics] crate is third-party: a crate's metrics are
    the sequence of calls it makes to it.  Each crate describes its metrics
    once, before the first value it emits.  The block processor derives its
    values from the executed block, by a binary search for the first system
    transaction and a match that panics on any other kind of transaction. *)

From Stdlib Require Import SpecFloat.
From S2P Require Import Prelude HostTypes Primitives Float64.
#[local] Open Scope string_scope.

(** ** Calls to the recorder *)
Inductive MetricKind := Counter | Histogram | Gauge.
Inductive MetricOp :=
| Describe (kind : MetricKind) (name : string)
| Increment (name : string) (value : Z)
| RecordValue (name : string) (value : f64)
| SetGauge (name : string) (value : f64).

(** What one crate has emitted, and whether its [DESCRIBE] cell was forced. *)
Record Recorder := mkRecorder { described : bool; emitted : list MetricOp }.
Definition Recorder_new : Recorder := mkRecorder false [].

(** Every accessor forces the descriptions and then makes its call. *)
Definition emit (describe : list MetricOp) (op : MetricOp) (r : Recorder) : Recorder :=
  mkRecorder true ((emitted r ++ (if described r then [] else describe)) ++ [op])%list.

Fixpoint emit_all (describe ops : list MetricOp) (r : Recorder) : Recorder :=
  match ops with [] => r | op :: ops => emit_all describe ops (emit describe op r) end.

(** The total a counter shows. *)
Definition increment_of (name : string) (op : MetricOp) : option Z :=
  match op with Increment n v => if decide (n = name) then Some v else None | _ => None end.
Definition counter (name : string) (r : Recorder) : Z :=
  foldr Z.add 0 (omap (increment_of name) (emitted r)).

Lemma sum_app (xs ys : list Z) : foldr Z.add 0 (xs ++ ys)%list = foldr Z.add 0 xs + foldr Z.add 0 ys.
Proof. induction xs as [|x xs IH]; simpl; [done|]. rewrite IH. lia. Qed.

(** Descriptions do not count. *)
Definition descriptions (describe : list MetricOp) : Prop :=
  forall name, omap (increment_of name) describe = [].

Lemma counter_emit name describe op r :
  descriptions describe ->
  counter name (emit describe op r) = counter name r + default 0 (increment_of name op).
Proof.
  intros Hd. unfold counter, emit. cbn [emitted]. rewrite !omap_app, !sum_app.
  assert (omap (increment_of name) (if described r then [] else describe) = []) as ->
    by (destruct (described r); [done|apply Hd]).
  csimpl. destruct (increment_of name op); simpl; lia.
Qed.

Lemma emit_all_log describe ops r :
  ops <> [] ->
  emit_all describe ops r
  = mkRecorder true (emitted r ++ (if described r then [] else describe) ++ ops)%list.
Proof.
  revert r. induction ops as [|op ops IH]; intros r Hne; [done|]. cbn [emit_all].
  destruct ops as [|op' ops]; [by rewrite app_assoc|].
  rewrite IH by done. unfold emit. cbn. by rewrite <- !app_assoc.
Qed.

Lemma increment_here name v : increment_of name (Increment name v) = Some v.
Proof. simpl. by rewrite decide_True. Qed.
Lemma increment_other name name' v : name' <> name -> increment_of name (Increment name' v) = None.
Proof. intros Hn. simpl. by rewrite decide_False. Qed.

(** Computes the increments of calls to counters with concrete names. *)
Ltac count :=
  repeat first
    [ rewrite increment_here
    | rewrite increment_other by (let H := fresh in intros H; vm_compute in H; discriminate H) ];
  cbn [increment_of from_option id].

(** ** Binary search: [slice::partition_point] *)

(** The halving loop of [binary_search_by]; [pred] is [Less] and its negation
    [Greater]. The fuel is the length of the slice. *)
Section search.
Context {A : Type} (pred : A -> bool).

Definition pred_at (l : list A) (i : nat) : bool := default false (pred <$> l !! i).

Fixpoint search (fuel : nat) (l : list A) (base size : nat) : nat :=
  match fuel with
  | O => base
  | S fuel =>
      if (size <=? 1)%nat then base
      else
        let half := (size / 2)%nat in
        let mid := (base + half)%nat in
        search fuel l (if pred_at l mid then mid else base) (size - half)
  end.

Definition partition_point (l : list A) : nat :=
  match l with
  | [] => 0%nat
  | _ => let base := search (length l) l 0 (length l) in
         (base + if pred_at l base then 1 else 0)%nat
  end.

(** The loop keeps the boundary [n] in the window [base, base + size]: all
    before the window satisfy the predicate and none after it. *)
Lemma search_window fuel l n base size :
  (forall i, (i < n)%nat -> pred_at l i = true) ->
  (forall i, (n <= i)%nat -> pred_at l i = false) ->
  (1 <= size <= S fuel)%nat -> (base <= n <= base + size)%nat ->
  let b := search fuel l base size in (b <= n <= b + 1)%nat.
Proof.
  intros Hlo Hhi. revert base size. induction fuel as [|fuel IH]; intros base size Hs Hn; cbn [search]; [lia|].
  destruct (Nat.leb_spec size 1); [lia|].
  assert (1 <= size / 2 /\ size / 2 < size)%nat as [Hh1 Hh2].
  { split; [by apply Nat.div_le_lower_bound; lia|apply Nat.div_lt; lia]. }
  assert (2 * (size / 2) <= size)%nat as Hdiv by (apply Nat.Div0.mul_div_le).
  destruct (pred_at l (base + size / 2)) eqn:Hm.
  - assert (base + size / 2 < n)%nat by (destruct (Nat.le_gt_cases n (base + size / 2)) as [Hle|]; [|done];
      by rewrite (Hhi _ Hle) in Hm).
    apply IH; lia.
  - assert (n <= base + size / 2)%nat by (destruct (Nat.le_gt_cases n (base + size / 2)) as [|Hlt]; [done|];
      by rewrite (Hlo _ Hlt) in Hm).
    apply IH; lia.
Qed.

(** On a partitioned slice the search finds the boundary. *)
Lemma partition_point_split l1 l2 :
  Forall (fun a => pred a = true) l1 -> Forall (fun a => pred a = false) l2 ->
  partition_point (l1 ++ l2) = length l1.
Proof.
  intros H1 H2. set (l := (l1 ++ l2)%list).
  assert (forall i, (i < length l1)%nat -> pred_at l i = true) as Hlo.
  { intros i Hi. unfold pred_at, l. rewrite lookup_app_l by done.
    destruct (lookup_lt_is_Some_2 l1 i Hi) as [a Ha]. rewrite Ha. exact (Forall_lookup_1 _ _ _ _ H1 Ha). }
  assert (forall i, (length l1 <= i)%nat -> pred_at l i = false) as Hhi.
  { intros i Hi. unfold pred_at, l. rewrite lookup_app_r by done.
    destruct (l2 !! (i - length l1)%nat) as [a|] eqn:Ha; [|done]. exact (Forall_lookup_1 _ _ _ _ H2 Ha). }
  assert (length l = length l1 + length l2)%nat as Hlen by apply length_app.
  unfold partition_point. destruct l as [|a l'] eqn:Hl; [simpl in Hlen; lia|].
  rewrite <- Hl in *. assert (1 <= length l)%nat by (rewrite Hl; simpl; lia).
  set (b := search _ _ _ _).
  assert (b <= length l1 <= b + 1)%nat as Hb by (apply search_window; (done || lia)).
  destruct (Nat.eq_dec b (length l1)) as [Heq|].
  - rewrite Hhi by lia. lia.
  - rewrite Hlo by lia. lia.
Qed.
End search.

(** ** The node ([crates/node/src/metrics.rs]) *)
Definition NOTIFICATION_RECEIVED : string := "signet.node.notification_received".
Definition REORGS_RECEIVED : string := "signet.node.reorgs_received".
Definition NOTIFICATIONS_PROCESSED : string := "signet.node.notifications_processed".
Definition REORGS_PROCESSED : string := "signet.node.reorgs_processed".

Definition NODE_DESCRIBE : list MetricOp :=
  Describe Counter <$> [NOTIFICATION_RECEIVED; REORGS_RECEIVED; NOTIFICATIONS_PROCESSED; REORGS_PROCESSED].

Definition inc_notifications_received : Recorder -> Recorder :=
  emit NODE_DESCRIBE (Increment NOTIFICATION_RECEIVED 1).
Definition inc_reorgs_received : Recorder -> Recorder :=
  emit NODE_DESCRIBE (Increment REORGS_RECEIVED 1).
Definition inc_notifications_processed : Recorder -> Recorder :=
  emit NODE_DESCRIBE (Increment NOTIFICATIONS_PROCESSED 1).
Definition inc_reorgs_processed : Recorder -> Recorder :=
  emit NODE_DESCRIBE (Increment REORGS_PROCESSED 1).

Definition has_revert {C} (notification : HostNotification C) : bool :=
  match revert_range notification with Some _ => true | None => false end.

Definition record_notification_received {C} (notification : HostNotification C) (r : Recorder) : Recorder :=
  let r := inc_notifications_received r in
  if has_revert notification then inc_reorgs_received r else r.

Definition record_notification_processed {C} (notification : HostNotification C) (r : Recorder) : Recorder :=
  let r := inc_notifications_processed r in
  if has_revert notification then inc_reorgs_processed r else r.

Lemma node_descriptions : descriptions NODE_DESCRIBE.
Proof. by intros name. Qed.

(** ** The Reth host ([crates/host-reth/src/metrics.rs]) *)
Definition RETH_BLOCKS_FETCHED : string := "host_reth.db_backfill.blocks_fetched".
Definition BATCHES_COMPLETED : string := "host_reth.db_backfill.batches_completed".
Definition BATCH_DURATION : string := "host_reth.db_backfill.batch_duration_ms".
Definition CURSOR_POSITION : string := "host_reth.db_backfill.cursor".

Definition RETH_DESCRIBE : list MetricOp :=
  [Describe Counter RETH_BLOCKS_FETCHED; Describe Counter BATCHES_COMPLETED;
   Describe Histogram BATCH_DURATION; Describe Gauge CURSOR_POSITION].

(** A [Duration], and its milliseconds as the code computes them. *)
Record Duration := mkDuration { secs : Z; nanos : Z }.
Definition f64_add (a b : f64) : f64 := SFadd prec emax a b.
Definition as_secs_f64 (d : Duration) : f64 :=
  f64_add (f64_of_int (secs d)) (f64_div (f64_of_int (nanos d)) (f64_of_int 1000000000)).
Definition millis_f64 (d : Duration) : f64 := f64_mul (as_secs_f64 d) (f64_of_int 1000).
Definition as_millis (d : Duration) : Z := secs d * 1000 + nanos d / 1000000.

Definition record_backfill_batch (blocks : Z) (duration : Duration) : Recorder -> Recorder :=
  emit_all RETH_DESCRIBE
    [Increment RETH_BLOCKS_FETCHED blocks; Increment BATCHES_COMPLETED 1;
     RecordValue BATCH_DURATION (millis_f64 duration)].

Definition set_backfill_cursor (position : Z) : Recorder -> Recorder :=
  emit RETH_DESCRIBE (SetGauge CURSOR_POSITION (f64_of_int position)).

Lemma reth_descriptions : descriptions RETH_DESCRIBE.
Proof. by intros name. Qed.

(** ** The block processor ([crates/block-processor/src/metrics.rs]) *)
Definition BUILDER_BLOCKS_EXTRACTED : string := "signet.block_processor.builder_blocks.extracted".
Definition BLOCKS_PROCESSED : string := "signet.block_processor.processed".
Definition TRANSACTIONS_PROCESSED : string := "signet.block_processor.transactions_processed".
Definition HOST_WITHOUT_BUILDER_BLOCK : string := "signet.block_processor.host_without_builder_block".
Definition TRANSACTIONS_PER_BUILDER_BLOCK : string := "signet.block_processor.txns_per_builder_block".
Definition TRANSACT_EXTRACTS : string := "signet.block_processor.transact_events.extracted".
Definition ENTER_EXTRACTS : string := "signet.block_processor.enter_events.extracted".
Definition ENTER_TOKEN_EXTRACTS : string := "signet.block_processor.enter_token_events.extracted".
Definition ENTER_PROCESSED : string := "signet.block_processor.enter_events.processed".
Definition ENTER_TOKEN_PROCESSED : string := "signet.block_processor.enter_token_events.processed".
Definition TRANSACT_PROCESSED : string := "signet.block_processor.transact_events.processed".
Definition PROCESSING_TIME : string := "signet.block_processor.processing.time".
Definition BLOCK_GAS_USED : string := "signet.block_processor.block.gas_used".

Definition BLOCK_DESCRIBE : list MetricOp :=
  (Describe Counter <$> [BUILDER_BLOCKS_EXTRACTED; BLOCKS_PROCESSED; TRANSACTIONS_PROCESSED;
     HOST_WITHOUT_BUILDER_BLOCK])
  ++ (Describe Histogram <$> [TRANSACTIONS_PER_BUILDER_BLOCK; TRANSACT_EXTRACTS; ENTER_EXTRACTS;
     ENTER_TOKEN_EXTRACTS; ENTER_PROCESSED; ENTER_TOKEN_PROCESSED; TRANSACT_PROCESSED;
     PROCESSING_TIME; BLOCK_GAS_USED]).

Definition inc (name : string) (value : Z) : Recorder -> Recorder :=
  emit BLOCK_DESCRIBE (Increment name value).
(** [record(value as f64)]. *)
Definition record (name : string) (value : Z) : Recorder -> Recorder :=
  emit BLOCK_DESCRIBE (RecordValue name (f64_of_int value)).

Definition inc_blocks_extracted : Recorder -> Recorder := inc BUILDER_BLOCKS_EXTRACTED 1.
Definition inc_blocks_processed : Recorder -> Recorder := inc BLOCKS_PROCESSED 1.
Definition inc_transactions_processed (value : Z) : Recorder -> Recorder := inc TRANSACTIONS_PROCESSED value.
Definition inc_host_without_builder_block : Recorder -> Recorder := inc HOST_WITHOUT_BUILDER_BLOCK 1.
Definition record_transactions_per_builder_block : Z -> Recorder -> Recorder :=
  record TRANSACTIONS_PER_BUILDER_BLOCK.
Definition record_transact_extracts : Z -> Recorder -> Recorder := record TRANSACT_EXTRACTS.
Definition record_enter_extracts : Z -> Recorder -> Recorder := record ENTER_EXTRACTS.
Definition record_enter_token_events : Z -> Recorder -> Recorder := record ENTER_TOKEN_EXTRACTS.
Definition record_enters_processed : Z -> Recorder -> Recorder := record ENTER_PROCESSED.
Definition record_enter_token_processed : Z -> Recorder -> Recorder := record ENTER_TOKEN_PROCESSED.
Definition record_transacts_processed : Z -> Recorder -> Recorder := record TRANSACT_PROCESSED.
Definition record_processing_time (elapsed : Duration) : Recorder -> Recorder :=
  record PROCESSING_TIME (as_millis elapsed).
Definition record_block_gas_used : Z -> Recorder -> Recorder := record BLOCK_GAS_USED.

(** [record_extracts]: the numbers of events, and whether the host block has a
    rollup block. *)
Definition record_extracts (enters enter_tokens transacts : nat) (submitted : bool) (r : Recorder) : Recorder :=
  let r := record_enter_extracts (Z.of_nat enters) r in
  let r := record_enter_token_events (Z.of_nat enter_tokens) r in
  let r := record_transact_extracts (Z.of_nat transacts) r in
  if submitted then inc_blocks_extracted r else inc_host_without_builder_block r.

(** What the SDK reads off a transaction's signature: [None] for a user's
    transaction; the enumeration is not exhaustive. *)
Inductive MagicSigInfo := MagicEnter | MagicEnterToken | MagicTransact | MagicOther.
Class Magic (Tx : Type) := { magic_sig : Tx -> option MagicSigInfo }.

Section block.
Context {Tx : Type} `{!Magic Tx}.

Definition is_user (tx : Tx) : bool := match magic_sig tx with None => true | Some _ => false end.

(** The counting loop: enters, token enters, transacts; any other transaction
    is [unreachable!]. *)
Fixpoint count_system {E} (txns : list Tx) (enters enter_tokens transacts : Z) : res E (Z * Z * Z) :=
  match txns with
  | [] => Ok (enters, enter_tokens, transacts)
  | tx :: txns =>
      match magic_sig tx with
      | Some MagicEnter => count_system txns (enters + 1) enter_tokens transacts
      | Some MagicEnterToken => count_system txns enters (enter_tokens + 1) transacts
      | Some MagicTransact => count_system txns enters enter_tokens (transacts + 1)
      | Some MagicOther | None => Panic
      end
  end.

Definition record_block_result {E} (elapsed : Duration) (txns : list Tx) (gas_used : Z) : st Recorder E unit :=
  _ ← st_modify inc_blocks_processed;
  _ ← st_modify (inc_transactions_processed (Z.of_nat (length txns)));
  _ ← st_modify (record_processing_time elapsed);
  let txns_processed := partition_point is_user txns in
  let sys_txns := drop txns_processed txns in
  '(enters, enter_tokens, transacts) ← st_lift (count_system sys_txns 0 0 0);
  _ ← st_modify (record_block_gas_used gas_used);
  _ ← st_modify (record_transactions_per_builder_block (Z.of_nat txns_processed));
  _ ← st_modify (record_enters_processed enters);
  _ ← st_modify (record_enter_token_processed enter_tokens);
  st_modify (record_transacts_processed transacts).

(** ** Lemmas *)

(** A system transaction the metrics know. *)
Definition is_system (tx : Tx) : bool :=
  match magic_sig tx with Some (MagicEnter | MagicEnterToken | MagicTransact) => true | _ => false end.
Definition of_kind (k : MagicSigInfo) (tx : Tx) : bool :=
  match magic_sig tx, k with
  | Some MagicEnter, MagicEnter | Some MagicEnterToken, MagicEnterToken
  | Some MagicTransact, MagicTransact => true
  | _, _ => false
  end.
Definition number_of (k : MagicSigInfo) (txns : list Tx) : Z :=
  Z.of_nat (length (filter (fun tx => of_kind k tx = true) txns)).

Lemma number_of_cons k tx txns :
  number_of k (tx :: txns) = (if of_kind k tx then 1 else 0) + number_of k txns.
Proof.
  unfold number_of. destruct (of_kind k tx) eqn:Hk.
  - rewrite filter_cons_True by done. cbn [length]. lia.
  - rewrite filter_cons_False by (by rewrite Hk). done.
Qed.

(** The loop counts exactly, and panics exactly when there is a transaction of
    another kind. *)
Lemma count_system_spec {E} txns a b c :
  count_system (E:=E) txns a b c
  = if forallb is_system txns
    then Ok (a + number_of MagicEnter txns, b + number_of MagicEnterToken txns,
             c + number_of MagicTransact txns)
    else Panic.
Proof.
  revert a b c. induction txns as [|tx txns IH]; intros a b c.
  { cbn. unfold number_of. simpl. by rewrite !Z.add_0_r. }
  cbn [count_system forallb]. rewrite !number_of_cons. unfold is_system, of_kind.
  destruct (magic_sig tx) as [[]|]; simpl; try done;
    rewrite IH; destruct (forallb _ _); try done; f_equal; repeat apply injective_projections; simpl; lia.
Qed.

(** What [record_block_result] emits for a block of user transactions followed
    by system transactions. *)
Definition block_result_ops (elapsed : Duration) (user sys : list Tx) (gas_used : Z) : list MetricOp :=
  [Increment BLOCKS_PROCESSED 1;
   Increment TRANSACTIONS_PROCESSED (Z.of_nat (length user + length sys));
   RecordValue PROCESSING_TIME (f64_of_int (as_millis elapsed));
   RecordValue BLOCK_GAS_USED (f64_of_int gas_used);
   RecordValue TRANSACTIONS_PER_BUILDER_BLOCK (f64_of_int (Z.of_nat (length user)));
   RecordValue ENTER_PROCESSED (f64_of_int (number_of MagicEnter sys));
   RecordValue ENTER_TOKEN_PROCESSED (f64_of_int (number_of MagicEnterToken sys));
   RecordValue TRANSACT_PROCESSED (f64_of_int (number_of MagicTransact sys))].

Lemma record_block_result_split {E} elapsed user sys gas_used r :
  Forall (fun tx => is_user tx = true) user -> Forall (fun tx => is_user tx = false) sys ->
  record_block_result (E:=E) elapsed (user ++ sys) gas_used r
  = if forallb is_system sys
    then (Ok tt, emit_all BLOCK_DESCRIBE (block_result_ops elapsed user sys gas_used) r)
    else (Panic, emit_all BLOCK_DESCRIBE (take 3 (block_result_ops elapsed user sys gas_used)) r).
Proof.
  intros Hu Hs. unfold record_block_result. rewrite (partition_point_split _ _ _ Hu Hs), drop_app_length.
  unfold mbind, st_bind, st_modify, st_lift. rewrite count_system_spec, length_app.
  by destruct (forallb is_system sys).
Qed.
End block.
