(* ===== verification/HostRpcMetrics.v ===== *)
(** * Metrics of the RPC host ([crates/host-rpc/src/metrics.rs])

    The operations of [HostRpc] with the calls to the recorder that the source
    makes in them.  A small program logic, [metered], shows at once that the
    recorder never changes what the notifier does and how far its counters
    move; blocks of a batch are read one after the other, as in [HostRpc]. *)

From S2P Require Import Prelude HostTypes Primitives Float64 Metrics HostRpc.

#[local] Open Scope string_scope.
Definition BLOCKS_FETCHED : string := "host_rpc.blocks_fetched".
Definition REORGS : string := "host_rpc.reorgs".
Definition WALK_EXHAUSTED : string := "host_rpc.walk_exhausted".
Definition BACKFILL_BATCHES : string := "host_rpc.backfill_batches".
Definition TAG_REFRESHES : string := "host_rpc.tag_refreshes".
Definition STALE_HINTS : string := "host_rpc.stale_hints".
Definition RPC_ERRORS : string := "host_rpc.rpc_errors".
Definition HEADERS_COALESCED : string := "host_rpc.headers_coalesced".
Definition WALK_CHAIN_DURATION : string := "host_rpc.walk_chain.duration_ms".
Definition FETCH_BLOCK_DURATION : string := "host_rpc.fetch_block.duration_ms".
Definition BACKFILL_BATCH_DURATION : string := "host_rpc.backfill_batch.duration_ms".
Definition HANDLE_NEW_HEAD_DURATION : string := "host_rpc.handle_new_head.duration_ms".
Definition REORG_DEPTH : string := "host_rpc.reorg.depth".
Definition CHAIN_VIEW_LEN : string := "host_rpc.chain_view.len".
Definition TIP_NUMBER : string := "host_rpc.tip.number".

Definition HOST_DESCRIBE : list MetricOp :=
  ((Describe Counter <$> [BLOCKS_FETCHED; REORGS; WALK_EXHAUSTED; BACKFILL_BATCHES; TAG_REFRESHES;
      STALE_HINTS; RPC_ERRORS; HEADERS_COALESCED])
   ++ (Describe Histogram <$> [WALK_CHAIN_DURATION; FETCH_BLOCK_DURATION; BACKFILL_BATCH_DURATION;
      HANDLE_NEW_HEAD_DURATION; REORG_DEPTH])
   ++ (Describe Gauge <$> [CHAIN_VIEW_LEN; TIP_NUMBER]))%list.

Lemma host_descriptions : descriptions HOST_DESCRIBE.
Proof. by intros name. Qed.

(** The two values of the [mode] label; a labelled counter is a series of its
    own. *)
Inductive FetchMode := Frontfill | Backfill.
Definition fetched_series (mode : FetchMode) : string :=
  match mode with
  | Frontfill => BLOCKS_FETCHED ++ "{mode=frontfill}"
  | Backfill => BLOCKS_FETCHED ++ "{mode=backfill}"
  end.

#[local] Close Scope string_scope.

(** ** The accessors *)
Definition host_emit : MetricOp -> Recorder -> Recorder := emit HOST_DESCRIBE.
Definition record_millis (name : string) (d : Duration) : Recorder -> Recorder :=
  host_emit (RecordValue name (millis_f64 d)).

Definition record_walk_duration : Duration -> Recorder -> Recorder := record_millis WALK_CHAIN_DURATION.
Definition inc_walk_exhausted : Recorder -> Recorder := host_emit (Increment WALK_EXHAUSTED 1).
Definition record_fetch_block_duration : Duration -> Recorder -> Recorder := record_millis FETCH_BLOCK_DURATION.
Definition inc_blocks_fetched (count : Z) (mode : FetchMode) : Recorder -> Recorder :=
  host_emit (Increment (fetched_series mode) count).
Definition inc_reorgs (depth : Z) (r : Recorder) : Recorder :=
  host_emit (RecordValue REORG_DEPTH (f64_of_int depth)) (host_emit (Increment REORGS 1) r).
Definition inc_stale_hints : Recorder -> Recorder := host_emit (Increment STALE_HINTS 1).
Definition inc_rpc_errors : Recorder -> Recorder := host_emit (Increment RPC_ERRORS 1).
Definition record_backfill_batch (d : Duration) (r : Recorder) : Recorder :=
  record_millis BACKFILL_BATCH_DURATION d (host_emit (Increment BACKFILL_BATCHES 1) r).
Definition record_handle_new_head_duration : Duration -> Recorder -> Recorder :=
  record_millis HANDLE_NEW_HEAD_DURATION.
Definition inc_tag_refreshes : Recorder -> Recorder := host_emit (Increment TAG_REFRESHES 1).
Definition set_chain_view_len (len : nat) : Recorder -> Recorder :=
  host_emit (SetGauge CHAIN_VIEW_LEN (f64_of_int (Z.of_nat len))).
Definition set_tip (number : Z) : Recorder -> Recorder := host_emit (SetGauge TIP_NUMBER (f64_of_int number)).
Definition inc_headers_coalesced (count : Z) : Recorder -> Recorder :=
  host_emit (Increment HEADERS_COALESCED count).

(** [Latest::poll_next] records the headers it skips. *)
Definition latest_poll_next_metered {A} (inner : list (Poll A)) (r : Recorder) :
    Poll A * list (Poll A) * Recorder :=
  let '(answer, skipped, inner) := latest_poll_next inner in
  (answer, inner, if 0 <? skipped then inc_headers_coalesced skipped r else r).

(** ** The operations with their metrics *)
Section metered.
Context {P PE PB PR T R : Type} `{Provider P PE PB PR T R, HeaderOps}.
Abbreviation Error := (RpcHostError PE).
Abbreviation NM := (st (RpcHostNotifier * P) Error).
Abbreviation MM := (st (RpcHostNotifier * P * Recorder) Error).
Abbreviation Segment := (RpcChainSegment T R).

(** What [start.elapsed()] reads when the recorder has seen [k] calls. *)
Variable elapsed : nat -> Duration.

Definition silent {A} (k : NM A) : MM A := fun '(w, r) => let '(a, w) := k w in (a, (w, r)).
Definition meter (f : Recorder -> Recorder) : MM unit := fun '(w, r) => (Ok tt, (w, f r)).
Definition timed (f : Duration -> Recorder -> Recorder) : MM unit :=
  meter (fun r => f (elapsed (length (emitted r))) r).
(** [Result::inspect_err], with what else runs before the error is returned. *)
Definition on_err {A} (m : MM A) (f : MM unit) : MM A := fun s =>
  match m s with
  | (Err e, s) => (Err e, (f s).2)
  | other => other
  end.

Definition fetch_block_by_hash_metered (hash : B256) : MM (RpcBlock T R) :=
  b ← silent (provider (fetch_block_by_hash hash)); _ ← timed record_fetch_block_duration; mret b.
Definition fetch_blocks_by_hash_metered (hashes : list (Z * B256)) : MM (list (RpcBlock T R)) :=
  st_mapM (fun '(_, hash) => fetch_block_by_hash_metered hash) hashes.
Definition fetch_block_by_number_metered (number : Z) : MM (RpcBlock T R) :=
  b ← silent (provider (fetch_block_by_number number)); _ ← timed record_fetch_block_duration; mret b.
Definition fetch_range_metered (from to : Z) : MM (list (RpcBlock T R)) :=
  if to <? from then mret [] else st_mapM fetch_block_by_number_metered (range_incl from to).

(** Every return of [walk_chain] with a result records its time, and the two
    that give up count it. *)
Definition walk_chain_metered (n : RpcHostNotifier) (start_hash : B256) : MM WalkResult :=
  walk ← silent (provider (walk_chain n start_hash));
  _ ← (match walk with Exhausted => meter inc_walk_exhausted | _ => mret tt end);
  _ ← timed record_walk_duration; mret walk.

Definition maybe_refresh_tags_metered (timestamp : Z) : MM unit :=
  n ← silent this;
  epoch ← silent (st_lift (epoch_of (slot_seconds n) (genesis_timestamp n) timestamp));
  if decide (last_tag_epoch n = Some epoch) then mret tt
  else
    safe ← silent (provider (rpc (get_block_by_number Safe)));
    finalized ← silent (provider (rpc (get_block_by_number Finalized)));
    _ ← silent (update (with_tags ((fun b => h_number (rh_inner b)) <$> safe)
                         ((fun b => h_number (rh_inner b)) <$> finalized) (Some epoch)));
    meter inc_tag_refreshes.

Definition walk_from_hint_metered (n : RpcHostNotifier) (hint_hash : B256) : MM WalkResult := fun s =>
  match walk_chain_metered n hint_hash s with
  | (Err (MissingBlockByHash _), s) =>
      (_ ← meter inc_stale_hints;
       found ← silent (provider (rpc (get_block_by_number Latest)));
       latest ← silent (st_lift (ok_or found (MissingBlock Latest)));
       on_err (walk_chain_metered n (rh_hash latest)) (meter inc_rpc_errors)) s
  | (Err e, s) => (Err e, (meter inc_rpc_errors s).2)
  | other => other
  end.

(** The gauges at the end of a head or of a batch. *)
Definition update_gauges : MM unit :=
  n ← silent this;
  _ ← (match view_tip (chain_view n) with Some (tip_num, _) => meter (set_tip tip_num) | None => mret tt end);
  meter (set_chain_view_len (length (chain_view n))).

Definition handle_new_head_metered (header : RpcHeader) : MM (option (HostNotification Segment)) :=
  n ← silent this;
  walk ← walk_from_hint_metered n (rh_hash header);
  let finish (kind : HostNotificationKind Segment) :=
    _ ← maybe_refresh_tags_metered (h_timestamp (rh_inner header));
    _ ← update_gauges;
    _ ← timed record_handle_new_head_duration;
    n ← silent this;
    mret (Some (notification kind n)) in
  match walk with
  | AlreadySeen => _ ← timed record_handle_new_head_duration; mret None
  | Exhausted =>
      _ ← silent (update (fun n =>
        with_tags (cached_safe n) (cached_finalized n) None
          (with_backfill_from ((fun e => add64 e.1 1) <$> last_emitted n) (with_view [] n))));
      _ ← timed record_handle_new_head_duration; mret None
  | Advance new_chain =>
      blocks ← fetch_blocks_by_hash_metered new_chain;
      _ ← silent (update (fun n => with_last_emitted (last new_chain)
                    (with_view (extend_view (buffer_capacity n) new_chain (chain_view n)) n)));
      _ ← meter (inc_blocks_fetched (Z.of_nat (length new_chain)) Frontfill);
      finish (ChainCommitted (mkSegment blocks))
  | Reorg fork_number old_tip new_chain =>
      blocks ← fetch_blocks_by_hash_metered new_chain;
      _ ← silent (update (fun n => with_last_emitted (last new_chain)
            (with_view (reorg_view (buffer_capacity n) fork_number new_chain (chain_view n)) n)));
      _ ← meter (inc_blocks_fetched (Z.of_nat (length new_chain)) Frontfill);
      _ ← meter (inc_reorgs (add64 (sat_sub old_tip fork_number) 1));
      old ← silent (st_lift (RevertRange_new fork_number old_tip));
      finish (ChainReorged old (mkSegment blocks))
  end.

Definition drain_backfill_metered : MM (option (HostNotification Segment)) :=
  n ← silent this;
  match backfill_from n with
  | None => mret None
  | Some from =>
      tip ← on_err (silent (provider (rpc get_block_number))) (meter inc_rpc_errors);
      match Z.compare from (sat_add tip 1) with
      | Eq => _ ← silent (update (with_backfill_from None)); mret None
      | Gt => silent (st_fail BackfillContinuityBreak)
      | Lt =>
          let to := batch_end n from tip in
          blocks ← on_err (fetch_range_metered from to)
                     (_ ← meter inc_rpc_errors; timed record_backfill_batch);
          if match last_emitted n, head blocks with
             | Some (_, expected_parent), Some first =>
                 negb (block_parent_hash first =? expected_parent)
             | _, _ => false
             end
          then _ ← silent (update (with_view [])); _ ← timed record_backfill_batch;
               silent (st_fail BackfillContinuityBreak)
          else
            let view_entries := (fun b => (block_number b, block_hash b)) <$> blocks in
            let backfill_done := effective_ceiling n from tip <=? to in
            _ ← silent (update (fun n =>
              with_backfill_from (if backfill_done then None else Some (add64 to 1))
                (with_last_emitted
                   (match last view_entries with Some e => Some e | None => last_emitted n end)
                   (with_view (extend_view (buffer_capacity n) view_entries (chain_view n)) n))));
            _ ← on_err (match last blocks with
                        | Some b => maybe_refresh_tags_metered (h_timestamp (b_header b))
                        | None => mret tt
                        end) (timed record_backfill_batch);
            _ ← meter (inc_blocks_fetched (Z.of_nat (length blocks)) Backfill);
            _ ← timed record_backfill_batch;
            _ ← update_gauges;
            n ← silent this;
            mret (Some (notification (ChainCommitted (mkSegment blocks)) n))
      end
  end.

Fixpoint next_notification_metered (headers : list RpcHeader) (s : RpcHostNotifier * P * Recorder) :
    res Error (option (HostNotification Segment)) * list RpcHeader * (RpcHostNotifier * P * Recorder) :=
  match drain_backfill_metered s with
  | (Ok None, s) =>
      match headers with
      | [] => (Ok None, [], s)
      | header :: rest =>
          match handle_new_head_metered header s with
          | (Ok None, s) => next_notification_metered rest s
          | (r, s) => (r, rest, s)
          end
      end
  | (r, s) => (r, headers, s)
  end.

(** ** The program logic

    The counters of interest: blocks fetched in either mode, reorgs, errors. *)
Definition fetched (r : Recorder) : Z :=
  counter (fetched_series Frontfill) r + counter (fetched_series Backfill) r.
Definition reorgs (r : Recorder) : Z := counter REORGS r.
Definition errors (r : Recorder) : Z := counter RPC_ERRORS r.

(** Recorder calls that move the counters by [x], [y] and [e]. *)
Definition moves (f : Recorder -> Recorder) (x y e : Z) : Prop :=
  forall r, fetched (f r) = fetched r + x /\ reorgs (f r) = reorgs r + y /\ errors (f r) = errors r + e.
Definition calls (f : MM unit) (x y e : Z) : Prop :=
  forall w r, exists g, f (w, r) = (Ok tt, (w, g r)) /\ moves g x y e.

(** [m] does what [k] does, and on success moves the counters as [Q] says and
    no error was counted; on failure at most [q] errors were. *)
Definition metered {A} (q : Z) (m : MM A) (k : NM A) (Q : A -> Z -> Z -> Prop) : Prop :=
  forall w r, exists r', m (w, r) = ((k w).1, ((k w).2, r'))
    /\ match (k w).1 with
       | Ok a => Q a (fetched r' - fetched r) (reorgs r' - reorgs r) /\ errors r' = errors r
       | _ => errors r <= errors r' <= errors r + q
       end.

Lemma moves_emit op x y e :
  default 0 (increment_of (fetched_series Frontfill) op)
    + default 0 (increment_of (fetched_series Backfill) op) = x ->
  default 0 (increment_of REORGS op) = y -> default 0 (increment_of RPC_ERRORS op) = e ->
  moves (host_emit op) x y e.
Proof.
  intros Hx Hy He r. unfold fetched, reorgs, errors, host_emit.
  rewrite !counter_emit by apply host_descriptions. lia.
Qed.

Lemma moves_comp f g x y e x' y' e' :
  moves f x y e -> moves g x' y' e' -> moves (fun r => g (f r)) (x + x') (y + y') (e + e').
Proof. intros Hf Hg r. destruct (Hf r) as (? & ? & ?), (Hg (f r)) as (? & ? & ?). lia. Qed.

Lemma calls_meter f x y e : moves f x y e -> calls (meter f) x y e.
Proof. intros Hf w r. by exists f. Qed.
Lemma calls_timed f x y e : (forall d, moves (f d) x y e) -> calls (timed f) x y e.
Proof. intros Hf. apply calls_meter. intros r. apply Hf. Qed.
Lemma calls_skip : calls (mret tt) 0 0 0.
Proof. intros w r. exists id. split; [done|]. intros r'. unfold id. lia. Qed.
Lemma calls_seq f g x y e x' y' e' :
  calls f x y e -> calls g x' y' e' -> calls (_ ← f; g) (x + x') (y + y') (e + e').
Proof.
  intros Hf Hg w r. destruct (Hf w r) as (f' & Hf1 & Hf2), (Hg w (f' r)) as (g' & Hg1 & Hg2).
  exists (fun r => g' (f' r)). unfold mbind, st_bind. rewrite Hf1, Hg1. split; [done|]. by apply moves_comp.
Qed.

Lemma metered_weaken {A} q q' (m : MM A) k (Q Q' : A -> Z -> Z -> Prop) :
  q <= q' -> metered q m k Q -> (forall a x y, Q a x y -> Q' a x y) -> metered q' m k Q'.
Proof.
  intros Hq Hm HQ w r. destruct (Hm w r) as (r' & Hr & Hp). exists r'. split; [exact Hr|].
  destruct (k w).1; [naive_solver|lia..].
Qed.

Lemma metered_ret {A} q (a : A) (Q : A -> Z -> Z -> Prop) : Q a 0 0 -> metered q (mret a) (mret a) Q.
Proof. intros HQ w r. exists r. split; [done|]. simpl. by rewrite !Z.sub_diag. Qed.

Lemma metered_silent {A} q (k : NM A) (Q : A -> Z -> Z -> Prop) :
  0 <= q -> (forall w a w', k w = (Ok a, w') -> Q a 0 0) -> metered q (silent k) k Q.
Proof.
  intros Hq HQ w r. exists r. unfold silent. destruct (k w) as [[a|e|] w'] eqn:Hk; simpl; (split; [done|]); [|lia..].
  rewrite !Z.sub_diag. split; [by eapply HQ|done].
Qed.

Lemma metered_bind {A B} q (m : MM A) k (f : A -> MM B) (g : A -> NM B) Q1 (Q : B -> Z -> Z -> Prop) :
  metered q m k Q1 ->
  (forall a x y, Q1 a x y -> metered q (f a) (g a) (fun b x' y' => Q b (x + x') (y + y'))) ->
  metered q (m ≫= f) (k ≫= g) Q.
Proof.
  intros Hm Hf w r. destruct (Hm w r) as (r1 & Hr1 & Hp1). unfold mbind, st_bind. rewrite Hr1.
  destruct (k w) as [[a|e|] w1]; simpl in *; [|by exists r1..].
  destruct Hp1 as [HQ1 He1]. destruct (Hf _ _ _ HQ1 w1 r1) as (r2 & Hr2 & Hp2). exists r2. split; [exact Hr2|].
  destruct (g a w1).1; [|lia..]. destruct Hp2 as [HQ2 He2]. split; [|lia].
  by replace (fetched r2 - fetched r) with (fetched r1 - fetched r + (fetched r2 - fetched r1)) by lia;
    replace (reorgs r2 - reorgs r) with (reorgs r1 - reorgs r + (reorgs r2 - reorgs r1)) by lia.
Qed.

(** A recorder call in front has no counterpart in [k]. *)
Lemma metered_calls {A} q f (m : MM A) k x y (Q : A -> Z -> Z -> Prop) :
  calls f x y 0 -> metered q m k (fun a x' y' => Q a (x + x') (y + y')) -> metered q (_ ← f; m) k Q.
Proof.
  intros Hf Hm w r. destruct (Hf w r) as (g & Hg & Hmv). unfold mbind, st_bind. rewrite Hg.
  destruct (Hmv r) as (Hx & Hy & He), (Hm w (g r)) as (r' & Hr & Hp). exists r'. split; [exact Hr|].
  destruct (k w).1; [|lia..]. destruct Hp as [HQ He']. split; [|lia].
  by replace (fetched r' - fetched r) with (x + (fetched r' - fetched (g r))) by lia;
    replace (reorgs r' - reorgs r) with (y + (reorgs r' - reorgs (g r))) by lia.
Qed.

Lemma metered_on_err {A} q (m : MM A) k f x y e (Q : A -> Z -> Z -> Prop) :
  metered q m k Q -> calls f x y e -> 0 <= e -> metered (q + e) (on_err m f) k Q.
Proof.
  intros Hm Hf He w r. destruct (Hm w r) as (r1 & Hr1 & Hp1). unfold on_err. rewrite Hr1.
  destruct (k w) as [[a|err|] w1]; simpl in *; [by exists r1| |exists r1; split; [done|lia]].
  destruct (Hf w1 r1) as (g & Hg & Hmv). rewrite Hg. exists (g r1). split; [done|]. destruct (Hmv r1). lia.
Qed.

Lemma metered_ext {A} q (m m' : MM A) k k' (Q : A -> Z -> Z -> Prop) :
  (forall s, m' s = m s) -> (forall w, k' w = k w) -> metered q m k Q -> metered q m' k' Q.
Proof. intros Hm Hk Ht w r. destruct (Ht w r) as (r' & Hr & Hp). exists r'. by rewrite Hm, Hk. Qed.

(** Calls that leave the counters of interest alone. *)
Ltac still := first
  [ apply calls_skip
  | apply calls_meter; intros ?; apply moves_emit; reflexivity
  | apply calls_timed; intros ? ?; apply moves_emit; reflexivity ].

(** ** The operations in the logic *)
Definition unmoved {A} (_ : A) (x y : Z) : Prop := x = 0 /\ y = 0.

Lemma metered_then_time {A} q (m : MM A) k (f : Duration -> Recorder -> Recorder) (Q : A -> Z -> Z -> Prop) :
  metered q m k Q -> (forall d, moves (f d) 0 0 0) ->
  metered q (b ← m; _ ← timed f; mret b) k Q.
Proof.
  intros Hm Hf. apply (metered_ext q (b ← m; _ ← timed f; mret b) _ (b ← k; mret b)); [done| |].
  { intros w. unfold mbind, st_bind. by destruct (k w) as [[]]. }
  eapply metered_bind; [exact Hm|]. intros a x y HQ.
  eapply metered_calls; [by apply calls_timed|]. apply metered_ret. by rewrite !Z.add_0_r.
Qed.

Lemma moves_duration name d : moves (record_millis name d) 0 0 0.
Proof. by apply moves_emit. Qed.

Lemma record_backfill_batch_moves d : moves (record_backfill_batch d) 0 0 0.
Proof.
  apply (moves_comp (host_emit (Increment BACKFILL_BATCHES 1)) (record_millis BACKFILL_BATCH_DURATION d) 0 0 0 0 0 0);
    [by apply moves_emit|apply moves_duration].
Qed.

Lemma inc_reorgs_moves depth : moves (inc_reorgs depth) 0 1 0.
Proof.
  apply (moves_comp (host_emit (Increment REORGS 1)) (host_emit (RecordValue REORG_DEPTH (f64_of_int depth)))
    0 1 0 0 0 0); by apply moves_emit.
Qed.

Lemma inc_blocks_fetched_moves count mode : moves (inc_blocks_fetched count mode) count 0 0.
Proof. apply moves_emit; destruct mode; count; simpl; lia. Qed.

(** [buffered] reads in order: the blocks of a batch are one per request. *)
Lemma metered_mapM {A B} q (f : A -> MM B) (g : A -> st P Error B) l :
  0 <= q -> (forall a, metered q (f a) (provider (g a)) unmoved) ->
  metered q (st_mapM f l) (provider (st_mapM g l)) (fun bs x y => length bs = length l /\ x = 0 /\ y = 0).
Proof.
  intros Hq Hf. induction l as [|a l IH].
  - apply (metered_ext q (mret [] : MM (list B)) _ (mret [] : NM (list B))); [done|by intros []|by apply metered_ret].
  - apply (metered_ext q (b ← f a; k ← st_mapM f l; mret (b :: k)) _
      (b ← provider (g a); k ← provider (st_mapM g l); mret (b :: k))); [done| |].
    { intros [n p]. cbn [st_mapM]. unfold mbind, st_bind, provider. destruct (g a p) as [[b|e|] p1]; [|done..].
      by destruct (st_mapM g l p1) as [[]]. }
    eapply metered_bind; [apply Hf|]. intros b x y [-> ->].
    eapply metered_bind; [apply IH|]. intros k x y (Hl & -> & ->).
    apply metered_ret. simpl. by rewrite Hl.
Qed.

Lemma fetch_blocks_by_hash_metered_ok hashes :
  metered 0 (fetch_blocks_by_hash_metered hashes) (provider (fetch_blocks_by_hash hashes))
    (fun bs x y => length bs = length hashes /\ x = 0 /\ y = 0).
Proof.
  apply metered_mapM; [done|]. intros [_ h]. apply metered_then_time; [|apply moves_duration].
  by apply metered_silent.
Qed.

Lemma fetch_range_metered_ok from to :
  metered 0 (fetch_range_metered from to) (provider (fetch_range from to)) unmoved.
Proof.
  unfold fetch_range_metered, fetch_range. destruct (to <? from).
  { apply (metered_ext 0 (mret [] : MM (list (RpcBlock T R))) _ (mret [] : NM (list (RpcBlock T R)))); [done|by intros []|by apply metered_ret]. }
  eapply metered_weaken; [done|apply metered_mapM; [done|]|by intros ??? [_ Hxy]].
  intros n. apply metered_then_time; [|apply moves_duration]. by apply metered_silent.
Qed.

Lemma walk_chain_metered_ok n h : metered 0 (walk_chain_metered n h) (provider (walk_chain n h)) unmoved.
Proof.
  unfold walk_chain_metered.
  apply (metered_ext 0 (walk_chain_metered n h) _ (walk ← provider (walk_chain n h); mret walk)); [done| |].
  { intros w. unfold mbind, st_bind. by destruct (provider (walk_chain n h) w) as [[]]. }
  eapply metered_bind; [by apply (metered_silent _ _ unmoved)|]. intros walk x y [-> ->].
  eapply (metered_calls _ _ _ _ 0 0); [destruct walk; still|].
  eapply (metered_calls _ _ _ _ 0 0); [still|]. by apply metered_ret.
Qed.

(** The fallback to the latest block. *)
Lemma fallback_metered n :
  metered 1 (_ ← meter inc_stale_hints;
             found ← silent (provider (rpc (get_block_by_number Latest)));
             latest ← silent (st_lift (ok_or found (MissingBlock Latest)));
             on_err (walk_chain_metered n (rh_hash latest)) (meter inc_rpc_errors))
    (provider (found ← rpc (get_block_by_number Latest);
               latest ← st_lift (ok_or found (MissingBlock Latest));
               walk_chain n (rh_hash latest))) unmoved.
Proof.
  eapply (metered_calls _ _ _ _ 0 0); [still|].
  eapply (metered_ext _ _ _ (found ← provider (rpc (get_block_by_number Latest));
    latest ← st_lift (ok_or found (MissingBlock Latest)); provider (walk_chain n (rh_hash latest)))); [done| |].
  { intros [nt p]. unfold mbind, st_bind, provider. destruct (rpc _ p) as [[[b|]|e|] p1]; done. }
  eapply metered_bind; [by apply (metered_silent _ _ unmoved)|]. intros found x y [-> ->].
  eapply metered_bind; [by apply (metered_silent _ _ unmoved)|]. intros latest x y [-> ->].
  apply (metered_on_err 0 _ _ _ 0 0 1); [apply walk_chain_metered_ok|still|done].
Qed.

(** A walk that fails counts at most one error. *)
Lemma walk_from_hint_metered_ok n h :
  metered 1 (walk_from_hint_metered n h) (provider (walk_from_hint n h)) unmoved.
Proof.
  intros [nt p] r. unfold walk_from_hint_metered. destruct (walk_chain n h p) as [rw p1] eqn:Hw.
  destruct (walk_chain_metered_ok n h (nt, p) r) as (r1 & Hr1 & Hp1).
  assert (forall e, rw = Err e -> r1 = r) as Hsame.
  { intros e ->. unfold walk_chain_metered, mbind, st_bind, silent, provider in Hr1. rewrite Hw in Hr1.
    by injection Hr1 as <-. }
  rewrite Hr1. unfold provider in *. unfold walk_from_hint. rewrite Hw in *. cbn [fst snd] in *.
  destruct rw as [walk|err|]; cbn [fst snd] in *; [by exists r1| |exists r1; split; [done|lia]].
  rewrite (Hsame err eq_refl). destruct err as [e|hash|tag|].
  2: { exact (fallback_metered n (nt, p1) r). }
  all: exists (inc_rpc_errors r); (split; [done|]);
    destruct (moves_emit (Increment RPC_ERRORS 1) 0 0 1 eq_refl eq_refl eq_refl r) as (_ & _ & He);
    unfold inc_rpc_errors; cbn [fst]; lia.
Qed.

Lemma metered_then q (m : MM unit) k f (Q : unit -> Z -> Z -> Prop) :
  metered q m k Q -> calls f 0 0 0 -> metered q (_ ← m; f) k Q.
Proof.
  intros Hm Hf. apply (metered_ext q (_ ← m; _ ← f; mret tt) _ (_ ← k; mret tt)).
  - intros s. unfold mbind, st_bind. destruct (m s) as [[[]|e|] [w r]]; [|done..].
    by destruct (Hf w r) as (g & -> & _).
  - intros w. unfold mbind, st_bind. by destruct (k w) as [[[]|e|] w1].
  - eapply metered_bind; [exact Hm|]. intros [] x y HQ. eapply metered_calls; [exact Hf|].
    apply metered_ret. by rewrite !Z.add_0_r.
Qed.

Lemma maybe_refresh_tags_metered_ok ts :
  metered 0 (maybe_refresh_tags_metered ts) (maybe_refresh_tags ts) unmoved.
Proof.
  unfold maybe_refresh_tags_metered, maybe_refresh_tags.
  eapply metered_bind; [by apply (metered_silent _ _ unmoved)|]. intros n x y [-> ->].
  eapply metered_bind; [by apply (metered_silent _ _ unmoved)|]. intros epoch x y [-> ->].
  destruct (decide _); [by apply metered_ret|].
  eapply metered_bind; [by apply (metered_silent _ _ unmoved)|]. intros safe x y [-> ->].
  eapply metered_bind; [by apply (metered_silent _ _ unmoved)|]. intros fin x y [-> ->].
  apply metered_then; [by apply metered_silent|still].
Qed.

Lemma update_gauges_calls : calls update_gauges 0 0 0.
Proof.
  intros [n p] r. unfold update_gauges, mbind, st_bind. cbn.
  destruct (view_tip (chain_view n)) as [[tip_num h]|].
  - exists (fun r => set_chain_view_len (length (chain_view n)) (set_tip tip_num r)). split; [done|].
    apply (moves_comp _ _ 0 0 0 0 0 0); by apply moves_emit.
  - exists (set_chain_view_len (length (chain_view n))). split; [done|]. by apply moves_emit.
Qed.

(** What a delivered notification costs: its blocks, and a reorg if it is one. *)
Definition delivered (o : option (HostNotification Segment)) (x y : Z) : Prop :=
  match o with
  | None => x = 0 /\ y = 0
  | Some notif =>
      x = from_option (fun s => Z.of_nat (segment_len s)) 0 (committed_chain notif)
      /\ y = if has_revert notif then 1 else 0
  end.

Ltac add_up :=
  match goal with H : delivered ?o ?a ?b |- delivered ?o ?c ?d =>
    replace c with a by lia; replace d with b by lia end.

(** The end of a head: the tags, the gauges and the clock. *)
Lemma finish_metered kd ts x y :
  delivered (Some (mkHostNotification kd None None)) x y ->
  metered 1
    (_ ← maybe_refresh_tags_metered ts; _ ← update_gauges; _ ← timed record_handle_new_head_duration;
     n ← silent this; mret (Some (notification kd n)))
    (_ ← maybe_refresh_tags ts; n ← this; mret (Some (notification kd n)))
    (fun o x' y' => delivered o (x + x') (y + y')).
Proof.
  intros Hd. eapply metered_bind.
  { eapply metered_weaken; [|apply maybe_refresh_tags_metered_ok|]; [lia|]. by intros [] ? ? Hu. }
  intros [] x' y' [-> ->].
  eapply (metered_calls _ _ _ _ 0 0); [apply update_gauges_calls|].
  eapply (metered_calls _ _ _ _ 0 0); [still|].
  eapply metered_bind; [by apply (metered_silent _ _ unmoved)|]. intros n x' y' [-> ->].
  apply metered_ret. rewrite !Z.add_0_r. by destruct kd.
Qed.

Lemma handle_new_head_metered_ok header :
  metered 1 (handle_new_head_metered header) (handle_new_head header) delivered.
Proof.
  unfold handle_new_head_metered, handle_new_head.
  eapply metered_bind; [by apply (metered_silent _ _ unmoved)|]. intros n x y [-> ->].
  eapply metered_bind; [apply walk_from_hint_metered_ok|]. intros walk x y [-> ->].
  destruct walk as [|chain|fork old chain|].
  - eapply (metered_calls _ _ _ _ 0 0); [still|]. by apply metered_ret.
  - eapply metered_bind.
    { eapply metered_weaken; [|apply fetch_blocks_by_hash_metered_ok|]; [lia|]. intros bs x y Hq; exact Hq. }
    intros bs x y (Hlen & -> & ->).
    eapply metered_bind; [by apply (metered_silent _ _ unmoved)|]. intros [] x y [-> ->].
    eapply metered_calls; [apply calls_meter, inc_blocks_fetched_moves|].
    eapply metered_weaken; [done|apply (finish_metered _ _ (Z.of_nat (length chain)) 0)|]; [by rewrite <- Hlen|done].
  - eapply metered_bind.
    { eapply metered_weaken; [|apply fetch_blocks_by_hash_metered_ok|]; [lia|]. intros bs x y Hq; exact Hq. }
    intros bs x y (Hlen & -> & ->).
    eapply metered_bind; [by apply (metered_silent _ _ unmoved)|]. intros [] x y [-> ->].
    eapply metered_calls; [apply calls_meter, inc_blocks_fetched_moves|].
    eapply metered_calls; [apply calls_meter, inc_reorgs_moves|].
    eapply metered_bind; [by apply (metered_silent _ _ unmoved)|]. intros range x y [-> ->].
    eapply metered_weaken; [done|apply (finish_metered _ _ (Z.of_nat (length chain)) 1)|]; [by rewrite <- Hlen|].
    intros o x y Hd. cbv beta in *. by add_up.
  - eapply metered_bind; [by apply (metered_silent _ _ unmoved)|]. intros [] x y [-> ->].
    eapply (metered_calls _ _ _ _ 0 0); [still|]. by apply metered_ret.
Qed.

Lemma drain_backfill_metered_ok :
  metered 1 drain_backfill_metered drain_backfill delivered.
Proof.
  unfold drain_backfill_metered, drain_backfill.
  eapply metered_bind; [by apply (metered_silent _ _ unmoved)|]. intros n x y [-> ->].
  destruct (backfill_from n) as [from|]; [|by apply metered_ret].
  eapply metered_bind.
  { apply (metered_on_err 0 _ _ _ 0 0 1); [by apply (metered_silent _ _ unmoved)|still|done]. }
  intros tip x y [-> ->]. destruct (Z.compare _ _).
  - eapply metered_bind; [by apply (metered_silent _ _ unmoved)|]. intros [] x y [-> ->]. by apply metered_ret.
  - eapply metered_bind.
    { apply (metered_on_err 0 _ _ _ 0 0 1); [apply fetch_range_metered_ok| |done].
      apply (calls_seq _ _ 0 0 1 0 0 0); [still|apply calls_timed, record_backfill_batch_moves]. }
    intros bs x y [-> ->]. destruct (match last_emitted n with Some _ => _ | None => _ end).
    { eapply metered_bind; [by apply (metered_silent _ _ unmoved)|]. intros [] x y [-> ->].
      eapply (metered_calls _ _ _ _ 0 0); [apply calls_timed, record_backfill_batch_moves|].
      by apply metered_silent. }
    eapply metered_bind; [by apply (metered_silent _ _ unmoved)|]. intros [] x y [-> ->].
    eapply metered_bind.
    { apply (metered_weaken (0 + 0) _ _ _ unmoved unmoved); [lia| |done].
      eapply metered_on_err; [|apply calls_timed, record_backfill_batch_moves|done].
      destruct (last bs); [apply maybe_refresh_tags_metered_ok|by apply metered_ret]. }
    intros [] x y [-> ->].
    eapply metered_calls; [apply calls_meter, inc_blocks_fetched_moves|].
    eapply (metered_calls _ _ _ _ 0 0); [apply calls_timed, record_backfill_batch_moves|].
    eapply (metered_calls _ _ _ _ 0 0); [apply update_gauges_calls|].
    eapply metered_bind; [by apply (metered_silent _ _ unmoved)|]. intros n' x y [-> ->].
    apply metered_ret. cbn. unfold segment_len. cbn [blocks]. lia.
  - by apply metered_silent.
Qed.

(** ** Theorem *)

(** The metered notifier is the notifier: whatever the recorder has seen and
    the clock shows, it returns the same result, leaves the same headers and
    the same state.  When a notification comes out the counters of fetched
    blocks have grown by its number of blocks and the reorg counter by one
    exactly when it carries a reorg, however many headers were passed over; when the
    stream ends nothing was counted; and the error counter grows by at most one,
    only on a failure. *)
Theorem metered_notifications headers w r :
  exists r', next_notification_metered headers (w, r)
             = ((next_notification_loop headers w).1, ((next_notification_loop headers w).2, r'))
    /\ match (next_notification_loop headers w).1.1 with
       | Ok o => delivered o (fetched r' - fetched r) (reorgs r' - reorgs r) /\ errors r' = errors r
       | _ => errors r <= errors r' <= errors r + 1
       end.
Proof.
  revert w r. induction headers as [|header headers IH]; intros w r;
    cbn [next_notification_metered next_notification_loop];
    destruct (drain_backfill_metered_ok w r) as (r1 & -> & H1);
    destruct (drain_backfill w) as [[[notif|]|e|] w1]; cbn [fst snd] in *; try (by exists r1).
  destruct H1 as [[Hx1 Hy1] He1], (handle_new_head_metered_ok header w1 r1) as (r2 & -> & H2).
  destruct (handle_new_head header w1) as [[[notif|]|e|] w2]; cbn [fst snd] in *.
  - exists r2. split; [done|]. destruct H2 as [Hd He2]. split; [|lia]. by add_up.
  - destruct H2 as [[Hx2 Hy2] He2], (IH w2 r2) as (r3 & -> & H3). exists r3. split; [done|].
    destruct (next_notification_loop headers w2) as [[[o|e|] rest] w3]; cbn [fst snd] in *; [|lia..].
    destruct H3 as [Hd He3]. split; [|lia]. by add_up.
  - exists r2. split; [done|lia].
  - exists r2. split; [done|lia].
Qed.
End metered.

(** ** Samples *)
Module SampleMetered.
Import Sample.

Definition rpc_header (n : Z) : RpcHeader := mkRpcHeader (1000 + n) (Sample.header n) None None.
Definition clock (k : nat) : Duration := mkDuration (Z.of_nat k) 0.
Definition notifier : RpcHostNotifier := RpcHostNotifier_new 64 32 8 12 0.

(** A provider at block 7; [full] is whether it serves full blocks. *)
Definition provider_at (full : bool) : Provider unit unit Header unit unit unit := {|
  get_block_by_hash h p := (Ok (Some (mkRpcHeader h (Sample.header (h - 1000)) None None)), p);
  get_full_block_by_hash h p := (if full then Ok (Some (Sample.header (h - 1000))) else Err tt, p);
  get_block_by_number t p := (Ok (Some (rpc_header 7)), p);
  get_full_block_by_number t p := (Err tt, p);
  get_block_receipts _ p := (Ok None, p);
  get_block_number p := (Ok 7, p);
  get_code_at _ p := (Ok [], p);
  block_header b := b;
  block_transactions _ := [];
  into_primitives_receipt r := r |}.

Definition run (full : bool) :=
  next_notification_metered (H:=provider_at full) clock [rpc_header 7] ((notifier, tt), Recorder_new).
End SampleMetered.
Import SampleMetered.

Lemma one_block_metered :
  let '(r, rest, (w, rec)) := run true in
  is_ok r = true /\ fetched rec = 1 /\ reorgs rec = 0 /\ errors rec = 0
  /\ counter TAG_REFRESHES rec = 1
  /\ last (emitted rec) = Some (RecordValue HANDLE_NEW_HEAD_DURATION (millis_f64 (clock 21))).
Proof. vm_compute. by split_and!. Qed.

(** [RPC_ERRORS] is described as the errors of the transport and the provider;
    a block that cannot be fetched behind the head stops the node with the
    provider's error and is not among them. *)
Lemma frontfill_error_uncounted :
  let '(r, rest, (w, rec)) := run false in
  r = Err (Rpc tt) /\ errors rec = 0.
Proof. vm_compute. by split. Qed.

(** Three ready headers: the newest is yielded and two are counted. *)
Lemma coalesced_counted :
  let '(answer, inner, rec) :=
    latest_poll_next_metered [PollReady (Some 1); PollReady (Some 2); PollReady (Some 3)] Recorder_new in
  answer = PollReady (Some 3) /\ inner = [] /\ counter HEADERS_COALESCED rec = 2.
Proof. vm_compute. by split_and!. Qed.
