(* ===== verification/BlockProcessor.v ===== *)
(** * The block processor ([crates/block-processor/src/v1/processor.rs])

    [process_block]: the parent header from hot storage, the submitted
    transactions from the blob cache, the alias set from the oracle, the EVM run
    and the executed block with its indexed signet events.  The EVM driver, the
    slot calculator, the Zenith block format and the block builder belong to
    the SDK and are the fields of [Driver]. *)

From S2P Require Import Prelude Primitives Storage HostRpc Alias Blobber Float64 Metrics.

(** ** Extracts of one host block ([signet_extract]) *)
Record Extracts (Enter EnterToken Transact ZH : Type) := mkExtracts {
  ex_ru_height : Z;
  ex_host_number : Z;
  ex_host_timestamp : Z;
  ex_submitted : option Submitted;
  ex_enters : list Enter;
  ex_enter_tokens : list EnterToken;
  ex_transacts : list Transact;
  ex_ru_header : option ZH }.
Arguments mkExtracts {Enter EnterToken Transact ZH} _ _ _ _ _ _ _ _.
Arguments ex_ru_height {Enter EnterToken Transact ZH} _.
Arguments ex_host_number {Enter EnterToken Transact ZH} _.
Arguments ex_host_timestamp {Enter EnterToken Transact ZH} _.
Arguments ex_submitted {Enter EnterToken Transact ZH} _.
Arguments ex_enters {Enter EnterToken Transact ZH} _.
Arguments ex_enter_tokens {Enter EnterToken Transact ZH} _.
Arguments ex_transacts {Enter EnterToken Transact ZH} _.
Arguments ex_ru_header {Enter EnterToken Transact ZH} _.

(** [DbSignetEvent]: an event with its index in the block. *)
Inductive DbSignetEvent (Enter EnterToken Transact : Type) :=
| DbEnter (index : Z) (e : Enter)
| DbEnterToken (index : Z) (e : EnterToken)
| DbTransact (index : Z) (e : Transact).
Arguments DbEnter {Enter EnterToken Transact} index e.
Arguments DbEnterToken {Enter EnterToken Transact} index e.
Arguments DbTransact {Enter EnterToken Transact} index e.

(** What the driver yields: the sealed block and receipts and the state
    changes. *)
Record BlockResult (Tx Rcpt Bundle : Type) := mkBlockResult {
  br_header : SealedHeader;
  br_transactions : list (Tx * Address);
  br_receipts : list Rcpt;
  br_bundle : Bundle }.
Arguments mkBlockResult {Tx Rcpt Bundle} _ _ _ _.
Arguments br_header {Tx Rcpt Bundle} _.
Arguments br_transactions {Tx Rcpt Bundle} _.
Arguments br_receipts {Tx Rcpt Bundle} _.
Arguments br_bundle {Tx Rcpt Bundle} _.

(** [ExecutedBlock]. *)
Record ExecutedBlock (Tx Rcpt Bundle Ev ZH : Type) := mkExecuted {
  eb_block_header : SealedHeader;
  eb_bundle : Bundle;
  eb_transactions : list (Tx * Address);
  eb_receipts : list Rcpt;
  eb_signet_events : list Ev;
  eb_zenith_header : option ZH }.
Arguments mkExecuted {Tx Rcpt Bundle Ev ZH} _ _ _ _ _ _.
Arguments eb_block_header {Tx Rcpt Bundle Ev ZH} _.
Arguments eb_bundle {Tx Rcpt Bundle Ev ZH} _.
Arguments eb_transactions {Tx Rcpt Bundle Ev ZH} _.
Arguments eb_receipts {Tx Rcpt Bundle Ev ZH} _.
Arguments eb_signet_events {Tx Rcpt Bundle Ev ZH} _.
Arguments eb_zenith_header {Tx Rcpt Bundle Ev ZH} _.

(** The reports a failing block can end with. *)
Inductive ProcessError (SE HE BE AE EE XE : Type) :=
| PStorage (e : SE) | PDb (e : HE) | PMissingParent | PBlob (e : FetchError BE)
| PAlias (e : AliasError AE) | PEvm (e : EE) | PBuild (e : XE).
Arguments PStorage {SE HE BE AE EE XE} e.
Arguments PDb {SE HE BE AE EE XE} e.
Arguments PMissingParent {SE HE BE AE EE XE}.
Arguments PBlob {SE HE BE AE EE XE} e.
Arguments PAlias {SE HE BE AE EE XE} e.
Arguments PEvm {SE HE BE AE EE XE} e.
Arguments PBuild {SE HE BE AE EE XE} e.

(** The SDK: the EVM driver over a database pinned at a height, the slot
    calculator, Zenith blocks and their transactions, host transactions, the
    hardforks, and the checks of [ExecutedBlockBuilder::build]. *)
Class Driver (R Spec Enter EnterToken Transact ZH ZB ZT Tx Rcpt Bundle EE XE : Type) := {
  spec_id : Spec;
  slot_ending_at : Z -> option Z;
  zb_transactions : ZB -> list ZT;
  is_eip4844 : ZT -> bool;
  host_sender : Transact -> Address;
  drive_block : R * Z -> Spec -> Extracts Enter EnterToken Transact ZH -> gset Z ->
    list ZT -> Header -> res EE (BlockResult Tx Rcpt Bundle);
  build_executed :
    ExecutedBlock Tx Rcpt Bundle (DbSignetEvent Enter EnterToken Transact) ZH ->
    res XE (ExecutedBlock Tx Rcpt Bundle (DbSignetEvent Enter EnterToken Transact) ZH) }.

(** The worlds a block is processed in: the oracle's, the blob cache, and the
    crate's metrics. *)
Record World (W M : Type) := mkWorld { w_oracle : W; w_cache : M; w_metrics : Recorder }.
Arguments mkWorld {W M} _ _ _.
Arguments w_oracle {W M} _.
Arguments w_cache {W M} _.
Arguments w_metrics {W M} _.

Section processor.
Context {HS SE HE R Code Spec Enter EnterToken Transact ZH ZB ZT Tx Rcpt Bundle EE XE : Type}
  {W AE M BE Blob : Type}
  `{!HotStorage HS SE HE R Code, !AliasOracle W AE, !LruMap M (Blobs Blob), !Coder Blob ZB,
    !Driver R Spec Enter EnterToken Transact ZH ZB ZT Tx Rcpt Bundle EE XE, !Magic Tx}.
Abbreviation Ext := (Extracts Enter EnterToken Transact ZH).
Abbreviation Event := (DbSignetEvent Enter EnterToken Transact).
Abbreviation Executed := (ExecutedBlock Tx Rcpt Bundle Event ZH).
Abbreviation PErr := (ProcessError SE HE BE AE EE XE).
Abbreviation PM := (st (World W M) PErr).

(** [SignetBlockProcessor]: what it holds besides the shared worlds. *)
Record SignetBlockProcessor := mkProcessor {
  pr_hot : HS;
  pr_cache_alive : bool;
  pr_attempts : Attempts (E:=BE) (Blob:=Blob) }.

(** [revm_state]: a fresh reader pinned at the parent. *)
Definition revm_state (p : SignetBlockProcessor) (parent_height : Z) : res PErr (R * Z) :=
  rd ← map_err PStorage (reader (pr_hot p));
  Ok (rd, parent_height).

(** The event indices. *)
Definition with_index (i : nat) (e : Event) : Event :=
  match e with
  | DbEnter _ v => DbEnter (Z.of_nat i) v
  | DbEnterToken _ v => DbEnterToken (Z.of_nat i) v
  | DbTransact _ v => DbTransact (Z.of_nat i) v
  end.

Definition signet_events (ex : Ext) : list Event :=
  imap with_index
    ((DbEnter 0 <$> ex_enters ex) ++ (DbEnterToken 0 <$> ex_enter_tokens ex)
       ++ (DbTransact 0 <$> ex_transacts ex)).

(** The submitted block, from the blob cache. *)
Definition submitted_block (p : SignetBlockProcessor) (ex : Ext) (slot : Z) (submitted : Submitted) :
    PM ZB := fun w =>
  let '(r, m) := signet_block (pr_cache_alive p) (pr_attempts p) (ex_host_number ex) slot
                   submitted (w_cache w) in
  (map_err PBlob r, mkWorld (w_oracle w) m (w_metrics w)).

(** The submitted transactions. *)
Definition block_txns (p : SignetBlockProcessor) (ex : Ext) : PM (list ZT) :=
  match ex_submitted ex with
  | None => mret []
  | Some submitted =>
      slot ← st_lift (expect (slot_ending_at (ex_host_timestamp ex)));
      block ← submitted_block p ex slot submitted;
      mret (base.filter (fun tx => is_eip4844 tx = false) (zb_transactions block))
  end.

(** The alias set, through one oracle. *)
Definition oracle_aliases (senders : list Address) : st W (AliasError AE) (gset Z) :=
  _ ← create; alias_loop senders ∅.

Definition block_aliases (ex : Ext) : PM (gset Z) := fun w =>
  let '(r, oracle) := oracle_aliases (host_sender <$> ex_transacts ex) (w_oracle w) in
  (map_err PAlias r, mkWorld oracle (w_cache w) (w_metrics w)).

(** A step of the crate's metrics. *)
Definition metered {A} (m : st Recorder PErr A) : PM A := fun w =>
  let '(r, metrics) := m (w_metrics w) in (r, mkWorld (w_oracle w) (w_cache w) metrics).

Definition parent_header (p : SignetBlockProcessor) (ru_height : Z) : res PErr SealedHeader :=
  rd ← map_err PStorage (reader (pr_hot p));
  found ← map_err PDb (get_header rd (sat_sub ru_height 1));
  ok_or found PMissingParent.

(** [elapsed] is the time since the start of the run, read when the result is
    recorded. *)
Definition run_evm (p : SignetBlockProcessor) (elapsed : Duration) (ex : Ext) : PM Executed :=
  parent ← st_lift (parent_header p (ex_ru_height ex));
  txns ← block_txns p ex;
  to_alias ← block_aliases ex;
  db ← st_lift (revm_state p (h_number (sh_header parent)));
  result ← st_lift (map_err PEvm (drive_block db spec_id ex to_alias txns (sh_header parent)));
  _ ← metered (record_block_result elapsed (fst <$> br_transactions result)
                 (h_gas_used (sh_header (br_header result))));
  st_lift (map_err PBuild (build_executed
    (mkExecuted (br_header result) (br_bundle result) (br_transactions result)
       (br_receipts result) (signet_events ex) (ex_ru_header ex)))).

Definition process_block (p : SignetBlockProcessor) (elapsed : Duration) (ex : Ext) : PM Executed :=
  _ ← metered (st_modify (record_extracts (length (ex_enters ex)) (length (ex_enter_tokens ex))
                 (length (ex_transacts ex)) (bool_decide (is_Some (ex_submitted ex)))));
  run_evm p elapsed ex.

(** ** Properties *)

Definition event_index (e : Event) : Z :=
  match e with DbEnter i _ | DbEnterToken i _ | DbTransact i _ => i end.

(** The projections of the stored events back to the extracted ones. *)
Definition event_enter (e : Event) : option Enter :=
  match e with DbEnter _ v => Some v | _ => None end.
Definition event_enter_token (e : Event) : option EnterToken :=
  match e with DbEnterToken _ v => Some v | _ => None end.
Definition event_transact (e : Event) : option Transact :=
  match e with DbTransact _ v => Some v | _ => None end.

Lemma omap_imap_index {A} (f : Event -> option A) (l : list Event) :
  (forall i e, f (with_index i e) = f e) -> forall k, omap f (imap (fun i => with_index (k + i)) l) = omap f l.
Proof.
  intros Hf. induction l as [|e l IH]; intros k; [done|]. csimpl. rewrite Hf.
  rewrite (imap_ext _ (fun i => with_index (S k + i))) by (intros; simpl; do 2 f_equal; lia).
  by rewrite IH.
Qed.

Lemma omap_fmap_some {A B C} (f : A -> B) (g : B -> option C) (h : A -> C) (l : list A) :
  (forall a, g (f a) = Some (h a)) -> omap g (f <$> l) = h <$> l.
Proof. intros Hg. induction l as [|a l IH]; [done|]. csimpl. by rewrite Hg, IH. Qed.

Lemma omap_fmap_none {A B C} (f : A -> B) (g : B -> option C) (l : list A) :
  (forall a, g (f a) = None) -> omap g (f <$> l) = [].
Proof. intros Hg. induction l as [|a l IH]; [done|]. csimpl. by rewrite Hg, IH. Qed.

(** The stored events are the extracted ones, each once: enters, then token
    enters, then transacts, in extraction order, and the index of an event is
    its position. *)
Theorem signet_events_exact ex :
  (forall i e, signet_events ex !! i = Some e -> event_index e = Z.of_nat i)
  /\ omap event_enter (signet_events ex) = ex_enters ex
  /\ omap event_enter_token (signet_events ex) = ex_enter_tokens ex
  /\ omap event_transact (signet_events ex) = ex_transacts ex
  /\ length (signet_events ex)
     = (length (ex_enters ex) + length (ex_enter_tokens ex) + length (ex_transacts ex))%nat.
Proof.
  unfold signet_events. set (l := _ ++ _).
  assert (forall A (f : Event -> option A), (forall i e, f (with_index i e) = f e) ->
    omap f (imap with_index l) = omap f l) as Ho.
  { intros A f Hf. by apply (omap_imap_index f l Hf 0). }
  split; [|split; [|split; [|split]]].
  - intros i e He. rewrite list_lookup_imap in He. apply fmap_Some in He as (e' & _ & ->).
    by destruct e'.
  - rewrite Ho by (by intros ? []). unfold l. rewrite !omap_app.
    rewrite (omap_fmap_some _ _ id), !omap_fmap_none by done. by rewrite list_fmap_id, !app_nil_r.
  - rewrite Ho by (by intros ? []). unfold l. rewrite !omap_app.
    rewrite (omap_fmap_some _ event_enter_token id), !omap_fmap_none by done.
    by rewrite list_fmap_id, app_nil_r.
  - rewrite Ho by (by intros ? []). unfold l. rewrite !omap_app.
    rewrite (omap_fmap_some _ event_transact id), !omap_fmap_none by done. by rewrite list_fmap_id.
  - rewrite length_imap. unfold l. rewrite !length_app, !length_fmap. lia.
Qed.

(** Neither the blob cache nor the oracle touches the other's world or the
    metrics. *)
Lemma block_txns_ok p ex w txns w' :
  block_txns p ex w = (Ok txns, w') ->
  w_oracle w' = w_oracle w /\ w_metrics w' = w_metrics w
  /\ Forall (fun tx => is_eip4844 tx = false) txns /\ (ex_submitted ex = None -> txns = []).
Proof.
  unfold block_txns. intros Htx. destruct (ex_submitted ex) as [sub|].
  - apply st_bind_ok in Htx as (slot & s5 & Hs & Htx). injection Hs as _ <-.
    apply st_bind_ok in Htx as (blk & s6 & Hb & Htx).
    unfold submitted_block in Hb. destruct (signet_block _ _ _ _ _ _) as [r mm].
    injection Hb as _ <-. injection Htx as <- <-. do 2 (split; [done|]). split; [|done].
    apply Forall_forall. intros tx Hin. by apply list_elem_of_filter in Hin as [? _].
  - injection Htx as <- <-. by split_and!.
Qed.

Lemma block_aliases_ok `{!LawfulAlias W AE good status} ex w to_alias w' :
  good (w_oracle w) -> block_aliases ex w = (Ok to_alias, w') ->
  w_metrics w' = w_metrics w
  /\ forall a, a ∈ to_alias <-> a ∈ host_sender <$> ex_transacts ex /\ status (w_oracle w) a = true.
Proof.
  intros Hg Hal. unfold block_aliases in Hal.
  destruct (oracle_aliases _ _) as [r w3] eqn:Hloop. unfold oracle_aliases in Hloop.
  injection Hal as Hal <-. apply map_err_ok in Hal as ->. split; [done|].
  apply st_bind_ok in Hloop as ([] & w4 & Hcr & Hloop).
  destruct (create_good _ _ _ Hg Hcr) as [Hg4 Hst].
  destruct (alias_loop_ok _ _ _ _ _ Hg4 Hloop) as [_ Hset].
  intros a. rewrite (Hset _ eq_refl a), Hst. split; [|by right].
  intros [Hn|?]; [by apply not_elem_of_empty in Hn|done].
Qed.

(** A run of the EVM, taken apart. *)
Lemma run_evm_ok p elapsed ex w b w' :
  run_evm p elapsed ex w = (Ok b, w') ->
  exists rd parent rd' txns w1 to_alias w2 result metrics,
    reader (pr_hot p) = Ok rd
    /\ get_header rd (sat_sub (ex_ru_height ex) 1) = Ok (Some parent)
    /\ block_txns p ex w = (Ok txns, w1) /\ block_aliases ex w1 = (Ok to_alias, w2)
    /\ reader (pr_hot p) = Ok rd'
    /\ drive_block (rd', h_number (sh_header parent)) spec_id ex to_alias txns (sh_header parent)
       = Ok result
    /\ record_block_result (E:=PErr) elapsed (fst <$> br_transactions result)
         (h_gas_used (sh_header (br_header result))) (w_metrics w2) = (Ok tt, metrics)
    /\ w_metrics w' = metrics
    /\ build_executed (mkExecuted (br_header result) (br_bundle result) (br_transactions result)
         (br_receipts result) (signet_events ex) (ex_ru_header ex)) = Ok b.
Proof.
  unfold run_evm. intros Hp.
  apply st_bind_ok in Hp as (parent & s1 & Hpar & Hp). injection Hpar as Hpar <-.
  unfold parent_header in Hpar. apply bind_ok in Hpar as (rd & Hrd & Hpar).
  apply map_err_ok in Hrd. apply bind_ok in Hpar as (found & Hget & Hpar).
  apply map_err_ok in Hget. apply ok_or_ok in Hpar as ->.
  apply st_bind_ok in Hp as (txns & w1 & Htx & Hp).
  apply st_bind_ok in Hp as (to_alias & w2 & Hal & Hp).
  apply st_bind_ok in Hp as (db & s3 & Hdb & Hp). injection Hdb as Hdb <-.
  unfold revm_state in Hdb. apply bind_ok in Hdb as (rd' & Hrd' & [= <-]). apply map_err_ok in Hrd'.
  apply st_bind_ok in Hp as (result & s4 & Hdr & Hp). injection Hdr as Hdr <-.
  apply map_err_ok in Hdr. apply st_bind_ok in Hp as ([] & s5 & Hm & Hp). unfold metered in Hm.
  destruct (record_block_result _ _ _ _) as [r metrics] eqn:Hrec. injection Hm as -> <-.
  injection Hp as Hp <-. apply map_err_ok in Hp.
  by exists rd, parent, rd', txns, w1, to_alias, w2, result, metrics.
Qed.

Lemma process_block_ok p elapsed ex w b w' :
  process_block p elapsed ex w = (Ok b, w') ->
  run_evm p elapsed ex (mkWorld (w_oracle w) (w_cache w)
    (record_extracts (length (ex_enters ex)) (length (ex_enter_tokens ex)) (length (ex_transacts ex))
       (bool_decide (is_Some (ex_submitted ex))) (w_metrics w))) = (Ok b, w').
Proof.
  unfold process_block. intros Hp. apply st_bind_ok in Hp as (u & w1 & Hm & Hp).
  unfold metered, st_modify in Hm. by injection Hm as _ <-.
Qed.

(** C25: A processed block was executed on the right inputs: the parent is the
    header stored just below the rollup height, the EVM ran on a reader pinned
    at that parent, with the alias set of exactly the contract senders (by an
    oracle that keeps its promise) and without blob transactions, and the
    executed block carries the driver's results and the extracted events. *)
Theorem process_block_inputs `{!LawfulAlias W AE good status} p elapsed ex w b w' :
  good (w_oracle w) ->
  (forall x y, build_executed x = Ok y -> y = x) ->
  process_block p elapsed ex w = (Ok b, w') ->
  exists rd parent rd' to_alias txns result,
    reader (pr_hot p) = Ok rd
    /\ get_header rd (sat_sub (ex_ru_height ex) 1) = Ok (Some parent)
    /\ reader (pr_hot p) = Ok rd'
    /\ drive_block (rd', h_number (sh_header parent)) spec_id ex to_alias txns (sh_header parent)
       = Ok result
    /\ (forall a, a ∈ to_alias <-> a ∈ host_sender <$> ex_transacts ex /\ status (w_oracle w) a = true)
    /\ Forall (fun tx => is_eip4844 tx = false) txns
    /\ (ex_submitted ex = None -> txns = [])
    /\ eb_block_header b = br_header result /\ eb_transactions b = br_transactions result
    /\ eb_receipts b = br_receipts result /\ eb_bundle b = br_bundle result
    /\ eb_signet_events b = signet_events ex /\ eb_zenith_header b = ex_ru_header ex.
Proof.
  intros Hg Hbuild Hp%process_block_ok. apply run_evm_ok in Hp
    as (rd & parent & rd' & txns & w1 & to_alias & w2 & result & metrics
        & Hrd & Hget & Htx & Hal & Hrd' & Hdr & _ & _ & ->%Hbuild).
  apply block_txns_ok in Htx as (Hw1 & _ & Hno & Hnone). cbn [w_oracle] in Hw1.
  apply block_aliases_ok in Hal as [_ Hset]; [|by rewrite Hw1]. rewrite Hw1 in Hset.
  by exists rd, parent, rd', to_alias, txns, result.
Qed.

(** The metrics of a processed block are exact: when the driver puts the
    system transactions behind the user's, a block is processed only if the
    metrics know every system transaction (they panic on any other), and the
    values emitted are the numbers of extracted events, of user transactions
    and of system transactions of each kind, the gas used, and one more block. *)
Theorem process_block_metrics p elapsed ex w b w' user sys :
  (forall x y, build_executed x = Ok y -> y = x) ->
  process_block p elapsed ex w = (Ok b, w') ->
  fst <$> eb_transactions b = user ++ sys ->
  Forall (fun tx => is_user tx = true) user -> Forall (fun tx => is_user tx = false) sys ->
  Forall (fun tx => is_system tx = true) sys
  /\ emitted (w_metrics w')
     = emitted (w_metrics w) ++ (if described (w_metrics w) then [] else BLOCK_DESCRIBE)
       ++ [RecordValue ENTER_EXTRACTS (f64_of_int (Z.of_nat (length (ex_enters ex))));
           RecordValue ENTER_TOKEN_EXTRACTS (f64_of_int (Z.of_nat (length (ex_enter_tokens ex))));
           RecordValue TRANSACT_EXTRACTS (f64_of_int (Z.of_nat (length (ex_transacts ex))));
           Increment (if bool_decide (is_Some (ex_submitted ex)) then BUILDER_BLOCKS_EXTRACTED
                      else HOST_WITHOUT_BUILDER_BLOCK) 1]
       ++ block_result_ops elapsed user sys (h_gas_used (sh_header (eb_block_header b))).
Proof.
  intros Hbuild Hp%process_block_ok Htxs Hu Hs. apply run_evm_ok in Hp
    as (rd & parent & rd' & txns & w1 & to_alias & w2 & result & metrics
        & _ & _ & Htx & Hal & _ & _ & Hrec & -> & ->%Hbuild).
  apply block_txns_ok in Htx as (_ & Hm1 & _). cbn [w_metrics] in Hm1.
  assert (w_metrics w2 = w_metrics w1) as Hm2.
  { unfold block_aliases in Hal. destruct (oracle_aliases _ _) as [r o]. by injection Hal as _ <-. }
  cbn [eb_transactions eb_block_header] in *. rewrite Htxs, Hm2, Hm1 in Hrec.
  rewrite record_block_result_split in Hrec by done.
  destruct (forallb is_system sys) eqn:Hall; [|done]. apply (f_equal snd) in Hrec. cbn [snd] in Hrec. rewrite <- Hrec. split.
  { apply Forall_forall. intros tx Hin. eapply forallb_forall in Hall; [exact Hall|by apply list_elem_of_In]. }
  rewrite emit_all_log by done. unfold record_extracts. cbn [emitted described].
  destruct (bool_decide _); cbn -[block_result_ops BLOCK_DESCRIBE]; by rewrite <- !app_assoc.
Qed.
End processor.
