(* ===== verification/Genesis.v ===== *)
(** * Genesis and node configuration ([crates/genesis], [crates/node-config])

    Where a network's genesis comes from (embedded files, paths, the
    environment), the hardforks active at it, the node's configuration with its
    process-wide genesis, and the choice of the storage backends.  The text of
    the embedded files, the JSON parser, the file system and the environment
    reader are parameters. *)

From S2P Require Import Prelude.
#[local] Open Scope string_scope.
#[local] Open Scope Z_scope.

(** [KnownChains], a third-party enum with these variants. *)
Inductive KnownChains := Mainnet | Parmigiana | Gouda | Pecorino | TestChain.

#[export] Instance KnownChains_eq_dec : EqDecision KnownChains.
Proof. solve_decision. Defined.

(** ** Hardforks *)

(** The flags of [EthereumHardfork] that the code names. *)
Inductive Fork :=
| Frontier | Homestead | Dao | Tangerine | SpuriousDragon | Byzantium | Constantinople | Petersburg
| Istanbul | MuirGlacier | Berlin | London | ArrowGlacier | GrayGlacier | Paris
| Shanghai | Cancun | Prague | Osaka.

#[export] Instance Fork_eq_dec : EqDecision Fork.
Proof. solve_decision. Defined.

(** [EthereumHardfork] as a set of flags [B]. *)
Class HardforkFlags (B : Type) := {
  fork_flag : Fork -> B; fork_empty : B; fork_union : B -> B -> B; fork_contains : B -> Fork -> bool }.
(** What a bit-flag type promises. *)
Class LawfulFlags (B : Type) `{HardforkFlags B} : Prop := {
  contains_empty f : fork_contains fork_empty f = false;
  contains_union b f g : fork_contains (fork_union b (fork_flag g)) f
    = fork_contains b f || bool_decide (f = g) }.

(** The fields of [Genesis] and its chain configuration that the code reads;
    [A] is the rest. *)
Record ChainConfig := mkChainConfig {
  homestead_block : option Z; dao_fork_block : option Z; eip150_block : option Z;
  eip155_block : option Z; byzantium_block : option Z; constantinople_block : option Z;
  petersburg_block : option Z; istanbul_block : option Z; muir_glacier_block : option Z;
  berlin_block : option Z; london_block : option Z; arrow_glacier_block : option Z;
  gray_glacier_block : option Z; merge_netsplit_block : option Z;
  shanghai_time : option Z; cancun_time : option Z; prague_time : option Z; osaka_time : option Z }.
Record Genesis (A : Type) := mkGenesis {
  g_number : option Z; g_timestamp : Z; g_config : ChainConfig; g_rest : A }.
Arguments mkGenesis {A} _ _ _ _.
Arguments g_number {A} _.
Arguments g_timestamp {A} _.
Arguments g_config {A} _.
Arguments g_rest {A} _.

(** [is_some_and(|b| b <= block)]. *)
Definition reached (activation : option Z) (at_ : Z) : bool :=
  match activation with Some b => b <=? at_ | None => false end.

Definition fork_table {A} (genesis : Genesis A) : list (bool * Fork) :=
  let block := default 0 (g_number genesis) in
  let timestamp := g_timestamp genesis in
  let c := g_config genesis in
  let at_block b := reached b block in
  let at_time t := reached t timestamp in
  [(true, Frontier); (at_block (homestead_block c), Homestead); (at_block (dao_fork_block c), Dao);
   (at_block (eip150_block c), Tangerine); (at_block (eip155_block c), SpuriousDragon);
   (at_block (byzantium_block c), Byzantium); (at_block (constantinople_block c), Constantinople);
   (at_block (petersburg_block c), Petersburg); (at_block (istanbul_block c), Istanbul);
   (at_block (muir_glacier_block c), MuirGlacier); (at_block (berlin_block c), Berlin);
   (at_block (london_block c), London); (at_block (arrow_glacier_block c), ArrowGlacier);
   (at_block (gray_glacier_block c), GrayGlacier); (at_block (merge_netsplit_block c), Paris);
   (at_time (shanghai_time c), Shanghai); (at_time (cancun_time c), Cancun);
   (at_time (prague_time c), Prague); (at_time (osaka_time c), Osaka)].

Definition genesis_hardforks {A B} `{HardforkFlags B} (genesis : Genesis A) : B :=
  foldl fork_union fork_empty
    (fork_flag <$> (snd <$> filter (fun p => p.1 = true) (fork_table genesis))).

(** ** Where a genesis comes from *)

(** The embedded files. *)
Inductive GenesisFile :=
| mainnet_genesis | mainnet_host_genesis | pecorino_genesis | pecorino_host_genesis
| local_genesis | local_host_genesis | parmigiana_genesis | parmigiana_host_genesis | gouda_genesis.

(** [include_str!], [serde_json::from_str] and [std::fs::read_to_string];
    [IO] and [JE] are the error types. *)
Class GenesisIO (A IO JE : Type) := {
  include_str : GenesisFile -> string;
  parse_genesis : string -> res JE (Genesis A);
  read_to_string : string -> res IO string }.

Inductive GenesisError (IO JE : Type) := GenesisIo (e : IO) | GenesisJson (e : JE).
Arguments GenesisIo {IO JE} e.
Arguments GenesisJson {IO JE} e.

(** [NetworkGenesis] and [RawNetworkGenesis]. *)
Record Network (X : Type) := mkNetwork { rollup : X; host : X }.
Arguments mkNetwork {X} _ _.
Arguments rollup {X} _.
Arguments host {X} _.

Inductive GenesisSpec := Known (k : KnownChains) | Custom (rollup host : string).

Section genesis.
Context {A IO JE B : Type} `{!GenesisIO A IO JE, !HardforkFlags B}.
Abbreviation GErr := (GenesisError IO JE).

(** The [LazyLock] of an embedded file: parsed on first use, [expect]ing
    success. *)
Definition static_genesis (f : GenesisFile) : res GErr (Genesis A) :=
  match parse_genesis (include_str f) with Ok g => Ok g | _ => Panic end.

(** The [..._GENESIS_HARDFORKS] statics. *)
Definition static_hardforks (f : GenesisFile) : res GErr B :=
  g ← static_genesis f; Ok (genesis_hardforks g).

Definition load_raw_genesis (spec : GenesisSpec) : res GErr (Network string) :=
  match spec with
  | Known Mainnet => Ok (mkNetwork (include_str mainnet_genesis) (include_str mainnet_host_genesis))
  | Known Parmigiana =>
      Ok (mkNetwork (include_str parmigiana_genesis) (include_str parmigiana_host_genesis))
  | Known Gouda => Ok (mkNetwork (include_str gouda_genesis) (include_str parmigiana_host_genesis))
  | Known Pecorino =>
      Ok (mkNetwork (include_str pecorino_genesis) (include_str pecorino_host_genesis))
  | Known TestChain => Ok (mkNetwork (include_str local_genesis) (include_str local_host_genesis))
  | Custom rollup host =>
      r ← map_err GenesisIo (read_to_string rollup);
      h ← map_err GenesisIo (read_to_string host);
      Ok (mkNetwork r h)
  end.

Definition static_network (r h : GenesisFile) : res GErr (Network (Genesis A)) :=
  r ← static_genesis r; h ← static_genesis h; Ok (mkNetwork r h).

Definition load_genesis (spec : GenesisSpec) : res GErr (Network (Genesis A)) :=
  match spec with
  | Known Mainnet => static_network mainnet_genesis mainnet_host_genesis
  | Known Parmigiana => static_network parmigiana_genesis parmigiana_host_genesis
  | Known Gouda => static_network gouda_genesis parmigiana_host_genesis
  | Known Pecorino => static_network pecorino_genesis pecorino_host_genesis
  | Known TestChain => static_network local_genesis local_host_genesis
  | Custom _ _ =>
      genesis ← load_raw_genesis spec;
      r ← map_err GenesisJson (parse_genesis (rollup genesis));
      h ← map_err GenesisJson (parse_genesis (host genesis));
      Ok (mkNetwork r h)
  end.

(** [GenesisSpec::genesis_hardforks]. *)
Definition spec_hardforks (spec : GenesisSpec) : res GErr B :=
  match spec with
  | Known Mainnet => static_hardforks mainnet_genesis
  | Known Parmigiana => static_hardforks parmigiana_genesis
  | Known Gouda => static_hardforks gouda_genesis
  | Known Pecorino => static_hardforks pecorino_genesis
  | Known TestChain => static_hardforks local_genesis
  | Custom _ _ =>
      match load_genesis spec with
      | Ok network => Ok (genesis_hardforks (rollup network))
      | _ => Panic
      end
  end.

(** *** From text and from the environment *)
Context {EE : Type}.
Variable known_from_str : string -> option KnownChains.
(** [parse_env_if_present], for chains and for paths, and
    [FromEnvErr::empty]. *)
Variable parse_known_env : string -> res EE KnownChains.
Variable parse_path_env : string -> res EE string.
Variable empty_err : string -> EE.

(** [FromStr]; the error is [UnknownChainError]. *)
Definition spec_from_str (s : string) : res string GenesisSpec :=
  match known_from_str s with Some known => Ok (Known known) | None => Err s end.

Definition spec_from_env : res EE GenesisSpec :=
  match parse_known_env "CHAIN_NAME" with
  | Ok known => Ok (Known known)
  | Panic => Panic
  | Err _ =>
      rollup ← map_err (fun _ => empty_err "ROLLUP_GENESIS_JSON_PATH")
                 (parse_path_env "ROLLUP_GENESIS_JSON_PATH");
      host ← map_err (fun _ => empty_err "HOST_GENESIS_JSON_PATH")
               (parse_path_env "HOST_GENESIS_JSON_PATH");
      Ok (Custom rollup host)
  end.

(** *** Properties *)

Lemma static_genesis_ok f g : static_genesis f = Ok g <-> parse_genesis (include_str f) = Ok g.
Proof. unfold static_genesis. destruct (parse_genesis _); naive_solver. Qed.

Lemma static_network_ok r h n :
  static_network r h = Ok n <->
  parse_genesis (include_str r) = Ok (rollup n) /\ parse_genesis (include_str h) = Ok (host n).
Proof.
  unfold static_network. split.
  - intros Hn. res_inv. by rewrite <- !static_genesis_ok.
  - rewrite <- !static_genesis_ok. intros [-> Hh]. simpl. rewrite Hh. by destruct n.
Qed.

(** The parsed and the raw genesis of every network, known or custom, are the
    same files: loading succeeds exactly when the raw text loads and both parts
    parse, with the parsed parts as its result. *)
Theorem load_genesis_parses_raw spec n :
  load_genesis spec = Ok n <->
  exists raw, load_raw_genesis spec = Ok raw
    /\ parse_genesis (rollup raw) = Ok (rollup n) /\ parse_genesis (host raw) = Ok (host n).
Proof.
  destruct spec as [k|r h].
  - destruct k; simpl; rewrite static_network_ok;
      (split; [intros ?; by eexists|by intros (raw & [= <-] & ?)]).
  - cbn [load_genesis]. split.
    + intros Hn. res_inv. eexists. split; [done|]. simpl. by split.
    + intros (raw & Hraw & Hr & Hh). rewrite Hraw. simpl. rewrite Hr. simpl. rewrite Hh.
      simpl. by destruct n.
Qed.

(** The hardforks of a network are those of its rollup genesis. *)
Lemma spec_hardforks_of_rollup spec n :
  load_genesis spec = Ok n -> spec_hardforks spec = Ok (genesis_hardforks (rollup n)).
Proof.
  intros Hn. destruct spec as [k|r h].
  - destruct k; apply static_network_ok in Hn as [Hr _]; apply static_genesis_ok in Hr; simpl;
      unfold static_hardforks; by rewrite Hr.
  - cbn [spec_hardforks]. by rewrite Hn.
Qed.

(** A [CHAIN_NAME] that is set but is not a known chain is treated like an unset
    one: the paths decide, and the failure never shows. *)
Lemma bad_chain_name_ignored e :
  parse_known_env "CHAIN_NAME" = Err e ->
  spec_from_env =
    match parse_path_env "ROLLUP_GENESIS_JSON_PATH", parse_path_env "HOST_GENESIS_JSON_PATH" with
    | Ok r, Ok h => Ok (Custom r h)
    | Ok _, Err _ => Err (empty_err "HOST_GENESIS_JSON_PATH")
    | Err _, _ => Err (empty_err "ROLLUP_GENESIS_JSON_PATH")
    | _, _ => Panic
    end.
Proof.
  unfold spec_from_env. intros ->.
  destruct (parse_path_env "ROLLUP_GENESIS_JSON_PATH"); simpl; [|done..].
  by destruct (parse_path_env "HOST_GENESIS_JSON_PATH").
Qed.
End genesis.

(** The hardfork activated by a configuration value, fork by fork. *)
Definition activated {A} (g : Genesis A) (f : Fork) : bool :=
  let c := g_config g in
  let block o := reached o (default 0 (g_number g)) in
  let time o := reached o (g_timestamp g) in
  match f with
  | Frontier => true
  | Homestead => block (homestead_block c)
  | Dao => block (dao_fork_block c)
  | Tangerine => block (eip150_block c)
  | SpuriousDragon => block (eip155_block c)
  | Byzantium => block (byzantium_block c)
  | Constantinople => block (constantinople_block c)
  | Petersburg => block (petersburg_block c)
  | Istanbul => block (istanbul_block c)
  | MuirGlacier => block (muir_glacier_block c)
  | Berlin => block (berlin_block c)
  | London => block (london_block c)
  | ArrowGlacier => block (arrow_glacier_block c)
  | GrayGlacier => block (gray_glacier_block c)
  | Paris => block (merge_netsplit_block c)
  | Shanghai => time (shanghai_time c)
  | Cancun => time (cancun_time c)
  | Prague => time (prague_time c)
  | Osaka => time (osaka_time c)
  end.

Section flags.
Context {A B : Type} `{HardforkFlags B, !LawfulFlags B}.

Lemma contains_flags (l : list (bool * Fork)) f b :
  fork_contains (foldl fork_union b (fork_flag <$> (snd <$> filter (fun p => p.1 = true) l))) f
  = fork_contains b f || existsb (fun p => p.1 && bool_decide (f = p.2)) l.
Proof.
  revert b. induction l as [|[on g] l IH]; intros b.
  - simpl. by rewrite orb_false_r.
  - rewrite filter_cons. cbn [fst existsb snd]. destruct on; simpl.
    + by rewrite IH, contains_union, <- orb_assoc.
    + apply IH.
Qed.

(** The flags derived from a genesis are exactly the hardforks whose activation
    block is at or below its number (0 when absent), or whose activation time is
    at or before its timestamp. *)
Theorem genesis_hardforks_exact (g : Genesis A) f :
  fork_contains (genesis_hardforks g) f = activated g f.
Proof.
  unfold genesis_hardforks. rewrite contains_flags, contains_empty.
  destruct f; cbn; by rewrite ?andb_false_r, ?andb_true_r, ?orb_false_r.
Qed.
End flags.

(** ** The node's configuration ([crates/node-config/src/core.rs]) *)

(** [X] is the block extractor's configuration, [ST] the storage's, [SC] the
    slot calculator. *)
Record SignetNodeConfig (X ST SC : Type) := mkNodeConfig {
  nc_block_extractor : X; nc_storage : ST; nc_forward_url : option string;
  nc_genesis : GenesisSpec; nc_slot_calculator : SC; nc_backfill_max_blocks : option Z }.
Arguments mkNodeConfig {X ST SC} _ _ _ _ _ _.
Arguments nc_block_extractor {X ST SC} _.
Arguments nc_storage {X ST SC} _.
Arguments nc_forward_url {X ST SC} _.
Arguments nc_genesis {X ST SC} _.
Arguments nc_slot_calculator {X ST SC} _.
Arguments nc_backfill_max_blocks {X ST SC} _.

Section config.
Context {A IO JE X ST SC U CE SCon : Type} `{!GenesisIO A IO JE}.
Abbreviation Config := (SignetNodeConfig X ST SC).

Definition SignetNodeConfig_new (block_extractor : X) (storage : ST) (forward_url : option string)
    (genesis : GenesisSpec) (slot_calculator : SC) : Config :=
  mkNodeConfig block_extractor storage forward_url genesis slot_calculator None.

(** [reqwest::Url::parse(..).ok()]. *)
Definition forward_url (parse_url : string -> option U) (c : Config) : option U :=
  nc_forward_url c ≫= parse_url.

(** [genesis()]: the cell is a [static] of the function, one per process and
    not per configuration; a panic leaves it empty. *)
Definition config_genesis (c : Config) : st (option (Genesis A)) (GenesisError IO JE) (Genesis A) :=
  fun once =>
    match once with
    | Some g => (Ok g, once)
    | None =>
        match load_genesis (nc_genesis c) with
        | Ok network => (Ok (rollup network), Some (rollup network))
        | _ => (Panic, None)
        end
    end.

(** [SignetSystemConstants::try_from_genesis(self.genesis())]. *)
Definition config_constants (try_from_genesis : Genesis A -> res CE SCon) (c : Config) :
    st (option (Genesis A)) CE SCon := fun once =>
  match config_genesis c once with
  | (Ok g, once) => (try_from_genesis g, once)
  | (_, once) => (Panic, once)
  end.

Definition backfill_max_blocks (c : Config) : option Z :=
  Some (default 10000 (nc_backfill_max_blocks c)).

(** Once one configuration has given its genesis, every configuration of the
    process gives that one, whatever its own specification says. *)
Lemma first_genesis_wins c1 c2 g once :
  config_genesis c1 None = (Ok g, once) -> config_genesis c2 once = (Ok g, once).
Proof.
  unfold config_genesis at 1. destruct (load_genesis _); [|done..]. by intros [= <- <-].
Qed.

Lemma own_genesis c n : load_genesis (nc_genesis c) = Ok n ->
  config_genesis c None = (Ok (rollup n), Some (rollup n)).
Proof. unfold config_genesis. by intros ->. Qed.
End config.

(** ** The storage backends ([crates/node-config/src/storage.rs])

    [sql_feature] is the build's [postgres] or [sqlite] feature, [Q] its
    connector. *)
Record StorageConfig (Q : Type) := mkStorageConfig {
  stc_hot_path : string; stc_cold_path : string; stc_cold_sql : option Q }.
Arguments mkStorageConfig {Q} _ _ _.
Arguments stc_hot_path {Q} _.
Arguments stc_cold_path {Q} _.
Arguments stc_cold_sql {Q} _.

(** The helper of [Deserialize]. *)
Record StorageHelper := mkHelper {
  hp_hot_path : string; hp_cold_path : string; hp_cold_sql_url : option string;
  hp_max_connections : option Z; hp_min_connections : option Z; hp_acquire_timeout_secs : option Z;
  hp_idle_timeout_secs : option Z; hp_max_lifetime_secs : option Z }.

Inductive StorageBuildError (CE : Type) :=
| ConnectError (e : CE) | SqlFeatureMissing | BothColdSet | NeitherColdSet.
Arguments ConnectError {CE} e.
Arguments SqlFeatureMissing {CE}.
Arguments BothColdSet {CE}.
Arguments NeitherColdSet {CE}.

Section storage.
Context {Q H C CE : Type}.
Variable sql_feature : bool.
(** [SqlConnector::new(url).with_..]: pool sizes and timeouts in seconds. *)
Variable sql_connector : string -> Z -> Z -> Z -> Z -> Z -> Q.

Definition set_url (url : option string) : option string :=
  url ≫= fun u => if String.eqb u "" then None else Some u.

Definition deserialize_storage (helper : StorageHelper) : res string (StorageConfig Q) :=
  let url := set_url (hp_cold_sql_url helper) in
  if sql_feature then
    Ok (mkStorageConfig (hp_hot_path helper) (hp_cold_path helper)
      (fmap (M:=option) (fun u => sql_connector u (default 100 (hp_max_connections helper))
         (default 5 (hp_min_connections helper)) (default 5 (hp_acquire_timeout_secs helper))
         (default 600 (hp_idle_timeout_secs helper)) (default 1800 (hp_max_lifetime_secs helper))) url))
  else
    match url with
    | Some _ => Err "cold_sql_url requires the 'postgres' or 'sqlite' feature"
    | None => Ok (mkStorageConfig (hp_hot_path helper) (hp_cold_path helper) None)
    end.

Definition cold_sql_url (connector_url : Q -> string) (c : StorageConfig Q) : string :=
  if sql_feature then from_option connector_url "" (stc_cold_sql c) else "".

Variable connect_hot : string -> res CE H.
Variable connect_mdbx : string -> res CE C.
Variable connect_sql : Q -> res CE C.

(** Without the feature the environment is asked for the URL. *)
Definition has_sql (env_sql_url : option string) (c : StorageConfig Q) : bool :=
  if sql_feature then match stc_cold_sql c with Some _ => true | None => false end
  else match set_url env_sql_url with Some _ => true | None => false end.

(** The hot database is opened before the choice of the cold one is looked at. *)
Definition build_storage (env_sql_url : option string) (c : StorageConfig Q) :
    res (StorageBuildError CE) (H * C) :=
  hot ← map_err ConnectError (connect_hot (stc_hot_path c));
  let has_mdbx := negb (String.eqb (stc_cold_path c) "") in
  match has_mdbx, has_sql env_sql_url c with
  | true, false => cold ← map_err ConnectError (connect_mdbx (stc_cold_path c)); Ok (hot, cold)
  | false, true =>
      if sql_feature then
        connector ← expect (stc_cold_sql c);
        cold ← map_err ConnectError (connect_sql connector);
        Ok (hot, cold)
      else Err SqlFeatureMissing
  | true, true => Err BothColdSet
  | false, false => Err NeitherColdSet
  end.

(** Storage is only ever built on exactly one configured cold backend, the
    configured one, and building never panics when connecting does not. *)
Theorem build_storage_one_backend env c :
  (forall p, connect_hot p <> Panic) -> (forall p, connect_mdbx p <> Panic) ->
  (forall q, connect_sql q <> Panic) ->
  match build_storage env c with
  | Ok (hot, cold) =>
      connect_hot (stc_hot_path c) = Ok hot
      /\ (stc_cold_path c <> "" /\ connect_mdbx (stc_cold_path c) = Ok cold
           /\ has_sql env c = false
          \/ stc_cold_path c = "" /\ sql_feature = true
             /\ exists q, stc_cold_sql c = Some q /\ connect_sql q = Ok cold)
  | Err BothColdSet => stc_cold_path c <> "" /\ has_sql env c = true
  | Err NeitherColdSet => stc_cold_path c = "" /\ has_sql env c = false
  | Err SqlFeatureMissing => stc_cold_path c = "" /\ sql_feature = false /\ has_sql env c = true
  | Err (ConnectError e) => connect_hot (stc_hot_path c) = Err e
      \/ connect_mdbx (stc_cold_path c) = Err e \/ exists q, stc_cold_sql c = Some q /\ connect_sql q = Err e
  | Panic => False
  end.
Proof.
  intros Hh Hm Hq. unfold build_storage.
  destruct (connect_hot (stc_hot_path c)) as [hot|e|] eqn:Ehot; simpl; [|by left|by destruct (Hh (stc_hot_path c))].
  destruct (String.eqb_spec (stc_cold_path c) "") as [He|He]; simpl;
    destruct (has_sql env c) eqn:Hs; try done.
  - destruct sql_feature eqn:Hf; [|done]. unfold has_sql in Hs. rewrite Hf in Hs.
    destruct (stc_cold_sql c) as [q|]; [|done]. simpl.
    destruct (connect_sql q) eqn:Eq; simpl; [split; [done|]; right; eauto|eauto|by destruct (Hq q)].
  - destruct (connect_mdbx (stc_cold_path c)) eqn:Em; simpl; [|auto|by destruct (Hm (stc_cold_path c))].
    split; [done|]. left. auto.
Qed.
End storage.
