(* ===== verification/Serve.v ===== *)
(** * RPC transports ([crates/rpc/src/serve.rs]) and constant namespaces
    ([crates/rpc/src/net], [crates/rpc/src/web3])

    The transport configuration, its form in the environment, the CORS header,
    and the start and shutdown of the servers.  Binding a socket and parsing an
    address or a header value are parameters; the state is the list of servers
    that are running. *)

From Stdlib Require Import Ascii.
From S2P Require Import Prelude Errors.
#[local] Open Scope string_scope.
#[local] Open Scope Z_scope.

(** [A] is a socket address. *)
Record ServeConfig (A : Type) := mkServe {
  sc_http : list A; sc_http_cors : option string; sc_ws : list A; sc_ws_cors : option string;
  sc_ipc : option string }.
Arguments mkServe {A} _ _ _ _ _.
Arguments sc_http {A} _.
Arguments sc_http_cors {A} _.
Arguments sc_ws {A} _.
Arguments sc_ws_cors {A} _.
Arguments sc_ipc {A} _.

(** [str::split(',')]: at least one piece. *)
Fixpoint split_comma (s : string) : list string :=
  match s with
  | EmptyString => [""]
  | String c s =>
      if Ascii.eqb c ","%char then "" :: split_comma s
      else match split_comma s with [] => [String c ""] | w :: ws => String c w :: ws end
  end.

Inductive CorsDomainError := WildCardNotAllowed (input : string) | InvalidHeader (domain : string).
Inductive ServeError (IO : Type) := ServeIo (e : IO) | ServeCors (e : CorsDomainError).
Arguments ServeIo {IO} e.
Arguments ServeCors {IO} e.

(** [AllowOrigin]; the methods and headers of the layer are fixed. *)
Inductive AllowOrigin (HV : Type) := AnyOrigin | OriginList (l : list HV).
Arguments AnyOrigin {HV}.
Arguments OriginList {HV} l.

Inductive Transport := Http | Ws | Ipc.
#[export] Instance Transport_eq_dec : EqDecision Transport.
Proof. solve_decision. Defined.

(** [RpcServerGuard]: which servers it stops when dropped. *)
Record RpcServerGuard := mkGuard { gd_http : bool; gd_ws : bool; gd_ipc : bool }.

(** [ServeConfigEnv]. *)
Record ServeConfigEnv := mkServeEnv {
  se_http_addr : option string; se_http_port : option Z; se_http_cors : option string;
  se_ws_addr : option string; se_ws_port : option Z; se_ws_cors : option string;
  se_ipc : option string }.

Section serve.
Context {IP HV IO : Type}.
Abbreviation Addr := (IP * Z)%type.
Variable parse_header : string -> option HV.
(** [TcpListener::bind] and the IPC listener. *)
Variable bind : list Addr -> res IO unit.
Variable listen_ipc : string -> res IO unit.
Abbreviation M := (st (list Transport) (ServeError IO)).

Definition make_cors (cors : option string) : res CorsDomainError (AllowOrigin HV) :=
  match cors with
  | None => Ok AnyOrigin
  | Some cors =>
      if String.eqb cors "*" then Ok AnyOrigin
      else if existsb (fun o => String.eqb o "*") (split_comma cors) then Err (WildCardNotAllowed cors)
      else
        origins ← mapM (fun domain => ok_or (parse_header domain) (InvalidHeader domain))
                    (split_comma cors);
        Ok (OriginList origins)
  end.

(** The spawned server runs until it is aborted: dropping a join handle does
    not stop it. *)
Definition spawn (t : Transport) : M unit := st_modify (fun running => (running ++ [t])%list).

Definition bind_and_serve (t : Transport) (addrs : list Addr) : M unit :=
  _ ← st_lift (map_err ServeIo (bind addrs)); spawn t.

(** [serve_axum] and [serve_ws_transport]. *)
Definition serve_tcp (t : Transport) (addrs : list Addr) (cors : option string) : M unit :=
  _ ← st_lift (map_err ServeCors (make_cors cors)); bind_and_serve t addrs.

Definition serve_http (c : ServeConfig Addr) : M bool :=
  match sc_http c with
  | [] => mret false
  | addrs => _ ← serve_tcp Http addrs (sc_http_cors c); mret true
  end.
Definition serve_ws (c : ServeConfig Addr) : M bool :=
  match sc_ws c with
  | [] => mret false
  | addrs => _ ← serve_tcp Ws addrs (sc_ws_cors c); mret true
  end.
Definition serve_ipc (c : ServeConfig Addr) : M bool :=
  match sc_ipc c with
  | None => mret false
  | Some endpoint => _ ← st_lift (map_err ServeIo (listen_ipc endpoint)); _ ← spawn Ipc; mret true
  end.

(** [try_join!] polls its futures in this order, and the first two finish at
    their first poll; the first error drops the rest. *)
Definition serve (c : ServeConfig Addr) : M RpcServerGuard :=
  http ← serve_http c;
  ws ← serve_ws c;
  ipc ← serve_ipc c;
  mret (mkGuard http ws ipc).

(** [Drop for RpcServerGuard], with the IPC server's own guard. *)
Definition guards (g : RpcServerGuard) (t : Transport) : bool :=
  match t with Http => gd_http g | Ws => gd_ws g | Ipc => gd_ipc g end.
Definition drop_guard (g : RpcServerGuard) (running : list Transport) : list Transport :=
  filter (fun t => guards g t = false) running.

(** *** From the environment *)
Variable parse_ip : string -> option IP.

(** One transport: off without a port; the address is only read with one. *)
Definition env_addrs (addr : option string) (port : option Z) : option (list Addr) :=
  match port with
  | None => Some []
  | Some port => ip ← parse_ip (default "0.0.0.0" addr); Some [(ip, port)]
  end.

Definition serve_config_from_env (env : ServeConfigEnv) : option (ServeConfig Addr) :=
  http ← env_addrs (se_http_addr env) (se_http_port env);
  ws ← env_addrs (se_ws_addr env) (se_ws_port env);
  Some (mkServe http (se_http_cors env) ws (se_ws_cors env) (se_ipc env)).

(** *** Properties *)

(** The pieces, joined with commas, are the text. *)
Fixpoint join_comma (l : list string) : string :=
  match l with
  | [] => ""
  | [w] => w
  | w :: ws => String.append w (String ","%char (join_comma ws))
  end.

Lemma split_comma_nonempty s : split_comma s <> [].
Proof. destruct s as [|c s]; simpl; [done|]. destruct (Ascii.eqb c _); [done|]. by destruct (split_comma s). Qed.

Lemma join_split s : join_comma (split_comma s) = s.
Proof.
  induction s as [|c s IH]; simpl; [done|].
  pose proof (split_comma_nonempty s) as Hne.
  destruct (Ascii.eqb_spec c ","%char) as [->|_].
  - destruct (split_comma s); [done|]. simpl in *. by rewrite IH.
  - destruct (split_comma s) as [|w [|w' ws]]; [done|..]; (etransitivity; [|exact (f_equal (String c) IH)]); reflexivity.
Qed.

(** The CORS text is read piece by piece: no text and ["*"] allow any origin;
    otherwise no piece is ["*"] and each is a header value, in the text's order;
    a refused text is refused for a reason found in it. *)
Theorem make_cors_spec cors :
  match make_cors cors with
  | Ok AnyOrigin => cors = None \/ cors = Some "*"
  | Ok (OriginList l) =>
      exists s, cors = Some s /\ s <> "*" /\ ~ "*" ∈ split_comma s
        /\ Forall2 (fun d h => parse_header d = Some h) (split_comma s) l
  | Err (WildCardNotAllowed s) => cors = Some s /\ s <> "*" /\ "*" ∈ split_comma s
  | Err (InvalidHeader d) => exists s, cors = Some s /\ d ∈ split_comma s /\ parse_header d = None
  | Panic => False
  end.
Proof.
  unfold make_cors. destruct cors as [s|]; [|by left].
  destruct (String.eqb_spec s "*") as [->|Hs]; [by right|].
  destruct (existsb _ (split_comma s)) eqn:Hex.
  - apply existsb_exists in Hex as (w & Hw & Heq). apply String.eqb_eq in Heq as ->.
    split; [done|]. split; [done|]. by apply list_elem_of_In.
  - assert (~ "*" ∈ split_comma s) as Hno.
    { intros Hin. apply list_elem_of_In in Hin.
      assert (existsb (fun o => String.eqb o "*") (split_comma s) = true) as Ht
        by (apply existsb_exists; by exists "*").
      congruence. }
    destruct (mapM _ _) as [l|e|] eqn:Hm; simpl.
    + exists s. do 3 (split; [done|]). apply mapM_ok in Hm.
      eapply Forall2_impl; [exact Hm|]. intros d h Hd. by apply ok_or_ok in Hd.
    + apply mapM_err in Hm as (d & Hd & He). destruct (parse_header d) eqn:Hp; [done|].
      injection He as <-. eauto.
    + apply mapM_panic in Hm as (d & _ & He). by destruct (parse_header d).
Qed.

(** The transports a configuration asks for, in the order they start. *)
Definition part (t : Transport) (c : ServeConfig Addr) : list Transport :=
  match t with
  | Http => match sc_http c with [] => [] | _ => [Http] end
  | Ws => match sc_ws c with [] => [] | _ => [Ws] end
  | Ipc => match sc_ipc c with None => [] | Some _ => [Ipc] end
  end.
Definition configured (c : ServeConfig Addr) : list Transport :=
  (part Http c ++ part Ws c ++ part Ipc c)%list.

#[local] Arguments part _ _ : simpl never.

Section outcomes.
Hypothesis bind_no_panic : forall a, bind a <> Panic.
Hypothesis listen_no_panic : forall e, listen_ipc e <> Panic.

(** Why a configured transport does not start: its CORS text is refused, or its
    listener is. *)
Definition tcp_fails (addrs : list Addr) (cors : option string) (e : ServeError IO) : Prop :=
  addrs <> [] /\ ((exists x, make_cors cors = Err x /\ e = ServeCors x)
                 \/ (exists a x, make_cors cors = Ok a /\ bind addrs = Err x /\ e = ServeIo x)).
Definition fails (t : Transport) (c : ServeConfig Addr) (e : ServeError IO) : Prop :=
  match t with
  | Http => tcp_fails (sc_http c) (sc_http_cors c) e
  | Ws => tcp_fails (sc_ws c) (sc_ws_cors c) e
  | Ipc => exists endpoint x, sc_ipc c = Some endpoint /\ listen_ipc endpoint = Err x /\ e = ServeIo x
  end.

(** One transport either runs, or fails and changes nothing. *)
Definition outcome (t : Transport) (c : ServeConfig Addr) (running : list Transport)
    (o : res (ServeError IO) bool * list Transport) : Prop :=
  match o with
  | (Ok b, running') => running' = (running ++ part t c)%list /\ (part t c = if b then [t] else [])
      /\ forall e, ~ fails t c e
  | (Err e, running') => part t c = [t] /\ running' = running /\ fails t c e
  | (Panic, _) => False
  end.

Lemma serve_tcp_outcome t addrs cors running :
  addrs <> [] ->
  match serve_tcp t addrs cors running with
  | (Ok _, running') => running' = (running ++ [t])%list /\ forall e, ~ tcp_fails addrs cors e
  | (Err e, running') => running' = running /\ tcp_fails addrs cors e
  | (Panic, _) => False
  end.
Proof.
  intros Hne. unfold serve_tcp, bind_and_serve, spawn, st_modify, st_lift, mbind, st_bind, tcp_fails.
  pose proof (make_cors_spec cors) as Hc. destruct (make_cors cors) as [o|x|]; simpl; [|by eauto 10|done].
  pose proof (bind_no_panic addrs). destruct (bind addrs) as [u|x|]; simpl; [|by eauto 10|done].
  split; [done|]. intros e [_ [(x & Hx & _)|(a & x & _ & Hx & _)]]; discriminate.
Qed.

Ltac tcp_outcome addrs H :=
  unfold outcome, fails, part;
  let a := fresh "a" in let l := fresh "l" in
  destruct addrs as [|a l];
  [simpl; rewrite app_nil_r; split; [done|]; split; [done|]; by intros ? [? _]|];
  unfold mbind, st_bind; pose proof (H a l) as Ht;
  destruct (serve_tcp _ _ _ _) as [[[]|?|] ?]; [by destruct Ht as [-> ?]|by destruct Ht|done].
Lemma serve_http_outcome c running : outcome Http c running (serve_http c running).
Proof.
  unfold serve_http.
  tcp_outcome (sc_http c) (fun a l => serve_tcp_outcome Http (a :: l) (sc_http_cors c) running ltac:(discriminate)).
Qed.
Lemma serve_ws_outcome c running : outcome Ws c running (serve_ws c running).
Proof.
  unfold serve_ws.
  tcp_outcome (sc_ws c) (fun a l => serve_tcp_outcome Ws (a :: l) (sc_ws_cors c) running ltac:(discriminate)).
Qed.
Lemma serve_ipc_outcome c running : outcome Ipc c running (serve_ipc c running).
Proof.
  unfold serve_ipc, outcome, fails, part.
  destruct (sc_ipc c) as [e|]; [|simpl; rewrite app_nil_r; split_and!; [done..|]; by intros e (? & ? & ? & _)].
  pose proof (listen_no_panic e). unfold spawn, st_modify, st_lift, mbind, st_bind.
  destruct (listen_ipc e) as [u|x|] eqn:Hl; simpl; [|by eauto 10|done].
  split_and!; [done..|]. intros e' (? & x & [= <-] & Hx & _). congruence.
Qed.

(** C40: A start either runs exactly the configured transports, none of which is
    refused, and its guard stops each of them and no other; or it fails with the
    error of the first transport that is refused: the configured ones before it
    are left running, with no guard to stop them, and it and those after it do
    not run. *)
Theorem serve_outcomes c running :
  match serve c running with
  | (Ok g, running') => running' = (running ++ configured c)%list
      /\ (forall t, guards g t = bool_decide (t ∈ configured c))
      /\ (forall t e, ~ fails t c e)
      /\ (running = [] -> drop_guard g running' = [])
  | (Err e, running') => exists before t after,
      configured c = (before ++ t :: after)%list /\ fails t c e
      /\ (forall t' e', t' ∈ before -> ~ fails t' c e')
      /\ running' = (running ++ before)%list
  | (Panic, _) => False
  end.
Proof.
  unfold serve, configured. unfold mbind at 1, st_bind at 1.
  assert (forall t t' (Q : Prop), (forall e, ~ fails t c e) -> t' ∈ part t c -> forall e', fails t' c e' -> Q) as Hno.
  { intros t t' Q Hf Ht e' He. exfalso. apply (Hf e').
    assert (t' = t) as <-; [|done]. unfold part in Ht. destruct t;
      repeat case_match; try (by apply not_elem_of_nil in Ht); by apply list_elem_of_singleton in Ht. }
  pose proof (serve_http_outcome c running) as Hh.
  destruct (serve_http c running) as [[h|e|] r1]; simpl in Hh; [|exists [], Http, (part Ws c ++ part Ipc c)%list|done].
  2:{ destruct Hh as (-> & -> & Hf). rewrite app_nil_r. split_and!; [done|done| |done].
      intros t' e' Ht. by apply not_elem_of_nil in Ht. }
  destruct Hh as (-> & Hh & Fh). unfold mbind at 1, st_bind at 1.
  pose proof (serve_ws_outcome c (running ++ part Http c)%list) as Hw.
  destruct (serve_ws c _) as [[w|e|] r2]; simpl in Hw; [|exists (part Http c), Ws, (part Ipc c)|done].
  2:{ destruct Hw as (-> & -> & Hf). split_and!; [done|done| |done].
      intros t' e' Ht He. by eapply (Hno Http t'). }
  destruct Hw as (-> & Hw & Fw). unfold mbind at 1, st_bind at 1.
  pose proof (serve_ipc_outcome c ((running ++ part Http c) ++ part Ws c)%list) as Hi.
  destruct (serve_ipc c _) as [[i|e|] r3]; simpl in Hi; [|exists (part Http c ++ part Ws c)%list, Ipc, []|done].
  2:{ destruct Hi as (-> & -> & Hf). split_and!; [by rewrite app_assoc|done| |by rewrite app_assoc].
      intros t' e' [Ht|Ht]%elem_of_app He; [by eapply (Hno Http t')|by eapply (Hno Ws t')]. }
  destruct Hi as (-> & Hi & Fi). split; [by rewrite !app_assoc|]. rewrite Hh, Hw, Hi.
  split; [intros t; destruct t, h, w, i; reflexivity|]. split; [by intros []|].
  intros ->. by destruct h, w, i.
Qed.
End outcomes.
End serve.

(** ** The constant namespaces ([net], [web3]) *)
Definition net_version {CE SE HE} `{Display CE SE HE} (chain_id : Z) : string := show_u64 chain_id.
Definition net_listening : bool := true.
(** The package version and the operating system are the build's. *)
Definition client_version (version os : string) : string := "signet/v" ++ version ++ "/" ++ os.
Definition web3_sha3 (keccak256 : list Z -> Z) (data : list Z) : Z := keccak256 data.
