(* ===== verification/RpcStart.v ===== *)
(** * The RPC server's context, methods and start

    The shared context ([crates/rpc/src/config/ctx.rs]), its cleaner threads
    ([crates/rpc/src/interest]), the constant and subscription endpoints, the
    method tables ([*/mod.rs], [lib.rs]) and the start of the server by the
    node ([crates/node/src/rpc.rs]). *)

From Stdlib Require Import Ascii String.
From S2P Require Import Prelude Primitives BlockTags Interest ChainNotifier Subs Filters RpcConfig Errors.
From S2P Require Import Storage GasOracle EthCall Serve.

(** ** Constant and tag endpoints of [eth] *)
Inductive SyncingResponse :=
| NotSyncing (b : bool)
| Syncing (starting_block current_block highest_block : Z).

Definition syncing (tags : BlockTags) : SyncingResponse :=
  match sync_status tags with
  | Some status => Syncing (starting_block status) (current_block status) (highest_block status)
  | None => NotSyncing false
  end.

Definition uncle_count : Z := 0.
Definition uncle_block : option unit := None.
Definition protocol_version : string := "0x44".
Definition block_number (tags : BlockTags) : Z := latest tags.

Section endpoints.
Context {CE SE HE F : Type}.
Abbreviation EthErr := (EthError CE SE HE).

(** [eth_subscribe] and [eth_unsubscribe]. *)
Definition eth_subscribe (notifications_enabled : bool) (kind : SubscriptionKind) (filter : option F)
    (m : SubscriptionManager) : res EthErr Z * SubscriptionManager :=
  match interest_of_args kind filter with
  | Ok interest =>
      let '(r, m) := subscribe notifications_enabled interest m in
      (ok_or (fst <$> r) (EthInternal "notifications not enabled on this transport"), m)
  | Err e => (Err e, m)
  | Panic => (Panic, m)
  end.

(** A task that is lost may have run all the same ([ran]). *)
Definition eth_unsubscribe (fate : task_fate) (ran : bool) (id : Z) (m : SubscriptionManager) :
    res EthErr bool * SubscriptionManager :=
  let '(b, m') := unsubscribe id m in
  (await_handler fate (Ok b) task_panic,
   match fate with Finished => m' | Cancelled => if ran then m' else m end).
End endpoints.

(** ** The shared context ([StorageRpcCtx]) *)
Section context.
Context {ST KC CC TX T R F L : Type}.

(** [StorageRpcCtxInner]. *)
Record StorageRpcCtxInner := mkCtxInner {
  in_storage : ST;
  in_constants : KC;
  in_chain_config : CC;
  in_chain : ChainNotifier T R L;
  in_tx_cache : option TX;
  in_config : StorageRpcConfig;
  in_tracing_permits : nat;
  in_filters : FilterManager F;
  in_subs : SubscriptionManager;
  in_gas_cache : GasOracleCache }.

(** The threads a context starts: [FilterCleanTask] and [SubCleanerTask]. *)
Inductive CleanTask :=
| FilterCleanTask (sleep age_limit : Z)
| SubCleanerTask (interval : Z).

(** [FilterManager::new] and [SubscriptionManager::new]. *)
Definition filter_manager_new (clean_interval age_limit : Z) : FilterManager F * CleanTask :=
  (FilterManager_new, FilterCleanTask clean_interval age_limit).
Definition sub_manager_new (clean_interval : Z) : SubscriptionManager * CleanTask :=
  (SubscriptionManager_new, SubCleanerTask clean_interval).

(** [StorageRpcCtx::new], with the threads it spawns. *)
Definition StorageRpcCtx_new (storage : ST) (constants : KC) (chain_config : CC)
    (chain : ChainNotifier T R L) (tx_cache : option TX) (config : StorageRpcConfig) :
    StorageRpcCtxInner * list CleanTask :=
  let tracing_permits := Z.to_nat (max_tracing_requests config) in
  let '(filters, t1) := filter_manager_new (stale_filter_ttl config) (stale_filter_ttl config) in
  let '(subs, t2) := sub_manager_new (stale_filter_ttl config) in
  (mkCtxInner storage constants chain_config chain tx_cache config tracing_permits filters subs GasOracleCache_new,
   [t1; t2]).
End context.
Arguments StorageRpcCtxInner : clear implicits.

(** ** The cleaner threads

    One wake-up per element: its time, what the handlers did to the table since
    the one before, and whether the manager still exists. *)
Section cleaners.
Context {F : Type}.

Fixpoint filter_clean_loop (age_limit : Z)
    (wakes : list (Z * (FilterManager F -> FilterManager F) * bool)) (m : FilterManager F) :
    FilterManager F :=
  match wakes with
  | [] => m
  | (now, others, alive) :: wakes =>
      let m := others m in
      if alive : bool then filter_clean_loop age_limit wakes (clean_stale now age_limit m) else m
  end.

Fixpoint sub_clean_loop (wakes : list ((SubscriptionManager -> SubscriptionManager) * bool))
    (m : SubscriptionManager) : SubscriptionManager :=
  match wakes with
  | [] => m
  | (others, alive) :: wakes =>
      let m := others m in
      if alive : bool then sub_clean_loop wakes (clean_cancelled m) else m
  end.

(** The handlers leave a filter alone: nobody polls or removes it. *)
Definition leaves (id : Z) (others : FilterManager F -> FilterManager F) : Prop :=
  forall m, fm_filters (others m) !! id = fm_filters m !! id.

Lemma clean_stale_lookup now age_limit (m : FilterManager F) id :
  fm_filters (clean_stale now age_limit m) !! id
    = a ← fm_filters m !! id; (if decide (time_since_last_poll now a < age_limit) then Some a else None).
Proof.
  unfold clean_stale. simpl. rewrite map_lookup_filter. destruct (fm_filters m !! id) as [a|]; [|done].
  simpl. by repeat case_decide || case_guard.
Qed.

Lemma filter_clean_gone age_limit wakes m id :
  Forall (fun w => leaves id w.1.2) wakes -> fm_filters m !! id = None ->
  fm_filters (filter_clean_loop age_limit wakes m) !! id = None.
Proof.
  intros Hw. revert m. induction Hw as [|[[now o] al] wakes Hl _ IH]; intros m Hn; [done|]. simpl in *.
  destruct al; [|by rewrite Hl]. apply IH. by rewrite clean_stale_lookup, Hl, Hn.
Qed.

(** A filter nobody polls lives exactly until the first wake-up at which it has
    not been polled for [age_limit]: after a run of wake-ups it is in the table
    if and only if it was younger at every one of them, and has been removed
    otherwise. *)
Lemma filter_lifetime_eq age_limit wakes m id a :
  Forall (fun w => leaves id w.1.2 /\ w.2 = true) wakes -> fm_filters m !! id = Some a ->
  fm_filters (filter_clean_loop age_limit wakes m) !! id
    = if decide (Forall (fun w => time_since_last_poll w.1.1 a < age_limit) wakes) then Some a else None.
Proof.
  intros Hw. revert m. induction Hw as [|[[now o] al] wakes [Hl Hal] Hw IH]; intros m Ha; cbn [filter_clean_loop].
  { by rewrite decide_True by constructor. }
  simpl in Hl, Hal. subst al. pose proof (clean_stale_lookup now age_limit (o m) id) as Hc. rewrite Hl, Ha in Hc. simpl in Hc.
  destruct (decide (time_since_last_poll now a < age_limit)) as [Hy|Ho].
  - rewrite (IH (clean_stale now age_limit (o m)) Hc). apply decide_ext. rewrite Forall_cons. tauto.
  - rewrite decide_False by (rewrite Forall_cons; tauto). apply filter_clean_gone; [|done].
    eapply Forall_impl; [exact Hw|]. by intros w [? _].
Qed.

(** The loop of [FilterCleanTask] sleeps [sleep] between wake-ups that each
    take some time: [wakes] starts at [t0] with no two wake-ups, nor [t0] and
    the first, more than [gap] apart. *)
Fixpoint paced (gap t0 : Z) (wakes : list (Z * (FilterManager F -> FilterManager F) * bool)) : Prop :=
  match wakes with
  | [] => True
  | (now, _, _) :: wakes => t0 <= now <= t0 + gap /\ paced gap now wakes
  end.

Lemma paced_reaches gap t0 wakes t :
  paced gap t0 wakes -> t0 <= t -> (exists w, w ∈ wakes /\ t <= w.1.1) ->
  exists w, w ∈ wakes /\ t <= w.1.1 <= t + gap.
Proof.
  revert t0. induction wakes as [|[[now o] al] wakes IH]; intros t0 Hp Ht (w & Hw & Hle).
  { by apply not_elem_of_nil in Hw. }
  destruct Hp as [Hnow Hp]. destruct (Z.le_gt_cases t now) as [Hge|Hlt].
  - exists (now, o, al). split; [left|]. simpl. lia.
  - apply elem_of_cons in Hw as [->|Hw]; [simpl in Hle; lia|].
    destruct (IH now Hp ltac:(lia)) as (w' & Hw' & ?); [by exists w|]. exists w'. split; [by right|done].
Qed.

(** An abandoned filter does not stay: when the thread still wakes up
    [age_limit] after the filter's last poll, the filter is gone, and the
    wake-up that removes it comes at most [gap] after that. *)
Theorem abandoned_filter_collected age_limit gap t0 wakes m id a :
  Forall (fun w => leaves id w.1.2 /\ w.2 = true) wakes -> fm_filters m !! id = Some a ->
  paced gap t0 wakes -> t0 <= af_last_poll_time a + age_limit ->
  (exists w, w ∈ wakes /\ af_last_poll_time a + age_limit <= w.1.1) ->
  fm_filters (filter_clean_loop age_limit wakes m) !! id = None
  /\ exists w, w ∈ wakes /\ 0 <= w.1.1 - (af_last_poll_time a + age_limit) <= gap
       /\ age_limit <= time_since_last_poll w.1.1 a.
Proof.
  intros Hw Ha Hp Ht He. destruct (paced_reaches _ _ _ _ Hp Ht He) as (w & Hin & Hb). split.
  - rewrite (filter_lifetime_eq _ _ _ _ _ Hw Ha). rewrite decide_False; [done|].
    rewrite Forall_forall. intros Hall. specialize (Hall _ Hin). unfold time_since_last_poll in Hall. lia.
  - exists w. split; [done|]. unfold time_since_last_poll. lia.
Qed.

(** The subscription cleaner drops what was cancelled before its last wake-up
    and nothing that is alive. *)
Lemma sub_clean_loop_keeps wakes m id t :
  Forall (fun w => forall m, sm_tasks (w.1 m) !! id = sm_tasks m !! id /\
                             (t ∉ sm_cancelled m -> t ∉ sm_cancelled (w.1 m))) wakes ->
  sm_tasks m !! id = Some t -> t ∉ sm_cancelled m ->
  sm_tasks (sub_clean_loop wakes m) !! id = Some t.
Proof.
  intros Hw. revert m. induction Hw as [|[o al] wakes Ho _ IH]; intros m Ht Hc; [done|]. simpl.
  destruct (Ho m) as [H1 H2]. simpl in H1, H2. destruct al; [|by rewrite H1].
  apply IH; [|by apply H2]. apply map_lookup_filter_Some. split; [by rewrite H1|by apply H2].
Qed.
End cleaners.

(** ** The method tables

    [ajj::Router]s as lists of routes; [nest] prefixes the names of a
    namespace.  A handler is the source's function, with the kind of block
    identifier it is instantiated at. *)
Local Open Scope string_scope.
Inductive IdKind := ByHash | ByNumber.
Inductive EthHandler :=
| H_block_number | H_chain_id | H_block (k : IdKind) | H_block_tx_count (k : IdKind) | H_block_receipts
| H_raw_transaction_by_hash | H_transaction_by_hash | H_raw_transaction_by_block_and_index (k : IdKind)
| H_transaction_by_block_and_index (k : IdKind) | H_transaction_receipt | H_header_by (k : IdKind)
| H_balance | H_storage_at | H_addr_tx_count | H_code_at | H_call | H_estimate_gas
| H_send_raw_transaction | H_get_logs | H_syncing | H_gas_price | H_max_priority_fee_per_gas
| H_fee_history | H_create_access_list | H_new_filter | H_new_block_filter | H_uninstall_filter
| H_get_filter_changes | H_subscribe | H_unsubscribe | H_uncle_count | H_uncle_block | H_protocol_version.
Inductive DebugHandler :=
| D_trace_block (k : IdKind) | D_trace_transaction | D_trace_block_rlp | D_get_raw_block | D_get_raw_header
| D_get_raw_receipts | D_get_raw_transaction | D_debug_trace_call.
Inductive TraceHandler :=
| T_trace_block | T_trace_transaction | T_replay_block_transactions | T_replay_transaction | T_trace_call
| T_trace_call_many | T_trace_raw_transaction | T_trace_get | T_trace_filter.
Inductive Handler :=
| Eth (h : EthHandler) | DebugNs (h : DebugHandler) | TraceNs (h : TraceHandler)
| SignetSendOrder | SignetCallBundle | Web3ClientVersion | Web3Sha3 | NetVersion | NetListening.

Definition eth : list (string * EthHandler) := [
  ("blockNumber", H_block_number);
  ("chainId", H_chain_id);
  ("getBlockByHash", H_block ByHash);
  ("getBlockByNumber", H_block ByNumber);
  ("getBlockTransactionCountByHash", H_block_tx_count ByHash);
  ("getBlockTransactionCountByNumber", H_block_tx_count ByNumber);
  ("getBlockReceipts", H_block_receipts);
  ("getRawTransactionByHash", H_raw_transaction_by_hash);
  ("getTransactionByHash", H_transaction_by_hash);
  ("getRawTransactionByBlockHashAndIndex", H_raw_transaction_by_block_and_index ByHash);
  ("getRawTransactionByBlockNumberAndIndex", H_raw_transaction_by_block_and_index ByNumber);
  ("getTransactionByBlockHashAndIndex", H_transaction_by_block_and_index ByHash);
  ("getTransactionByBlockNumberAndIndex", H_transaction_by_block_and_index ByNumber);
  ("getTransactionReceipt", H_transaction_receipt);
  ("getBlockHeaderByHash", H_header_by ByHash);
  ("getBlockHeaderByNumber", H_header_by ByNumber);
  ("getBalance", H_balance);
  ("getStorageAt", H_storage_at);
  ("getTransactionCount", H_addr_tx_count);
  ("getCode", H_code_at);
  ("call", H_call);
  ("estimateGas", H_estimate_gas);
  ("sendRawTransaction", H_send_raw_transaction);
  ("getLogs", H_get_logs);
  ("syncing", H_syncing);
  ("gasPrice", H_gas_price);
  ("maxPriorityFeePerGas", H_max_priority_fee_per_gas);
  ("feeHistory", H_fee_history);
  ("createAccessList", H_create_access_list);
  ("newFilter", H_new_filter);
  ("newBlockFilter", H_new_block_filter);
  ("uninstallFilter", H_uninstall_filter);
  ("getFilterChanges", H_get_filter_changes);
  ("getFilterLogs", H_get_filter_changes);
  ("subscribe", H_subscribe);
  ("unsubscribe", H_unsubscribe);
  ("getUncleCountByBlockHash", H_uncle_count);
  ("getUncleCountByBlockNumber", H_uncle_count);
  ("getUncleByBlockHashAndIndex", H_uncle_block);
  ("getUncleByBlockNumberAndIndex", H_uncle_block);
  ("protocolVersion", H_protocol_version)].

Definition debug : list (string * DebugHandler) := [
  ("traceBlockByNumber", D_trace_block ByNumber);
  ("traceBlockByHash", D_trace_block ByHash);
  ("traceTransaction", D_trace_transaction);
  ("traceBlock", D_trace_block_rlp);
  ("getRawBlock", D_get_raw_block);
  ("getRawHeader", D_get_raw_header);
  ("getRawReceipts", D_get_raw_receipts);
  ("getRawTransaction", D_get_raw_transaction);
  ("traceCall", D_debug_trace_call)].

Definition trace : list (string * TraceHandler) := [
  ("block", T_trace_block);
  ("transaction", T_trace_transaction);
  ("replayBlockTransactions", T_replay_block_transactions);
  ("replayTransaction", T_replay_transaction);
  ("call", T_trace_call);
  ("callMany", T_trace_call_many);
  ("rawTransaction", T_trace_raw_transaction);
  ("get", T_trace_get);
  ("filter", T_trace_filter)].

Definition signet : list (string * Handler) :=
  [("sendOrder", SignetSendOrder); ("callBundle", SignetCallBundle)].
Definition web3 : list (string * Handler) := [("clientVersion", Web3ClientVersion); ("sha3", Web3Sha3)].
Definition net : list (string * Handler) := [("version", NetVersion); ("listening", NetListening)].

Definition nest {A} (ns : string) (f : A -> Handler) (routes : list (string * A)) : list (string * Handler) :=
  (fun '(name, h) => (ns ++ "_" ++ name, f h)) <$> routes.

(** [signet_rpc::router]. *)
Definition router : list (string * Handler) :=
  (nest "eth" Eth eth ++ nest "debug" DebugNs debug ++ nest "trace" TraceNs trace
   ++ nest "signet" id signet ++ nest "web3" id web3 ++ nest "net" id net)%list.

Definition method (name : string) : option Handler := snd <$> find_first (fun r => String.eqb r.1 name) router.

(** The lists of the README: a name that ends in an asterisk or has one inside
    stands for its instances, written out here. *)
Definition documented : list string := (fun n => "eth_" ++ n) <$> [
  "blockNumber"; "getBlockByHash"; "getBlockByNumber"; "getBlockTransactionCountByHash";
  "getBlockTransactionCountByNumber"; "getBlockReceipts"; "getBlockHeaderByHash";
  "getBlockHeaderByNumber"; "getTransactionByHash"; "getTransactionReceipt";
  "getTransactionByBlockHashAndIndex"; "getTransactionByBlockNumberAndIndex"; "getRawTransactionByHash";
  "getRawTransactionByBlockHashAndIndex"; "getRawTransactionByBlockNumberAndIndex"; "getBalance";
  "getStorageAt"; "getCode"; "getTransactionCount"; "call"; "estimateGas"; "createAccessList"; "gasPrice";
  "maxPriorityFeePerGas"; "feeHistory"; "getLogs"; "newFilter"; "newBlockFilter"; "getFilterChanges";
  "getFilterLogs"; "uninstallFilter"; "subscribe"; "unsubscribe"; "sendRawTransaction";
  "getUncleCountByBlockHash"; "getUncleCountByBlockNumber"; "getUncleByBlockHashAndIndex";
  "getUncleByBlockNumberAndIndex"; "chainId"; "syncing"].
Definition unsupported : list string := (fun n => "eth_" ++ n) <$> [
  "getWork"; "hashrate"; "mining"; "submitHashrate"; "submitWork"; "accounts"; "sign"; "signTransaction";
  "signTypedData"; "sendTransaction"; "blobBaseFee"; "protocolVersion"; "getProof";
  "newPendingTransactionFilter"; "coinbase"].

(** No method name is routed twice, every documented method is served, and of
    those documented as unsupported exactly [eth_protocolVersion] is served all
    the same. *)
Theorem router_methods :
  NoDup router.*1
  /\ Forall (fun name => is_Some (method name)) documented
  /\ filter (fun name => is_Some (method name)) unsupported = ["eth_protocolVersion"]
  /\ method "eth_getFilterLogs" = method "eth_getFilterChanges".
Proof.
  split; [|split; [|split; [vm_compute; reflexivity|reflexivity]]].
  - apply (bool_decide_unpack _). vm_compute. exact I.
  - repeat constructor; vm_compute; by eexists.
Qed.

(** ** The node starts the server ([launch_rpc], [start_rpc]) *)
Section launch.
Context {IP HV IO : Type} {ST KC CC U TX T R F L : Type}.
Variable parse_header : string -> option HV.
Variable bind : list (IP * Z) -> res IO unit.
Variable listen_ipc : string -> res IO unit.
Variable tx_cache_new : U -> TX.

(** The parts of the node the start reads. *)
Record RpcInputs := mkRpcInputs {
  ri_forward_url : option U;
  ri_storage : ST;
  ri_constants : KC;
  ri_chain_config : CC;
  ri_chain : ChainNotifier T R L;
  ri_rpc_config : StorageRpcConfig;
  ri_serve_config : ServeConfig (IP * Z) }.

(** The context handed to the router. *)
Definition rpc_ctx (n : RpcInputs) : StorageRpcCtxInner ST KC CC TX T R F L * list CleanTask :=
  StorageRpcCtx_new (ri_storage n) (ri_constants n) (ri_chain_config n) (ri_chain n)
    (tx_cache_new <$> ri_forward_url n) (ri_rpc_config n).

Definition launch_rpc (n : RpcInputs) :
    st (list Transport) (ServeError IO) (RpcServerGuard * StorageRpcCtxInner ST KC CC TX T R F L) :=
  let '(ctx, _) := rpc_ctx n in
  guard ← serve parse_header bind listen_ipc (ri_serve_config n); mret (guard, ctx).

(** [start_rpc] on the node's [rpc_handle] and the transports that run. *)
Definition start_rpc (n : RpcInputs) :
    st (list Transport * option RpcServerGuard) (ServeError IO) unit := fun '(running, handle) =>
  match launch_rpc n running with
  | (Ok (guard, _), running) => (Ok tt, (running, Some guard))
  | (Err e, running) => (Err e, (running, handle))
  | (Panic, running) => (Panic, (running, handle))
  end.

(** What a request handler finds in a context that was just started: the node's
    own chain notifier and storage, nothing installed, the configured number of
    tracing permits, and a gas oracle cache that answers for no block. *)
Lemma fresh_context n ctx threads :
  rpc_ctx n = (ctx, threads) ->
  in_chain ctx = ri_chain n /\ in_storage ctx = ri_storage n
  /\ fm_filters (in_filters ctx) = ∅ /\ sm_tasks (in_subs ctx) = ∅
  /\ in_tracing_permits ctx = Z.to_nat (max_tracing_requests (ri_rpc_config n))
  /\ (forall b, b < max64 -> cache_get b (in_gas_cache ctx) = None)
  /\ threads = [FilterCleanTask (stale_filter_ttl (ri_rpc_config n)) (stale_filter_ttl (ri_rpc_config n));
                SubCleanerTask (stale_filter_ttl (ri_rpc_config n))]%list.
Proof.
  intros [= <- <-]. simpl. do 4 (split; [done|]). split; [done|]. split; [|done].
  intros b Hb. unfold cache_get. cbn [gc_block gc_tip GasOracleCache_new].
  rewrite (proj2 (Z.eqb_neq _ _)); [done|lia].
Qed.

(** A failed start keeps the guard the node had. *)
Lemma start_rpc_handle n running handle r s' :
  start_rpc n (running, handle) = (r, s') ->
  match r with
  | Ok _ => exists guard, s'.2 = Some guard
      /\ (exists c, launch_rpc n running = (Ok (guard, c), s'.1))
  | _ => s'.2 = handle
  end.
Proof.
  unfold start_rpc. destruct (launch_rpc n running) as [[[g c]|e|] run'] eqn:Hl; intros [= <- <-]; [|done..].
  exists g. split; [done|]. by exists c.
Qed.
End launch.
