(* ===== verification/HostReth.v ===== *)
(** * The Reth host ([crates/host-reth])

    The ExEx notifier: backfill batches read from the host's database
    ([backfill.rs]), the unified chain type ([chain.rs]), the switch to live
    notifications ([notifier.rs]) and the configuration taken from Reth's
    arguments ([config.rs]).  Reth's provider, notification stream and chain are
    parameters. *)

From S2P Require Import Prelude HostTypes Primitives Float64 RpcConfig Serve.

(** [DEFAULT_BATCH_SIZE]. *)
Definition DEFAULT_BATCH_SIZE : Z := 1000.

(** [RethHostError]. *)
Inductive RethHostError (NE PE : Type) :=
| RethNotification (e : NE) | RethProviderError (e : PE) | RethEventSend
| RethMissingHeader (n : Z) | RethMissingBlock (n : Z) | RethMissingReceipts (n : Z).
Arguments RethNotification {NE PE} e.
Arguments RethProviderError {NE PE} e.
Arguments RethEventSend {NE PE}.
Arguments RethMissingHeader {NE PE} n.
Arguments RethMissingBlock {NE PE} n.
Arguments RethMissingReceipts {NE PE} n.

(** Reth's provider, with state [P]: the reads the code makes.  [K] is Reth's
    recovered block, [R] its receipt. *)
Class RethProvider (P PE K R : Type) := {
  finalized_number : P -> res PE (option Z) * P;
  safe_number : P -> res PE (option Z) * P;
  sealed_header : Z -> P -> res PE (option SealedHeader) * P;
  recovered_block : Z -> P -> res PE (option K) * P;
  receipts_by_block : Z -> P -> res PE (option (list R)) * P;
  reth_number : K -> Z;
  reth_hash : K -> B256 }.

(** Reth's live chain, never empty. *)
Class LiveChain (LC K R : Type) := {
  live_blocks : LC -> list (K * list R);
  live_first : LC -> Z;
  live_tip : LC -> Z;
  live_len : LC -> nat }.

(** The ExEx notification stream: [None] is its end. *)
Inductive ExExNotification (LC : Type) :=
| ExCommitted (new : LC) | ExReverted (old : LC) | ExReorged (old new : LC).
Arguments ExCommitted {LC} new.
Arguments ExReverted {LC} old.
Arguments ExReorged {LC} old new.
Class ExExStream (NS NE LC : Type) := {
  stream_next : NS -> option (res NE (ExExNotification LC)) * NS;
  set_with_head : Z * B256 -> NS -> NS }.

(** [DbBlock], [DbChainSegment] and [HostChain]. *)
Record DbBlock (K R : Type) := mkDbBlock { db_block : K; db_receipts : list R }.
Arguments mkDbBlock {K R} _ _.
Arguments db_block {K R} _.
Arguments db_receipts {K R} _.
Inductive HostChain (LC K R : Type) := Backfill (segment : list (DbBlock K R)) | Live (chain : LC).
Arguments Backfill {LC K R} segment.
Arguments Live {LC K R} chain.

(** [DbBackfill] without its provider handle. *)
Record DbBackfill := mkBackfill { cursor : Z; batch_size : Z }.
Definition DbBackfill_new (cursor : Z) : DbBackfill := mkBackfill cursor DEFAULT_BATCH_SIZE.
Definition set_batch_size (batch_size : Z) (b : DbBackfill) : DbBackfill :=
  mkBackfill (cursor b) (Z.max batch_size 1).
Definition reset_batch_size (b : DbBackfill) : DbBackfill := mkBackfill (cursor b) DEFAULT_BATCH_SIZE.

(** [RethHostNotifier]; [rn_events] is what was sent to the ExEx manager, and
    sending fails once the manager is gone. *)
Record RethHostNotifier (NS P : Type) := mkReth {
  rn_notifications : NS; rn_provider : P;
  rn_events : list (Z * B256); rn_manager_gone : bool;
  rn_backfill : option DbBackfill; rn_head_set : bool }.
Arguments mkReth {NS P} _ _ _ _ _ _.
Arguments rn_notifications {NS P} _.
Arguments rn_provider {NS P} _.
Arguments rn_events {NS P} _.
Arguments rn_manager_gone {NS P} _.
Arguments rn_backfill {NS P} _.
Arguments rn_head_set {NS P} _.

Section reth.
Context {NS NE LC P PE K R : Type}
  `{!RethProvider P PE K R, !LiveChain LC K R, !ExExStream NS NE LC}.
Abbreviation Error := (RethHostError NE PE).
Abbreviation Chain := (HostChain LC K R).
Abbreviation PM := (st P Error).
Abbreviation RM := (st (RethHostNotifier NS P) Error).

(** *** [Extractable] for [DbChainSegment] and [HostChain] *)
Definition blocks_and_receipts (c : Chain) : list (K * list R) :=
  match c with
  | Backfill segment => (fun b => (db_block b, db_receipts b)) <$> segment
  | Live chain => live_blocks chain
  end.
Definition chain_first_number {E} (c : Chain) : res E Z :=
  match c with
  | Backfill segment => expect (reth_number ∘ db_block <$> head segment)
  | Live chain => Ok (live_first chain)
  end.
Definition chain_tip_number {E} (c : Chain) : res E Z :=
  match c with
  | Backfill segment => expect (reth_number ∘ db_block <$> last segment)
  | Live chain => Ok (live_tip chain)
  end.
Definition chain_len (c : Chain) : nat :=
  match c with Backfill segment => length segment | Live chain => live_len chain end.

(** *** Backfill *)
Definition ask {A} (call : P -> res PE A * P) : PM A := st_map_err RethProviderError call.

Definition read_block (number : Z) : PM (DbBlock K R) :=
  found ← ask (recovered_block number);
  block ← st_lift (ok_or found (RethMissingBlock number));
  found ← ask (receipts_by_block number);
  receipts ← st_lift (ok_or found (RethMissingReceipts number));
  mret (mkDbBlock block receipts).

(** [Vec::with_capacity((to - from + 1) as usize)] in [u64]: a capacity the
    allocator cannot address panics (a block takes at least 256 bytes). *)
Definition max_blocks_in_memory : Z := 2 ^ 55.
Definition read_block_range (from to : Z) : PM (list (DbBlock K R)) :=
  if max_blocks_in_memory <? add64 (sub64 to from) 1 then st_lift Panic
  else st_mapM read_block (range_incl from to).

(** [next_batch] on a backfill; the returned backfill is the one left behind. *)
Definition next_batch (b : DbBackfill) : PM (option (list (DbBlock K R) * DbBackfill)) :=
  finalized ← ask finalized_number;
  match finalized with
  | None => mret None
  | Some finalized =>
      if finalized <? cursor b then mret None
      else
        let from := cursor b in
        let to := Z.min finalized (sub64 (add64 (cursor b) (batch_size b)) 1) in
        segment ← read_block_range from to;
        mret (Some (segment, mkBackfill (add64 to 1) (batch_size b)))
  end.

(** *** The notifier *)
Definition with_provider {A} (m : PM A) : RM A := fun n =>
  let '(r, p) := m (rn_provider n) in
  (r, mkReth (rn_notifications n) p (rn_events n) (rn_manager_gone n) (rn_backfill n) (rn_head_set n)).
Definition set_backfill (b : option DbBackfill) : RM unit := st_modify (fun n =>
  mkReth (rn_notifications n) (rn_provider n) (rn_events n) (rn_manager_gone n) b (rn_head_set n)).

(** [.ok().flatten()] of a tag read. *)
Definition tag_or_none (call : P -> res PE (option Z) * P) : RM (option Z) := fun n =>
  let '(r, p) := call (rn_provider n) in
  let n := mkReth (rn_notifications n) p (rn_events n) (rn_manager_gone n) (rn_backfill n) (rn_head_set n) in
  match r with Ok tag => (Ok tag, n) | Err _ => (Ok None, n) | Panic => (Panic, n) end.

(** Phase 1: a backfill notification, or [None] to fall through. *)
Definition backfill_phase (b : DbBackfill) : RM (option (HostNotification Chain)) :=
  batch ← with_provider (next_batch b);
  match batch with
  | Some (segment, b) =>
      _ ← set_backfill (Some b);
      safe ← tag_or_none safe_number;
      finalized ← tag_or_none finalized_number;
      mret (Some (mkHostNotification (ChainCommitted (Backfill segment)) safe finalized))
  | None =>
      _ ← set_backfill None;
      let last_backfilled := sat_sub (cursor b) 1 in
      found ← with_provider (ask (sealed_header last_backfilled));
      header ← st_lift (ok_or found (RethMissingHeader last_backfilled));
      _ ← st_modify (fun n =>
        mkReth (set_with_head (last_backfilled, sh_hash header) (rn_notifications n)) (rn_provider n)
          (rn_events n) (rn_manager_gone n) (rn_backfill n) (rn_head_set n));
      mret None
  end.

Definition old_range (old : LC) : RM RevertRange :=
  st_lift (RevertRange_new (live_first old) (live_tip old)).

Definition live_kind (n : ExExNotification LC) : RM (HostNotificationKind Chain) :=
  match n with
  | ExCommitted new => mret (ChainCommitted (Live new))
  | ExReverted old => range ← old_range old; mret (ChainReverted range)
  | ExReorged old new => range ← old_range old; mret (ChainReorged range (Live new))
  end.

(** Phase 2: the next live notification. *)
Definition live_phase : RM (option (HostNotification Chain)) := fun n =>
  let '(found, ns) := stream_next (rn_notifications n) in
  let n := mkReth ns (rn_provider n) (rn_events n) (rn_manager_gone n) (rn_backfill n) (rn_head_set n) in
  match found with
  | None => (Ok None, n)
  | Some notification =>
      (notification ← st_lift (map_err RethNotification notification);
       safe ← tag_or_none safe_number;
       finalized ← tag_or_none finalized_number;
       kind ← live_kind notification;
       mret (Some (mkHostNotification kind safe finalized))) n
  end.

Definition reth_next : RM (option (HostNotification Chain)) := fun n =>
  match rn_backfill n with
  | Some b => (found ← backfill_phase b;
               match found with Some notification => mret (Some notification) | None => live_phase end) n
  | None => live_phase n
  end.

Definition reth_set_head (block_number : Z) (n : RethHostNotifier NS P) : RethHostNotifier NS P :=
  if rn_head_set n then n
  else mkReth (rn_notifications n) (rn_provider n) (rn_events n) (rn_manager_gone n)
         (Some (DbBackfill_new block_number)) true.

Definition reth_set_backfill_thresholds (max_blocks : option Z) (n : RethHostNotifier NS P) :
    RethHostNotifier NS P :=
  match rn_backfill n with
  | None => n
  | Some b =>
      let b := match max_blocks with Some m => set_batch_size m b | None => reset_batch_size b end in
      mkReth (rn_notifications n) (rn_provider n) (rn_events n) (rn_manager_gone n) (Some b) (rn_head_set n)
  end.

(** [self.events.send(...)]. *)
Definition send_event (e : Z * B256) : RM unit := fun n =>
  if rn_manager_gone n then (Err RethEventSend, n)
  else (Ok tt, mkReth (rn_notifications n) (rn_provider n) (rn_events n ++ [e]) (rn_manager_gone n)
                 (rn_backfill n) (rn_head_set n)).

Definition reth_send_finished_height (block_number : Z) : RM unit :=
  found ← with_provider (ask (sealed_header block_number));
  header ← st_lift (ok_or found (RethMissingHeader block_number));
  send_event (block_number, sh_hash header).

#[export] Instance reth_host_notifier : HostNotifier (RethHostNotifier NS P) unit Chain Error := {
  next_notification _ n :=
    let '(r, n) := reth_next n in
    (n, match r with
        | Ok notif => Ok <$> notif
        | Err e => Some (Err e)
        | Panic => Some Panic
        end);
  set_head := reth_set_head;
  set_backfill_thresholds := reth_set_backfill_thresholds;
  send_finished_height b n := let '(r, n) := reth_send_finished_height b n in (n, r) }.

(** ** Properties *)

(** Reth answers a number with the block of that number, and its finalized
    height is far from the end of [u64]. *)
Class LawfulReth : Prop := {
  recovered_number n p k p' : recovered_block n p = (Ok (Some k), p') -> reth_number k = n;
  finalized_bound p f p' : finalized_number p = (Ok (Some f), p') -> f < 2 ^ 62 }.
Context `{!LawfulReth}.

Definition segment_numbers (segment : list (DbBlock K R)) : list Z := reth_number ∘ db_block <$> segment.

Definition backfill_ok (b : DbBackfill) : Prop :=
  0 <= cursor b < 2 ^ 63 /\ 1 <= batch_size b <= 2 ^ 63.

Lemma read_block_number n p blk p' : read_block n p = (Ok blk, p') -> reth_number (db_block blk) = n.
Proof.
  unfold read_block. intros Hr.
  apply st_bind_ok in Hr as (found & p1 & Ha & Hr). apply st_bind_ok in Hr as (k & p2 & Hk & Hr).
  apply st_bind_ok in Hr as (found' & p3 & _ & Hr). apply st_bind_ok in Hr as (rs & p4 & _ & Hr).
  injection Hr as <- _. cbn. injection Hk as Hk _. apply ok_or_ok in Hk as ->.
  unfold ask, st_map_err in Ha. destruct (recovered_block n p) as [o q] eqn:Hq.
  injection Ha as Ha _. apply map_err_ok in Ha as ->. by eapply recovered_number.
Qed.

Lemma read_blocks_numbers ns p segment p' :
  st_mapM read_block ns p = (Ok segment, p') -> segment_numbers segment = ns.
Proof.
  intros Hm. apply (st_mapM_inv read_block (fun _ => True) (fun n b => reth_number (db_block b) = n)) in Hm
    as [_ Hm]; [| |done].
  - specialize (Hm segment eq_refl). unfold segment_numbers. clear p p'.
    induction Hm as [|n b ns segment Hb _ IH]; [done|]. csimpl. by rewrite Hb, IH.
  - intros n q r q' _ Hr. split; [done|]. intros b ->. by apply read_block_number in Hr.
Qed.

(** A batch is exactly the next blocks, at most [batch_size] of them and none
    beyond the finalized block. *)
Lemma next_batch_ok b p segment b' p' :
  backfill_ok b -> next_batch b p = (Ok (Some (segment, b')), p') ->
  exists to, cursor b <= to < 2 ^ 62 /\ segment_numbers segment = range_incl (cursor b) to
    /\ Z.of_nat (length segment) <= batch_size b
    /\ b' = mkBackfill (to + 1) (batch_size b) /\ backfill_ok b'.
Proof.
  intros [Hc Hb] Hn. unfold next_batch in Hn. apply st_bind_ok in Hn as (fin & p1 & Hf & Hn).
  destruct fin as [fin|]; [|discriminate].
  unfold ask, st_map_err in Hf. destruct (finalized_number p) as [o q] eqn:Hq.
  injection Hf as Hf _. apply map_err_ok in Hf as ->. apply finalized_bound in Hq.
  destruct (Z.ltb_spec fin (cursor b)) as [|Hle]; [discriminate|].
  rewrite (add64_exact (cursor b)), sub64_exact in Hn by width.
  set (to := Z.min fin (cursor b + batch_size b - 1)) in *.
  apply st_bind_ok in Hn as (seg & p2 & Hr & Hn). injection Hn as -> <- _.
  exists to. assert (cursor b <= to <= fin) as Hto by (subst to; lia).
  rewrite add64_exact by width. split; [lia|]. unfold read_block_range in Hr.
  destruct (_ <? _); [discriminate|]. apply read_blocks_numbers in Hr. split; [done|].
  assert (length segment = length (range_incl (cursor b) to)) as Hlen.
  { rewrite <- Hr. unfold segment_numbers. by rewrite length_fmap. }
  split; [rewrite Hlen, length_range_incl; subst to; lia|]. split; [done|]. split; cbn; [lia|done].
Qed.

Lemma tag_or_none_frame call n tag n' :
  tag_or_none call n = (Ok tag, n') ->
  rn_backfill n' = rn_backfill n /\ rn_notifications n' = rn_notifications n
  /\ rn_head_set n' = rn_head_set n.
Proof.
  unfold tag_or_none. destruct (call (rn_provider n)) as [[?|?|] q]; intros Ht;
    [| |discriminate]; by injection Ht as _ <-.
Qed.

(** A successful call while backfill is pending: another batch, or the switch
    to live notifications with the head set to the last backfilled block. *)
Lemma backfill_phase_ok b n r n' :
  backfill_ok b -> backfill_phase b n = (Ok r, n') ->
  match r with
  | Some notif => exists segment b', kind notif = ChainCommitted (Backfill segment)
      /\ rn_backfill n' = Some b' /\ backfill_ok b' /\ batch_size b' = batch_size b
      /\ cursor b < cursor b' /\ segment_numbers segment = range_incl (cursor b) (cursor b' - 1)
      /\ Z.of_nat (length segment) <= batch_size b
      /\ rn_notifications n' = rn_notifications n /\ rn_head_set n' = rn_head_set n
  | None => rn_backfill n' = None /\ rn_head_set n' = rn_head_set n
      /\ exists header p p', sealed_header (sat_sub (cursor b) 1) p = (Ok (Some header), p')
           /\ rn_notifications n' = set_with_head (sat_sub (cursor b) 1, sh_hash header) (rn_notifications n)
  end.
Proof.
  intros Hb Hp. unfold backfill_phase in Hp. apply st_bind_ok in Hp as (batch & n1 & Hbatch & Hp).
  unfold with_provider in Hbatch. destruct (next_batch b (rn_provider n)) as [o p1] eqn:Hn.
  injection Hbatch as -> <-. destruct batch as [[segment b']|].
  - apply next_batch_ok in Hn as (to & Hto & Hnum & Hlen & -> & Hok); [|done].
    apply st_bind_ok in Hp as (u & n2 & Hset & Hp). injection Hset as _ <-.
    apply st_bind_ok in Hp as (safe & n3 & Hs & Hp). apply st_bind_ok in Hp as (fin & n4 & Hf & Hp).
    injection Hp as <- <-.
    apply tag_or_none_frame in Hs as (Hs1 & Hs2 & Hs3), Hf as (Hf1 & Hf2 & Hf3).
    exists segment, (mkBackfill (to + 1) (batch_size b)). cbn [kind cursor batch_size].
    rewrite Hf1, Hf2, Hf3, Hs1, Hs2, Hs3. cbn. replace (to + 1 - 1) with to by lia.
    repeat (split; [done || lia|]). done.
  - apply st_bind_ok in Hp as (u & n2 & Hset & Hp). injection Hset as _ <-.
    apply st_bind_ok in Hp as (found & n3 & Ha & Hp).
    unfold with_provider, ask, st_map_err in Ha. cbn [rn_provider] in Ha.
    destruct (sealed_header (sat_sub (cursor b) 1) p1) as [o p2] eqn:Hh. injection Ha as Ha <-.
    apply map_err_ok in Ha as ->. apply st_bind_ok in Hp as (header & n4 & Hl & Hp).
    injection Hl as Hl <-. apply ok_or_ok in Hl as ->. apply st_bind_ok in Hp as (u' & n5 & Hm & Hp).
    injection Hm as _ <-. injection Hp as <- <-. cbn. split; [done|]. split; [done|].
    by exists header, p1, p2.
Qed.

(** A run of calls that each delivered a backfill segment. *)
Inductive backfilled : RethHostNotifier NS P -> list (list (DbBlock K R)) -> RethHostNotifier NS P -> Prop :=
| backfilled_none n : backfilled n [] n
| backfilled_more n notif segment n1 segments n2 :
    reth_next n = (Ok (Some notif), n1) -> kind notif = ChainCommitted (Backfill segment) ->
    backfilled n1 segments n2 -> backfilled n (segment :: segments) n2.

Lemma live_phase_not_backfill n notif n' segment :
  live_phase n = (Ok (Some notif), n') -> kind notif <> ChainCommitted (Backfill segment).
Proof.
  unfold live_phase. destruct (stream_next (rn_notifications n)) as [[found|] ns]; [|discriminate].
  intros Hl Hk. apply st_bind_ok in Hl as (notification & n1 & _ & Hl).
  apply st_bind_ok in Hl as (safe & n2 & _ & Hl). apply st_bind_ok in Hl as (fin & n3 & _ & Hl).
  apply st_bind_ok in Hl as (k & n4 & Hkind & Hl). injection Hl as <- _. cbn in Hk. subst k.
  destruct notification as [new|old|old new]; [discriminate| |];
    apply st_bind_ok in Hkind as (range & n5 & _ & Hkind); discriminate.
Qed.

Lemma backfilled_cover n segments n' b :
  backfilled n segments n' -> rn_backfill n = Some b -> backfill_ok b ->
  exists b', rn_backfill n' = Some b' /\ backfill_ok b' /\ batch_size b' = batch_size b
    /\ cursor b <= cursor b' /\ mjoin (segment_numbers <$> segments) = range_incl (cursor b) (cursor b' - 1)
    /\ Forall (fun s => s <> [] /\ Z.of_nat (length s) <= batch_size b) segments
    /\ rn_notifications n' = rn_notifications n /\ rn_head_set n' = rn_head_set n.
Proof.
  intros Hrun. revert b. induction Hrun as [n|n notif segment n1 segments n2 Hnext Hk _ IH]; intros b Hb Hok.
  - exists b. cbn. rewrite range_incl_nil by lia. repeat (split; [done || lia|]). done.
  - unfold reth_next in Hnext. rewrite Hb in Hnext.
    apply st_bind_ok in Hnext as (found & n3 & Hphase & Hnext).
    apply (backfill_phase_ok b) in Hphase; [|done]. destruct found as [found|].
    2:{ by apply live_phase_not_backfill with (segment := segment) in Hnext. }
    injection Hnext as -> ->.
    destruct Hphase as (segment' & b1 & Hk' & Hb1 & Hok1 & Hsz & Hlt & Hnum & Hlen & Hns & Hhs).
    rewrite Hk in Hk'. injection Hk' as <-.
    destruct (IH b1 Hb1 Hok1) as (b2 & Hb2 & Hok2 & Hsz2 & Hle & Hcov & Hall & Hns2 & Hhs2).
    exists b2. split; [done|]. split; [done|]. split; [congruence|]. split; [lia|]. split.
    { csimpl. rewrite Hcov, Hnum. symmetry. apply range_incl_split; lia. }
    split; [|by rewrite Hns2, Hhs2]. constructor; [|by rewrite <- Hsz].
    split; [|done]. intros ->. unfold segment_numbers in Hnum. cbn in Hnum.
    apply (f_equal length) in Hnum. cbn in Hnum.
    pose proof (length_range_incl (cursor b) (cursor b1 - 1)). lia.
Qed.

(** The live phase reads one notification of the stream. *)
Lemma live_phase_ok n r n' :
  live_phase n = (Ok r, n') ->
  exists found, stream_next (rn_notifications n) = (found, rn_notifications n') /\ (r = None <-> found = None).
Proof.
  unfold live_phase. destruct (stream_next (rn_notifications n)) as [found ns]. intros Hl.
  exists found. destruct found as [notification|]; [|by injection Hl as <- <-].
  apply st_bind_ok in Hl as (x & n1 & Hx & Hl). injection Hx as _ <-.
  apply st_bind_ok in Hl as (safe & n2 & Hs & Hl). apply st_bind_ok in Hl as (fin & n3 & Hf & Hl).
  apply st_bind_ok in Hl as (k & n4 & Hk & Hl). injection Hl as <- <-.
  apply tag_or_none_frame in Hs as (_ & Hs & _), Hf as (_ & Hf & _).
  assert (n4 = n3) as ->.
  { destruct x; [by injection Hk as _ <-| |]; apply st_bind_ok in Hk as (range & n5 & Ho & Hk);
      injection Hk as _ <-; by injection Ho. }
  rewrite Hf, Hs. split; [done|]. split; discriminate.
Qed.

(** C17: No host block is lost between the database and the live stream.  After
    [set_head start] and a backfill limit, any run of backfill notifications
    carries exactly the blocks from [start] to one below the cursor, in
    non-empty batches within the limit, without touching the live stream; and
    the call that leaves backfill hands the stream the last backfilled block,
    with the hash the provider gives for it, before its first notification is
    read. *)
Theorem reth_backfill_then_live n0 start limit segments n1 :
  rn_head_set n0 = false -> 0 <= start < 2 ^ 63 -> (forall m, limit = Some m -> m <= 2 ^ 63) ->
  backfilled (reth_set_backfill_thresholds limit (reth_set_head start n0)) segments n1 ->
  exists b, rn_backfill n1 = Some b /\ start <= cursor b
    /\ mjoin (segment_numbers <$> segments) = range_incl start (cursor b - 1)
    /\ Forall (fun s => s <> [] /\ Z.of_nat (length s) <= Z.max 1 (default DEFAULT_BATCH_SIZE limit)) segments
    /\ forall r n2, reth_next n1 = (Ok r, n2) -> rn_backfill n2 = None ->
         exists header p p' found,
           sealed_header (sat_sub (cursor b) 1) p = (Ok (Some header), p')
           /\ stream_next (set_with_head (sat_sub (cursor b) 1, sh_hash header) (rn_notifications n0))
              = (found, rn_notifications n2)
           /\ (r = None <-> found = None).
Proof.
  intros Hhs Hstart Hlimit Hrun. unfold reth_set_head in Hrun. rewrite Hhs in Hrun.
  unfold reth_set_backfill_thresholds in Hrun. cbn [rn_backfill rn_notifications rn_provider] in Hrun.
  set (b0 := match limit with Some m => _ | None => _ end) in Hrun.
  assert (cursor b0 = start /\ batch_size b0 = Z.max 1 (default DEFAULT_BATCH_SIZE limit)) as [Hc Hs].
  { subst b0. destruct limit as [m|]; cbn; [split; [done|]; change (default DEFAULT_BATCH_SIZE (Some m)) with m|split; [done|]];
      unfold DEFAULT_BATCH_SIZE; lia. }
  assert (backfill_ok b0) as Hok.
  { split; rewrite ?Hc, ?Hs; [done|]. destruct limit as [m|]; cbn.
    - specialize (Hlimit m eq_refl). unfold id. lia.
    - unfold DEFAULT_BATCH_SIZE. lia. }
  apply (backfilled_cover _ _ _ b0) in Hrun as (b & Hb & Hbok & _ & Hle & Hcov & Hall & Hns & _); [|done..].
  rewrite Hc in Hle, Hcov. rewrite Hs in Hall. exists b. do 4 (split; [done|]).
  intros r n2 Hnext Hend. unfold reth_next in Hnext. rewrite Hb in Hnext.
  apply st_bind_ok in Hnext as (found & n3 & Hphase & Hnext).
  apply (backfill_phase_ok b) in Hphase; [|done]. destruct found as [found|].
  { injection Hnext as <- <-. destruct Hphase as (? & ? & _ & He & _). congruence. }
  destruct Hphase as (_ & _ & header & p & p' & Hh & Hn3).
  exists header, p, p'. apply live_phase_ok in Hnext as (found & Hnx & Hr).
  exists found. cbn [rn_notifications] in Hns. rewrite <- Hns, <- Hn3. by split.
Qed.

(** An unlimited batch size does not mean one batch: with a limit of
    [u64::MAX] the end of the first batch wraps below its start, and the
    allocation for it panics. *)
Theorem reth_unlimited_batch_panics start fin p p' :
  1 < start <= fin -> fin < 2 ^ 62 -> finalized_number p = (Ok (Some fin), p') ->
  (next_batch (set_batch_size max64 (DbBackfill_new start)) p).1 = Panic.
Proof.
  intros Hs Hf Hq. unfold next_batch, mbind, st_bind, ask, st_map_err. rewrite Hq. cbn [map_err].
  cbn [cursor batch_size set_batch_size DbBackfill_new].
  destruct (Z.ltb_spec fin start); [lia|].
  assert (sub64 (add64 start (Z.max max64 1)) 1 = start - 2) as ->.
  { width. replace (start + Z.max (2 ^ 64 - 1) 1) with (start - 1 + 1 * 2 ^ 64) by lia.
    rewrite Z_mod_plus_full, (Z.mod_small (start - 1)) by lia. rewrite Z.mod_small; lia. }
  rewrite Z.min_r by lia. unfold read_block_range.
  assert (add64 (sub64 (start - 2) start) 1 = max64) as ->.
  { width. replace (start - 2 - start) with (2 ^ 64 - 2 + (-1) * 2 ^ 64) by lia.
    rewrite Z_mod_plus_full, (Z.mod_small (2 ^ 64 - 2)) by lia. reflexivity. }
  done.
Qed.
End reth.

(** ** Configuration from Reth's arguments ([config.rs])

    Socket addresses and origins are [A]; the node's own [ServeConfig]. *)
Record RpcServerArgs (A : Type) := mkArgs {
  arg_rpc_gas_cap : Z; arg_max_tracing_requests : Z;
  gpo_blocks : Z; gpo_percentile : Z; gpo_ignore_price : Z; gpo_max_price : Z;
  arg_http : bool; arg_http_addr : A; arg_http_corsdomain : option string;
  arg_ws : bool; arg_ws_addr : A; arg_ws_allowed_origins : option string;
  arg_ipcdisable : bool; arg_ipcpath : string }.
Arguments mkArgs {A} _ _ _ _ _ _ _ _ _ _ _ _ _ _.
Arguments arg_rpc_gas_cap {A} _.
Arguments arg_max_tracing_requests {A} _.
Arguments gpo_blocks {A} _.
Arguments gpo_percentile {A} _.
Arguments gpo_ignore_price {A} _.
Arguments gpo_max_price {A} _.
Arguments arg_http {A} _.
Arguments arg_http_addr {A} _.
Arguments arg_http_corsdomain {A} _.
Arguments arg_ws {A} _.
Arguments arg_ws_addr {A} _.
Arguments arg_ws_allowed_origins {A} _.
Arguments arg_ipcdisable {A} _.
Arguments arg_ipcpath {A} _.

Definition rpc_config_from_args {A} (args : RpcServerArgs A) : StorageRpcConfig :=
  build_config
    [SetRpcGasCap (arg_rpc_gas_cap args); SetMaxTracingRequests (arg_max_tracing_requests args);
     SetGasOracleBlockCount (gpo_blocks args); SetGasOraclePercentile (f64_of_int (gpo_percentile args));
     SetIgnorePrice (Some (gpo_ignore_price args)); SetMaxPrice (Some (gpo_max_price args))].

Definition serve_config_from_args {A} (args : RpcServerArgs A) : ServeConfig A :=
  mkServe (if arg_http args then [arg_http_addr args] else []) (arg_http_corsdomain args)
    (if arg_ws args then [arg_ws_addr args] else []) (arg_ws_allowed_origins args)
    (if arg_ipcdisable args then None else Some (arg_ipcpath args)).

(** Reth's price limits override the defaults, zero included: unlike in the
    environment, [0] is a price of zero here and not "no limit". *)
Lemma rpc_config_from_args_prices {A} (args : RpcServerArgs A) :
  let c := rpc_config_from_args args in
  ignore_price c = Some (gpo_ignore_price args) /\ max_price c = Some (gpo_max_price args)
  /\ gas_oracle_block_count c = gpo_blocks args /\ rpc_gas_cap c = arg_rpc_gas_cap args
  /\ max_blocks_per_filter c = max_blocks_per_filter StorageRpcConfig_default.
Proof. repeat split. Qed.

(** ** A sample host: finalized at a height, block [n] is [n] *)
Module SampleReth.
#[export] Instance sample_provider : RethProvider Z unit Z unit := {
  finalized_number p := (Ok (Some (Z.min p 1000)), p);
  safe_number p := (Ok (Some p), p);
  sealed_header n p := (Ok (Some (mkSealedHeader (mkHeader 0 n 0 0 0 None) (1000 + n))), p);
  recovered_block n p := (Ok (Some n), p);
  receipts_by_block _ p := (Ok (Some []), p);
  reth_number k := k;
  reth_hash k := 1000 + k }.
#[export] Instance sample_live : LiveChain Z Z unit := {
  live_blocks c := [(c, [])]; live_first c := c; live_tip c := c; live_len _ := 1%nat }.
#[export] Instance sample_stream : ExExStream (option (Z * B256) * list Z) unit Z := {
  stream_next s := match s.2 with [] => (None, s) | c :: cs => (Some (Ok (ExCommitted c)), (s.1, cs)) end;
  set_with_head h s := (Some h, s.2) }.
Definition fresh : RethHostNotifier (option (Z * B256) * list Z) Z :=
  mkReth (None, [12]) 11 [] false None false.
End SampleReth.
Import SampleReth.

#[export] Instance sample_lawful_reth : LawfulReth (P:=Z) (PE:=unit) (K:=Z) (R:=unit).
Proof.
  constructor.
  - intros n p k p' [= <- <-]. reflexivity.
  - intros p f p' [= <- <-]. lia.
Qed.

Lemma reth_backfill_then_live_witness :
  exists segments n1,
    backfilled (NE:=unit) (LC:=Z) (K:=Z) (R:=unit)
      (reth_set_backfill_thresholds (Some 3) (reth_set_head 5 fresh)) segments n1
    /\ mjoin (segment_numbers <$> segments) = [5; 6; 7; 8; 9; 10; 11]
    /\ exists header, stream_next (set_with_head (11, header) (rn_notifications fresh))
         = (Some (Ok (ExCommitted 12)), (Some (11, header), [])).
Proof.
  set (n0 := reth_set_backfill_thresholds (Some 3) (reth_set_head 5 fresh)).
  assert (exists segments n1, backfilled (NE:=unit) (LC:=Z) (K:=Z) (R:=unit) n0 segments n1
    /\ rn_backfill n1 = Some (mkBackfill 12 3)) as (segments & n1 & Hrun & Hb).
  { do 2 eexists. split.
    - eapply backfilled_more; [vm_compute; reflexivity|reflexivity|].
      eapply backfilled_more; [vm_compute; reflexivity|reflexivity|].
      eapply backfilled_more; [vm_compute; reflexivity|reflexivity|]. apply backfilled_none.
    - reflexivity. }
  destruct (reth_backfill_then_live fresh 5 (Some 3) segments n1 eq_refl ltac:(lia)
    ltac:(intros m Hm; injection Hm as <-; lia) Hrun) as (b & Hb' & _ & Hcov & _).
  rewrite Hb in Hb'. injection Hb' as <-. exists segments, n1. split; [exact Hrun|].
  split; [exact Hcov|]. by exists 1011.
Defined.

Lemma reth_unlimited_batch_panics_witness :
  (next_batch (NE:=unit) (K:=Z) (R:=unit) (set_batch_size max64 (DbBackfill_new 5)) 11).1 = Panic.
Proof. apply (reth_unlimited_batch_panics (NE:=unit) (K:=Z) (R:=unit) 5 11 11 11); [lia|lia|reflexivity]. Defined.
