(* ===== verification/Shim.v ===== *)
(** * Reth's blocks as the SDK's ([crates/host-reth/src/shim.rs], [chain.rs])

    The wrapper that carries the SDK's header and transaction traits over Reth's
    recovered block, and the three implementations of [Extractable] by which the
    node reads a chain: a database segment, a live chain, and either of them.
    The trait of headers and Reth's block are third-party. *)

From S2P Require Import Prelude HostTypes Primitives HostReth.

(** ** Headers ([alloy::consensus::BlockHeader]) and transactions ([HasTxns]) *)
Class BlockHeader (H Bloom Bytes BlobParams BaseFeeParams : Type) := {
  parent_hash : H -> B256;
  ommers_hash : H -> B256;
  beneficiary : H -> Address;
  base_fee_per_gas : H -> option Z;
  blob_fee : H -> BlobParams -> option Z;
  blob_gas_used : H -> option Z;
  difficulty : H -> Z;
  exceeds_allowed_future_timestamp : H -> Z -> bool;
  excess_blob_gas : H -> option Z;
  extra_data : H -> Bytes;
  parent_beacon_block_root : H -> option B256;
  gas_limit : H -> Z;
  gas_used : H -> Z;
  header_is_empty : H -> bool;
  is_nonce_zero : H -> bool;
  is_zero_difficulty : H -> bool;
  logs_bloom : H -> Bloom;
  maybe_next_block_blob_fee : H -> option BlobParams -> option Z;
  maybe_next_block_excess_blob_gas : H -> option BlobParams -> option Z;
  mix_hash : H -> option B256;
  header_next_base_fee : H -> BaseFeeParams -> option Z;
  next_block_blob_fee : H -> BlobParams -> option Z;
  next_block_excess_blob_gas : H -> BlobParams -> option Z;
  nonce : H -> option Z;
  header_number : H -> BlockNumber;
  parent_num_hash : H -> BlockNumber * B256;
  receipts_root : H -> B256;
  requests_hash : H -> option B256;
  state_root : H -> B256;
  timestamp : H -> Z;
  transactions_root : H -> B256;
  withdrawals_root : H -> option B256 }.

Class HasTxns (H T : Type) := { transactions : H -> list T }.

(** [RecoveredBlockShim], [#[repr(transparent)]] over the block. *)
Record RecoveredBlockShim (K : Type) := mkShim { shim_block : K }.
Arguments mkShim {K} _.
Arguments shim_block {K} _.

Section shim.
Context {K Bloom Bytes BlobParams BaseFeeParams T : Type}
  `{inner : !BlockHeader K Bloom Bytes BlobParams BaseFeeParams, body : !HasTxns K T}.

#[export] Instance shim_has_txns : HasTxns (RecoveredBlockShim K) T := {
  transactions s := transactions (shim_block s) }.

#[export] Instance shim_block_header :
    BlockHeader (RecoveredBlockShim K) Bloom Bytes BlobParams BaseFeeParams := {
  parent_hash s := parent_hash (shim_block s);
  ommers_hash s := ommers_hash (shim_block s);
  beneficiary s := beneficiary (shim_block s);
  base_fee_per_gas s := base_fee_per_gas (shim_block s);
  blob_fee s blob_params := blob_fee (shim_block s) blob_params;
  blob_gas_used s := blob_gas_used (shim_block s);
  difficulty s := difficulty (shim_block s);
  exceeds_allowed_future_timestamp s present := exceeds_allowed_future_timestamp (shim_block s) present;
  excess_blob_gas s := excess_blob_gas (shim_block s);
  extra_data s := extra_data (shim_block s);
  parent_beacon_block_root s := parent_beacon_block_root (shim_block s);
  gas_limit s := gas_limit (shim_block s);
  gas_used s := gas_used (shim_block s);
  header_is_empty s := header_is_empty (shim_block s);
  is_nonce_zero s := is_nonce_zero (shim_block s);
  is_zero_difficulty s := is_zero_difficulty (shim_block s);
  logs_bloom s := logs_bloom (shim_block s);
  maybe_next_block_blob_fee s params := maybe_next_block_blob_fee (shim_block s) params;
  maybe_next_block_excess_blob_gas s params := maybe_next_block_excess_blob_gas (shim_block s) params;
  mix_hash s := mix_hash (shim_block s);
  header_next_base_fee s params := header_next_base_fee (shim_block s) params;
  next_block_blob_fee s params := next_block_blob_fee (shim_block s) params;
  next_block_excess_blob_gas s params := next_block_excess_blob_gas (shim_block s) params;
  nonce s := nonce (shim_block s);
  header_number s := header_number (shim_block s);
  parent_num_hash s := parent_num_hash (shim_block s);
  receipts_root s := receipts_root (shim_block s);
  requests_hash s := requests_hash (shim_block s);
  state_root s := state_root (shim_block s);
  timestamp s := timestamp (shim_block s);
  transactions_root s := transactions_root (shim_block s);
  withdrawals_root s := withdrawals_root (shim_block s) }.
End shim.

(** ** [Extractable]

    The accessors may panic ([expect]). *)
Class Extractable (C B R : Type) := {
  extract_blocks : C -> list (B * list R);
  first_number : C -> res Empty_set Z;
  tip_number : C -> res Empty_set Z;
  extract_len : C -> nat }.

(** [RethChain]: the wrapper over Reth's chain, behind an [Arc]. *)
Record RethChain (LC : Type) := RethChain_new { rc_inner : LC }.
Arguments RethChain_new {LC} _.
Arguments rc_inner {LC} _.

Section chains.
Context {P PE LC K R : Type} `{!RethProvider P PE K R, !LiveChain LC K R}.
Abbreviation Shim := (RecoveredBlockShim K).

(** The transmuted references. *)
Definition transmute (b : K * list R) : Shim * list R := (mkShim b.1, b.2).

#[export] Instance segment_extractable : Extractable (list (DbBlock K R)) Shim R := {
  extract_blocks segment := (fun b => transmute (db_block b, db_receipts b)) <$> segment;
  first_number segment := expect (reth_number ∘ db_block <$> head segment);
  tip_number segment := expect (reth_number ∘ db_block <$> last segment);
  extract_len segment := length segment }.

#[export] Instance reth_chain_extractable : Extractable (RethChain LC) Shim R := {
  extract_blocks chain := transmute <$> live_blocks (rc_inner chain);
  first_number chain := Ok (live_first (rc_inner chain));
  tip_number chain := Ok (live_tip (rc_inner chain));
  extract_len chain := live_len (rc_inner chain) }.

#[export] Instance host_chain_extractable : Extractable (HostChain (RethChain LC) K R) Shim R := {
  extract_blocks c := match c with
    | Backfill segment => extract_blocks segment | Live chain => extract_blocks chain end;
  first_number c := match c with
    | Backfill segment => first_number segment | Live chain => first_number chain end;
  tip_number c := match c with
    | Backfill segment => tip_number segment | Live chain => tip_number chain end;
  extract_len c := match c with
    | Backfill segment => extract_len segment | Live chain => extract_len chain end }.

(** The notifier reads Reth's chain through the wrapper. *)
#[export] Instance reth_live_chain : LiveChain (RethChain LC) K R := {
  live_blocks c := live_blocks (rc_inner c);
  live_first c := live_first (rc_inner c);
  live_tip c := live_tip (rc_inner c);
  live_len c := live_len (rc_inner c) }.

(** What the node relies on: a chain is a non-empty run of consecutive blocks,
    and its accessors describe it. *)
Definition extractable {C} `{!Extractable C Shim R} (c : C) : Prop :=
  exists first, first_number c = Ok first
    /\ tip_number c = Ok (first + Z.of_nat (extract_len c) - 1)
    /\ (fun b => reth_number (shim_block b.1)) <$> extract_blocks c = seqZ first (Z.of_nat (extract_len c))
    /\ (0 < extract_len c)%nat.

(** *** The accessors the notifier's model uses are those of the trait *)
Lemma host_chain_accessors (c : HostChain (RethChain LC) K R) :
  extract_blocks c = transmute <$> blocks_and_receipts c
  /\ first_number c = chain_first_number c /\ tip_number c = chain_tip_number c
  /\ extract_len c = chain_len c.
Proof. destruct c as [segment|[chain]]; [|done]. split; [|done]. cbn. by rewrite <- list_fmap_compose. Qed.

Lemma segment_is_extractable (segment : list (DbBlock K R)) first tip :
  segment_numbers segment = range_incl first tip -> segment <> [] -> extractable segment.
Proof.
  intros Hnum Hne. exists first. cbn.
  assert (length segment = Z.to_nat (tip - first + 1)) as Hlen.
  { rewrite <- (length_seqZ first). change (seqZ _ _) with (range_incl first tip).
    rewrite <- Hnum. unfold segment_numbers. by rewrite length_fmap. }
  assert (0 < length segment)%nat as Hpos by (destruct segment; cbn; [done|lia]).
  assert (reth_number ∘ db_block <$> head segment = head (segment_numbers segment)) as -> by (by destruct segment).
  assert (reth_number ∘ db_block <$> last segment = last (segment_numbers segment)) as ->.
  { unfold segment_numbers. by rewrite fmap_last. }
  rewrite <- list_fmap_compose. change ((fun b => _) ∘ _) with (reth_number ∘ db_block (K:=K) (R:=R)).
  change (_ <$> segment) with (segment_numbers segment). rewrite Hnum, Hlen, Z2Nat.id by lia.
  unfold range_incl at 2 3. rewrite (range_incl_cons first tip) by lia. split; [done|].
  rewrite last_lookup, length_seqZ, lookup_seqZ_lt by lia. split; [|by split; [|lia]].
  cbn [expect]. do 2 f_equal. lia.
Qed.
End chains.

(** Reth keeps its chains non-empty and their blocks consecutive. *)
Class LawfulLive (LC K R : Type) {P PE : Type} `{!RethProvider P PE K R, !LiveChain LC K R} : Prop := {
  live_consecutive (c : LC) :
    reth_number ∘ fst <$> live_blocks c = seqZ (live_first c) (Z.of_nat (live_len c));
  live_nonempty (c : LC) : (0 < live_len c)%nat;
  live_ends (c : LC) : live_tip c = live_first c + Z.of_nat (live_len c) - 1 }.

Section delivered.
Context {NS NE P PE LC K R : Type}
  `{!RethProvider P PE K R, !LiveChain LC K R, !ExExStream NS NE (RethChain LC)}
  `{!LawfulReth (P:=P) (PE:=PE) (K:=K) (R:=R), !LawfulLive LC K R (P:=P) (PE:=PE)}.
Implicit Types (n : RethHostNotifier NS P).

Lemma live_is_extractable (c : RethChain LC) : extractable c.
Proof.
  exists (live_first (rc_inner c)). cbn. rewrite (live_ends (LC:=LC) (P:=P) (PE:=PE)). do 2 (split; [done|]).
  rewrite <- (live_consecutive (LC:=LC) (P:=P) (PE:=PE)), <- list_fmap_compose.
  split; [done|apply (live_nonempty (LC:=LC) (P:=P) (PE:=PE))].
Qed.

Lemma live_phase_delivers n notif n' c :
  live_phase n = (Ok (Some notif), n') -> committed_chain notif = Some c -> exists chain, c = Live chain.
Proof.
  unfold live_phase. destruct (stream_next (rn_notifications n)) as [[found|] ns]; [|discriminate].
  intros Hl Hc. apply st_bind_ok in Hl as (notification & n1 & _ & Hl).
  apply st_bind_ok in Hl as (safe & n2 & _ & Hl). apply st_bind_ok in Hl as (fin & n3 & _ & Hl).
  apply st_bind_ok in Hl as (k & n4 & Hkind & Hl). injection Hl as <- _.
  unfold committed_chain in Hc. cbn [kind] in Hc.
  destruct notification as [new|old|old new].
  - injection Hkind as <- _. injection Hc as <-. by exists new.
  - apply st_bind_ok in Hkind as (range & n5 & _ & Hk). by injection Hk as <- _.
  - apply st_bind_ok in Hkind as (range & n5 & _ & Hk). injection Hk as <- _.
    injection Hc as <-. by exists new.
Qed.

(** Every chain that the notifier delivers, from the database or live, is a
    non-empty run of consecutive blocks that its accessors describe: none of
    them panics, and an extractor may rely on them. *)
Theorem delivered_chain_extractable n notif n' c :
  (forall b, rn_backfill n = Some b -> backfill_ok b) ->
  reth_next n = (Ok (Some notif), n') -> committed_chain notif = Some c -> extractable c.
Proof.
  intros Hb Hn Hc.
  assert (forall m m', live_phase m = (Ok (Some notif), m') -> extractable c) as Hlive.
  { intros m m' Hl. eapply live_phase_delivers in Hl as [chain ->]; [|done]. apply (live_is_extractable chain). }
  unfold reth_next in Hn. destruct (rn_backfill n) as [b|] eqn:He; [|by eapply Hlive].
  apply st_bind_ok in Hn as (found & n1 & Hphase & Hn).
  apply (backfill_phase_ok b) in Hphase; [|by apply Hb].
  destruct found as [found|]; [|by eapply Hlive]. injection Hn as -> _.
  destruct Hphase as (segment & b' & Hk & _ & _ & _ & Hlt & Hnum & _).
  unfold committed_chain in Hc. rewrite Hk in Hc. injection Hc as <-.
  apply (segment_is_extractable segment _ _ Hnum). intros ->.
  apply (f_equal length) in Hnum. pose proof (length_range_incl (cursor b) (cursor b' - 1)) as Hl.
  rewrite <- Hnum in Hl. cbn in Hl. lia.
Qed.
End delivered.

(** ** On the sample host: the first batch of a backfill, then the live block *)
Module SampleShim.
Import SampleReth.
#[export] Instance shim_stream : ExExStream (option (Z * B256) * list Z) unit (RethChain Z) := {
  stream_next s := match s.2 with
    | [] => (None, s) | c :: cs => (Some (Ok (ExCommitted (RethChain_new c))), (s.1, cs)) end;
  set_with_head h s := (Some h, s.2) }.
#[export] Instance shim_lawful_live : LawfulLive Z Z unit (P:=Z) (PE:=unit).
Proof. constructor; intros c; cbn; [done|lia|lia]. Qed.
Definition delivered (n : RethHostNotifier (option (Z * B256) * list Z) Z) :=
  reth_next (NE:=unit) (LC:=RethChain Z) (K:=Z) (R:=unit) n.
Definition chain_of {E N} (r : res E (option (HostNotification (HostChain (RethChain Z) Z unit))) * N) :
    option (HostChain (RethChain Z) Z unit) :=
  match r.1 with Ok (Some notif) => committed_chain notif | _ => None end.
End SampleShim.
Import SampleReth SampleShim.

Lemma delivered_chain_extractable_witness :
  let n := reth_set_head 5 fresh in
  exists notif n' c, delivered n = (Ok (Some notif), n') /\ committed_chain notif = Some c
    /\ extract_len c = 7%nat /\ extractable c
    /\ exists live, chain_of (delivered n') = Some (Live live) /\ first_number live = Ok 12.
Proof.
  cbn zeta. set (n := reth_set_head 5 fresh).
  assert (exists notif n' c, delivered n = (Ok (Some notif), n') /\ committed_chain notif = Some c
    /\ extract_len c = 7%nat /\ exists live, chain_of (delivered n') = Some (Live live) /\ first_number live = Ok 12)
    as (notif & n' & c & Hn & Hc & Hlen & Hlive).
  { do 3 eexists. split; [vm_compute; reflexivity|]. split; [reflexivity|]. split; [reflexivity|].
    eexists. split; [vm_compute; reflexivity|reflexivity]. }
  exists notif, n', c. do 3 (split; [done|]). split; [|done].
  apply (delivered_chain_extractable n notif n' c); [|done|done].
  intros b [= <-]. split; cbn; unfold DEFAULT_BATCH_SIZE; lia.
Defined.
