(* ===== verification/RethContext.v ===== *)
(** * Around the Reth notifier ([crates/host-reth], [notifier.rs] and [backfill.rs])

    The decomposition of Reth's ExEx context into the notifier and the node's
    configuration, and the metrics a backfill batch records. *)

From S2P Require Import Prelude HostTypes Primitives Float64 Metrics RpcConfig Serve HostReth.

(** ** The ExEx context *)

(** What the code takes from [ExExContext]: the notification stream [NS], the
    provider [P], the transaction pool, the name of the host chain and the RPC
    arguments; nothing has been sent to the manager yet. *)
Record ExExContext (NS P Pool A : Type) := mkExEx {
  ctx_chain : string; ctx_rpc : RpcServerArgs A;
  ctx_notifications : NS; ctx_provider : P; ctx_pool : Pool }.
Arguments mkExEx {NS P Pool A} _ _ _ _ _.
Arguments ctx_chain {NS P Pool A} _.
Arguments ctx_rpc {NS P Pool A} _.
Arguments ctx_notifications {NS P Pool A} _.
Arguments ctx_provider {NS P Pool A} _.
Arguments ctx_pool {NS P Pool A} _.

Record DecomposedContext (NS P Pool A : Type) := mkDecomposed {
  dc_notifier : RethHostNotifier NS P; dc_serve_config : ServeConfig A;
  dc_rpc_config : StorageRpcConfig; dc_pool : Pool; dc_chain_name : string }.
Arguments mkDecomposed {NS P Pool A} _ _ _ _ _.
Arguments dc_notifier {NS P Pool A} _.
Arguments dc_serve_config {NS P Pool A} _.
Arguments dc_rpc_config {NS P Pool A} _.
Arguments dc_pool {NS P Pool A} _.
Arguments dc_chain_name {NS P Pool A} _.

Definition decompose_exex_context {NS P Pool A} (ctx : ExExContext NS P Pool A) : DecomposedContext NS P Pool A :=
  let chain_name := ctx_chain ctx in
  let serve_config := serve_config_from_args (ctx_rpc ctx) in
  let rpc_config := rpc_config_from_args (ctx_rpc ctx) in
  let notifier := mkReth (ctx_notifications ctx) (ctx_provider ctx) [] false None false in
  mkDecomposed notifier serve_config rpc_config (ctx_pool ctx) chain_name.

(** ** Metered batches *)
Section metered.
Context {NE P PE K R : Type} `{!RethProvider P PE K R}.
Abbreviation Error := (RethHostError NE PE).

(** [next_batch] with its metrics; [elapsed] is the time the read took. *)
Definition next_batch_metered (elapsed : Duration) (b : DbBackfill) :
    st (P * Recorder) Error (option (list (DbBlock K R) * DbBackfill)) := fun '(p, metrics) =>
  match next_batch b p with
  | (Ok (Some (segment, b')), p) =>
      let metrics := record_backfill_batch (Z.of_nat (length segment)) elapsed metrics in
      (Ok (Some (segment, b')), (p, set_backfill_cursor (cursor b') metrics))
  | (r, p) => (r, (p, metrics))
  end.

(** A run of batches, each with its own elapsed time. *)
Inductive batches : DbBackfill -> P * Recorder -> DbBackfill -> P * Recorder -> nat -> Prop :=
| batches_none b w : batches b w b w 0
| batches_more elapsed b w segment b1 w1 b2 w2 n :
    next_batch_metered elapsed b w = (Ok (Some (segment, b1)), w1) ->
    batches b1 w1 b2 w2 n -> batches b w b2 w2 (S n).

(** The last value of the cursor gauge. *)
Definition set_of (op : MetricOp) : option f64 :=
  match op with SetGauge n v => if decide (n = CURSOR_POSITION) then Some v else None | _ => None end.
Definition cursor_gauge (r : Recorder) : option f64 := last (omap set_of (emitted r)).

Context `{!LawfulReth (P:=P) (PE:=PE) (K:=K) (R:=R)}.

Lemma next_batch_metered_ok elapsed b p m segment b' p' m' :
  backfill_ok b -> next_batch_metered elapsed b (p, m) = (Ok (Some (segment, b')), (p', m')) ->
  backfill_ok b' /\ cursor b <= cursor b'
  /\ counter RETH_BLOCKS_FETCHED m' = counter RETH_BLOCKS_FETCHED m + (cursor b' - cursor b)
  /\ counter BATCHES_COMPLETED m' = counter BATCHES_COMPLETED m + 1
  /\ cursor_gauge m' = Some (f64_of_int (cursor b')).
Proof.
  intros Hb Hn. unfold next_batch_metered in Hn.
  destruct (next_batch b p) as [[[[seg b1]|]|e|] p1] eqn:Hnext; try discriminate.
  injection Hn as -> -> _ <-. apply next_batch_ok in Hnext as (to & Hto & Hnum & _ & -> & Hok); [|done].
  cbn [cursor]. split; [done|]. split; [lia|].
  assert (Z.of_nat (length segment) = to + 1 - cursor b) as Hlen.
  { pose proof (length_range_incl (cursor b) to) as Hl. rewrite <- Hnum in Hl.
    unfold segment_numbers in Hl. rewrite length_fmap in Hl. lia. }
  unfold set_backfill_cursor, record_backfill_batch, emit_all.
  rewrite !counter_emit by apply reth_descriptions. count.
  rewrite Hlen. split; [simpl; lia|]. split; [simpl; lia|].
  unfold cursor_gauge, emit at 1. cbn [emitted]. rewrite omap_app. apply last_snoc.
Qed.

(** The metrics follow the backfill: after any run of batches the counter of
    fetched blocks has grown by exactly the distance the cursor moved, the
    counter of batches by their number, and the gauge shows the cursor. *)
Theorem backfill_metrics_exact b p m b' p' m' n :
  backfill_ok b -> batches b (p, m) b' (p', m') n ->
  counter RETH_BLOCKS_FETCHED m' - counter RETH_BLOCKS_FETCHED m = cursor b' - cursor b
  /\ counter BATCHES_COMPLETED m' - counter BATCHES_COMPLETED m = Z.of_nat n
  /\ (n <> 0%nat -> cursor_gauge m' = Some (f64_of_int (cursor b'))).
Proof.
  intros Hb Hrun. remember (p, m) as w eqn:Hw. remember (p', m') as w' eqn:Hw'. revert p m Hb Hw p' m' Hw'.
  induction Hrun as [b w|elapsed b w segment b1 [p1 m1] b2 w2 n Hn Hrun IH]; intros p m Hb -> p' m' Hw'.
  - injection Hw' as -> ->. split_and!; [lia..|done].
  - apply next_batch_metered_ok in Hn as (Hb1 & Hle & H1 & H2 & H3); [|done].
    destruct (IH p1 m1 Hb1 eq_refl p' m' Hw') as (I1 & I2 & I3).
    split; [lia|]. split; [lia|]. intros _. destruct n as [|n]; [|by apply I3].
    inversion Hrun; subst. by simplify_eq.
Qed.
End metered.
