(* ===== verification/Node.v ===== *)
(** * The Signet node ([crates/node/src/node.rs])

    The state machine that turns host notifications into storage writes, block
    tags, chain events and finished-height reports.  The host notifier is any
    [HostNotifier]; unified storage, the extractor, the block processor and the
    height pairing of the system constants are the interfaces below. *)

From S2P Require Import Prelude HostTypes BlockTags Primitives Interest ChainNotifier Metrics BlockProcessor.

(** [NodeStatus]. *)
Inductive NodeStatus := Booting | AtHeight (n : Z).

(** [PairedHeights]. *)
Record PairedHeights := mkPaired { ph_host : Z; ph_rollup : Z }.

(** ** Interfaces *)

(** [SignetSystemConstants]: the pairing of host and rollup heights. *)
Class SystemConstants := {
  host_deploy_height : Z;
  pair_ru : Z -> PairedHeights;
  pair_host : Z -> option PairedHeights;
  host_block_to_rollup_block_num : Z -> option Z }.

(** A host block is paired with the rollup block it produces, which is as far
    above the deployment as the host block is. *)
Class LawfulConstants `{SystemConstants} : Prop := {
  pair_ru_rollup n : ph_rollup (pair_ru n) = n;
  pair_host_num h p : pair_host h = Some p -> host_block_to_rollup_block_num h = Some (ph_rollup p);
  pair_host_mono h k p q : h <= k -> pair_host h = Some p -> pair_host k = Some q ->
    ph_rollup p <= ph_rollup q;
  pair_host_none h k : h <= k -> pair_host k = None -> pair_host h = None;
  host_num_nonneg h n : host_block_to_rollup_block_num h = Some n -> 0 <= n;
  host_num_mono h k n m : h <= k -> host_block_to_rollup_block_num h = Some n ->
    host_block_to_rollup_block_num k = Some m -> n <= m }.

(** [DrainedBlock]: a removed block with the logs of its receipts. *)
Record DrainedBlock (L : Type) := mkDrained { d_header : SealedHeader; d_receipts : list (list (Log L)) }.
Arguments mkDrained {L} _ _.
Arguments d_header {L} _.
Arguments d_receipts {L} _.

(** [UnifiedStorage]: hot and cold storage together; [Ex] is the executed
    block. *)
Class UnifiedStorage (S SE Ex L : Type) := {
  last_block_number : S -> res SE (option Z);
  cold_latest_block : S -> res SE (option Z);
  unwind_above : Z -> st S SE unit;
  append_block : Ex -> st S SE unit;
  drain_above : Z -> st S SE (list (DrainedBlock L)) }.

(** What the node relies on: the tips move as documented when an operation
    succeeds. [hot] and [cold] are the heights of the two layers. *)
Class LawfulStorage (S SE Ex L : Type) `{UnifiedStorage S SE Ex L}
    (hot cold : S -> Z) (number : Ex -> Z) : Prop := {
  last_block_number_hot s o : last_block_number s = Ok o -> default 0 o = hot s;
  cold_latest_cold s o : cold_latest_block s = Ok o -> default 0 o = cold s;
  hot_nonneg s : 0 <= hot s;
  unwind_above_tips t s u s' : unwind_above t s = (Ok u, s') ->
    hot s' = Z.min (hot s) t /\ cold s' = Z.min (cold s) t;
  append_block_tip b s u s' : append_block b s = (Ok u, s') -> hot s' = number b;
  drain_above_tip t s d s' : drain_above t s = (Ok d, s') -> hot s' = Z.min (hot s) t }.

(** The extractor over a committed chain, and the block processor with the
    state [PW] of its oracle and blob cache; it reads hot storage. *)
Class Extraction (C Ext : Type) := {
  extract_signet : C -> list Ext;
  ru_height : Ext -> Z }.
Class Processing (S PW PE Ext Ex : Type) := {
  process_extracts : S -> Ext -> st PW PE Ex }.
(** The parts of an executed block that are broadcast. *)
Class Executed (Ex T R : Type) := {
  ex_header : Ex -> SealedHeader;
  ex_transactions : Ex -> list T;
  ex_receipts : Ex -> list R }.

(** [eyre::Report]s of the node. *)
Inductive NodeError (SE PE NE : Type) :=
| NodeStorage (e : SE)
| NodeProcess (e : PE)
| NodeNotifier (e : NE)
| NodeRpc
| RevertTipUnmapped
| RevertNotCovering (tip range_tip_ru rollup_tip : Z).
Arguments NodeStorage {SE PE NE} e.
Arguments NodeProcess {SE PE NE} e.
Arguments NodeNotifier {SE PE NE} e.
Arguments NodeRpc {SE PE NE}.
Arguments RevertTipUnmapped {SE PE NE}.
Arguments RevertNotCovering {SE PE NE} tip range_tip_ru rollup_tip.

(** The state the node shares with the RPC tasks: storage, and the block tags
    and announcements of the chain notifier. *)
Record SharedState (S T R L : Type) := mkSharedState { sh_storage : S; sh_chain : ChainNotifier T R L }.
Arguments mkSharedState {S T R L} _ _.
Arguments sh_storage {S T R L} _.
Arguments sh_chain {S T R L} _.

Section node.
Context {N W C NE S SE PW PE Ext Ex T R L : Type}
  `{!HostNotifier N W C NE, !SystemConstants, !UnifiedStorage S SE Ex L, !Extraction C Ext,
    !Processing S PW PE Ext Ex, !Executed Ex T R}.
Abbreviation Err := (NodeError SE PE NE).

(** [SignetNode]: the parts that change.  [nd_seen] is a ghost: the shared state
    after each atomic access that writes it, as a task that runs then sees it;
    nothing reads it. *)
Record SignetNode := mkNode {
  nd_notifier : N;
  nd_storage : S;
  nd_chain : ChainNotifier T R L;
  nd_status : NodeStatus;
  nd_process : PW;
  nd_metrics : Recorder;
  nd_seen : list (SharedState S T R L) }.
Abbreviation M := (st SignetNode Err).

Definition set_notifier (n : N) (s : SignetNode) :=
  mkNode n (nd_storage s) (nd_chain s) (nd_status s) (nd_process s) (nd_metrics s) (nd_seen s).
(** The shared state is written, and can be seen. *)
Definition publish (db : S) (chain : ChainNotifier T R L) (s : SignetNode) : SignetNode :=
  mkNode (nd_notifier s) db chain (nd_status s) (nd_process s) (nd_metrics s)
    (nd_seen s ++ [mkSharedState db chain]).
Definition on_chain (f : ChainNotifier T R L -> ChainNotifier T R L) : M unit :=
  st_modify (fun s => publish (nd_storage s) (f (nd_chain s)) s).
(** The tags are written one atomic at a time. *)
Fixpoint on_tags (ops : list tag_op) : M unit :=
  match ops with
  | [] => mret tt
  | o :: ops => _ ← on_chain (with_tags (run_op o)); on_tags ops
  end.
Definition set_status (st : NodeStatus) : M unit :=
  st_modify (fun s =>
    mkNode (nd_notifier s) (nd_storage s) (nd_chain s) st (nd_process s) (nd_metrics s) (nd_seen s)).
Definition on_metrics (f : Recorder -> Recorder) : M unit :=
  st_modify (fun s =>
    mkNode (nd_notifier s) (nd_storage s) (nd_chain s) (nd_status s) (nd_process s) (f (nd_metrics s))
      (nd_seen s)).

(** A storage operation, one transaction, its error converted by [?]. *)
Definition storage {A} (m : st S SE A) : M A := fun s =>
  let '(r, db) := m (nd_storage s) in (map_err NodeStorage r, publish db (nd_chain s) s).
Definition process {A} (m : S -> st PW PE A) : M A := fun s =>
  let '(r, w) := m (nd_storage s) (nd_process s) in
  (map_err NodeProcess r,
   mkNode (nd_notifier s) (nd_storage s) (nd_chain s) (nd_status s) w (nd_metrics s) (nd_seen s)).

Definition last_rollup_block : M Z := fun s =>
  (default 0 <$> map_err NodeStorage (last_block_number (nd_storage s)), s).

(** [start], up to [start_inner]: reconcile the two storage layers. *)
Definition reconcile : M unit :=
  hot_tip ← last_rollup_block;
  cold_tip ← (fun s => (default 0 <$> map_err NodeStorage (cold_latest_block (nd_storage s)), s));
  let target := Z.min hot_tip cold_tip in
  if (target <? hot_tip) || (target <? cold_tip) then storage (unwind_above target) else mret tt.

(** [notify_new_block] and [notify_reorg]. *)
Definition new_block_notification (b : Ex) : NewBlockNotification T R :=
  mkNewBlock (sh_header (ex_header b)) (ex_transactions b) (ex_receipts b).
Definition notify_new_block (b : Ex) : M unit := on_chain (send_new_block (new_block_notification b)).

Definition removed_block (d : DrainedBlock L) : RemovedBlock L :=
  mkRemovedBlock (h_number (sh_header (d_header d))) (sh_hash (d_header d))
    (h_timestamp (sh_header (d_header d))) (mjoin (d_receipts d)).
Definition reorg_notification (drained : list (DrainedBlock L)) (common_ancestor : Z) :
    ReorgNotification L := mkReorg common_ancestor (removed_block <$> drained).
Definition notify_reorg (now : Z) (drained : list (DrainedBlock L)) (common_ancestor : Z) : M unit :=
  on_chain (send_reorg now (reorg_notification drained common_ancestor)).

(** The loop of [process_committed_chain]. *)
Fixpoint process_extracts_loop (extracts : list Ext) (processed : bool) : M bool :=
  match extracts with
  | [] => mret processed
  | block_extracts :: extracts =>
      executed ← process (fun db => process_extracts db block_extracts);
      _ ← notify_new_block executed;
      _ ← storage (append_block executed);
      process_extracts_loop extracts true
  end.

Definition new_extracts (last_height : Z) (chain : C) : list Ext :=
  filter (fun e => last_height < ru_height e) (extract_signet chain).

Definition process_committed_chain (chain : C) : M bool :=
  last_height ← last_rollup_block;
  process_extracts_loop (new_extracts last_height chain) false.

Definition on_host_revert (now : Z) (range : RevertRange) : M bool :=
  let tip := RevertRange_tip range in
  let first := RevertRange_first range in
  if tip <=? host_deploy_height then mret false
  else
    rollup_tip ← last_rollup_block;
    range_tip_ru ← st_lift (ok_or (host_block_to_rollup_block_num tip) RevertTipUnmapped);
    _ ← st_lift (ensure (rollup_tip <=? range_tip_ru)
                   (RevertNotCovering tip range_tip_ru rollup_tip));
    let target := sat_sub (default 0 (host_block_to_rollup_block_num first)) 1 in
    drained ← storage (drain_above target);
    _ ← on_tags (rewind_to_ops target);
    _ ← (match drained with [] => mret tt | _ => notify_reorg now drained target end);
    mret true.

Definition update_status_channel : M unit :=
  ru_height ← last_rollup_block; set_status (AtHeight ru_height).

Definition on_notification (now : Z) (notification : HostNotification C) : M bool :=
  _ ← on_metrics (record_notification_received notification);
  reverted ← (match revert_range notification with
              | Some range => on_host_revert now range
              | None => mret false
              end);
  committed ← (match committed_chain notification with
               | Some chain => process_committed_chain chain
               | None => mret false
               end);
  let changed := reverted || committed in
  _ ← (if changed : bool then update_status_channel else mret tt);
  _ ← on_metrics (record_notification_processed notification);
  mret changed.

Definition clamp_host_heights (ru_height : Z) (host_block_number : option Z) : PairedHeights :=
  match host_block_number ≫= pair_host with
  | None => mkPaired host_deploy_height 0
  | Some heights => if ru_height <? ph_rollup heights then pair_ru ru_height else heights
  end.

Definition update_highest_processed_height (finalized_host_height : Z) : M unit := fun s =>
  let '(n, r) := send_finished_height (sat_sub finalized_host_height 1) (nd_notifier s) in
  (map_err NodeNotifier r, set_notifier n s).

Definition update_block_tags (ru_height : Z) (safe finalized : option Z) : M unit :=
  let safe_ru_height := ph_rollup (clamp_host_heights ru_height safe) in
  let finalized_heights := clamp_host_heights ru_height finalized in
  _ ← on_tags (update_all_ops ru_height safe_ru_height (ph_rollup finalized_heights));
  if 0 <? ph_rollup finalized_heights
  then update_highest_processed_height (ph_host finalized_heights) else mret tt.

(** The body of the main loop for one notification. *)
Definition handle_notification (now : Z) (notification : HostNotification C) : M unit :=
  changed ← on_notification now notification;
  if changed : bool then
    ru_height ← last_rollup_block;
    update_block_tags ru_height (safe_block_number notification) (finalized_block_number notification)
  else mret tt.

(** [start_inner] before the loop; [rpc] is the outcome of [start_rpc]. *)
Definition start_prelude (rpc_ok : bool) (backfill_max_blocks : option Z) : M unit :=
  _ ← st_lift (ensure rpc_ok NodeRpc);
  last_rollup ← last_rollup_block;
  _ ← set_status (AtHeight last_rollup);
  let host_height := if last_rollup =? 0 then host_deploy_height else ph_host (pair_ru last_rollup) in
  st_modify (fun s =>
    set_notifier (set_backfill_thresholds backfill_max_blocks (set_head host_height (nd_notifier s))) s).

(** The main loop over the environment's inputs: what the host does and the
    clock at each iteration; [Ok true] means the stream ended. *)
Fixpoint main_loop (inputs : list (W * Z)) : M bool :=
  match inputs with
  | [] => mret false
  | (w, now) :: inputs =>
      r ← (fun s => let '(n, r) := next_notification w (nd_notifier s) in (Ok r, set_notifier n s));
      match r with
      | None => mret true
      | Some notification =>
          notification ← st_lift (map_err NodeNotifier notification);
          _ ← handle_notification now notification;
          main_loop inputs
      end
  end.

Definition start (rpc_ok : bool) (backfill_max_blocks : option Z) (inputs : list (W * Z)) : M bool :=
  _ ← reconcile; _ ← start_prelude rpc_ok backfill_max_blocks; main_loop inputs.
End node.
Arguments SignetNode : clear implicits.
