(* ===== verification/NodeProps.v ===== *)
(** * Properties of the node

    The tag invariant over the main loop, the order of events within a
    notification, the outcomes of a host revert, and startup reconciliation. *)

From S2P Require Import Prelude HostTypes BlockTags Primitives Interest ChainNotifier Metrics BlockProcessor Node.

(** The block processor executes the rollup block the extracts ask for. *)
Class LawfulProcessing (S PW PE Ext Ex C : Type) `{!Extraction C Ext, !Processing S PW PE Ext Ex}
    (number : Ex -> Z) : Prop := {
  process_number db e w b w' : process_extracts db e w = (Ok b, w') -> number b = ru_height e }.

Section props.
Context {N W C NE S SE PW PE Ext Ex T R L : Type}
  `{!HostNotifier N W C NE, !SystemConstants, !UnifiedStorage S SE Ex L, !Extraction C Ext,
    !Processing S PW PE Ext Ex, !Executed Ex T R}.
Context (hot cold : S -> Z) (number : Ex -> Z)
  `{!LawfulConstants, !LawfulStorage S SE Ex L hot cold number, !LawfulProcessing S PW PE Ext Ex C number}.
Abbreviation NodeT := (SignetNode N S PW T R L).
Implicit Types s : NodeT.

(** No tag is above the stored rollup tip. *)
Definition node_ok s : Prop := tags_below (hot (nd_storage s)) (cn_tags (nd_chain s)).

Lemma last_rollup_block_ok s n s' :
  last_rollup_block (NE:=NE) (PE:=PE) s = (Ok n, s') -> s' = s /\ n = hot (nd_storage s).
Proof.
  unfold last_rollup_block. intros [= Hr <-]. split; [done|]. res_inv. by apply last_block_number_hot.
Qed.

Lemma storage_ok {A} (m : st S SE A) s a s' :
  storage (NE:=NE) (PE:=PE) m s = (Ok a, s') ->
  exists db, m (nd_storage s) = (Ok a, db)
    /\ s' = publish db (nd_chain s) s.
Proof.
  unfold storage. destruct (m (nd_storage s)) as [r db]. intros [= Hr <-].
  apply map_err_ok in Hr as ->. by exists db.
Qed.

(** The stores of several tags: those of all of them, one after the other. *)
Lemma on_tags_ok ops s u s' :
  on_tags (SE:=SE) (NE:=NE) (PE:=PE) ops s = (Ok u, s') ->
  nd_storage s' = nd_storage s /\ nd_chain s' = with_tags (run_ops ops) (nd_chain s)
  /\ nd_notifier s' = nd_notifier s /\ nd_status s' = nd_status s
  /\ nd_process s' = nd_process s /\ nd_metrics s' = nd_metrics s.
Proof.
  revert s. induction ops as [|o ops IH]; intros s; cbn [on_tags].
  { intros [= _ <-]. by destruct s as [? ? []]. }
  intros Hp. apply st_bind_ok in Hp as (v & s1 & Ho & Hp). injection Ho as _ <-. by apply IH in Hp.
Qed.

(** What processing a list of extracts leaves behind. *)
Lemma process_extracts_loop_ok extracts processed s p s' :
  process_extracts_loop (NE:=NE) (SE:=SE) extracts processed s = (Ok p, s') ->
  exists bs, Forall2 (fun e b => number b = ru_height e) extracts bs
    /\ cn_sent (nd_chain s') = cn_sent (nd_chain s) ++ (NewBlock ∘ new_block_notification <$> bs)
    /\ cn_tags (nd_chain s') = cn_tags (nd_chain s) /\ cn_reorgs (nd_chain s') = cn_reorgs (nd_chain s)
    /\ nd_notifier s' = nd_notifier s /\ nd_status s' = nd_status s
    /\ hot (nd_storage s') = default (hot (nd_storage s)) (last (ru_height <$> extracts))
    /\ p = processed || negb (bool_decide (extracts = [])).
Proof.
  revert processed s. induction extracts as [|e es IH]; intros processed s.
  { intros [= <- <-]. exists []. csimpl. rewrite app_nil_r, orb_false_r. by split_and!. }
  cbn [process_extracts_loop]. intros Hp.
  apply st_bind_ok in Hp as (b & s1 & Hb & Hp). unfold process in Hb.
  destruct (process_extracts (nd_storage s) e (nd_process s)) as [r w] eqn:He.
  injection Hb as Hr <-. apply map_err_ok in Hr as ->. apply process_number in He.
  apply st_bind_ok in Hp as ([] & s2 & Hn & Hp). injection Hn as <-.
  apply st_bind_ok in Hp as ([] & s3 & Ha & Hp). apply storage_ok in Ha as (db & Ha & ->).
  apply append_block_tip in Ha. destruct (IH _ _ Hp) as (bs & H1 & H2 & H3 & H4 & H5 & H6 & H7 & H8).
  exists (b :: bs). cbn in *. split; [by constructor|]. split; [by rewrite H2, <- app_assoc|].
  do 4 (split; [done|]). split.
  - rewrite H7, Ha, He. destruct es as [|e' es]; [done|].
    change (last (ru_height e :: (ru_height <$> e' :: es))) with (last (ru_height <$> e' :: es)).
    destruct (last (ru_height <$> e' :: es)) eqn:El; [done|].
    by apply last_None, fmap_nil_inv in El.
  - rewrite H8. by rewrite orb_true_r.
Qed.

(** Committed blocks only raise the tip. *)
Lemma new_extracts_above last_height chain n :
  last (ru_height <$> new_extracts last_height chain) = Some n -> last_height < n.
Proof.
  intros Hl. apply last_Some_elem_of, list_elem_of_fmap in Hl as (e & -> & He).
  unfold new_extracts in He. by apply list_elem_of_filter in He as [? _].
Qed.

Lemma process_committed_chain_ok chain s p s' :
  process_committed_chain (NE:=NE) (SE:=SE) chain s = (Ok p, s') ->
  exists bs,
    Forall2 (fun e b => number b = ru_height e) (new_extracts (hot (nd_storage s)) chain) bs
    /\ cn_sent (nd_chain s') = cn_sent (nd_chain s) ++ (NewBlock ∘ new_block_notification <$> bs)
    /\ cn_tags (nd_chain s') = cn_tags (nd_chain s) /\ nd_notifier s' = nd_notifier s
    /\ hot (nd_storage s) <= hot (nd_storage s')
    /\ p = negb (bool_decide (bs = [])).
Proof.
  unfold process_committed_chain. intros Hp. apply st_bind_ok in Hp as (h & s1 & Hl & Hp).
  apply last_rollup_block_ok in Hl as [-> ->].
  apply process_extracts_loop_ok in Hp as (bs & H1 & H2 & H3 & _ & H5 & _ & H7 & H8).
  exists bs. do 4 (split; [done|]). split.
  - rewrite H7. destruct (last _) as [n|] eqn:El; simpl; [|lia].
    apply new_extracts_above in El. lia.
  - rewrite H8. simpl. f_equal. apply bool_decide_ext.
    split; intros Hnil; rewrite Hnil in H1; by inversion H1.
Qed.

Lemma on_host_revert_ok now range s p s' :
  on_host_revert (NE:=NE) (PE:=PE) now range s = (Ok p, s') ->
  (p = false /\ s' = s /\ tip range <= host_deploy_height)
  \/ exists target drained n,
       p = true /\ host_deploy_height < tip range
       /\ host_block_to_rollup_block_num (tip range) = Some n /\ hot (nd_storage s) <= n
       /\ target = sat_sub (default 0 (host_block_to_rollup_block_num (first range))) 1
       /\ drain_above target (nd_storage s) = (Ok drained, nd_storage s')
       /\ hot (nd_storage s') = Z.min (hot (nd_storage s)) target
       /\ cn_tags (nd_chain s') = rewind_to target (cn_tags (nd_chain s))
       /\ nd_notifier s' = nd_notifier s
       /\ cn_sent (nd_chain s') = cn_sent (nd_chain s)
            ++ match drained with [] => [] | _ => [Reorg (reorg_notification drained target)] end.
Proof.
  unfold on_host_revert, RevertRange_tip, RevertRange_first.
  destruct (Z.leb_spec (tip range) host_deploy_height) as [Hle|Hlt].
  { intros [= <- <-]. by left. }
  intros Hr. right. apply st_bind_ok in Hr as (h & s1 & Hl & Hr).
  apply last_rollup_block_ok in Hl as [-> ->].
  apply st_bind_ok in Hr as (n & s2 & Hn & Hr). injection Hn as Hn <-. apply ok_or_ok in Hn.
  apply st_bind_ok in Hr as (u & s2 & Hu & Hr). injection Hu as Hu <-. apply ensure_ok in Hu.
  apply Z.leb_le in Hu.
  apply st_bind_ok in Hr as (drained & s3 & Hd & Hr). apply storage_ok in Hd as (db & Hd & ->).
  apply st_bind_ok in Hr as ([] & s4 & Hc & Hr). injection Hc as <-.
  apply st_bind_ok in Hr as ([] & s5 & Hno & Hr). injection Hr as <- <-.
  pose proof (drain_above_tip _ _ _ _ Hd) as Ht.
  eexists _, drained, n. do 5 (split; [done|]).
  destruct drained as [|d ds]; injection Hno as <-; simpl; rewrite ?app_nil_r; by split_and!.
Qed.

Lemma clamp_below ru_height h : 0 <= ru_height -> ph_rollup (clamp_host_heights ru_height h) <= ru_height.
Proof.
  intros Hr. unfold clamp_host_heights. destruct (h ≫= pair_host) as [p|]; simpl; [|lia].
  destruct (Z.ltb_spec ru_height (ph_rollup p)); [|lia]. by rewrite pair_ru_rollup.
Qed.

Lemma clamp_nonneg ru_height h : 0 <= ru_height -> 0 <= ph_rollup (clamp_host_heights ru_height h).
Proof.
  intros Hr. unfold clamp_host_heights. destruct h as [h|]; simpl; [|lia].
  destruct (pair_host h) as [p|] eqn:Hp; simpl; [|lia].
  destruct (Z.ltb_spec ru_height (ph_rollup p)); [by rewrite pair_ru_rollup|].
  eapply host_num_nonneg, pair_host_num, Hp.
Qed.

Lemma clamp_mono ru_height h k :
  0 <= ru_height -> h <= k ->
  ph_rollup (clamp_host_heights ru_height (Some h)) <= ph_rollup (clamp_host_heights ru_height (Some k)).
Proof.
  intros Hr Hhk. unfold clamp_host_heights. simpl.
  destruct (pair_host k) as [q|] eqn:Hk.
  - destruct (pair_host h) as [p|] eqn:Hh; simpl.
    + pose proof (pair_host_mono h k p q Hhk Hh Hk).
      destruct (Z.ltb_spec ru_height (ph_rollup p)), (Z.ltb_spec ru_height (ph_rollup q));
        rewrite ?pair_ru_rollup; lia.
    + destruct (Z.ltb_spec ru_height (ph_rollup q)); [by rewrite pair_ru_rollup|].
      eapply host_num_nonneg, pair_host_num, Hk.
  - by rewrite (pair_host_none h k Hhk Hk).
Qed.

Lemma update_block_tags_ok ru safe fin s u s' :
  update_block_tags (SE:=SE) (PE:=PE) ru safe fin s = (Ok u, s') ->
  (nd_storage s' = nd_storage s /\ nd_status s' = nd_status s)
  /\ cn_sent (nd_chain s') = cn_sent (nd_chain s)
  /\ cn_tags (nd_chain s')
     = update_all ru (ph_rollup (clamp_host_heights ru safe)) (ph_rollup (clamp_host_heights ru fin))
         (cn_tags (nd_chain s))
  /\ nd_notifier s'
     = (if 0 <? ph_rollup (clamp_host_heights ru fin)
        then (send_finished_height (sat_sub (ph_host (clamp_host_heights ru fin)) 1) (nd_notifier s)).1
        else nd_notifier s).
Proof.
  unfold update_block_tags. intros Hu. apply st_bind_ok in Hu as ([] & s1 & Hc & Hu). injection Hc as <-.
  revert Hu. destruct (0 <? _); intros Hu.
  - unfold update_highest_processed_height in Hu. cbn [nd_notifier] in Hu.
    destruct (send_finished_height _ _) as [n r]. injection Hu as _ <-. by split_and!.
  - injection Hu as _ <-. by split_and!.
Qed.

Lemma on_notification_ok now notif s c s' :
  node_ok s -> on_notification (NE:=NE) (SE:=SE) (PE:=PE) now notif s = (Ok c, s') -> node_ok s'.
Proof.
  unfold on_notification. intros Hok Ho. apply st_bind_ok in Ho as ([] & s0 & Hm & Ho). injection Hm as <-.
  apply st_bind_ok in Ho as (r & s1 & Hr & Ho).
  assert (node_ok s1) as Hok1.
  { destruct (revert_range notif) as [range|]; [|injection Hr as <- <-; done].
    apply on_host_revert_ok in Hr as [(-> & -> & _)|(target & dr & n & _ & _ & _ & _ & _ & _ & Hh & Ht & _)];
      [done|]. unfold node_ok. rewrite Hh, Ht. by apply rewind_to_below_both. }
  apply st_bind_ok in Ho as (cm & s2 & Hc & Ho).
  assert (node_ok s2) as Hok2.
  { destruct (committed_chain notif) as [chain|]; [|injection Hc as <- <-; done].
    apply process_committed_chain_ok in Hc as (bs & _ & _ & Ht & _ & Hle & _).
    unfold node_ok. rewrite Ht. by eapply tags_below_mono. }
  apply st_bind_ok in Ho as ([] & s3 & Hu & Ho).
  apply st_bind_ok in Ho as ([] & s4 & Hm & Ho). injection Hm as <-. injection Ho as _ <-.
  destruct (r || cm); [|injection Hu as <-; done].
  unfold update_status_channel in Hu. apply st_bind_ok in Hu as (h & s5 & Hl & Hu).
  apply last_rollup_block_ok in Hl as [-> _]. injection Hu as <-. done.
Qed.

Lemma handle_notification_ok now notif s u s' :
  node_ok s -> handle_notification (NE:=NE) (SE:=SE) (PE:=PE) now notif s = (Ok u, s') -> node_ok s'.
Proof.
  unfold handle_notification. intros Hok Hh. apply st_bind_ok in Hh as (c & s1 & Ho & Hh).
  pose proof (on_notification_ok _ _ _ _ _ Hok Ho) as Hok1.
  destruct c; [|injection Hh as _ <-; done].
  apply st_bind_ok in Hh as (h & s2 & Hl & Hh). apply last_rollup_block_ok in Hl as [-> ->].
  apply update_block_tags_ok in Hh as ([Hs _] & _ & Ht & _). unfold node_ok. rewrite Hs, Ht.
  pose proof (hot_nonneg (nd_storage s1)).
  apply update_all_below; [lia|by apply clamp_below..].
Qed.

(** What every handled notification preserves holds when the main loop ends,
    the notifier apart. *)
Lemma main_loop_inv (I : NodeT -> Prop) inputs s b s' :
  (forall n s, I s -> I (set_notifier n s)) ->
  (forall now notif s u s', I s ->
     handle_notification (NE:=NE) (SE:=SE) (PE:=PE) now notif s = (Ok u, s') -> I s') ->
  I s -> main_loop (W:=W) (NE:=NE) (SE:=SE) (PE:=PE) inputs s = (Ok b, s') -> I s'.
Proof.
  intros Hset Hhandle. revert s. induction inputs as [|[w now] inputs IH]; intros s Hok; cbn [main_loop].
  { intros [= <- <-]. done. }
  intros Hm. apply st_bind_ok in Hm as (r & s1 & Hn & Hm).
  destruct (next_notification w (nd_notifier s)) as [n r']. injection Hn as <- <-.
  apply (Hset n) in Hok. destruct r' as [notif|]; [|injection Hm as _ <-; exact Hok].
  apply st_bind_ok in Hm as (nt & s2 & Hl & Hm). injection Hl as _ <-.
  apply st_bind_ok in Hm as ([] & s3 & Hh & Hm). apply Hhandle in Hh; [|exact Hok]. by eapply IH.
Qed.

(** ** Properties *)

(** Tags never point past storage: if no tag exceeds the stored rollup tip,
    the same holds after every iteration of the main loop that succeeds,
    whatever the host sends (commits, reverts, reorgs, repeated blocks) and
    whatever safe and finalized heights it reports. *)
Theorem main_loop_tags_below inputs s b s' :
  node_ok s -> main_loop (W:=W) (NE:=NE) (SE:=SE) (PE:=PE) inputs s = (Ok b, s') -> node_ok s'.
Proof. apply main_loop_inv; [done|]. intros ?????. apply handle_notification_ok. Qed.

(** C11: A host revert does one of two things when it succeeds: nothing, when it
    ends at or before the deployment; or, only when it covers the stored tip,
    it drains storage to just below the first reverted block (or to 0), caps
    every tag there, and announces one reorg with exactly the drained blocks,
    their hashes and their logs. *)
Theorem on_host_revert_outcomes now range s p s' :
  on_host_revert (NE:=NE) (PE:=PE) now range s = (Ok p, s') ->
  (p = false /\ s' = s /\ tip range <= host_deploy_height)
  \/ exists drained target n, p = true
       /\ host_block_to_rollup_block_num (tip range) = Some n /\ hot (nd_storage s) <= n
       /\ target = sat_sub (default 0 (host_block_to_rollup_block_num (first range))) 1
       /\ drain_above target (nd_storage s) = (Ok drained, nd_storage s')
       /\ tags_below target (cn_tags (nd_chain s'))
       /\ exists reorg, common_ancestor reorg = target
            /\ rb_number <$> removed_blocks reorg = (h_number ∘ sh_header ∘ d_header) <$> drained
            /\ rb_hash <$> removed_blocks reorg = (sh_hash ∘ d_header) <$> drained
            /\ mjoin (rb_logs <$> removed_blocks reorg) = mjoin (mjoin ∘ d_receipts <$> drained)
            /\ cn_sent (nd_chain s')
               = cn_sent (nd_chain s) ++ match drained with [] => [] | _ => [Reorg reorg] end.
Proof.
  intros Hr. apply on_host_revert_ok in Hr as
    [Hl|(target & drained & n & -> & _ & Hn & Hle & -> & Hd & _ & Ht & _ & Hs)]; [by left|right].
  exists drained. eexists _, n. do 5 (split; [done|]). split.
  - rewrite Ht, rewind_to_eq. unfold tags_below. simpl. lia.
  - eexists. split; [|split; [|split; [|split; [|exact Hs]]]]; [done| | |];
      unfold reorg_notification; cbn [removed_blocks]; by rewrite <- list_fmap_compose.
Qed.

(** Reverts run before commits: a successful notification appends to the
    event stream first the reorg it caused, if any, then one new-block event per
    extracted block above the tip that the revert left, in extraction order; it
    reports a change exactly when it reverted or appended something, and then
    the status channel shows the stored tip. *)
Theorem notification_event_order now notif s c s' :
  on_notification (NE:=NE) (SE:=SE) (PE:=PE) now notif s = (Ok c, s') ->
  exists reverted mid blocks,
    cn_sent (nd_chain s') = cn_sent (nd_chain s)
      ++ from_option (fun r => [Reorg r]) [] reverted
      ++ (NewBlock ∘ new_block_notification <$> blocks)
    /\ (revert_range notif = None -> reverted = None /\ mid = hot (nd_storage s))
    /\ mid <= hot (nd_storage s)
    /\ Forall2 (fun e b => number b = ru_height e)
         (match committed_chain notif with Some chain => new_extracts mid chain | None => [] end) blocks
    /\ (c = true -> nd_status s' = AtHeight (hot (nd_storage s')))
    /\ (blocks <> [] -> c = true) /\ (reverted <> None -> c = true)
    /\ (c = false -> cn_sent (nd_chain s') = cn_sent (nd_chain s)).
Proof.
  unfold on_notification. intros Ho. apply st_bind_ok in Ho as ([] & s0 & Hm & Ho). injection Hm as <-.
  apply st_bind_ok in Ho as (r & s1 & Hr & Ho).
  assert (exists rv, cn_sent (nd_chain s1) = cn_sent (nd_chain s) ++ from_option (fun x => [Reorg x]) [] rv
    /\ (revert_range notif = None -> rv = None /\ hot (nd_storage s1) = hot (nd_storage s))
    /\ hot (nd_storage s1) <= hot (nd_storage s) /\ (rv <> None -> r = true)) as (rv & Hs1 & Hn1 & Hh1 & Hr1).
  { destruct (revert_range notif) as [range|].
    - apply on_host_revert_ok in Hr as
        [(-> & -> & _)|(target & dr & n & -> & _ & _ & _ & _ & _ & Hh & _ & _ & Hs)];
        cbn [nd_storage nd_chain] in *.
      + exists None. by rewrite app_nil_r.
      + destruct dr as [|d dr]; [exists None|eexists (Some _)]; (split; [exact Hs|]); (split; [done|]); (split; [lia|done]).
    - injection Hr as <- <-. exists None. by rewrite app_nil_r. }
  apply st_bind_ok in Ho as (cm & s2 & Hc & Ho).
  assert (exists bs, cn_sent (nd_chain s2) = cn_sent (nd_chain s1) ++ (NewBlock ∘ new_block_notification <$> bs)
    /\ Forall2 (fun e b => number b = ru_height e)
         (match committed_chain notif with Some chain => new_extracts (hot (nd_storage s1)) chain | None => [] end) bs
    /\ cm = negb (bool_decide (bs = []))) as (bs & Hs2 & Hf2 & Hc2).
  { destruct (committed_chain notif) as [chain|].
    - apply process_committed_chain_ok in Hc as (bs & Hf & Hs & _ & _ & _ & Hp). by exists bs.
    - injection Hc as <- <-. exists []. csimpl. by rewrite app_nil_r. }
  apply st_bind_ok in Ho as ([] & s3 & Hu & Ho).
  apply st_bind_ok in Ho as ([] & s5 & Hm & Ho). injection Hm as <-. injection Ho as <- <-.
  assert (nd_chain s3 = nd_chain s2 /\ (r || cm = true -> nd_status s3 = AtHeight (hot (nd_storage s3))))
    as [Hch Hst].
  { destruct (r || cm); [|injection Hu as <-; done].
    unfold update_status_channel in Hu. apply st_bind_ok in Hu as (h & s4 & Hl & Hu).
    apply last_rollup_block_ok in Hl as [-> ->]. injection Hu as <-. done. }
  exists rv, (hot (nd_storage s1)), bs. cbn [nd_chain nd_storage nd_status]. rewrite Hch. split.
  { rewrite Hs2, Hs1, <- app_assoc. by destruct rv. }
  split; [done|]. split; [done|]. split; [done|]. split; [done|]. split; [|split].
  - intros Hbs. rewrite Hc2. rewrite bool_decide_false by done. apply orb_true_r.
  - intros Hrv. by rewrite Hr1.
  - intros Hf. apply orb_false_iff in Hf as [-> ->]. symmetry in Hc2. apply negb_false_iff, bool_decide_eq_true in Hc2 as ->.
    rewrite Hs2, Hs1. csimpl. rewrite app_nil_r. destruct rv; [|by rewrite app_nil_r].
    by discriminate Hr1.
Qed.

(** The rollup height a reported host height stands for: the one it is paired
    with, no higher than the tip; the genesis when there is none. *)
Definition tag_height (ru : Z) (host : option Z) : Z :=
  from_option (fun p => Z.min ru (ph_rollup p)) 0 (host ≫= pair_host).

Lemma clamp_rollup ru host : ph_rollup (clamp_host_heights ru host) = tag_height ru host.
Proof.
  unfold clamp_host_heights, tag_height. destruct (host ≫= pair_host) as [p|]; [|done]. simpl.
  destruct (Z.ltb_spec ru (ph_rollup p)); [rewrite pair_ru_rollup|]; lia.
Qed.

Lemma tag_height_mono ru h k : 0 <= ru -> h <= k -> tag_height ru (Some h) <= tag_height ru (Some k) <= ru.
Proof.
  intros Hr Hhk. rewrite <- !clamp_rollup. split; [by apply clamp_mono|by apply clamp_below].
Qed.

(** C18: What a processed notification makes of the heights it reports, whether
    the host answers or not: latest is the stored tip, safe and finalized are
    the reported host heights mapped to the rollup, no higher than the tip and
    at the genesis when nothing is reported or paired; storage, status and
    announcements are not touched.  Once finality has left the genesis the host
    is told, and may answer with an error, that it can prune up to one below the
    host block of the finalized rollup block, which is the tip's own when the
    tip is behind; before that it is told nothing.  The tags are ordered when
    the reported heights are. *)
Theorem update_block_tags_exact s r s' ru safe_host fin_host :
  update_block_tags (NE:=NE) (SE:=SE) (PE:=PE) ru safe_host fin_host s = (r, s') ->
  cn_tags (nd_chain s') = mkBlockTags ru (tag_height ru safe_host) (tag_height ru fin_host)
                            (sync_status (cn_tags (nd_chain s)))
  /\ nd_storage s' = nd_storage s /\ nd_status s' = nd_status s
  /\ cn_sent (nd_chain s') = cn_sent (nd_chain s) /\ cn_reorgs (nd_chain s') = cn_reorgs (nd_chain s)
  /\ (forall p, fin_host ≫= pair_host = Some p -> 0 < tag_height ru fin_host ->
        let host := if ru <? ph_rollup p then ph_host (pair_ru ru) else ph_host p in
        let told := send_finished_height (sat_sub host 1) (nd_notifier s) in
        nd_notifier s' = told.1 /\ r = map_err NodeNotifier told.2)
  /\ (tag_height ru fin_host <= 0 -> nd_notifier s' = nd_notifier s /\ r = Ok tt)
  /\ (forall h k, fin_host = Some h -> safe_host = Some k -> 0 <= ru -> h <= k ->
        tags_ordered (cn_tags (nd_chain s'))).
Proof.
  unfold update_block_tags. rewrite !clamp_rollup. intros Hu.
  destruct (on_tags (SE:=SE) (NE:=NE) (PE:=PE) (update_all_ops ru (tag_height ru safe_host) (tag_height ru fin_host)) s) as [r1 s1] eqn:Ht. assert (r1 = Ok tt) as -> by by injection Ht as <- _.
  unfold mbind, st_bind in Hu. rewrite Ht in Hu. apply on_tags_ok in Ht as (Hs & Hc & Hn & Hst & _).
  assert (nd_chain s' = nd_chain s1 /\ nd_storage s' = nd_storage s1 /\ nd_status s' = nd_status s1) as (-> & -> & ->).
  { destruct (0 <? _); [|by injection Hu as _ <-]. unfold update_highest_processed_height in Hu.
    destruct (send_finished_height _ _) as [n x]. by injection Hu as _ <-. }
  rewrite Hc, Hs, Hst. cbn [with_tags cn_tags cn_sent cn_reorgs]. change (run_ops _) with
    (update_all ru (tag_height ru safe_host) (tag_height ru fin_host)). rewrite update_all_eq.
  do 5 (split; [done|]). split_and!.
  - intros p Hp Hpos. destruct (Z.ltb_spec 0 (tag_height ru fin_host)); [|lia].
    unfold update_highest_processed_height, clamp_host_heights in Hu. rewrite Hp, Hn in Hu. simpl.
    destruct (ru <? ph_rollup p), (send_finished_height _ _) as [n x] in Hu |- *; by injection Hu as <- <-.
  - intros Hz. destruct (Z.ltb_spec 0 (tag_height ru fin_host)); [lia|]. by injection Hu as <- <-.
  - intros h k -> -> Hr Hhk. by apply tag_height_mono.
Qed.

(** Startup reconciles the layers: when it succeeds both layers are at the
    lower of their two heights, storage is not touched when they agree, and the
    notifier is set to resume at the host block of that height (at the
    deployment for an empty rollup). *)
Theorem start_reconciles s u s1 bf u' s2 :
  (forall n, ph_host (pair_ru n) = host_deploy_height + n) ->
  0 <= cold (nd_storage s) ->
  reconcile (NE:=NE) (PE:=PE) s = (Ok u, s1) ->
  start_prelude (SE:=SE) (PE:=PE) true bf s1 = (Ok u', s2) ->
  hot (nd_storage s1) = Z.min (hot (nd_storage s)) (cold (nd_storage s))
  /\ cold (nd_storage s1) = hot (nd_storage s1)
  /\ (hot (nd_storage s) = cold (nd_storage s) -> nd_storage s1 = nd_storage s)
  /\ nd_storage s2 = nd_storage s1
  /\ nd_status s2 = AtHeight (hot (nd_storage s1))
  /\ nd_notifier s2 = set_backfill_thresholds bf
       (set_head (host_deploy_height + hot (nd_storage s1)) (nd_notifier s)).
Proof.
  intros Hpair Hc0 Hrec Hpre. unfold reconcile in Hrec.
  apply st_bind_ok in Hrec as (h & s3 & Hl & Hrec). apply last_rollup_block_ok in Hl as [-> ->].
  apply st_bind_ok in Hrec as (c & s3 & Hcl & Hrec). injection Hcl as Hcl <-. res_inv.
  match goal with Hc : cold_latest_block _ = Ok _ |- _ => apply cold_latest_cold in Hc end.
  match goal with Hc : default 0 _ = cold _ |- _ => rewrite Hc in Hrec end.
  set (ht := hot (nd_storage s)) in *. set (ct := cold (nd_storage s)) in *.
  assert (hot (nd_storage s1) = Z.min ht ct /\ cold (nd_storage s1) = Z.min ht ct
    /\ (ht = ct -> nd_storage s1 = nd_storage s) /\ nd_notifier s1 = nd_notifier s) as (K1 & K2 & K3 & K4).
  { destruct (_ || _) eqn:Hb.
    - apply storage_ok in Hrec as (db & Hun & ->). apply unwind_above_tips in Hun as [Hh Hcc]. cbn.
      rewrite Hh, Hcc. fold ht ct. apply orb_true_iff in Hb. rewrite !Z.ltb_lt in Hb. split_and!; lia || done.
    - injection Hrec as _ <-. fold ht ct. apply orb_false_iff in Hb. rewrite !Z.ltb_ge in Hb. split_and!; lia || done. }
  unfold start_prelude in Hpre. apply st_bind_ok in Hpre as (u1 & s4 & Hen & Hpre). injection Hen as _ <-.
  apply st_bind_ok in Hpre as (lr & s5 & Hl & Hpre). apply last_rollup_block_ok in Hl as [-> ->].
  apply st_bind_ok in Hpre as ([] & s5 & Hst & Hpre). injection Hst as <-. injection Hpre as _ <-.
  cbn. split; [done|]. split; [lia|]. do 3 (split; [done|]). rewrite K4, Hpair. do 2 f_equal.
  destruct (Z.eqb_spec (hot (nd_storage s1)) 0) as [->|]; [by rewrite Z.add_0_r|done].
Qed.
(** A new block is announced before it is stored: when the write fails the node
    stops with the error, subscribers have the block, and neither the tags nor
    storage know it. *)
Lemma failed_append_announced e es b w db' err s :
  process_extracts (nd_storage s) e (nd_process s) = (Ok b, w) ->
  append_block b (nd_storage s) = (Err err, db') ->
  exists s', process_extracts_loop (NE:=NE) (e :: es) false s = (Err (NodeStorage err), s')
    /\ cn_sent (nd_chain s') = cn_sent (nd_chain s) ++ [NewBlock (new_block_notification b)]
    /\ cn_tags (nd_chain s') = cn_tags (nd_chain s) /\ nd_storage s' = db'.
Proof.
  intros Hp Ha. simpl. unfold mbind, st_bind, process. rewrite Hp. simpl.
  unfold storage. simpl. rewrite Ha. simpl. eexists. split; [reflexivity|].
  split; [|split; reflexivity]. reflexivity.
Qed.
End props.

(** ** A sample node

    Storage is the pair of its two heights, an extract or executed block is its
    rollup height, a chain is a list of extracts, the notifier plays a script
    and records the finished heights it is told, and the rollup is deployed at
    host block 100. *)
Module SampleNode.

#[export] Instance constants : SystemConstants := {
  host_deploy_height := 100;
  pair_ru n := mkPaired (100 + n) n;
  pair_host h := if h <? 100 then None else Some (mkPaired h (h - 100));
  host_block_to_rollup_block_num h := if h <? 100 then None else Some (h - 100) }.

#[export] Instance lawful_constants : LawfulConstants.
Proof.
  constructor; simpl.
  - done.
  - intros h p. destruct (h <? 100); [done|]. by intros [= <-].
  - intros h k p q Hhk. destruct (Z.ltb_spec h 100), (Z.ltb_spec k 100); try done.
    intros [= <-] [= <-]. simpl. lia.
  - intros h k Hhk. destruct (Z.ltb_spec h 100), (Z.ltb_spec k 100); try done. lia.
  - intros h n. destruct (Z.ltb_spec h 100); [done|]. intros [= <-]. lia.
  - intros h k n m Hhk. destruct (Z.ltb_spec h 100), (Z.ltb_spec k 100); try done.
    intros [= <-] [= <-]. lia.
Qed.

Definition store : Type := N * N.
Definition sealed (n : Z) : SealedHeader := mkSealedHeader (Sample.header n) (1000 + n).
Definition drained (t n : Z) : list (DrainedBlock Z) :=
  (fun k => mkDrained (sealed k) [[Sample.any_log k]]) <$> range_incl (t + 1) n.

#[export] Instance storage : UnifiedStorage store unit Z Z := {
  last_block_number s := Ok (Some (Z.of_N s.1));
  cold_latest_block s := Ok (Some (Z.of_N s.2));
  unwind_above t s := (if 0 <=? t then Ok tt else Err tt,
    (N.min s.1 (Z.to_N t), N.min s.2 (Z.to_N t)));
  append_block b s := if 0 <=? b then (Ok tt, (Z.to_N b, Z.to_N b)) else (Err tt, s);
  drain_above t s := if 0 <=? t
    then (Ok (drained t (Z.of_N s.1)), (N.min s.1 (Z.to_N t), N.min s.2 (Z.to_N t)))
    else (Err tt, s) }.

Definition hot (s : store) : Z := Z.of_N s.1.
Definition cold (s : store) : Z := Z.of_N s.2.

#[export] Instance lawful_storage : LawfulStorage store unit Z Z hot cold id.
Proof.
  constructor; unfold hot, cold.
  - by intros s o [= <-].
  - by intros s o [= <-].
  - lia.
  - intros t s u s'. simpl. destruct (Z.leb_spec 0 t); intros [= _ <-]. simpl. lia.
  - intros b s u s'. simpl. destruct (Z.leb_spec 0 b); intros [= _ <-]. simpl. unfold id. lia.
  - intros t s d s'. simpl. destruct (Z.leb_spec 0 t); intros [= _ <-]. simpl. lia.
Qed.

#[export] Instance extraction : Extraction (list Z) Z := {
  extract_signet c := c; ru_height e := e }.
#[export] Instance processing : Processing store unit unit Z Z := {
  process_extracts _ e w := (Ok e, w) }.
#[export] Instance executed : Executed Z unit unit := {
  ex_header b := sealed b; ex_transactions _ := []; ex_receipts _ := [] }.
#[export] Instance lawful_processing : LawfulProcessing store unit unit Z Z (list Z) id.
Proof. constructor. by intros db e w b w' [= <- <-]. Qed.

(** The script and the calls received. *)
Record player := mkPlayer {
  script : list (HostNotification (list Z)); heads : list Z; finished : list Z }.
#[export] Instance notifier : HostNotifier player unit (list Z) unit := {
  next_notification _ n := match script n with
    | [] => (n, None)
    | x :: xs => (mkPlayer xs (heads n) (finished n), Some (Ok x))
    end;
  set_head b n := mkPlayer (script n) (heads n ++ [b]) (finished n);
  set_backfill_thresholds _ n := n;
  send_finished_height b n := (mkPlayer (script n) (heads n) (finished n ++ [b]), Ok tt) }.

Definition node (hot cold : N) (xs : list (HostNotification (list Z))) :
    SignetNode player store unit unit unit Z :=
  mkNode (mkPlayer xs [] []) (hot, cold) ChainNotifier_new Booting tt Recorder_new [].

(** Host blocks 101..103 arrive, then a reorg replaces 102 and 103. *)
Definition commit : HostNotification (list Z) :=
  mkHostNotification (ChainCommitted [1; 2; 3]) (Some 102) (Some 101).
Definition reorg : HostNotification (list Z) :=
  mkHostNotification (ChainReorged (mkRevertRange 102 103) [2; 3; 4]) (Some 102) (Some 101).
End SampleNode.
Import SampleNode.

Lemma main_loop_tags_below_witness :
  let '(r, s) := main_loop (NE:=unit) (SE:=unit) (PE:=unit) (Ex:=Z)
                   [(tt, 0); (tt, 5); (tt, 9)] (node 0 0 [commit; reorg]) in
  r = Ok true /\ node_ok hot s /\ cn_tags (nd_chain s) = mkBlockTags 4 2 1 None
  /\ finished (nd_notifier s) = [100; 100].
Proof.
  destruct (main_loop _ _) as [r s] eqn:E. assert (r = Ok true) as ->.
  { apply (f_equal fst) in E. vm_compute in E. by symmetry. }
  pose proof (main_loop_tags_below (NE:=unit) (PE:=unit) hot cold id [(tt, 0); (tt, 5); (tt, 9)]
    (node 0 0 [commit; reorg]) true s) as Hw.
  split; [done|]. split; [|vm_compute in E; injection E as <-; done].
  apply Hw; [vm_compute; split_and!; discriminate|exact E].
Defined.

Lemma on_host_revert_outcomes_witness :
  let s := node 3 3 [] in
  let '(r, s') := on_host_revert (NE:=unit) (SE:=unit) (PE:=unit) (Ex:=Z) 0 (mkRevertRange 102 103) s in
  r = Ok true /\ hot (nd_storage s') = 1
  /\ ((true = false /\ s' = s /\ tip (mkRevertRange 102 103) <= host_deploy_height) \/
      exists dr target (n : Z), true = true /\ tags_below target (cn_tags (nd_chain s'))
        /\ drain_above (Ex:=Z) (SE:=unit) (L:=Z) target (nd_storage s) = (Ok dr, nd_storage s')).
Proof.
  intros s. destruct (on_host_revert 0 _ s) as [r s'] eqn:E. assert (r = Ok true) as ->.
  { apply (f_equal fst) in E. vm_compute in E. by symmetry. }
  destruct (on_host_revert_outcomes hot cold id 0 (mkRevertRange 102 103) s true s' E)
    as [Hl|(dr & target & n & _ & _ & _ & _ & Hd & Ht & _)].
  - by destruct Hl.
  - split; [done|]. split; [vm_compute in E; injection E as <-; done|]. right.
    by exists dr, target, n.
Defined.

Lemma notification_event_order_witness :
  let s := node 3 3 [] in
  let '(r, s') := on_notification (NE:=unit) (SE:=unit) (PE:=unit) (Ex:=Z) 0 reorg s in
  r = Ok true /\ length (cn_sent (nd_chain s')) = 4%nat
  /\ (true = true -> nd_status s' = AtHeight (hot (nd_storage s'))).
Proof.
  intros s. destruct (on_notification 0 reorg s) as [r s'] eqn:E. assert (r = Ok true) as ->.
  { apply (f_equal fst) in E. vm_compute in E. by symmetry. }
  destruct (notification_event_order hot cold id 0 reorg s true s' E)
    as (rv & mid & bs & _ & _ & _ & _ & Hst & _).
  split; [done|]. split; [vm_compute in E; injection E as <-; done|exact Hst].
Defined.

(** The host reports blocks ahead of the tip as safe and finalized: the tags are
    the tip, and the host may prune up to below the tip's own host block. *)
Lemma update_block_tags_exact_witness :
  let s := node 3 3 [] in
  let '(r, s') := update_block_tags (NE:=unit) (SE:=unit) (PE:=unit) 3 (Some 110) (Some 105) s in
  cn_tags (nd_chain s') = mkBlockTags 3 3 3 None /\ finished (nd_notifier s') = [102] /\ r = Ok tt.
Proof.
  intros s. destruct (update_block_tags 3 (Some 110) (Some 105) s) as [r s'] eqn:E.
  destruct (update_block_tags_exact s r s' 3 (Some 110) (Some 105) E) as (Ht & _ & _ & _ & _ & Hn & _).
  destruct (Hn (mkPaired 105 5) eq_refl ltac:(reflexivity)) as [-> ->].
  split; [rewrite Ht; reflexivity|]. by split.
Defined.

Lemma start_reconciles_witness :
  let s := node 5 3 [] in
  exists s1 (s2 : SignetNode player store unit unit unit Z), reconcile (NE:=unit) (SE:=unit) (PE:=unit) (Ex:=Z) (L:=Z) s = (Ok tt, s1)
    /\ hot (nd_storage s1) = 3 /\ cold (nd_storage s1) = 3
    /\ heads (nd_notifier s2) = [103] /\ nd_status s2 = AtHeight 3.
Proof.
  intros s.
  destruct (reconcile (NE:=unit) (SE:=unit) (PE:=unit) s) as [r s1] eqn:E1.
  assert (r = Ok tt) as -> by (apply (f_equal fst) in E1; vm_compute in E1; by symmetry).
  destruct (start_prelude (NE:=unit) (SE:=unit) (PE:=unit) true None s1) as [r2 s2] eqn:E2.
  assert (r2 = Ok tt) as ->.
  { apply (f_equal fst) in E2. vm_compute in E1. injection E1 as <-. vm_compute in E2. by symmetry. }
  exists s1, s2. split; [done|].
  destruct (start_reconciles hot cold id s tt s1 None tt s2 ltac:(done) ltac:(vm_compute; discriminate) E1 E2)
    as (H1 & H2 & _ & _ & H4 & H5).
  rewrite H5, H4, H2, H1. vm_compute. auto.
Defined.
