(* ===== verification/Served.v ===== *)
(** * What a running node serves

    The node's main loop ([crates/node/src/node.rs]) composed with the RPC
    context's resolution of block tags ([crates/rpc/src/config/ctx.rs]): what a
    client that asks for a tagged block finds between two notifications, from
    the start of the node on. *)

From S2P Require Import Prelude HostTypes BlockTags Primitives Interest ChainNotifier Metrics BlockProcessor Errors Storage RpcConfig RpcCtx RpcStart Node NodeProps.

(** Hot storage, as the RPC layer reads it, holds a header at every height up
    to its tip, the genesis included. *)
Class SnapshotReads (S HSE HE Rd Code : Type) `{!HotStorage S HSE HE Rd Code} (hot : S -> Z) : Prop := {
  stored_header db rd n o :
    reader db = Ok rd -> get_header rd n = Ok o -> 0 <= n <= hot db ->
    exists h, o = Some h /\ h_number (sh_header h) = n }.

Section served.
Context {N W C NE S SE PW PE Ext Ex T R L HSE HE Rd Code Spec : Type}
  `{!HostNotifier N W C NE, !SystemConstants, !UnifiedStorage S SE Ex L, !Extraction C Ext,
    !Processing S PW PE Ext Ex, !Executed Ex T R, !HotStorage S HSE HE Rd Code}.
Context (hot cold : S -> Z) (number : Ex -> Z)
  `{!LawfulConstants, !LawfulStorage S SE Ex L hot cold number, !LawfulProcessing S PW PE Ext Ex C number,
    !SnapshotReads S HSE HE Rd Code hot}.
Abbreviation NodeT := (SignetNode N S PW T R L).
Abbreviation tags s := (cn_tags (nd_chain s)).
Implicit Types s : NodeT.

(** No tag is negative. *)
Definition tags_from (t : BlockTags) : Prop := 0 <= latest t /\ 0 <= safe t /\ 0 <= finalized t.

(** ** A notification that reports no change made none *)
Lemma process_committed_chain_idle c s s' :
  process_committed_chain (NE:=NE) (SE:=SE) c s = (Ok false, s') -> s' = s.
Proof.
  unfold process_committed_chain. intros Hp. apply st_bind_ok in Hp as (h & s1 & Hl & Hp).
  apply (last_rollup_block_ok hot cold number) in Hl as [-> ->].
  pose proof Hp as Hs. apply (process_extracts_loop_ok hot cold number) in Hs
    as (_ & _ & _ & _ & _ & _ & _ & _ & He).
  simpl in He. symmetry in He. apply negb_false_iff, bool_decide_eq_true in He.
  rewrite He in Hp. by injection Hp as <-.
Qed.

Lemma tags_from_rewind n t : 0 <= n -> tags_from t -> tags_from (rewind_to n t).
Proof. rewrite rewind_to_eq. unfold tags_from. simpl. lia. Qed.

Lemma on_notification_served now notif s c s' :
  tags_from (tags s) -> on_notification (NE:=NE) (SE:=SE) (PE:=PE) now notif s = (Ok c, s') ->
  if c then tags_from (tags s') /\ nd_status s' = AtHeight (hot (nd_storage s'))
  else nd_storage s' = nd_storage s /\ tags s' = tags s /\ nd_status s' = nd_status s.
Proof.
  unfold on_notification. intros Hok Ho. apply st_bind_ok in Ho as ([] & s0 & Hm & Ho). injection Hm as <-.
  apply st_bind_ok in Ho as (r & s1 & Hr & Ho). apply st_bind_ok in Ho as (cm & s2 & Hc & Ho).
  apply st_bind_ok in Ho as ([] & s3 & Hu & Ho).
  apply st_bind_ok in Ho as ([] & s4 & Hm & Ho). injection Hm as <-. injection Ho as <- <-.
  assert (tags_from (tags s1) /\ (r = false -> nd_storage s1 = nd_storage s /\ tags s1 = tags s
            /\ nd_status s1 = nd_status s)) as [Hf1 Hi1].
  { destruct (revert_range notif) as [range|]; [|injection Hr as <- <-; done].
    apply (on_host_revert_ok hot cold number) in Hr
      as [(-> & -> & _)|(target & dr & n & -> & _ & _ & _ & -> & _ & _ & Ht & _)]; [done|].
    rewrite Ht. split; [|done]. apply tags_from_rewind; [unfold sat_sub; lia|exact Hok]. }
  assert (tags_from (tags s2) /\ (cm = false -> s2 = s1)) as [Hf2 Hi2].
  { destruct (committed_chain notif) as [chain|]; [|injection Hc as <- <-; done].
    split; [|by intros ->; eapply process_committed_chain_idle].
    apply (process_committed_chain_ok hot cold number) in Hc as (bs & _ & _ & -> & _). done. }
  destruct (r || cm) eqn:Hrc.
  - unfold update_status_channel in Hu. apply st_bind_ok in Hu as (h & s5 & Hl & Hu).
    apply (last_rollup_block_ok hot cold number) in Hl as [-> ->]. by injection Hu as <-.
  - apply orb_false_iff in Hrc as [-> ->]. injection Hu as <-. cbn [nd_storage nd_chain nd_status].
    rewrite (Hi2 eq_refl). by apply Hi1.
Qed.

(** ** The invariant of the main loop

    [serving s0 s]: the node came from [s0]; the tags are heights that storage
    holds, the status channel shows the stored tip, and the latest tag does too
    unless nothing has changed since [s0]. *)
Definition serving s0 s : Prop :=
  tags_from (tags s) /\ tags_below (hot (nd_storage s)) (tags s)
  /\ nd_status s = AtHeight (hot (nd_storage s))
  /\ (latest (tags s) = hot (nd_storage s) \/ (nd_storage s = nd_storage s0 /\ tags s = tags s0)).

Lemma handle_notification_served now notif s0 s u s' :
  serving s0 s -> handle_notification (NE:=NE) (SE:=SE) (PE:=PE) now notif s = (Ok u, s') -> serving s0 s'.
Proof.
  intros (Hf & Hb & Hst & Hl) Hh. pose proof Hh as Hb'.
  apply (handle_notification_ok hot cold number) in Hb'; [|exact Hb].
  unfold handle_notification in Hh. apply st_bind_ok in Hh as (c & s1 & Ho & Hh).
  apply on_notification_served in Ho; [|exact Hf]. destruct c.
  - destruct Ho as [_ Hst1]. apply st_bind_ok in Hh as (h & s2 & Hr & Hh).
    apply (last_rollup_block_ok hot cold number) in Hr as [-> ->].
    pose proof (hot_nonneg (nd_storage s1)) as Hnn.
    apply update_block_tags_ok in Hh as ([Hs Hst2] & _ & Ht & _).
    split; [|split; [exact Hb'|]].
    + rewrite Ht, update_all_eq. unfold tags_from. cbn [latest safe finalized].
      split_and!; [exact Hnn|by apply clamp_nonneg..].
    + rewrite Hst2, Hs, Hst1, Ht, update_all_eq. cbn [latest]. split; [done|by left].
  - destruct Ho as (Hs & Ht & Hst1). injection Hh as _ <-.
    unfold serving. by rewrite Hs, Ht, Hst1.
Qed.

Lemma main_loop_served inputs s0 s b s' :
  serving s0 s -> main_loop (W:=W) (NE:=NE) (SE:=SE) (PE:=PE) inputs s = (Ok b, s') -> serving s0 s'.
Proof.
  apply main_loop_inv; [done|]. intros ?????. apply handle_notification_served.
Qed.
(** Reconciliation touches storage only, and the rest of the start leaves
    storage and tags alone: the tags still stand where [ChainNotifier::new] put
    them when the first notification arrives. *)
Lemma reconcile_keeps s u s' :
  reconcile (NE:=NE) (PE:=PE) s = (Ok u, s') -> tags s' = tags s.
Proof.
  unfold reconcile. intros Hr. apply st_bind_ok in Hr as (h & s1 & Hl & Hr).
  apply (last_rollup_block_ok hot cold number) in Hl as [-> _].
  apply st_bind_ok in Hr as (c & s1 & Hcl & Hr). injection Hcl as _ <-.
  destruct (_ || _); [|by injection Hr as _ <-]. by apply storage_ok in Hr as (db & _ & ->).
Qed.

Lemma start_prelude_keeps rpc_ok bf s u s' :
  start_prelude (SE:=SE) (PE:=PE) rpc_ok bf s = (Ok u, s') ->
  nd_storage s' = nd_storage s /\ tags s' = tags s /\ nd_status s' = AtHeight (hot (nd_storage s)).
Proof.
  unfold start_prelude. intros Hp. apply st_bind_ok in Hp as (u1 & s1 & Hen & Hp). injection Hen as _ <-.
  apply st_bind_ok in Hp as (lr & s1 & Hl & Hp).
  apply (last_rollup_block_ok hot cold number) in Hl as [-> ->].
  apply st_bind_ok in Hp as ([] & s1 & Hst & Hp). injection Hst as <-. by injection Hp as _ <-.
Qed.

(** Every tag resolves to a height that storage holds. *)
Lemma resolve_block_tag_stored t h tag :
  0 <= h -> tags_from t -> tags_below h t -> (forall n, tag <> Number n) ->
  0 <= resolve_block_tag t tag <= h.
Proof. unfold tags_from, tags_below. destruct tag; simpl; naive_solver lia. Qed.

(** ** Property *)

(** C4: A started node serves what it stores.  Whenever a node that was
    started with fresh tags has run its loop over any inputs without error, the
    status channel shows the stored rollup tip; [eth_blockNumber] answers that
    tip too, unless no notification has changed anything since the start, when
    storage is what startup reconciled it to and the tags are the fresh ones;
    and a block asked for by any of the tags (latest, pending, safe, finalized,
    earliest) is found whenever it can be read: its header is the one at the
    height of the tag, never absent. *)
Theorem started_node_serves rpc_ok bf inputs s b s' :
  tags s = BlockTags_new 0 0 0 ->
  start (W:=W) (NE:=NE) (SE:=SE) (PE:=PE) rpc_ok bf inputs s = (Ok b, s') ->
  nd_status s' = AtHeight (hot (nd_storage s'))
  /\ (block_number (tags s') = hot (nd_storage s')
      \/ block_number (tags s') = 0
         /\ exists s1, reconcile (NE:=NE) (SE:=SE) (PE:=PE) s = (Ok tt, s1) /\ nd_storage s' = nd_storage s1)
  /\ forall (ctx : RpcCtx S Spec) tag o,
       ctx_storage ctx = nd_storage s' -> ctx_tags ctx = tags s' -> (forall n, tag <> Number n) ->
       resolve_header ctx (IdNumber tag) = Ok o ->
       exists h, o = Some h /\ h_number (sh_header h) = resolve_block_tag (tags s') tag
         /\ h_number (sh_header h) <= hot (nd_storage s').
Proof.
  intros Hfresh Hs. unfold start in Hs.
  apply st_bind_ok in Hs as ([] & s1 & Hrec & Hs). pose proof (reconcile_keeps _ _ _ Hrec) as Ht1.
  apply st_bind_ok in Hs as ([] & s2 & Hpre & Hs). apply start_prelude_keeps in Hpre as (Hst2 & Ht2 & Hn2).
  assert (serving s2 s') as (Hf & Hb & Hst & Hl).
  { apply (main_loop_served inputs s2 s2 b s'); [|exact Hs]. unfold serving.
    pose proof (hot_nonneg (nd_storage s2)). rewrite Ht2, Ht1, Hfresh.
    split; [by split_and!|]. split; [by split_and!|]. split; [by rewrite Hn2, Hst2|by right]. }
  split; [exact Hst|]. split.
  - destruct Hl as [Hl|[Hs' Ht]]; [by left|right].
    rewrite Ht, Ht2, Ht1, Hfresh. split; [done|]. exists s1. by rewrite Hs', Hst2.
  - intros ctx tag o Hc Hct Htag Ho. unfold resolve_header, hot_reader in Ho. rewrite Hc, Hct in Ho. res_inv.
    pose proof (resolve_block_tag_stored _ _ tag (hot_nonneg (nd_storage s')) Hf Hb Htag) as Hr.
    match goal with Hrd : reader _ = Ok _, Hg : get_header _ _ = Ok _ |- _ =>
      destruct (stored_header _ _ _ _ Hrd Hg Hr) as (h & -> & Hh) end.
    exists h. rewrite Hh. by destruct Hr.
Qed.
End served.

(** ** The sample node with readable storage *)
Module SampleServed.
Import SampleNode.

#[export] Instance readable : HotStorage store unit unit store unit := {
  reader s := Ok s;
  get_header_number _ h := Ok (Some (h - 1000));
  header_by_hash s h := Ok (if h - 1000 <=? hot s then Some (sealed (h - 1000)) else None);
  get_header s n := Ok (if n <=? hot s then Some (sealed n) else None);
  get_account_at_height _ _ _ := Ok None;
  get_storage_at_height _ _ _ _ := Ok None;
  get_bytecode _ _ := Ok None;
  original_bytes _ := [];
  revm_reader_at_height s n := Ok (s, n) }.

#[export] Instance snapshot_reads : SnapshotReads store unit unit store unit hot.
Proof.
  constructor. intros db rd n o [= <-] [= <-] Hn. exists (sealed n).
  rewrite (proj2 (Z.leb_le _ _)) by lia. done.
Qed.

(** The context of the RPC tasks of a node. *)
Definition ctx_of (s : SignetNode player store unit unit unit Z) : RpcCtx store unit :=
  mkRpcCtx (nd_storage s) (cn_tags (nd_chain s)) 12 (fun _ => tt) 1 StorageRpcConfig_default.
End SampleServed.
Import SampleNode SampleServed.

(** A node whose layers differ restarts at 3, skips what it knows, goes through
    a reorg to 4, and serves it. *)
Lemma started_node_serves_witness :
  let '(r, s) := start (NE:=unit) (SE:=unit) (PE:=unit) (Ex:=Z) true None
                   [(tt, 0); (tt, 5); (tt, 9)] (node 5 3 [commit; reorg]) in
  r = Ok true /\ nd_status s = AtHeight 4 /\ block_number (cn_tags (nd_chain s)) = 4
  /\ exists h, resolve_header (ctx_of s) (IdNumber Safe) = Ok (Some h) /\ h_number (sh_header h) = 2.
Proof.
  destruct (start _ _ _ _) as [r s] eqn:E.
  assert (r = Ok true) as -> by (apply (f_equal fst) in E; vm_compute in E; by symmetry).
  destruct (started_node_serves (Spec:=unit) hot cold id true None _ (node 5 3 [commit; reorg]) true s eq_refl E)
    as (Hst & _ & Hr).
  pose proof (Hr (ctx_of s) Safe) as Hs. vm_compute in E. injection E as <-.
  destruct (Hs _ eq_refl eq_refl ltac:(done) eq_refl) as (h & Hh & Hn & _).
  split; [done|]. split; [exact Hst|]. split; [reflexivity|]. exists h. by split; [rewrite <- Hh|].
Defined.

(** A restarted node that the host only tells what it has already executed:
    three blocks are stored and the status channel says so, while
    [eth_blockNumber] answers 0 and the latest block is the genesis. *)
Lemma restarted_node_serves_genesis :
  let '(r, s) := start (NE:=unit) (SE:=unit) (PE:=unit) (Ex:=Z) true None
                   [(tt, 0); (tt, 5)] (node 3 3 [commit]) in
  r = Ok true /\ hot (nd_storage s) = 3 /\ nd_status s = AtHeight 3
  /\ block_number (cn_tags (nd_chain s)) = 0
  /\ resolve_header (ctx_of s) (IdNumber Latest) = Ok (Some (sealed 0)).
Proof. vm_compute. by split_and!. Qed.
