(* ===== verification/NodeTrace.v ===== *)
(** * What other tasks see while the node handles a notification

    The RPC tasks share the block tags, the chain notifier and storage with the
    node.  This file gives [Node.handle_notification] a second reading, as the
    sequence of its atomic effects on that shared state, so that a reader that
    runs between any two of them can be reasoned about: [run] executes a list of
    [action]s, [traced] is a small program logic for the node's monad whose
    triples say which actions an outcome stands for. *)

From S2P Require Import Prelude HostTypes BlockTags Primitives Interest ChainNotifier Metrics BlockProcessor Node NodeProps.

Section trace.
Context {N W C NE S SE PW PE Ext Ex T R L : Type}
  `{!HostNotifier N W C NE, !SystemConstants, !UnifiedStorage S SE Ex L, !Extraction C Ext,
    !Processing S PW PE Ext Ex, !Executed Ex T R}.
Context (hot cold : S -> Z) (number : Ex -> Z)
  `{!LawfulConstants, !LawfulStorage S SE Ex L hot cold number, !LawfulProcessing S PW PE Ext Ex C number}.
Abbreviation NodeT := (SignetNode N S PW T R L).
Abbreviation Error := (NodeError SE PE NE).
Abbreviation M := (st NodeT Error).
Implicit Types s : NodeT.

(** ** Shared state and atomic actions *)
Abbreviation Shared := (SharedState S T R L).
Definition view s : Shared := mkSharedState (nd_storage s) (nd_chain s).

(** One database transaction, one atomic access of a tag, or one announcement
    (the ring buffer's write lock and the send that follows it). *)
Inductive action :=
| Drain (target : Z)
| Tag (o : tag_op)
| AnnounceReorg (now : Z) (r : ReorgNotification L)
| AnnounceBlock (b : Ex)
| Append (b : Ex).

Definition map_chain (f : ChainNotifier T R L -> ChainNotifier T R L) (c : Shared) : Shared :=
  mkSharedState (sh_storage c) (f (sh_chain c)).

(** A storage operation is an action only when it succeeds. *)
Definition exec_storage {A} (m : st S SE A) (c : Shared) : option Shared :=
  match m (sh_storage c) with (Ok _, db) => Some (mkSharedState db (sh_chain c)) | _ => None end.

Definition exec (a : action) (c : Shared) : option Shared :=
  match a with
  | Drain target => exec_storage (drain_above target) c
  | Tag o => Some (map_chain (with_tags (run_op o)) c)
  | AnnounceReorg now r => Some (map_chain (send_reorg now r) c)
  | AnnounceBlock b => Some (map_chain (send_new_block (new_block_notification b)) c)
  | Append b => exec_storage (append_block b) c
  end.

Fixpoint run (acts : list action) (c : Shared) : option Shared :=
  match acts with [] => Some c | a :: acts => exec a c ≫= run acts end.

Lemma run_app xs ys c : run (xs ++ ys) c = run xs c ≫= run ys.
Proof.
  revert c. induction xs as [|x xs IH]; intros c; simpl; [done|].
  destruct (exec x c) as [d|]; simpl; [apply IH|done].
Qed.

Lemma run_tags os c : run (Tag <$> os) c = Some (map_chain (with_tags (run_ops os)) c).
Proof.
  revert c. induction os as [|o os IH]; intros [db ch]; [by destruct ch|]. csimpl. by rewrite IH.
Qed.

(** The states the actions pass through, one after each. *)
Fixpoint trail (acts : list action) (c : Shared) : option (list Shared) :=
  match acts with
  | [] => Some []
  | a :: acts => d ← exec a c; ds ← trail acts d; Some (d :: ds)
  end.

Lemma trail_app xs ys c d ds es :
  run xs c = Some d -> trail xs c = Some ds -> trail ys d = Some es -> trail (xs ++ ys) c = Some (ds ++ es).
Proof.
  revert c ds. induction xs as [|x xs IH]; intros c ds; simpl; [by intros [= ->] [= <-]|].
  intros (c' & Hx & Hr)%bind_Some. rewrite Hx. simpl. intros (ds' & Ht & [= <-])%bind_Some Hy.
  by rewrite (IH _ _ Hr Ht Hy).
Qed.

(** The state seen in place [i] is the one the first [i] actions lead to. *)
Lemma trail_lookup acts c ds i d :
  trail acts c = Some ds -> (c :: ds) !! i = Some d ->
  (i <= length acts)%nat /\ run (take i acts) c = Some d.
Proof.
  revert c ds i. induction acts as [|a acts IH]; intros c ds i; simpl.
  { intros [= <-]. destruct i as [|i]; simpl; [by intros [= ->]|by destruct i]. }
  intros (c' & Ha & (ds' & Ht & [= <-])%bind_Some)%bind_Some. destruct i as [|i]; simpl; [intros [= ->]; split; [lia|done]|].
  intros Hi. destruct (IH _ _ _ Ht Hi) as [Hl Hr]. split; [lia|]. by rewrite Ha.
Qed.

(** Between two of them the actions in between run. *)
Lemma run_between acts c ds i j d e :
  trail acts c = Some ds -> (c :: ds) !! i = Some d -> (c :: ds) !! (i + j)%nat = Some e ->
  run (take j (drop i acts)) d = Some e.
Proof.
  intros Ht Hi Hj. apply (trail_lookup _ _ _ _ _ Ht) in Hi as [Hl Hd].
  apply (trail_lookup _ _ _ _ _ Ht) in Hj as [_ He].
  rewrite <- take_take_drop, run_app, Hd in He. exact He.
Qed.

(** ** Triples

    An outcome is [clean] when no storage operation failed and nothing panicked:
    a failed storage operation leaves the database in a state of its own
    making. *)
Definition clean {A} (r : res Error A) : Prop :=
  match r with Ok _ => True | Err (NodeStorage _) => False | Err _ => True | Panic => False end.

Definition traced {A} s (m : M A) (Q : res Error A -> list action -> NodeT -> Prop) : Prop :=
  forall r s', m s = (r, s') -> clean r ->
    exists acts ds, run acts (view s) = Some (view s') /\ trail acts (view s) = Some ds
      /\ nd_seen s' = nd_seen s ++ ds /\ Q r acts s'.

Lemma traced_silent {A} s (m : M A) (Q : res Error A -> list action -> NodeT -> Prop) :
  view (m s).2 = view s -> nd_seen (m s).2 = nd_seen s -> (clean (m s).1 -> Q (m s).1 [] (m s).2) -> traced s m Q.
Proof.
  intros Hv Hn HQ r s' Hm Hc. rewrite Hm in *. exists [], []. simpl in *. rewrite Hv, Hn, app_nil_r. auto.
Qed.

Lemma traced_ret {A} s (a : A) (Q : res Error A -> list action -> NodeT -> Prop) :
  Q (Ok a) [] s -> traced s (mret a) Q.
Proof. intros HQ. by apply traced_silent. Qed.

(** The rule is used backwards, so its premise says what the rest must do. *)
Lemma traced_bind {A B} s (m : M A) (f : A -> M B) (Q : res Error B -> list action -> NodeT -> Prop) :
  traced s m (fun r acts s1 =>
    match r with
    | Ok a => traced s1 (f a) (fun r' more => Q r' (acts ++ more))
    | Err e => Q (Err e) acts s1
    | Panic => True
    end) ->
  traced s (m ≫= f) Q.
Proof.
  intros Hm r s' Hb Hc. unfold mbind, st_bind in Hb.
  destruct (m s) as [[a|e|] s1] eqn:Hs.
  - destruct (Hm _ _ Hs I) as (acts & ds & Hr & Ht & Hn & HP).
    destruct (HP _ _ Hb Hc) as (more & es & Hr' & Ht' & Hn' & HQ).
    exists (acts ++ more), (ds ++ es). rewrite run_app, Hr. split; [done|]. split; [by eapply trail_app|].
    split; [|done]. by rewrite Hn', Hn, app_assoc.
  - injection Hb as <- <-. destruct (Hm _ _ Hs Hc) as (acts & ds & ? & ? & ? & ?). by exists acts, ds.
  - by injection Hb as <- <-.
Qed.

Lemma traced_weaken {A} s (m : M A) (P Q : res Error A -> list action -> NodeT -> Prop) :
  traced s m P -> (forall r acts s', P r acts s' -> Q r acts s') -> traced s m Q.
Proof. intros Hm HPQ r s' Hr Hc. destruct (Hm _ _ Hr Hc) as (acts & ds & ? & ? & ? & ?). exists acts, ds. auto. Qed.

(** The node's primitives: each write of the shared state is one action. *)
Lemma traced_storage {A} s (m : st S SE A) a Q :
  (forall c, exec a c = exec_storage m c) ->
  (forall x db, m (nd_storage s) = (Ok x, db) -> Q (Ok x) [a] (publish db (nd_chain s) s)) ->
  traced s (storage m) Q.
Proof.
  intros Ha HQ r s' Hm Hc. unfold storage in Hm. destruct (m (nd_storage s)) as [[x|e|] db] eqn:Hx;
    injection Hm as <- <-; [|done..].
  assert (exec a (view s) = Some (mkSharedState db (nd_chain s))) as He.
  { rewrite Ha. unfold exec_storage. simpl. by rewrite Hx. }
  exists [a], [mkSharedState db (nd_chain s)]. simpl. rewrite He. simpl. split_and!; try done. by apply HQ.
Qed.

Lemma traced_chain s f a Q :
  (forall c, exec a c = Some (map_chain f c)) ->
  Q (Ok tt) [a] (publish (nd_storage s) (f (nd_chain s)) s) -> traced s (on_chain f) Q.
Proof.
  intros Ha HQ r s' [= <- <-] _. exists [a], [mkSharedState (nd_storage s) (f (nd_chain s))].
  simpl. rewrite Ha. by split_and!.
Qed.

Lemma traced_tags s os (Q : res Error unit -> list action -> NodeT -> Prop) :
  (forall s', nd_storage s' = nd_storage s -> nd_notifier s' = nd_notifier s -> Q (Ok tt) (Tag <$> os) s') ->
  traced s (on_tags os) Q.
Proof.
  revert s Q. induction os as [|o os IH]; intros s Q HQ; cbn [on_tags]; [by apply traced_ret, HQ|].
  apply traced_bind. eapply (traced_chain _ _ (Tag o)); [done|]. apply IH. intros s' Hs Hn. by apply HQ.
Qed.

Lemma traced_last_rollup s (Q : res Error Z -> list action -> NodeT -> Prop) :
  Q (Ok (hot (nd_storage s))) [] s -> traced s last_rollup_block Q.
Proof.
  intros HQ. apply traced_silent; [done..|]. destruct (last_rollup_block s) as [[n|e|] s1] eqn:Hl; simpl.
  - apply (last_rollup_block_ok hot cold number) in Hl as [-> ->]. done.
  - unfold last_rollup_block in Hl. destruct (last_block_number _) as [o|e'|]; try discriminate.
    by injection Hl as <- <-.
  - done.
Qed.

Lemma traced_lift {A} s (x : res Error A) (Q : res Error A -> list action -> NodeT -> Prop) :
  (clean x -> Q x [] s) -> traced s (st_lift x) Q.
Proof. intros HQ. by apply traced_silent. Qed.

(** ** The effects of a notification *)

(** A revert: the height it drains to and what it removed. *)
Definition revert_actions (now : Z) (reverted : option (Z * list (DrainedBlock L))) : list action :=
  match reverted with
  | None => []
  | Some (target, drained) =>
      (Drain target :: (Tag <$> rewind_to_ops target))
      ++ match drained with [] => [] | _ => [AnnounceReorg now (reorg_notification drained target)] end
  end.

Definition commit_actions (blocks : list Ex) : list action :=
  blocks ≫= (fun b => [AnnounceBlock b; Append b]).

Definition tag_actions (tags : option (Z * Z * Z)) : list action :=
  match tags with
  | None => []
  | Some (latest, safe, finalized) => Tag <$> update_all_ops latest safe finalized
  end.

Definition height_after (reverted : option (Z * list (DrainedBlock L))) (tip : Z) : Z :=
  match reverted with None => tip | Some (target, _) => Z.min tip target end.

(** What a revert drained: a range of the notification above the deployment
    that covers the stored tip, down to below its first block. *)
Definition reverts (range : option RevertRange) s (target : Z) (drained : list (DrainedBlock L)) : Prop :=
  (drain_above target (nd_storage s)).1 = Ok drained
  /\ exists rg n, range = Some rg /\ host_deploy_height < tip rg
       /\ target = sat_sub (default 0 (host_block_to_rollup_block_num (first rg))) 1
       /\ host_block_to_rollup_block_num (tip rg) = Some n /\ hot (nd_storage s) <= n.

Definition revert_post (now : Z) (range : option RevertRange) s
    (r : res Error bool) (acts : list action) (s' : NodeT) : Prop :=
  exists reverted,
    acts = revert_actions now reverted
    /\ hot (nd_storage s') = height_after reverted (hot (nd_storage s))
    /\ match reverted with
       | None => r <> Ok true
       | Some (target, drained) => r = Ok true /\ reverts range s target drained
       end.

Lemma revert_nothing now range s r : r <> Ok true -> revert_post now range s r [] s.
Proof. intros Hr. by exists None. Qed.

Lemma on_host_revert_traced now range s :
  traced s (on_host_revert now range) (revert_post now (Some range) s).
Proof.
  unfold on_host_revert, RevertRange_tip, RevertRange_first.
  destruct (Z.leb_spec (tip range) host_deploy_height) as [Hle|Hlt].
  { apply traced_ret. by apply revert_nothing. }
  apply traced_bind, traced_last_rollup, traced_bind, traced_lift. intros _.
  destruct (host_block_to_rollup_block_num (tip range)) as [n|] eqn:Hn; simpl; [|by apply revert_nothing].
  apply traced_bind, traced_lift. intros _. unfold ensure.
  destruct (Z.leb_spec (hot (nd_storage s)) n) as [Hcov|_]; simpl; [|by apply revert_nothing].
  apply traced_bind. eapply (traced_storage _ _ (Drain _)); [done|]. intros drained db Hd.
  set (target := sat_sub _ 1) in *. apply traced_bind, (traced_tags _ (rewind_to_ops target)). intros s1 Hs1 _.
  assert (revert_post now (Some range) s (Ok true) (revert_actions now (Some (target, drained))) s1) as Hpost.
  { exists (Some (target, drained)). split; [done|]. rewrite Hs1. split; [by apply drain_above_tip in Hd|].
    split; [done|]. split; [by rewrite Hd|]. by exists range, n. }
  destruct drained as [|d drained]; apply traced_bind.
  - apply traced_ret, traced_ret. exact Hpost.
  - unfold notify_reorg. eapply (traced_chain _ _ (AnnounceReorg now _)); [done|].
    apply traced_ret. exact Hpost.
Qed.

(** The block is what the processor made of the extracts. *)
Definition executes (e : Ext) (b : Ex) : Prop :=
  ru_height e = number b /\ exists db w w', process_extracts db e w = (Ok b, w').

(** What a list of extracts does: a prefix of them, all of them when it
    succeeds, each announced and then stored. *)
Definition commit_post (extracts : list Ext) (processed : bool) s
    (r : res Error bool) (acts : list action) (s' : NodeT) : Prop :=
  exists blocks,
    acts = commit_actions blocks
    /\ Forall2 executes (take (length blocks) extracts) blocks
    /\ hot (nd_storage s') = default (hot (nd_storage s)) (last (number <$> blocks))
    /\ match r with
       | Ok p => length blocks = length extracts /\ p = processed || negb (bool_decide (blocks = []))
       | _ => True
       end.

Lemma commit_nothing extracts processed s r s' :
  nd_storage s' = nd_storage s ->
  (forall p, r = Ok p -> extracts = [] /\ p = processed) -> commit_post extracts processed s r [] s'.
Proof.
  intros Hs Hr. exists []. split; [done|]. split; [constructor|]. split; [by rewrite Hs|].
  destruct r as [p| |]; [|done..]. destruct (Hr p eq_refl) as [-> ->]. by rewrite orb_false_r.
Qed.

Lemma commit_cons e es p s b s1 r more s' :
  executes e b -> hot (nd_storage s1) = number b ->
  commit_post es true s1 r more s' ->
  commit_post (e :: es) p s r ([AnnounceBlock b; Append b] ++ more) s'.
Proof.
  intros Hb Hs1 (bs & -> & Hf & Hh & Hr). exists (b :: bs). split; [done|].
  split; [by constructor|]. split.
  - rewrite Hh, Hs1, fmap_cons, last_cons. by destruct (last (number <$> bs)).
  - destruct r as [p'| |]; [|done..]. destruct Hr as [Hl ->]. simpl. by rewrite Hl, orb_true_r.
Qed.

Lemma process_extracts_loop_traced extracts processed s :
  traced s (process_extracts_loop extracts processed) (commit_post extracts processed s).
Proof.
  revert processed s. induction extracts as [|e es IH]; intros processed s; cbn [process_extracts_loop].
  { apply traced_ret, commit_nothing; [done|]. by intros p [= <-]. }
  apply traced_bind, traced_silent; [unfold process; by destruct (process_extracts _ _ _)..|].
  unfold process. destruct (process_extracts (nd_storage s) e (nd_process s)) as [[b|x|] w] eqn:Hp; simpl; [|by intros _; apply commit_nothing|done].
  intros _. assert (executes e b) as Hb by (split; [by apply process_number in Hp|eauto]).
  apply traced_bind. eapply (traced_chain _ _ (AnnounceBlock b)); [done|].
  apply traced_bind. apply (traced_storage _ _ (Append b)); [done|]. intros u db Ha.
  eapply traced_weaken; [apply IH|]. intros r acts s' Hpost.
  eapply (commit_cons e es processed s b _ r acts s' Hb); [|exact Hpost].
  by apply append_block_tip in Ha.
Qed.

(** ** The whole notification *)
Definition commits_of (notification : HostNotification C) (tip : Z) : list Ext :=
  from_option (new_extracts tip) [] (committed_chain notification).

Lemma revert_step_traced now (notification : HostNotification C) s :
  traced s (match revert_range notification with
            | Some range => on_host_revert now range
            | None => mret false
            end) (revert_post now (revert_range notification) s).
Proof.
  destruct (revert_range notification) as [range|]; [apply on_host_revert_traced|].
  by apply traced_ret, revert_nothing.
Qed.

Lemma commit_step_traced (notification : HostNotification C) s :
  traced s (match committed_chain notification with
            | Some chain => process_committed_chain chain
            | None => mret false
            end) (commit_post (commits_of notification (hot (nd_storage s))) false s).
Proof.
  unfold commits_of. destruct (committed_chain notification) as [chain|].
  - apply traced_bind, traced_last_rollup. apply process_extracts_loop_traced.
  - apply traced_ret, commit_nothing; [done|]. by intros p [= <-].
Qed.

Lemma update_status_channel_traced s :
  traced s update_status_channel (fun r acts s' =>
    r = Ok tt /\ acts = [] /\ nd_storage s' = nd_storage s).
Proof. by apply traced_bind, traced_last_rollup, traced_silent. Qed.

(** Reverts, then commits. *)
Definition change_post (now : Z) (notification : HostNotification C) s
    (reverted : option (Z * list (DrainedBlock L))) (blocks : list Ex) (acts : list action) (s' : NodeT) : Prop :=
  let mid := height_after reverted (hot (nd_storage s)) in
  acts = revert_actions now reverted ++ commit_actions blocks
  /\ (forall target drained, reverted = Some (target, drained) ->
        reverts (revert_range notification) s target drained)
  /\ Forall2 executes
       (take (length blocks) (commits_of notification mid)) blocks
  /\ hot (nd_storage s') = default mid (last (number <$> blocks)).

(** Every block the notification commits has been stored. *)
Definition all_committed (notification : HostNotification C) s
    (reverted : option (Z * list (DrainedBlock L))) (blocks : list Ex) : Prop :=
  length blocks = length (commits_of notification (height_after reverted (hot (nd_storage s)))).

Lemma on_notification_traced now (notification : HostNotification C) s :
  traced s (on_notification now notification) (fun r acts s' =>
    exists reverted blocks, change_post now notification s reverted blocks acts s'
      /\ forall changed, r = Ok changed -> all_committed notification s reverted blocks
           /\ (changed = false <-> reverted = None /\ blocks = [])).
Proof.
  unfold on_notification. apply traced_bind, traced_silent; [done..|]. intros _.
  apply traced_bind.
  eapply traced_weaken; [apply revert_step_traced|]. intros r acts s1 (rv & -> & Hh & Hrv).
  assert (forall target drained, rv = Some (target, drained) ->
            reverts (revert_range notification) s target drained) as Hcov.
  { intros t d ->. apply Hrv. }
  destruct r as [reverted|e|]; [|exists rv, []; split; [|done]; unfold change_post|done].
  2: { split; [by rewrite app_nil_r|]. split; [done|]. split; [constructor|done]. }
  assert (reverted = false <-> rv = None) as Hb.
  { destruct rv as [[t d]|]; [|by destruct reverted]. by destruct Hrv as [[= ->] _]. }
  clear Hrv. apply traced_bind.
  eapply traced_weaken; [apply commit_step_traced|]. rewrite Hh.
  intros r acts s2 (bs & -> & Hf & Hh2 & Hr). rewrite Hh in Hh2.
  destruct r as [committed|e|]; [|exists rv, bs; by split|done].
  destruct Hr as [Hl ->].
  assert (forall s3 r', nd_storage s3 = nd_storage s2 -> r' = Ok (reverted || negb (bool_decide (bs = []))) ->
    exists rv0 bs0, change_post now notification s rv0 bs0
        (revert_actions now rv ++ commit_actions bs ++ [] ++ []) s3
      /\ forall changed, r' = Ok (E:=Error) changed -> all_committed notification s rv0 bs0
           /\ (changed = false <-> rv0 = None /\ bs0 = [])) as Hpost.
  { intros s3 r' Hs3 ->. exists rv, bs. split.
    - split; [by rewrite !app_nil_r|]. split; [done|]. split; [done|]. by rewrite Hs3.
    - intros changed [= <-]. split; [done|]. rewrite <- Hb, orb_false_iff, negb_false_iff.
      by rewrite bool_decide_eq_true. }
  apply traced_bind. simpl orb. destruct (reverted || _) eqn:Hor.
  - eapply traced_weaken; [apply update_status_channel_traced|].
    intros r acts s3 (-> & -> & Hs3). apply traced_bind, traced_silent; [done..|]. intros _. apply traced_ret. apply Hpost; done.
  - apply traced_ret, traced_bind, traced_silent; [done..|]. intros _. apply traced_ret. by apply Hpost.
Qed.

(** The tags a notification ends with. *)
Definition tags_of (notification : HostNotification C) (tip : Z) : Z * Z * Z :=
  (tip, ph_rollup (clamp_host_heights tip (safe_block_number notification)),
   ph_rollup (clamp_host_heights tip (finalized_block_number notification))).

Definition handled (now : Z) (notification : HostNotification C) s
    (reverted : option (Z * list (DrainedBlock L))) (blocks : list Ex) (tags : option (Z * Z * Z))
    (s' : NodeT) : Prop :=
  change_post now notification s reverted blocks (revert_actions now reverted ++ commit_actions blocks) s'
  /\ (tags <> None -> all_committed notification s reverted blocks
       /\ tags = Some (tags_of notification (hot (nd_storage s')))).

Lemma update_block_tags_traced ru safe_host finalized_host s :
  traced s (update_block_tags ru safe_host finalized_host) (fun r acts s' =>
    acts = tag_actions (Some (ru, ph_rollup (clamp_host_heights ru safe_host),
                              ph_rollup (clamp_host_heights ru finalized_host)))
    /\ nd_storage s' = nd_storage s).
Proof.
  unfold update_block_tags. apply traced_bind, traced_tags. intros s1 Hs1 _.
  destruct (0 <? _); [|by apply traced_ret].
  unfold update_highest_processed_height.
  apply traced_silent; cbn [nd_notifier]; destruct (send_finished_height _ _) as [n r]; [done..|].
  intros _. by rewrite app_nil_r.
Qed.

Lemma handle_notification_traced now (notification : HostNotification C) s :
  traced s (handle_notification now notification) (fun r acts s' =>
    exists reverted blocks tags,
      acts = revert_actions now reverted ++ commit_actions blocks ++ tag_actions tags
      /\ handled now notification s reverted blocks tags s'
      /\ (r = Ok tt -> all_committed notification s reverted blocks
            /\ (tags = None <-> reverted = None /\ blocks = []))).
Proof.
  unfold handle_notification. apply traced_bind.
  eapply traced_weaken; [apply on_notification_traced|].
  intros r acts s1 (rv & bs & (-> & Hcov & Hf & Hh) & Hr).
  assert (forall tags s2, nd_storage s2 = nd_storage s1 ->
    (tags <> None -> all_committed notification s rv bs
       /\ tags = Some (tags_of notification (hot (nd_storage s2)))) ->
    handled now notification s rv bs tags s2) as Hhandled.
  { intros tags s2 Hs2 Htags. split; [|exact Htags]. unfold change_post. by rewrite Hs2. }
  destruct r as [changed|e|]; [|exists rv, bs, None|done].
  2: { rewrite app_nil_r. split; [done|]. split; [by apply Hhandled|done]. }
  destruct (Hr changed eq_refl) as [Hall Hch]. destruct changed.
  - apply traced_bind, traced_last_rollup.
    eapply traced_weaken; [apply update_block_tags_traced|]. intros r acts s2 [-> Hs2].
    eexists rv, bs, (Some _). rewrite app_nil_l, <- app_assoc. split; [done|].
    split; [apply Hhandled; [done|]; by rewrite Hs2|].
    intros _. split; [done|]. split; [done|]. intros Hn. by apply Hch in Hn.
  - apply traced_ret. exists rv, bs, None. rewrite app_nil_r. simpl. rewrite app_nil_r.
    split; [done|]. split; [by apply Hhandled|]. intros _. split; [done|]. by rewrite <- Hch.
Qed.

(** ** Readers between the effects *)

(** Actions that keep every tag at most [floor] and the tip at least [floor]. *)
Definition harmless (floor : Z) (a : action) : Prop :=
  match a with
  | Tag (StoreLatest n | StoreSafe n | StoreFinalized n) => n <= floor
  | Append b => floor <= number b
  | Drain _ => False
  | _ => True
  end.

(** No tag exceeds the stored tip. *)
Definition shared_ok (c : Shared) : Prop := tags_below (hot (sh_storage c)) (cn_tags (sh_chain c)).
Definition floored (floor : Z) (c : Shared) : Prop :=
  tags_below floor (cn_tags (sh_chain c)) /\ floor <= hot (sh_storage c).

Lemma floored_ok floor c : floored floor c -> shared_ok c.
Proof. intros [Ht Hf]. by eapply tags_below_mono. Qed.

Lemma exec_harmless floor a c d :
  harmless floor a -> floored floor c -> exec a c = Some d -> floored floor d.
Proof.
  intros Ha [Ht Hf]. destruct c as [db [tags sent ring]]. cbn in *.
  destruct a as [t|o|now r|b|b]; [done|..]; cbn.
  - intros [= <-]. split; [|done]. cbn. destruct tags as [l sf f y].
    unfold tags_below in *. destruct o; cbn in *; lia.
  - by intros [= <-].
  - by intros [= <-].
  - unfold exec_storage. cbn. destruct (append_block b db) as [[u|e|] db'] eqn:Hb; [|done..].
    intros [= <-]. apply append_block_tip in Hb. split; [done|]. cbn. by rewrite Hb.
Qed.

Lemma run_harmless floor acts c d :
  Forall (harmless floor) acts -> floored floor c -> run acts c = Some d -> floored floor d.
Proof.
  intros Ha. revert c. induction Ha as [|a acts Ha _ IH]; intros c Hc; simpl.
  - by intros [= <-].
  - intros (c' & He & Hr)%bind_Some. eapply IH; [|exact Hr]. by eapply exec_harmless.
Qed.

Lemma commit_actions_harmless floor blocks :
  Forall (fun b => floor <= number b) blocks -> Forall (harmless floor) (commit_actions blocks).
Proof. intros Hb. induction Hb; simpl; repeat constructor; done. Qed.

Lemma tag_actions_harmless (notification : HostNotification C) tip :
  0 <= tip -> Forall (harmless tip) (tag_actions (Some (tags_of notification tip))).
Proof. intros Ht. repeat constructor; simpl; try lia; by apply clamp_below. Qed.

(** Storage is drained and the rewind of the tags is not done. *)
Definition rewinding (ran rest : list action) : Prop :=
  exists target, Drain target ∈ ran /\ Tag (MinLatest target) ∈ rest.

(** Inside a revert: between the drain and the last of the rewind's three
    atomics some tag may still name a drained block, but none names a block
    above the old tip; otherwise the tags are below the tip. *)
Lemma revert_prefix now reverted ran rest c d :
  shared_ok c -> revert_actions now reverted = ran ++ rest -> run ran c = Some d ->
  shared_ok d
  \/ rewinding ran rest /\ tags_below (hot (sh_storage c)) (cn_tags (sh_chain d)).
Proof.
  intros Hok Hsplit Hrun. destruct reverted as [[t drained]|]; simpl in Hsplit; cycle 1.
  { symmetry in Hsplit. apply app_nil in Hsplit as [-> ->]. injection Hrun as <-. by left. }
  destruct ran as [|a0 ran]; [injection Hrun as <-; by left|]. injection Hsplit as <- Hsplit.
  destruct c as [db [[l sf f y] sent ring]]. cbn in Hrun. unfold exec_storage in Hrun. cbn in Hrun.
  destruct (drain_above t db) as [[dr|e|] db'] eqn:Hd; [|done..]. apply drain_above_tip in Hd.
  cbn in Hrun. unfold shared_ok, tags_below in *. cbn in Hok.
  do 2 (destruct ran as [|? ran]; simplify_eq/=;
    [right; split; [exists t; split; [by left|repeat first [left|right]]|cbn; lia]|]).
  destruct ran as [|? ran]; simplify_eq/=; [right; split; [exists t; split; [by left|left]|cbn; lia]|].
  left. set (c1 := map_chain _ _) in Hrun.
  assert (floored (hot db') c1) as Hc1.
  { split; [|cbn; lia]. unfold tags_below. cbn. lia. }
  apply (floored_ok (hot db')). eapply run_harmless; [|exact Hc1|exact Hrun].
  assert (Forall (harmless (hot db')) (ran ++ rest)) as Hall.
  { match goal with Hs : _ = ran ++ rest |- _ => rewrite <- Hs end. destruct drained; repeat constructor. }
  by apply Forall_app in Hall as [? _].
Qed.

Lemma committed_above (notification : HostNotification C) mid blocks :
  Forall2 executes
    (take (length blocks) (commits_of notification mid)) blocks ->
  Forall (fun b => mid <= number b) blocks.
Proof.
  intros Hf. eapply Forall2_Forall_r; [exact Hf|]. apply Forall_take.
  unfold commits_of, new_extracts. destruct (committed_chain notification); simpl; [|constructor].
  apply Forall_forall. intros e He b [<- _]. apply list_elem_of_filter in He as [? _]. lia.
Qed.

Lemma last_above (mid : Z) (blocks : list Ex) :
  Forall (fun b => mid <= number b) blocks -> mid <= default mid (last (number <$> blocks)).
Proof.
  intros Hb. destruct (last _) as [n|] eqn:Hl; simpl; [|lia].
  apply last_Some_elem_of, list_elem_of_fmap in Hl as (b & -> & Hin). by eapply Forall_forall in Hb.
Qed.

Lemma revert_floored now (notification : HostNotification C) s reverted c :
  shared_ok (view s) ->
  (forall target drained, reverted = Some (target, drained) ->
     reverts (revert_range notification) s target drained) ->
  run (revert_actions now reverted) (view s) = Some c ->
  floored (height_after reverted (hot (nd_storage s))) c.
Proof.
  intros Hok _ Hrun. destruct reverted as [[t drained]|]; [|injection Hrun as <-; split; [exact Hok|simpl; lia]].
  unfold revert_actions in Hrun. rewrite run_app in Hrun. cbn [run exec] in Hrun.
  unfold exec_storage in Hrun. destruct (drain_above t _) as [[dr|e|] db] eqn:Hd; [|done..].
  apply drain_above_tip in Hd. cbn in Hrun.
  eapply (run_harmless _ (match drained with [] => [] | _ => [AnnounceReorg now _] end)); [| |exact Hrun].
  - destruct drained; repeat constructor.
  - cbn in Hd. split; [|cbn; lia]. unfold shared_ok, view, tags_below in *. cbn in *.
    destruct (cn_tags (nd_chain s)). cbn in *. lia.
Qed.

(** Every state in the middle of a notification. *)
Lemma handled_prefix now notification s reverted blocks tags s' ran rest c :
  shared_ok (view s) -> handled now notification s reverted blocks tags s' ->
  run (revert_actions now reverted ++ commit_actions blocks ++ tag_actions tags) (view s) = Some (view s') ->
  revert_actions now reverted ++ commit_actions blocks ++ tag_actions tags = ran ++ rest ->
  run ran (view s) = Some c ->
  shared_ok c
  \/ rewinding ran rest /\ tags_below (hot (nd_storage s)) (cn_tags (sh_chain c)).
Proof.
  intros Hok [(_ & Hcov & Hf & Hh) Htags] Hrun Hsplit Hran.
  rewrite run_app in Hrun. apply bind_Some in Hrun as (c1 & H1 & Hrun).
  rewrite run_app in Hrun. apply bind_Some in Hrun as (c2 & H2 & H3).
  set (mid := height_after reverted (hot (nd_storage s))) in *.
  pose proof (committed_above _ _ _ Hf) as Habove.
  pose proof (revert_floored _ _ _ _ _ Hok Hcov H1) as Hc1. fold mid in Hc1.
  pose proof (commit_actions_harmless _ _ Habove) as Hcommit.
  pose proof (run_harmless _ _ _ _ Hcommit Hc1 H2) as Hc2.
  apply app_eq_app in Hsplit as (l & [[Hr ->]|[-> Hsplit]]).
  { destruct (revert_prefix _ _ _ _ _ _ Hok Hr Hran) as [?|[(t & Hd & Ht) Hb]]; [by left|right].
    split; [exists t; split; [done|by apply elem_of_app; left]|exact Hb]. }
  left. rewrite run_app, H1 in Hran. simpl in Hran.
  apply app_eq_app in Hsplit as (k & [[Hk ->]|[-> Hsplit]]).
  { rewrite Hk in Hcommit. apply Forall_app in Hcommit as [Hl _].
    eapply floored_ok, run_harmless; [exact Hl|exact Hc1|exact Hran]. }
  rewrite run_app, H2 in Hran. simpl in Hran.
  assert (hot (sh_storage c2) = hot (nd_storage s') /\ Forall (harmless (hot (sh_storage c2))) (tag_actions tags))
    as [_ Htag].
  { destruct tags as [t|]; [|injection H3 as ->; by split].
    destruct (Htags ltac:(done)) as [_ [= ->]]. unfold tag_actions, tags_of in H3. rewrite run_tags in H3.
    assert (sh_storage c2 = nd_storage s') as -> by (by injection H3).
    split; [done|]. apply tag_actions_harmless, hot_nonneg. }
  assert (floored (hot (sh_storage c2)) c2) as Hc2'.
  { split; [|lia]. destruct Hc2 as [Ht Hle]. by eapply tags_below_mono. }
  rewrite Hsplit in Htag. apply Forall_app in Htag as [Hk _].
  eapply floored_ok, run_harmless; [exact Hk|exact Hc2'|exact Hran].
Qed.

(** ** Properties *)

(** C7: Handling a notification takes the state it shares with other tasks
    through exactly the states of this sequence of atomic effects, whatever its
    outcome short of a failing storage operation or a panic: at most one revert
    (drain the covered range, rewind finalized, safe and latest one by one,
    announce the reorg when something was drained), then each block the
    processor made of the committed extracts, announced before it is stored, in
    order, a prefix of the blocks above the tip that the revert left, and last
    the new tags, finalized first, only when every block was stored.  On success
    all blocks are stored, and the tags are touched exactly when something was
    reverted or committed. *)
Theorem notification_effects now notification s r s' :
  handle_notification (W:=W) (NE:=NE) (SE:=SE) (PE:=PE) now notification s = (r, s') -> clean r ->
  exists reverted blocks tags seen,
    nd_seen s' = nd_seen s ++ seen
    /\ trail (revert_actions now reverted ++ commit_actions blocks ++ tag_actions tags) (view s) = Some seen
    /\ run (revert_actions now reverted ++ commit_actions blocks ++ tag_actions tags) (view s) = Some (view s')
    /\ (forall target drained, reverted = Some (target, drained) ->
          reverts (revert_range notification) s target drained)
    /\ Forall2 executes
         (take (length blocks) (commits_of notification (height_after reverted (hot (nd_storage s))))) blocks
    /\ (tags <> None -> all_committed notification s reverted blocks
         /\ tags = Some (tags_of notification (hot (nd_storage s'))))
    /\ (r = Ok tt -> all_committed notification s reverted blocks
         /\ (tags = None <-> reverted = None /\ blocks = [])).
Proof.
  intros Hh Hc. destruct (handle_notification_traced _ _ _ _ _ Hh Hc)
    as (acts & seen & Hrun & Ht & Hn & rv & bs & tags & -> & [(_ & Hcov & Hf & _) Htags] & Hr).
  by exists rv, bs, tags, seen.
Qed.

(** C8: In every state other tasks can see while a notification is handled, no
    tag is above the stored tip, except between the drain of a revert and the
    last atomic of the rewind; even then no tag exceeds the tip from before the
    revert. *)
Theorem readers_between_effects now notification s r s' :
  node_ok hot s ->
  handle_notification (W:=W) (NE:=NE) (SE:=SE) (PE:=PE) now notification s = (r, s') -> clean r ->
  exists reverted blocks tags seen,
    nd_seen s' = nd_seen s ++ seen
    /\ trail (revert_actions now reverted ++ commit_actions blocks ++ tag_actions tags) (view s) = Some seen
    /\ forall i c, (view s :: seen) !! i = Some c ->
         tags_below (hot (sh_storage c)) (cn_tags (sh_chain c))
         \/ rewinding (take i (revert_actions now reverted ++ commit_actions blocks ++ tag_actions tags))
               (drop i (revert_actions now reverted ++ commit_actions blocks ++ tag_actions tags))
            /\ tags_below (hot (nd_storage s)) (cn_tags (sh_chain c)).
Proof.
  intros Hok Hh Hc. destruct (handle_notification_traced _ _ _ _ _ Hh Hc)
    as (acts & seen & Hrun & Ht & Hn & rv & bs & tags & -> & Hhandled & _).
  exists rv, bs, tags, seen. do 2 (split; [done|]). intros i c Hi.
  destruct (trail_lookup _ _ _ _ _ Ht Hi) as [_ Hran].
  eapply handled_prefix; [exact Hok|exact Hhandled|exact Hrun|symmetry; apply take_drop|exact Hran].
Qed.

(** The exception is real: from the drain to the rewind [latest] names a block
    that storage no longer has. *)
Theorem drained_latest_dangles target c d :
  target < latest (cn_tags (sh_chain c)) -> run [Drain target] c = Some d ->
  hot (sh_storage d) < latest (cn_tags (sh_chain d)).
Proof.
  intros Hlt (c1 & Hd & [= <-])%bind_Some. cbn in Hd. unfold exec_storage in Hd.
  destruct (drain_above target (sh_storage c)) as [[dr|e|] db] eqn:Hdr; [|done..].
  injection Hd as <-. apply drain_above_tip in Hdr. cbn. lia.
Qed.
End trace.

(** ** At a concrete notification

    A reorg of the sample node's two last blocks, with the tags at the tip. *)
Import SampleNode.

Definition tip_node : SignetNode player store unit unit unit Z :=
  mkNode (nd_notifier (node 3 3 [])) (nd_storage (node 3 3 []))
    (with_tags (update_all 3 2 1) (nd_chain (node 3 3 []))) (AtHeight 3) tt Recorder_new [].

Definition handled_tip : res (NodeError unit unit unit) unit * SignetNode player store unit unit unit Z :=
  Eval vm_compute in handle_notification (W:=unit) (Ex:=Z) 7 reorg tip_node.

Example handled_tip_eq :
  handle_notification (W:=unit) (NE:=unit) (SE:=unit) (PE:=unit) (Ex:=Z) 7 reorg tip_node = (Ok tt, handled_tip.2).
Proof. vm_compute. reflexivity. Qed.

(** The stored tip and the latest tag, state by state: in the first three
    states after the drain the tag is above the tip. *)
Example handled_tip_seen :
  (fun c => (hot (sh_storage c), latest (cn_tags (sh_chain c)))) <$> nd_seen handled_tip.2
  = [(1, 3); (1, 3); (1, 3); (1, 1); (1, 1); (1, 1); (2, 1); (2, 1); (3, 1); (3, 1); (4, 1); (4, 1); (4, 1); (4, 4)].
Proof. vm_compute. reflexivity. Qed.

Lemma notification_effects_witness :
  exists reverted blocks tags,
    trail (revert_actions 7 reverted ++ commit_actions blocks ++ tag_actions tags) (view tip_node)
      = Some (nd_seen handled_tip.2)
    /\ tags = Some (4, 2, 1).
Proof.
  destruct (notification_effects hot cold id 7 reorg tip_node (Ok tt) handled_tip.2 handled_tip_eq I)
    as (rv & bs & tags & seen & Hseen & Ht & _ & _ & _ & Htags & Hok).
  exists rv, bs, tags. split; [rewrite Hseen; exact Ht|]. destruct (Hok eq_refl) as [Hall Hnone].
  destruct tags as [tg|]; [destruct (Htags ltac:(discriminate)) as [_ ->]; vm_compute; reflexivity|].
  destruct (proj1 Hnone eq_refl) as [-> ->]. vm_compute in Hall. discriminate Hall.
Defined.

Lemma readers_between_effects_witness :
  node_ok hot tip_node
  /\ exists c, nd_seen handled_tip.2 !! 13%nat = Some c /\ tags_below 4 (cn_tags (sh_chain c)).
Proof.
  assert (node_ok hot tip_node) as Hok by (vm_compute; split_and!; discriminate).
  split; [exact Hok|].
  destruct (readers_between_effects hot cold id 7 reorg tip_node (Ok tt) handled_tip.2 Hok handled_tip_eq I)
    as (rv & bs & tags & seen & Hseen & _ & Hread).
  cbn [nd_seen tip_node app] in Hseen. subst seen. eexists. split; [reflexivity|].
  destruct (Hread 14%nat _ eq_refl)
    as [Ht|[_ Hb]]; [exact Ht|]. by destruct (proj1 Hb).
Defined.
