(* ===== verification/ServedRace.v ===== *)
(** * What an RPC handler resolves while the node is at work

    The context ([crates/rpc/src/config/ctx.rs]) opens its read transaction of
    hot storage first and reads the block tag afterwards.  This file places the
    two between the atomic effects of a notification ([NodeTrace]): the
    transaction sees storage as it was, the tag is the one of a later moment. *)

From S2P Require Import Prelude HostTypes BlockTags Primitives Interest ChainNotifier Metrics BlockProcessor Errors Storage RpcConfig RpcCtx.
From S2P Require Import RpcStart Node NodeProps Served NodeTrace.

(** A snapshot holds no header above its tip. *)
Class SnapshotEnds (S HSE HE Rd Code : Type) `{!HotStorage S HSE HE Rd Code} (hot : S -> Z) : Prop := {
  above_tip_absent db rd n o : reader db = Ok rd -> get_header rd n = Ok o -> hot db < n -> o = None }.

(** A store of a tag, which unlike a [fetch_min] may raise it. *)
Definition stores {Ex L} (a : action (Ex:=Ex) (L:=L)) : Prop :=
  match a with Tag (StoreLatest _ | StoreSafe _ | StoreFinalized _) => True | _ => False end.
#[export] Instance stores_dec {Ex L} (a : action (Ex:=Ex) (L:=L)) : Decision (stores a).
Proof. destruct a as [t|[]|now r|b|b]; apply _. Defined.

Section race.
Context {N W C NE S SE PW PE Ext Ex T R L HSE HE Rd Code Spec : Type}
  `{!HostNotifier N W C NE, !SystemConstants, !UnifiedStorage S SE Ex L, !Extraction C Ext,
    !Processing S PW PE Ext Ex, !Executed Ex T R, !HotStorage S HSE HE Rd Code, !HeaderOps}.
Context (hot cold : S -> Z) (number : Ex -> Z)
  `{!LawfulConstants, !LawfulStorage S SE Ex L hot cold number, !LawfulProcessing S PW PE Ext Ex C number,
    !SnapshotReads S HSE HE Rd Code hot}.
Abbreviation NodeT := (SignetNode N S PW T R L).
Abbreviation SharedT := (SharedState S T R L).
Implicit Types (s : NodeT) (c d : SharedT).

(** The handler's context when its transaction was opened at [c] and its tag is
    read at [d]. *)
Definition racing_ctx (ctx : RpcCtx S Spec) c d : RpcCtx S Spec :=
  mkRpcCtx (sh_storage c) (cn_tags (sh_chain d)) (ctx_slot_duration ctx) (ctx_spec_id_for_header ctx)
    (ctx_chain_id ctx) (ctx_config ctx).

Lemma exec_keeps_below h a c d :
  ~ stores a -> exec a c = Some d -> tags_below h (cn_tags (sh_chain c)) -> tags_below h (cn_tags (sh_chain d)).
Proof.
  destruct c as [db [[l sf f y] sent ring]]. intros Ha He Hb.
  destruct a as [t|o|now r|b|b]; cbn in He; [|injection He as <-; destruct o; cbn in *; [done..| | |]|
    by injection He as <-|by injection He as <-|].
  - unfold exec_storage in He. destruct (drain_above _ _) as [[x|e|] db']; [|done..]. by injection He as <-.
  - unfold tags_below in *. cbn in *. lia.
  - unfold tags_below in *. cbn in *. lia.
  - unfold tags_below in *. cbn in *. lia.
  - unfold exec_storage in He. destruct (append_block _ _) as [[x|e|] db']; [|done..]. by injection He as <-.
Qed.

Lemma run_keeps_below h acts c d :
  ~ Exists stores acts -> run acts c = Some d ->
  tags_below h (cn_tags (sh_chain c)) -> tags_below h (cn_tags (sh_chain d)).
Proof.
  revert c. induction acts as [|a acts IH]; intros c Hs; simpl; [by intros [= <-]|].
  intros (c' & He & Hr)%bind_Some Hb. eapply IH; [|exact Hr|].
  - intros Hx. apply Hs. by right.
  - eapply exec_keeps_below; [|exact He|exact Hb]. intros Hx. apply Hs. by left.
Qed.

Lemma resolve_below h (t : BlockTags) tag :
  0 <= h -> tags_below h t -> (forall n, tag <> Number n) -> resolve_block_tag t tag <= h.
Proof. intros Hh Ht Hn. apply resolve_block_tag_bounded; [done..|]. intros n ->. by destruct (Hn n). Qed.

(** ** Properties *)

(** C9: A handler opens its read transaction in one state of those that other
    tasks can see while a notification is handled, and reads its tag in the same
    or a later one.  The block that the tag names is found in the transaction's
    snapshot, except in two windows: a tag was stored between the two, so that
    it may name a block committed after the snapshot, or the transaction was
    opened between the drain of a revert and the end of the rewind. *)
Theorem racing_tag_resolution now notification s r s' :
  node_ok hot s ->
  handle_notification (W:=W) (NE:=NE) (SE:=SE) (PE:=PE) now notification s = (r, s') -> clean r ->
  exists reverted blocks tags seen,
    nd_seen s' = nd_seen s ++ seen
    /\ trail (revert_actions now reverted ++ commit_actions blocks ++ tag_actions tags) (view s) = Some seen
    /\ forall i j c d (ctx : RpcCtx S Spec) tag o,
         (view s :: seen) !! i = Some c -> (view s :: seen) !! (i + j)%nat = Some d ->
         (forall n, tag <> Number n) -> 0 <= resolve_block_tag (cn_tags (sh_chain d)) tag ->
         resolve_header (racing_ctx ctx c d) (IdNumber tag) = Ok o ->
         (exists h, o = Some h /\ h_number (sh_header h) = resolve_block_tag (cn_tags (sh_chain d)) tag)
         \/ hot (sh_storage c) < resolve_block_tag (cn_tags (sh_chain d)) tag
            /\ let ahead := drop i (revert_actions now reverted ++ commit_actions blocks ++ tag_actions tags) in
               Exists stores (take j ahead)
               \/ rewinding (take i (revert_actions now reverted ++ commit_actions blocks ++ tag_actions tags)) ahead.
Proof.
  intros Hok Hh Hc. destruct (handle_notification_traced hot cold number _ _ _ _ _ Hh Hc)
    as (acts & seen & Hrun & Ht & Hn & rv & bs & tags & -> & Hhandled & _).
  exists rv, bs, tags, seen. do 2 (split; [done|]).
  intros i j c d ctx tag o Hi Hj Htag Hnn Hres. cbn zeta.
  set (acts := revert_actions now rv ++ commit_actions bs ++ tag_actions tags) in *.
  destruct (trail_lookup _ _ _ _ _ Ht Hi) as [_ Hran].
  pose proof (run_between _ _ _ _ _ _ _ Ht Hi Hj) as Hmid.
  unfold resolve_header, hot_reader in Hres. cbn [ctx_storage ctx_tags racing_ctx] in Hres. res_inv.
  destruct (Z.le_gt_cases (resolve_block_tag (cn_tags (sh_chain d)) tag) (hot (sh_storage c))) as [Hle|Hgt].
  - left. by eapply stored_header.
  - right. split; [lia|]. destruct (decide (Exists stores (take j (drop i acts)))) as [|Hs]; [by left|right].
    destruct (handled_prefix hot cold number _ _ _ _ _ _ _ _ _ _ Hok Hhandled Hrun
      (eq_sym (take_drop i acts)) Hran) as [Hb|[Hw _]]; [|done].
    exfalso. pose proof (run_keeps_below _ _ _ _ Hs Hmid Hb) as Hd.
    pose proof (resolve_below _ _ tag (hot_nonneg (sh_storage c)) Hd Htag). lia.
Qed.

(** The first window is real: when a commit runs between the two, a call on the
    latest or the pending block answers that the block does not exist, although
    at every moment the latest block was stored. *)
Theorem commit_hides_latest {CE} `{!SnapshotEnds S HSE HE Rd Code hot} (ctx : RpcCtx S Spec) c d blocks sf fn rd o tag :
  run (commit_actions blocks ++ tag_actions (Some (hot (sh_storage d), sf, fn))) c = Some d ->
  hot (sh_storage c) < hot (sh_storage d) ->
  reader (sh_storage c) = Ok rd -> get_header rd (hot (sh_storage d)) = Ok o ->
  tag = Latest \/ tag = Pending ->
  resolve_evm_block (CE:=CE) (racing_ctx ctx c d) (IdNumber tag) = Err (EthBlockNotFound (IdNumber Latest)).
Proof.
  intros Hrun Hlt Hrd Hg Htag. rewrite run_app in Hrun. apply bind_Some in Hrun as (c1 & _ & Hrun).
  unfold tag_actions in Hrun. rewrite run_tags in Hrun.
  assert (latest (cn_tags (sh_chain d)) = hot (sh_storage d)) as Hl.
  { apply (f_equal (fmap (fun d => latest (cn_tags (sh_chain d))))) in Hrun. cbn in Hrun.
    injection Hrun as <-. by destruct (cn_tags (sh_chain c1)). }
  pose proof (above_tip_absent _ _ _ _ Hrd Hg Hlt) as ->.
  unfold resolve_evm_block, hot_reader. cbn [ctx_storage ctx_tags racing_ctx]. rewrite Hrd.
  destruct Htag as [-> | ->]; cbn; rewrite Hl, Hg; reflexivity.
Qed.
End race.

(** ** On the sample node

    Three blocks are stored and latest is the third; the fourth is committed
    between the opening of the transaction and the reading of the tag. *)
Import SampleNode SampleServed.
#[local] Existing Instance Sample.sample_header.

#[export] Instance sample_snapshot_ends : SnapshotEnds store unit unit store unit hot.
Proof. constructor. intros db rd n o [= <-] [= <-] Hn. by rewrite (proj2 (Z.leb_gt _ _)). Qed.

Definition before_commit : SharedState store unit unit Z := view (L:=Z) tip_node.
Definition commit_fourth : list (action (Ex:=Z) (L:=Z)) :=
  commit_actions [4] ++ tag_actions (Some (4, 2, 1)).
Definition after_commit : SharedState store unit unit Z := default before_commit (run commit_fourth before_commit).

Lemma commit_hides_latest_witness :
  let at_ c d := resolve_evm_block (CE:=unit) (racing_ctx (ctx_of tip_node) c d) (IdNumber Latest) in
  h_number ∘ eb_header <$> at_ before_commit before_commit = Ok 3
  /\ h_number ∘ eb_header <$> at_ after_commit after_commit = Ok 4
  /\ at_ before_commit after_commit = Err (EthBlockNotFound (IdNumber Latest)).
Proof.
  split; [vm_compute; reflexivity|]. split; [vm_compute; reflexivity|].
  apply (commit_hides_latest hot (ctx_of tip_node) before_commit after_commit [4] 2 1 (sh_storage before_commit) None);
    [vm_compute; reflexivity..|by left].
Defined.

(** A transaction opened before the drain and a tag read right after it. *)
Lemma racing_tag_resolution_witness :
  node_ok hot tip_node
  /\ exists d h, nd_seen handled_tip.2 !! 0%nat = Some d
       /\ resolve_header (racing_ctx (ctx_of tip_node) (view tip_node) d) (IdNumber Latest) = Ok (Some h)
       /\ h_number (sh_header h) = 3.
Proof.
  assert (node_ok hot tip_node) as Hok by (vm_compute; split_and!; discriminate).
  split; [exact Hok|].
  destruct (racing_tag_resolution (Spec:=unit) hot cold id 7 reorg tip_node (Ok tt) handled_tip.2 Hok handled_tip_eq I)
    as (rv & bs & tags & seen & Hseen & _ & Hres).
  cbn [nd_seen tip_node app] in Hseen. subst seen. eexists.
  destruct (Hres 0%nat 1%nat (view tip_node) _ (ctx_of tip_node) Latest _ eq_refl eq_refl
    ltac:(done) ltac:(vm_compute; discriminate) eq_refl) as [(h & Ho & Hn)|[Hlt _]].
  - exists h. split; [reflexivity|]. split; [rewrite <- Ho; reflexivity|exact Hn].
  - vm_compute in Hlt. discriminate Hlt.
Defined.
