(* ===== verification/NodeMetrics.v ===== *)
(** * The node's notification counters

    [on_notification] counts a notification when it arrives and again when it
    has been processed.  [keeps] says that a step of the node leaves the
    recorder alone; the theorems relate the counters over the main loop. *)

From S2P Require Import Prelude HostTypes BlockTags Primitives Interest ChainNotifier Metrics BlockProcessor Node NodeProps.

Section metrics.
Context {N W C NE S SE PW PE Ext Ex T R L : Type}
  `{!HostNotifier N W C NE, !SystemConstants, !UnifiedStorage S SE Ex L, !Extraction C Ext,
    !Processing S PW PE Ext Ex, !Executed Ex T R}.
Abbreviation NodeT := (SignetNode N S PW T R L).
Abbreviation M := (st NodeT (NodeError SE PE NE)).
Implicit Types s : NodeT.

(** ** Steps that emit nothing *)
Definition keeps {A} (m : M A) : Prop := forall s r s', m s = (r, s') -> nd_metrics s' = nd_metrics s.

Lemma keeps_ret {A} (a : A) : keeps (mret a).
Proof. by intros s r s' [= _ <-]. Qed.

Lemma keeps_lift {A} (r : res (NodeError SE PE NE) A) : keeps (st_lift r).
Proof. by intros s r' s' [= _ <-]. Qed.

Lemma keeps_bind {A B} (m : M A) (f : A -> M B) :
  keeps m -> (forall a, keeps (f a)) -> keeps (m ≫= f).
Proof.
  intros Hm Hf s r s' Hb. unfold mbind, st_bind in Hb. destruct (m s) as [[a|e|] s1] eqn:Hs.
  - by rewrite (Hf _ _ _ _ Hb), (Hm _ _ _ Hs).
  - injection Hb as _ <-. by eapply Hm.
  - injection Hb as _ <-. by eapply Hm.
Qed.

Lemma keeps_storage {A} (m : st S SE A) : keeps (storage m).
Proof. intros s r s'. unfold storage. destruct (m _) as [x db]. by intros [= _ <-]. Qed.

Lemma keeps_process {A} (m : S -> st PW PE A) : keeps (process m).
Proof. intros s r s'. unfold process. destruct (m _ _) as [x w]. by intros [= _ <-]. Qed.

Lemma keeps_chain f : keeps (on_chain f).
Proof. by intros s r s' [= _ <-]. Qed.

Lemma keeps_status x : keeps (set_status x).
Proof. by intros s r s' [= _ <-]. Qed.

Lemma keeps_last_rollup : keeps last_rollup_block.
Proof. by intros s r s' [= _ <-]. Qed.

Lemma keeps_processed_height h : keeps (update_highest_processed_height h).
Proof.
  intros s r s'. unfold update_highest_processed_height. destruct (send_finished_height _ _) as [n x].
  by intros [= _ <-].
Qed.

Lemma keeps_on_tags os : keeps (on_tags os).
Proof.
  induction os as [|o os IH]; cbn [on_tags]; [apply keeps_ret|]. apply keeps_bind; [apply keeps_chain|done].
Qed.

Create HintDb keeps.
Hint Resolve keeps_ret keeps_lift keeps_bind keeps_storage keeps_process keeps_chain keeps_on_tags keeps_status
  keeps_last_rollup keeps_processed_height : keeps.

(** Walks through a handler; every branch ends in a step that emits nothing. *)
Ltac keeps :=
  repeat match goal with
  | |- forall _, _ => intros ?
  | |- keeps (_ ≫= _) => apply keeps_bind
  | |- keeps (if ?b then _ else _) => destruct b
  | |- keeps (match ?x with _ => _ end) => destruct x
  | |- keeps _ => solve [eauto with keeps]
  end.

Lemma keeps_loop extracts processed : keeps (process_extracts_loop extracts processed).
Proof.
  revert processed. induction extracts as [|e es IH]; intros processed; cbn [process_extracts_loop]; keeps.
Qed.

Lemma keeps_commit chain : keeps (process_committed_chain (C:=C) chain).
Proof. unfold process_committed_chain. keeps. apply keeps_loop. Qed.

Lemma keeps_revert now range : keeps (on_host_revert now range).
Proof. unfold on_host_revert, notify_reorg. keeps. Qed.

Lemma keeps_status_channel : keeps update_status_channel.
Proof. unfold update_status_channel. keeps. Qed.

Lemma keeps_tags ru safe finalized : keeps (update_block_tags ru safe finalized).
Proof. unfold update_block_tags. keeps. Qed.

(** ** The counters *)
Definition one_if (b : bool) : Z := if b then 1 else 0.

Lemma received_counters {X} (notification : HostNotification X) r :
  let r' := record_notification_received notification r in
  counter NOTIFICATION_RECEIVED r' = counter NOTIFICATION_RECEIVED r + 1
  /\ counter REORGS_RECEIVED r' = counter REORGS_RECEIVED r + one_if (has_revert notification)
  /\ counter NOTIFICATIONS_PROCESSED r' = counter NOTIFICATIONS_PROCESSED r
  /\ counter REORGS_PROCESSED r' = counter REORGS_PROCESSED r.
Proof.
  unfold record_notification_received, inc_notifications_received, inc_reorgs_received.
  destruct (has_revert notification); rewrite !counter_emit by apply node_descriptions; count;
    cbn [one_if]; lia.
Qed.

Lemma processed_counters {X} (notification : HostNotification X) r :
  let r' := record_notification_processed notification r in
  counter NOTIFICATION_RECEIVED r' = counter NOTIFICATION_RECEIVED r
  /\ counter REORGS_RECEIVED r' = counter REORGS_RECEIVED r
  /\ counter NOTIFICATIONS_PROCESSED r' = counter NOTIFICATIONS_PROCESSED r + 1
  /\ counter REORGS_PROCESSED r' = counter REORGS_PROCESSED r + one_if (has_revert notification).
Proof.
  unfold record_notification_processed, inc_notifications_processed, inc_reorgs_processed.
  destruct (has_revert notification); rewrite !counter_emit by apply node_descriptions; count;
    cbn [one_if]; lia.
Qed.

(** A handler that records [f] when it succeeds and nothing when it fails. *)
Definition records {A} (f : Recorder -> Recorder) (m : M A) : Prop :=
  forall s r s', m s = (r, s') -> nd_metrics s' = (if is_ok r then f else id) (nd_metrics s).

Lemma records_bind {A B} f (m : M A) (k : A -> M B) :
  keeps m -> (forall a, records f (k a)) -> records f (m ≫= k).
Proof.
  intros Hm Hk s r s' Hb. unfold mbind, st_bind in Hb. destruct (m s) as [[a|e|] s1] eqn:Hs.
  - by rewrite (Hk _ _ _ _ Hb), (Hm _ _ _ Hs).
  - injection Hb as <- <-. by eapply Hm.
  - injection Hb as <- <-. by eapply Hm.
Qed.

Lemma records_last {A} f (a : A) : records f (_ ← on_metrics f; mret a).
Proof. by intros s r s' [= <- <-]. Qed.

(** What one notification does to the recorder: it counts as processed exactly
    when it succeeds. *)
Lemma on_notification_metrics now (notification : HostNotification C) s r s' :
  on_notification (NE:=NE) (SE:=SE) (PE:=PE) now notification s = (r, s') ->
  nd_metrics s'
  = (if is_ok r then record_notification_processed notification else id)
      (record_notification_received notification (nd_metrics s)).
Proof.
  unfold on_notification. unfold mbind at 1, st_bind at 1. cbn [on_metrics st_modify].
  intros Hb. eapply (records_bind (record_notification_processed notification)) in Hb; [exact Hb|..].
  - destruct (revert_range notification); [apply keeps_revert|apply keeps_ret].
  - intros reverted. apply records_bind.
    + destruct (committed_chain notification); [apply keeps_commit|apply keeps_ret].
    + intros committed. apply records_bind; [|intros []; apply records_last].
      destruct (reverted || committed); [apply keeps_status_channel|apply keeps_ret].
Qed.

Lemma handle_notification_metrics now (notification : HostNotification C) s r s' :
  handle_notification (NE:=NE) (SE:=SE) (PE:=PE) now notification s = (r, s') ->
  exists ok, (is_ok r = true -> ok = true)
    /\ nd_metrics s'
       = (if ok : bool then record_notification_processed notification else id)
           (record_notification_received notification (nd_metrics s)).
Proof.
  unfold handle_notification. intros Hh. unfold mbind at 1, st_bind at 1 in Hh.
  destruct (on_notification now notification s) as [[changed|e|] s1] eqn:Ho;
    apply on_notification_metrics in Ho; [|injection Hh as <- <-; by exists false..].
  exists true. split; [done|]. cbn [is_ok] in Ho. rewrite <- Ho.
  destruct changed; [|by apply keeps_ret in Hh].
  apply keeps_bind in Hh; [exact Hh|apply keeps_last_rollup|intros ru; apply keeps_tags].
Qed.

(** ** Properties *)

(** How far the counters of arrivals are ahead of those of completions. *)
Definition in_flight (r : Recorder) : Z * Z :=
  (counter NOTIFICATION_RECEIVED r - counter NOTIFICATIONS_PROCESSED r,
   counter REORGS_RECEIVED r - counter REORGS_PROCESSED r).

(** C10: The counters tell where the node is: whatever the host sends, while the
    main loop runs every notification and every reorg that was received has been
    processed, and when it stops on an error at most one of each is
    outstanding, a reorg only with its notification. *)
Theorem main_loop_metrics inputs s r s' :
  in_flight (nd_metrics s) = (0, 0) ->
  main_loop (W:=W) (NE:=NE) (SE:=SE) (PE:=PE) inputs s = (r, s') ->
  (is_ok r = true -> in_flight (nd_metrics s') = (0, 0))
  /\ exists n k, in_flight (nd_metrics s') = (n, k) /\ 0 <= k <= n /\ n <= 1
  /\ counter REORGS_RECEIVED (nd_metrics s') - counter REORGS_RECEIVED (nd_metrics s)
     <= counter NOTIFICATION_RECEIVED (nd_metrics s') - counter NOTIFICATION_RECEIVED (nd_metrics s)
     <= Z.of_nat (length inputs).
Proof.
  revert s. induction inputs as [|[w now] inputs IH]; intros s Hs; cbn [main_loop].
  { intros [= <- <-]. split; [done|]. exists 0, 0. split_and!; simpl; lia || done. }
  intros Hm. unfold mbind at 1, st_bind at 1 in Hm.
  destruct (next_notification w (nd_notifier s)) as [n found].
  destruct found as [found|]; cycle 1.
  { injection Hm as <- <-. split; [done|]. exists 0, 0. split_and!; simpl; lia || done. }
  unfold mbind at 1, st_bind at 1, st_lift in Hm.
  destruct found as [notification|e|]; cbn [map_err] in Hm;
    [|injection Hm as <- <-; split; [done|]; exists 0, 0; split_and!; simpl; lia || done..].
  unfold mbind at 1, st_bind at 1 in Hm.
  destruct (handle_notification now notification (set_notifier n s)) as [r1 s1] eqn:Hh.
  apply handle_notification_metrics in Hh as (ok & Hok & Hr). cbn [nd_metrics set_notifier] in Hr.
  destruct (received_counters notification (nd_metrics s)) as (R1 & R2 & R3 & R4).
  set (m1 := record_notification_received _ _) in *.
  assert (0 <= one_if (has_revert notification) <= 1) as Hone by (destruct (has_revert notification); simpl; lia).
  unfold in_flight in Hs. injection Hs as S1 S2.
  destruct r1 as [u|e|].
  - rewrite (Hok eq_refl) in Hr. destruct (processed_counters notification m1) as (P1 & P2 & P3 & P4).
    rewrite <- Hr in P1, P2, P3, P4.
    destruct (IH s1) as [H1 (n1 & k1 & H2 & H3 & H4 & H5)]; [unfold in_flight; f_equal; lia|exact Hm|].
    split; [exact H1|]. exists n1, k1. split; [done|]. cbn [length]. lia.
  - injection Hm as <- <-. split; [done|]. eexists _, _. split; [reflexivity|]. rewrite Hr.
    destruct ok; [destruct (processed_counters notification m1) as (P1 & P2 & P3 & P4)|unfold id];
      cbn [length]; lia.
  - injection Hm as <- <-. split; [done|]. eexists _, _. split; [reflexivity|]. rewrite Hr.
    destruct ok; [destruct (processed_counters notification m1) as (P1 & P2 & P3 & P4)|unfold id];
      cbn [length]; lia.
Qed.
End metrics.

(** ** A node that processes a commit and a reorg, and stops on a bad revert *)
Import SampleNode.

Definition bad_revert : HostNotification (list Z) :=
  mkHostNotification (ChainReverted (mkRevertRange 101 102)) None None.

Lemma main_loop_metrics_witness :
  let '(r, s) := main_loop (NE:=unit) (SE:=unit) (PE:=unit) (Ex:=Z)
                   [(tt, 0); (tt, 5); (tt, 9)] (node 0 0 [commit; reorg; bad_revert]) in
  r = Err (RevertNotCovering 102 2 4)
  /\ exists n k, in_flight (nd_metrics s) = (n, k) /\ 0 <= k <= n /\ n <= 1
  /\ in_flight (nd_metrics s) = (1, 1).
Proof.
  destruct (main_loop _ _) as [r s] eqn:E. pose proof E as E'.
  apply (main_loop_metrics (NE:=unit) (PE:=unit) [(tt, 0); (tt, 5); (tt, 9)]) in E'
    as [_ (n & k & Hf & Hk & Hn & _)]; [|reflexivity].
  vm_compute in E. injection E as <- <-. split; [reflexivity|].
  exists n, k. split; [exact Hf|]. split; [exact Hk|]. split; [exact Hn|reflexivity].
Defined.
