(* ===== verification/Replica.v ===== *)
(** * The node as a replica of the host chain

    The node ([crates/node/src/node.rs]) run by any notifier that follows a
    chain of host blocks: what is in storage is the execution of that chain,
    whatever reorgs it went through, so two nodes that end on one chain hold
    one state.  The contract [Follower] is what the node needs of a notifier. *)

From stdpp Require Import sorting.
From Stdlib Require Import Sorted.
From S2P Require Import Prelude HostTypes BlockTags Primitives Interest ChainNotifier BlockProcessor Node NodeProps.

(** ** Interfaces *)

(** The host blocks of a committed chain, and the extraction block by block. *)
Class HostBlocks (C B : Type) := { chain_blocks : C -> list B; blk_number : B -> Z }.
Class BlockExtraction (B Ext : Type) := { extract_block : B -> option Ext }.

(** The extractor looks at the blocks one by one and finds the extracts of the
    rollup block in each block above the deployment. *)
Class LawfulExtraction (C B Ext : Type) `{!HostBlocks C B, !BlockExtraction B Ext, !Extraction C Ext,
    !SystemConstants} : Prop := {
  extract_signet_blocks c : extract_signet c = omap extract_block (chain_blocks c);
  extract_block_some (b : B) e : extract_block b = Some e ->
    host_deploy_height < blk_number (C:=C) b /\ ru_height (C:=C) e = blk_number (C:=C) b - host_deploy_height;
  extract_block_none (b : B) : extract_block (Ext:=Ext) b = None -> blk_number (C:=C) b <= host_deploy_height }.

(** The rollup height of a host height is its distance from the deployment,
    and the pairing inverts it. *)
Class LinearConstants `{SystemConstants} : Prop := {
  rollup_num_linear h : host_block_to_rollup_block_num h
    = (if host_deploy_height <=? h then Some (h - host_deploy_height) else None);
  pair_ru_linear n : ph_host (pair_ru n) = host_deploy_height + n }.

Definition tip_of {A} (number : A -> Z) (l : list A) : Z := default 0 (number <$> last l).

(** Storage by its content, the blocks above the genesis. *)
Class ContentStorage (S SE Ex L : Type) `{UnifiedStorage S SE Ex L}
    (content : S -> list Ex) (number : Ex -> Z) : Prop := {
  content_last s o : last_block_number s = Ok o -> default 0 o = tip_of number (content s);
  content_cold s o : cold_latest_block s = Ok o -> 0 <= default 0 o;
  content_append b s u s' : append_block b s = (Ok u, s') -> content s' = content s ++ [b];
  content_drain t s d s' :
    drain_above t s = (Ok d, s') -> content s' = filter (fun b => number b <= t) (content s);
  content_unwind t s u s' :
    unwind_above t s = (Ok u, s') -> content s' = filter (fun b => number b <= t) (content s) }.

(** ** The host chain a notifier announces *)
Section host.
Context {C B : Type} `{!HostBlocks C B}.
Abbreviation num := (blk_number (C:=C)).

Definition below (n : Z) (hc : list B) : list B := filter (fun b => num b < n) hc.

(** What a notification does to the announced chain. *)
Definition host_apply (notif : HostNotification C) (hc : list B) : list B :=
  match kind notif with
  | ChainCommitted c => hc ++ chain_blocks c
  | ChainReverted r => below (first r) hc
  | ChainReorged r c => below (first r) hc ++ chain_blocks c
  end.

Definition numbered_from (start : Z) (hc : list B) : Prop := num <$> hc = seqZ start (Z.of_nat (length hc)).

(** A notification fits: the chain it leaves is numbered without a gap, and a
    revert ends at its tip and keeps its first block. *)
Definition fits (start : Z) (hc : list B) (notif : HostNotification C) : Prop :=
  numbered_from start (host_apply notif hc)
  /\ match revert_range notif with
     | Some r => start < first r <= tip r /\ tip r = start + Z.of_nat (length hc) - 1
     | None => True
     end.

Lemma numbered_from_lookup start hc i b :
  numbered_from start hc -> hc !! i = Some b -> num b = start + Z.of_nat i.
Proof.
  intros Hn Hi. apply (f_equal (fun l => l !! i)) in Hn. rewrite list_lookup_fmap, Hi in Hn. simpl in Hn.
  symmetry in Hn. apply lookup_seqZ in Hn. lia.
Qed.

Lemma numbered_from_app start hc k :
  numbered_from start (hc ++ k) <->
  numbered_from start hc /\ numbered_from (start + Z.of_nat (length hc)) k.
Proof.
  unfold numbered_from. rewrite fmap_app, length_app, Nat2Z.inj_add, seqZ_app by lia. split.
  - intros Heq. apply app_inj_1 in Heq; [done|]. by rewrite length_fmap, length_seqZ, Nat2Z.id.
  - by intros [-> ->].
Qed.

(** Blocks below a height are the first ones. *)
Lemma below_take start hc n :
  numbered_from start hc -> below n hc = take (Z.to_nat (n - start)) hc.
Proof.
  revert start. induction hc as [|b hc IH]; intros start Hn; [by rewrite take_nil|].
  assert (numbered_from start [b] /\ numbered_from (start + 1) hc) as [Hb Hn']
    by by apply numbered_from_app.
  pose proof (numbered_from_lookup _ _ 0 b Hb eq_refl) as Hnum. unfold below in *.
  rewrite filter_cons, (IH _ Hn'). case_decide.
  - replace (Z.to_nat (n - start)) with (S (Z.to_nat (n - (start + 1)))) by lia. done.
  - by rewrite !Z2Nat.nonpos by lia.
Qed.

Lemma numbered_from_below start hc n b :
  numbered_from start hc -> b ∈ below n hc -> start <= num b < n.
Proof.
  intros Hn Hb. unfold below in Hb. apply list_elem_of_filter in Hb as [Hlt Hin].
  apply list_elem_of_lookup in Hin as [i Hi]. rewrite (numbered_from_lookup _ _ _ _ Hn Hi) in *. lia.
Qed.
End host.

(** ** The contract of a notifier that follows the host

    [R start hc n] relates the chain announced since the start to the notifier's state;
    [astray start w n] is that what [n] announces next, when the host answers
    [w], is not anchored in what it announced since [start]. *)
Class Follower (N W C NE B : Type) `{!HostNotifier N W C NE, !HostBlocks C B}
    (fresh : option Z -> Z -> N -> Prop) (R : Z -> list B -> N -> Prop) (astray : Z -> W -> N -> Prop) : Prop := {
  follow_start start n bf : fresh bf start n -> R start [] (set_backfill_thresholds bf (set_head start n));
  follow_next start hc n w n' notif :
    R start hc n -> next_notification w n = (n', Some (Ok notif)) ->
    fits start hc notif /\ R start (host_apply notif hc) n' \/ astray start w n;
  follow_finished start hc n h n' r :
    R start hc n -> send_finished_height h n = (n', r) -> R start hc n' }.

(** [delivers hc n inputs ended hc' n']: what a notifier announces, whoever
    listens.  Asked once per input, and told any finished heights in between,
    [n] gives notifications that take the chain [hc] to [hc'], and is [n'] in
    the end; [ended] is that its stream ended. *)
Section delivery.
Context {N W C NE B : Type} `{!HostNotifier N W C NE, !HostBlocks C B}.

Inductive delivers : list B -> N -> list (W * Z) -> bool -> list B -> N -> Prop :=
| delivers_all hc n : delivers hc n [] false hc n
| delivers_ended hc n w now inputs n' :
    next_notification w n = (n', None) -> delivers hc n ((w, now) :: inputs) true hc n'
| delivers_next hc n w now inputs n1 notif n2 ended hc' n' :
    next_notification w n = (n1, Some (Ok notif)) ->
    n2 = n1 \/ (exists h r, send_finished_height h n1 = (n2, r)) ->
    delivers (host_apply notif hc) n2 inputs ended hc' n' ->
    delivers hc n ((w, now) :: inputs) ended hc' n'.
End delivery.

Section replica.
Context {N W C NE S SE PW PE Ext Ex T R L B : Type}
  `{!HostNotifier N W C NE, !SystemConstants, !UnifiedStorage S SE Ex L, !Extraction C Ext,
    !Processing S PW PE Ext Ex, !Executed Ex T R, !HostBlocks C B, !BlockExtraction B Ext}.
Context (content : S -> list Ex) (number : Ex -> Z)
  `{!ContentStorage S SE Ex L content number, !LawfulProcessing S PW PE Ext Ex C number,
    !LawfulExtraction C B Ext, !LinearConstants}.
Abbreviation NodeT := (SignetNode N S PW T R L).
Abbreviation rh := (ru_height (C:=C)).
Abbreviation num := (blk_number (C:=C)).
Implicit Types (s : NodeT) (hc : list B).

(** ** Executions

    [execution base es bs]: the blocks [bs] are [base] extended by the blocks
    that executing [es] in order produces, each on a storage that holds the
    blocks before it. *)
Inductive execution (base : list Ex) : list Ext -> list Ex -> Prop :=
| exec_base : execution base [] base
| exec_block es bs db e w b w' :
    execution base es bs -> content db = bs -> process_extracts db e w = (Ok b, w') ->
    execution base (es ++ [e]) (bs ++ [b]).

(** The blocks of [base] are numbered from the genesis up to its tip. *)
Definition base_ok (base : list Ex) : Prop := Forall (fun b => 0 <= number b <= tip_of number base) base.

Lemma base_ok_tip base : base_ok base -> 0 <= tip_of number base.
Proof.
  unfold base_ok, tip_of. destruct (last base) as [b|] eqn:Hl; [|done]. simpl. intros Hb.
  apply last_Some_elem_of in Hl. rewrite Forall_forall in Hb. by apply Hb in Hl as [? _].
Qed.

(** The blocks of [bs] after [base] are the extracts' one by one. *)
Lemma execution_split base es bs :
  execution base es bs ->
  exists ks, bs = base ++ ks /\ Forall2 (fun e b => number b = rh e) es ks.
Proof.
  induction 1 as [|es bs db e w b w' _ (ks & -> & IH) Hc Hp].
  - exists []. by rewrite app_nil_r.
  - exists (ks ++ [b]). rewrite app_assoc. split; [done|]. apply Forall2_app; [done|].
    constructor; [|done]. by eapply process_number.
Qed.

(** The tip of an execution is the height of its last extract. *)
Lemma execution_tip base es bs :
  execution base es bs -> tip_of number bs = default (tip_of number base) (last (rh <$> es)).
Proof.
  intros He. destruct He as [|es bs db e w b w' He Hc Hp]; [reflexivity|]. apply process_number in Hp.
  unfold tip_of. rewrite fmap_app, last_snoc. csimpl. by rewrite last_snoc.
Qed.

(** Dropping the blocks above [t] leaves the execution of the extracts up to
    [t], when their heights increase. *)
Lemma execution_filter base es bs t :
  base_ok base -> tip_of number base <= t -> StronglySorted (fun e e' => rh e < rh e') es ->
  execution base es bs ->
  execution base (filter (fun e => rh e <= t) es) (filter (fun b => number b <= t) bs).
Proof.
  intros Hb Ht Hs He. induction He as [|es bs db e w b w' He IH Hc Hp].
  - rewrite (filter_all _ base); [constructor|]. eapply Forall_impl; [exact Hb|]. simpl. lia.
  - pose proof (process_number _ _ _ _ _ Hp) as Hn.
    apply StronglySorted_app in Hs as (Hall & Hs & _).
    specialize (IH Hs). rewrite !filter_app. destruct (decide (rh e <= t)) as [Hle|Hgt].
    + rewrite (filter_cons_True _ e), (filter_cons_True _ b) by (rewrite ?Hn; done).
      rewrite !filter_nil, (filter_all _ es), (filter_all _ bs).
      * by econstructor.
      * apply execution_split in He as (ks & -> & Hk). apply Forall_app. split.
        { eapply Forall_impl; [exact Hb|]. simpl. lia. }
        eapply Forall2_Forall_r; [exact Hk|]. apply Forall_forall. intros e' He' b' ->.
        specialize (Hall e' e He' ltac:(by left)). lia.
      * apply Forall_forall. intros e' He'. specialize (Hall e' e He' ltac:(by left)). lia.
    + rewrite (filter_cons_False _ e), (filter_cons_False _ b) by (rewrite ?Hn; done).
      by rewrite !filter_nil, !app_nil_r.
Qed.

(** ** The extracts of an announced chain *)

(** The extracts above the height storage held at the start. *)
Definition extracts_above (h : Z) (hc : list B) : list Ext :=
  filter (fun e => h < rh e) (omap extract_block hc).

Lemma extracts_above_app h hc k : extracts_above h (hc ++ k) = extracts_above h hc ++ extracts_above h k.
Proof. unfold extracts_above. by rewrite omap_app, filter_app. Qed.

Lemma extracts_above_elem h hc e :
  e ∈ extracts_above h hc <->
  exists b, b ∈ hc /\ extract_block b = Some e /\ h < rh e /\ rh e = num b - host_deploy_height.
Proof.
  unfold extracts_above. rewrite list_elem_of_filter, list_elem_of_omap. split.
  - intros (Hh & b & Hb & He). exists b. by destruct (extract_block_some _ _ He) as [_ ?].
  - intros (b & Hb & He & Hh & _). eauto.
Qed.

(** The extracts of a chain without gaps come in order of height. *)
Lemma extracts_above_sorted h start hc :
  numbered_from (C:=C) start hc -> StronglySorted (fun e e' => rh e < rh e') (extracts_above h hc).
Proof.
  induction hc as [|b hc IH] using rev_ind; [constructor|]. intros Hn.
  rewrite extracts_above_app. apply StronglySorted_app_2; [|by apply numbered_from_app in Hn as [? _]; apply IH|].
  - intros e e' He He'. apply extracts_above_elem in He as (c & Hc & _ & _ & ->).
    apply extracts_above_elem in He' as (c' & Hc' & _ & _ & ->).
    apply list_elem_of_singleton in Hc' as ->. apply list_elem_of_lookup in Hc as [i Hi].
    assert (num c = start + Z.of_nat i) as ->.
    { eapply numbered_from_lookup; [exact Hn|]. by apply lookup_app_l_Some. }
    assert (num b = start + Z.of_nat (length hc)) as ->.
    { eapply numbered_from_lookup; [exact Hn|]. by apply list_lookup_middle. }
    apply lookup_lt_Some in Hi. lia.
  - unfold extracts_above. simpl. destruct (extract_block b) as [e|]; [|constructor].
    rewrite filter_cons. destruct (decide _); repeat constructor.
Qed.
Lemma numbered_above start hc k b b' :
  numbered_from (C:=C) start (hc ++ k) -> b ∈ hc -> b' ∈ k -> num b < num b'.
Proof.
  intros Hn Hb Hb'. apply list_elem_of_lookup in Hb as [i Hi]. apply list_elem_of_lookup in Hb' as [j Hj].
  rewrite (numbered_from_lookup _ _ i b Hn) by by apply lookup_app_l_Some.
  rewrite (numbered_from_lookup _ _ (length hc + j) b' Hn) by by rewrite lookup_app_r, Nat.add_comm, Nat.add_sub by lia.
  apply lookup_lt_Some in Hi. lia.
Qed.

(** ** What the node's operations do to the content *)
Lemma last_rollup_block_tip s n s' :
  last_rollup_block (NE:=NE) (PE:=PE) s = (Ok n, s') -> s' = s /\ n = tip_of number (content (nd_storage s)).
Proof.
  unfold last_rollup_block. intros [= Hr <-]. split; [done|]. res_inv. by apply content_last.
Qed.

Lemma process_extracts_loop_content base ds es p s p' s' :
  execution base ds (content (nd_storage s)) ->
  process_extracts_loop (NE:=NE) (SE:=SE) es p s = (Ok p', s') ->
  execution base (ds ++ es) (content (nd_storage s')) /\ nd_notifier s' = nd_notifier s.
Proof.
  revert ds p s. induction es as [|e es IH]; intros ds p s He.
  { intros [= _ <-]. by rewrite app_nil_r. }
  cbn [process_extracts_loop]. intros Hp.
  apply st_bind_ok in Hp as (b & s1 & Hb & Hp). unfold process in Hb.
  destruct (process_extracts (nd_storage s) e (nd_process s)) as [r w] eqn:Hx.
  injection Hb as Hr <-. apply map_err_ok in Hr as ->.
  apply st_bind_ok in Hp as ([] & s2 & Hn & Hp). injection Hn as <-.
  apply st_bind_ok in Hp as ([] & s3 & Ha & Hp). apply storage_ok in Ha as (db & Ha & ->).
  apply content_append in Ha. rewrite (cons_middle e), app_assoc.
  apply (IH (ds ++ [e])) in Hp as [Hx' Hn]; [by split|]. cbn in *. rewrite Ha. by econstructor.
Qed.

(** The chain [hc] was announced and executed on [base]. *)
Definition session_start (base : list Ex) : Z := host_deploy_height + tip_of number base.
Definition replicates (base : list Ex) hc s : Prop :=
  numbered_from (C:=C) (session_start base) hc
  /\ execution base (extracts_above (tip_of number base) hc) (content (nd_storage s)).

(** The node's own guard against executed blocks lets the new ones through. *)
Lemma new_extracts_content base hc s c :
  replicates base hc s -> numbered_from (C:=C) (session_start base) (hc ++ chain_blocks c) ->
  new_extracts (tip_of number (content (nd_storage s))) c
    = extracts_above (tip_of number base) (chain_blocks c).
Proof.
  intros [_ He] Hn. unfold new_extracts, extracts_above. rewrite extract_signet_blocks.
  apply filter_ext_elem. intros e Hin. apply list_elem_of_omap in Hin as (b & Hb & Heq).
  apply extract_block_some in Heq as [_ Heq].
  apply execution_tip in He as ->. destruct (last _) as [n|] eqn:Hl; [|done]. simpl.
  apply last_Some_elem_of, list_elem_of_fmap in Hl as (e' & -> & He').
  apply extracts_above_elem in He' as (b' & Hb' & _ & Hlt & Heq').
  pose proof (numbered_above _ _ _ _ _ Hn Hb' Hb). split; lia.
Qed.

Lemma process_committed_chain_content base hc c s p s' :
  replicates base hc s -> numbered_from (C:=C) (session_start base) (hc ++ chain_blocks c) ->
  process_committed_chain (NE:=NE) (SE:=SE) c s = (Ok p, s') ->
  replicates base (hc ++ chain_blocks c) s' /\ nd_notifier s' = nd_notifier s.
Proof.
  unfold process_committed_chain. intros Hr Hn Hp.
  apply st_bind_ok in Hp as (h & s1 & Hl & Hp). apply last_rollup_block_tip in Hl as [-> ->].
  rewrite (new_extracts_content _ _ _ _ Hr Hn) in Hp. destruct Hr as [_ He].
  apply (process_extracts_loop_content _ _ _ _ _ _ _ He) in Hp as [Hx Hk].
  split; [|done]. split; [done|]. by rewrite extracts_above_app.
Qed.
Lemma extracts_above_below h n hc :
  extracts_above h (below (C:=C) n hc)
    = filter (fun e => rh e <= n - host_deploy_height - 1) (extracts_above h hc).
Proof.
  unfold below, extracts_above. induction hc as [|b hc IH]; [done|]. rewrite filter_cons. csimpl.
  destruct (extract_block b) as [e|] eqn:He.
  - pose proof (extract_block_some _ _ He) as [_ Heq].
    destruct (decide (num b < n)); csimpl; rewrite ?He, ?filter_cons, IH;
      repeat (destruct (decide _); rewrite ?filter_cons); try lia; done.
  - destruct (decide (num b < n)); csimpl; by rewrite ?He, IH.
Qed.

Lemma on_host_revert_content base now hc r s p s' :
  base_ok base -> replicates base hc s -> session_start base < first r <= tip r ->
  numbered_from (C:=C) (session_start base) (below (C:=C) (first r) hc) ->
  on_host_revert (NE:=NE) (PE:=PE) now r s = (Ok p, s') ->
  replicates base (below (C:=C) (first r) hc) s' /\ nd_notifier s' = nd_notifier s.
Proof.
  intros Hb [Hn He] Hf Hn' Hp. pose proof (base_ok_tip _ Hb) as Hz. unfold session_start in Hf.
  unfold on_host_revert, RevertRange_tip, RevertRange_first in Hp.
  destruct (Z.leb_spec (tip r) host_deploy_height); [lia|].
  apply st_bind_ok in Hp as (h & s1 & Hl & Hp). apply last_rollup_block_tip in Hl as [-> _].
  apply st_bind_ok in Hp as (n & s2 & Hu & Hp). injection Hu as _ <-.
  apply st_bind_ok in Hp as (u & s2 & Hu & Hp). injection Hu as _ <-.
  apply st_bind_ok in Hp as (drained & s3 & Hd & Hp). apply storage_ok in Hd as (db & Hd & ->).
  apply st_bind_ok in Hp as ([] & s4 & Hc & Hp). injection Hc as <-.
  apply st_bind_ok in Hp as ([] & s5 & Hno & Hp). injection Hp as _ <-.
  apply content_drain in Hd. rewrite rollup_num_linear in Hd.
  rewrite (proj2 (Z.leb_le _ _)) in Hd by lia. simpl in Hd. unfold sat_sub in Hd.
  rewrite Z.max_r in Hd by lia.
  assert (nd_storage s5 = db /\ nd_notifier s5 = nd_notifier s) as [Hst Hk]
    by (by destruct drained; injection Hno as <-).
  split; [|done]. split; [done|]. rewrite Hst, Hd, extracts_above_below.
  apply execution_filter; [done|lia| |done]. by eapply extracts_above_sorted.
Qed.

Lemma on_notification_content base now hc notif s p s' :
  base_ok base -> replicates base hc s -> fits (session_start base) hc notif ->
  on_notification (NE:=NE) (PE:=PE) (SE:=SE) now notif s = (Ok p, s') ->
  replicates base (host_apply notif hc) s' /\ nd_notifier s' = nd_notifier s.
Proof.
  intros Hb Hr [Hn Hf] Hp. unfold on_notification in Hp.
  apply st_bind_ok in Hp as ([] & s0 & Hm & Hp).
  assert (replicates base hc s0 /\ nd_notifier s0 = nd_notifier s) as [Hr0 <-] by by injection Hm as <-.
  clear Hm Hr. rename Hr0 into Hr.
  apply st_bind_ok in Hp as (rev & s1 & Hrev & Hp). apply st_bind_ok in Hp as (com & s2 & Hcom & Hp).
  assert (nd_storage s' = nd_storage s2 /\ nd_notifier s' = nd_notifier s2) as [Hst Hno].
  { apply st_bind_ok in Hp as ([] & s3 & Hu & Hp).
    apply st_bind_ok in Hp as ([] & s5 & Hm & Hp). injection Hm as <-. injection Hp as _ <-.
    destruct (rev || com); [|by injection Hu as <-]. unfold update_status_channel in Hu.
    apply st_bind_ok in Hu as (h & s4 & Hl & Hu). apply last_rollup_block_tip in Hl as [-> _].
    by injection Hu as <-. }
  unfold replicates. rewrite Hst, Hno. clear Hp Hst Hno.
  unfold host_apply, revert_range, committed_chain in *. destruct (kind notif) as [c|r|r c]; simpl in *.
  - injection Hrev as _ <-. by apply (process_committed_chain_content base hc) in Hcom.
  - injection Hcom as _ <-. by eapply on_host_revert_content; [..|exact Hrev]; tauto || done.
  - pose proof (proj1 (proj1 (numbered_from_app _ _ _) Hn)) as Hn0.
    eapply on_host_revert_content in Hrev as [Hr1 Hk]; [|done|exact Hr|tauto|done].
    destruct (process_committed_chain_content base _ c s1 com s2 Hr1 Hn Hcom) as [Hr2 Hk2].
    split; [done|]. by rewrite Hk2.
Qed.
Lemma handle_notification_content base now hc notif s u s' :
  base_ok base -> replicates base hc s -> fits (session_start base) hc notif ->
  handle_notification (NE:=NE) (PE:=PE) (SE:=SE) now notif s = (Ok u, s') ->
  replicates base (host_apply notif hc) s'
  /\ (nd_notifier s' = nd_notifier s
      \/ exists h r, send_finished_height h (nd_notifier s) = (nd_notifier s', r)).
Proof.
  intros Hb Hr Hf Hp. unfold handle_notification in Hp.
  apply st_bind_ok in Hp as (c & s1 & Hc & Hp).
  destruct (on_notification_content _ _ _ _ _ _ _ Hb Hr Hf Hc) as [Hr1 Hk].
  destruct c; [|injection Hp as _ <-; auto].
  apply st_bind_ok in Hp as (h & s2 & Hl & Hp). apply last_rollup_block_tip in Hl as [-> _].
  unfold update_block_tags in Hp. apply st_bind_ok in Hp as ([] & s3 & Ht & Hp). injection Ht as <-.
  case_match; [|injection Hp as _ <-; auto].
  unfold update_highest_processed_height in Hp. simpl in Hp.
  destruct (send_finished_height _ _) as [n r] eqn:Hs. injection Hp as _ <-. simpl.
  split; [done|]. right. rewrite <- Hk. eauto.
Qed.

(** ** Storage that holds a host chain *)

(** [db] holds the execution, from the genesis, of the host chain [hc] that
    begins at the deployment block. *)
Definition holds_chain hc (db : S) : Prop :=
  hc <> [] /\ numbered_from (C:=C) host_deploy_height hc
  /\ execution [] (extracts_above 0 hc) (content db).

Lemma execution_app base es bs es' cs :
  execution base es bs -> execution bs es' cs -> execution base (es ++ es') cs.
Proof.
  intros H1. induction 1 as [|es' cs db e w b w' _ IH Hc Hp]; [by rewrite app_nil_r|].
  rewrite app_assoc. by econstructor.
Qed.

Lemma extract_above_deploy (b : B) :
  host_deploy_height < num b -> exists e : Ext, extract_block b = Some e /\ rh e = num b - host_deploy_height.
Proof.
  intros Hb. destruct (extract_block b) as [e|] eqn:He.
  - exists e. by destruct (extract_block_some _ _ He).
  - apply (extract_block_none (C:=C)) in He. lia.
Qed.

(** The first announced block is at the height storage already holds. *)
Lemma extracts_above_tail h hc :
  0 <= h -> numbered_from (C:=C) (host_deploy_height + h) hc ->
  extracts_above h hc = extracts_above 0 (tail hc).
Proof.
  intros Hh Hn. destruct hc as [|b hc]; [done|]. simpl.
  assert (forall b', b' ∈ hc -> num b < num b') as Hlt.
  { intros b' Hb'. apply (numbered_above _ [b] hc _ _ Hn); [by left|done]. }
  pose proof (numbered_from_lookup _ _ 0 b Hn eq_refl) as Hb.
  unfold extracts_above. csimpl. destruct (extract_block b) as [e|] eqn:He.
  1: pose proof (extract_block_some _ _ He); rewrite filter_cons_False by lia.
  all: apply filter_ext_elem; intros e' He'; apply list_elem_of_omap in He' as (b' & Hb' & He');
    apply extract_block_some in He' as [_ He']; specialize (Hlt _ Hb'); lia.
Qed.

(** The tip of storage is the distance of the last block of the chain. *)
Lemma holds_chain_tip hc db :
  holds_chain hc db -> tip_of number (content db) = Z.of_nat (length hc) - 1.
Proof.
  intros (Hne & Hn & He). apply execution_tip in He as ->. unfold tip_of. simpl.
  destruct hc as [|b hc _] using rev_ind; [done|]. rewrite length_app, extracts_above_app. simpl.
  pose proof (numbered_from_lookup _ _ (length hc) b Hn (list_lookup_middle _ _ _ _ eq_refl)) as Hb.
  destruct hc as [|b0 hc].
  - unfold extracts_above. simpl. destruct (extract_block b) as [e|] eqn:He; [|done].
    apply extract_block_some in He. simpl in Hb. lia.
  - destruct (extract_above_deploy b) as (e & He & Heq); [simpl in Hb; lia|].
    unfold extracts_above at 2. csimpl. rewrite He. simpl.
    rewrite filter_cons_True by (simpl in Hb; lia). rewrite filter_nil, fmap_app. csimpl.
    rewrite last_snoc. simpl in *. lia.
Qed.

Lemma holds_chain_base_ok hc db : holds_chain hc db -> base_ok (content db).
Proof.
  intros Hh. unfold base_ok. rewrite (holds_chain_tip _ _ Hh). destruct Hh as (_ & Hn & He).
  apply execution_split in He as (ks & -> & Hk). simpl. eapply Forall2_Forall_r; [exact Hk|].
  apply Forall_forall. intros e He b ->. apply extracts_above_elem in He as (c & Hc & _ & Hlt & ->).
  apply list_elem_of_lookup in Hc as [i Hi]. pose proof (numbered_from_lookup _ _ _ _ Hn Hi).
  apply lookup_lt_Some in Hi. lia.
Qed.

(** Unwinding storage leaves a prefix of the chain it held. *)
Lemma holds_chain_unwind hc db db' t :
  0 <= t -> holds_chain hc db -> content db' = filter (fun b => number b <= t) (content db) ->
  exists k, k `prefix_of` hc /\ holds_chain k db' /\ Z.of_nat (length k) = Z.min (Z.of_nat (length hc)) (t + 1).
Proof.
  intros Ht (Hne & Hn & He) Hdb. pose proof (below_take _ _ (host_deploy_height + t + 1) Hn) as Hk.
  exists (below (C:=C) (host_deploy_height + t + 1) hc). split.
  { rewrite Hk. eexists. symmetry. apply take_drop. }
  apply and_comm. split; [rewrite Hk, length_take; lia|].
  split_and!.
  - rewrite Hk. destruct hc; [done|]. by replace (Z.to_nat _) with (Datatypes.S (Z.to_nat t)) by lia.
  - rewrite Hk. rewrite <- (take_drop (Z.to_nat (host_deploy_height + t + 1 - host_deploy_height)) hc) in Hn.
    by apply numbered_from_app in Hn as [? _].
  - rewrite Hdb, extracts_above_below.
    replace (host_deploy_height + t + 1 - host_deploy_height - 1) with t by lia.
    apply execution_filter; [constructor|done|by eapply extracts_above_sorted|done].
Qed.

(** What is announced after a start extends the chain that storage held. *)
Lemma holds_chain_extend k ann db s :
  holds_chain k db -> replicates (content db) ann s -> holds_chain (k ++ tail ann) (nd_storage s).
Proof.
  intros Hk [Hna He]. pose proof (holds_chain_tip _ _ Hk) as Ht. pose proof (holds_chain_base_ok _ _ Hk) as Hb.
  unfold session_start in Hna. destruct Hk as (Hne & Hnk & Hek). split_and!.
  - by destruct k.
  - apply numbered_from_app. split; [done|]. destruct ann as [|a ann]; [done|].
    apply (numbered_from_app _ [a]) in Hna as [_ Hna]. simpl in Hna |- *.
    by replace (host_deploy_height + Z.of_nat (length k)) with
      (host_deploy_height + tip_of number (content db) + 1) by lia.
  - rewrite extracts_above_app. eapply execution_app; [exact Hek|].
    by rewrite <- (extracts_above_tail (tip_of number (content db))) by (done || by apply base_ok_tip).
Qed.

(** Two stores that hold one chain are equal, when what a block executes to
    depends on the blocks below it and its extracts only. *)
Lemma holds_chain_unique hc db db' :
  (forall d d' e w v b b' w' v', content d = content d' ->
     process_extracts d e w = (Ok b, w') -> process_extracts d' e v = (Ok b', v') -> b = b') ->
  holds_chain hc db -> holds_chain hc db' -> content db = content db'.
Proof.
  intros Hdet (_ & _ & H1) (_ & _ & H2). revert H1 H2. generalize (extracts_above 0 hc) as es.
  generalize (content db) as bs. generalize (content db') as cs. clear db db'.
  intros cs bs es H1. revert cs. induction H1 as [|es bs db e w b w' He IH Hc Hp]; intros cs Hcs.
  - inversion Hcs as [|es ? ? ? ? ? ? ? ? ? Hes]; [done|]. by destruct es.
  - inversion Hcs as [Hes|es' cs' db' e' v b' v' He' Hc' Hp' Hes]; [by destruct es|].
    apply app_inj_tail in Hes as [-> ->]. specialize (IH _ He') as ->.
    f_equal. f_equal. eapply Hdet; [|exact Hp|exact Hp']. congruence.
Qed.

(** ** The main loop replicates what its notifier announces *)
Section follower.
Context (fresh : option Z -> Z -> N -> Prop) (Rn : Z -> list B -> N -> Prop) (astray : Z -> W -> N -> Prop)
  `{!Follower N W C NE B fresh Rn astray}.

(** The loop went wrong only if the notifier did: the inputs up to some point
    were handled, and on the next one the notifier was astray. *)
Definition went_astray (origin : Z) (inputs : list (W * Z)) s : Prop :=
  exists k w now sk, inputs !! k = Some (w, now)
    /\ main_loop (NE:=NE) (SE:=SE) (PE:=PE) (take k inputs) s = (Ok false, sk)
    /\ astray origin w (nd_notifier sk).

Lemma main_loop_content base inputs hc s b s' :
  base_ok base -> replicates base hc s -> Rn (session_start base) hc (nd_notifier s) ->
  main_loop (NE:=NE) (SE:=SE) (PE:=PE) inputs s = (Ok b, s') ->
  (exists hc', replicates base hc' s' /\ delivers hc (nd_notifier s) inputs b hc' (nd_notifier s')
     /\ (b = false -> Rn (session_start base) hc' (nd_notifier s')))
  \/ went_astray (session_start base) inputs s.
Proof.
  intros Hbase. revert hc s. induction inputs as [|[w now] inputs IH]; intros hc s Hr Hn Hp.
  { injection Hp as <- <-. left. exists hc. split; [done|]. by split; [constructor|]. }
  cbn [main_loop] in Hp. apply st_bind_ok in Hp as (r & s1 & Hx & Hp).
  destruct (next_notification w (nd_notifier s)) as [n o] eqn:Hnext. injection Hx as <- <-.
  destruct o as [r|]; [|injection Hp as <- <-; left; exists hc; split; [done|]; by split; [constructor|]].
  apply st_bind_ok in Hp as (notif & s2 & Hl & Hp). injection Hl as Hl <-. apply map_err_ok in Hl as ->.
  apply st_bind_ok in Hp as ([] & s3 & Hh & Hp).
  destruct (follow_next _ _ _ _ _ _ Hn Hnext) as [[Hf Hn']|Ha];
    [|right; exists 0%nat, w, now, s; by split_and!].
  pose proof Hh as Hh'.
  apply (handle_notification_content base now hc) in Hh as [Hr' Hk]; [|done..].
  assert (Rn (session_start base) (host_apply notif hc) (nd_notifier s3)) as Hn3.
  { destruct Hk as [->|(h & r & Hk)]; [done|]. by eapply follow_finished. }
  destruct (IH _ _ Hr' Hn3 Hp) as [(hc' & ? & Hd & ?)|(k & w' & now' & sk & Hk1 & Hk2 & Hk3)]; [left; exists hc'; split; [done|]; split; [by econstructor|done]|].
  right. exists (Datatypes.S k), w', now', sk. split; [done|]. split; [|done].
  cbn [take main_loop]. apply st_bind_ok. exists (Some (Ok notif)), (set_notifier n s).
  rewrite Hnext. split; [done|]. apply st_bind_ok. exists notif, (set_notifier n s). split; [done|].
  apply st_bind_ok. by exists tt, s3.
Qed.

(** The states of a start: storage is a prefix of the chain it held, and the
    notifier resumes at the height of its last block. *)
Lemma reconcile_content hc s s' :
  holds_chain hc (nd_storage s) -> reconcile (NE:=NE) (PE:=PE) s = (Ok tt, s') ->
  exists k, k `prefix_of` hc /\ holds_chain k (nd_storage s') /\ nd_notifier s' = nd_notifier s
    /\ forall o, cold_latest_block (nd_storage s) = Ok o ->
         Z.of_nat (length k) = Z.min (Z.of_nat (length hc)) (default 0 o + 1).
Proof.
  intros Hc Hr. unfold reconcile in Hr.
  apply st_bind_ok in Hr as (h & s1 & Hl & Hr). apply last_rollup_block_tip in Hl as [-> ->].
  apply st_bind_ok in Hr as (c & s1 & Hl & Hr). injection Hl as Hl <-.
  apply fmap_ok in Hl as (o & Hl & <-). apply map_err_ok in Hl. rewrite Hl. apply content_cold in Hl.
  pose proof (holds_chain_tip _ _ Hc) as Ht. rewrite Ht in Hr.
  assert (forall k : list B, Z.of_nat (length k) = Z.min (Z.of_nat (length hc)) (default 0 o + 1) ->
    forall o', Ok (E:=SE) o = Ok o' -> Z.of_nat (length k) = Z.min (Z.of_nat (length hc)) (default 0 o' + 1)) as Hlen
    by (intros k Hk o' [= <-]; exact Hk).
  case_match eqn:Hb.
  - apply storage_ok in Hr as (db & Hu & ->). apply content_unwind in Hu. simpl.
    assert (0 < length hc)%nat by (destruct Hc as [Hne _]; destruct hc; [done|simpl; lia]).
    eapply (holds_chain_unwind hc) in Hu as (k & Hk & Hk' & Hl'); [|lia|done].
    exists k. do 3 (split; [done|]). apply Hlen. lia.
  - injection Hr as <-. exists hc. do 3 (split; [done|]). apply Hlen.
    apply orb_false_iff in Hb. rewrite !Z.ltb_ge in Hb. lia.
Qed.

Lemma start_prelude_notifier ok bf s s' :
  0 <= tip_of number (content (nd_storage s)) ->
  start_prelude (NE:=NE) (PE:=PE) ok bf s = (Ok tt, s') ->
  nd_storage s' = nd_storage s
  /\ nd_notifier s' = set_backfill_thresholds bf
       (set_head (session_start (content (nd_storage s))) (nd_notifier s)).
Proof.
  intros Ht Hp. unfold start_prelude in Hp.
  apply st_bind_ok in Hp as (u & s1 & Hu & Hp). injection Hu as _ <-.
  apply st_bind_ok in Hp as (h & s1 & Hl & Hp). apply last_rollup_block_tip in Hl as [-> ->].
  apply st_bind_ok in Hp as ([] & s1 & Hu & Hp). injection Hu as <-. injection Hp as <-.
  split; [done|]. simpl. unfold session_start. do 2 f_equal.
  destruct (Z.eqb_spec (tip_of number (content (nd_storage s))) 0) as [->|]; [lia|apply pair_ru_linear].
Qed.

Lemma start_content ok bf inputs hc s b s' :
  holds_chain hc (nd_storage s) ->
  (forall h, host_deploy_height <= h < host_deploy_height + Z.of_nat (length hc) ->
     fresh bf h (nd_notifier s)) ->
  start (NE:=NE) (SE:=SE) (PE:=PE) ok bf inputs s = (Ok b, s') ->
  exists k s0, k `prefix_of` hc /\ holds_chain k (nd_storage s0)
    /\ nd_notifier s0 = set_backfill_thresholds bf
         (set_head (host_deploy_height + Z.of_nat (length k) - 1) (nd_notifier s))
    /\ main_loop (NE:=NE) (SE:=SE) (PE:=PE) inputs s0 = (Ok b, s')
    /\ (went_astray (host_deploy_height + Z.of_nat (length k) - 1) inputs s0
        \/ exists announced, holds_chain (k ++ tail announced) (nd_storage s')
             /\ delivers [] (nd_notifier s0) inputs b announced (nd_notifier s')
             /\ numbered_from (C:=C) (host_deploy_height + Z.of_nat (length k) - 1) announced
             /\ (b = false -> Rn (host_deploy_height + Z.of_nat (length k) - 1) announced (nd_notifier s'))).
Proof.
  intros Hc Hf Hs. unfold start in Hs.
  apply st_bind_ok in Hs as ([] & s1 & Hr & Hs). apply st_bind_ok in Hs as ([] & s0 & Hp & Hs).
  apply (reconcile_content hc) in Hr as (k & Hk & Hc1 & Hn1 & _); [|done].
  pose proof (holds_chain_base_ok _ _ Hc1) as Hb.
  apply start_prelude_notifier in Hp as [Hs0 Hn0]; [|by apply base_ok_tip].
  rewrite <- Hs0 in Hb, Hc1, Hn0. pose proof (holds_chain_tip _ _ Hc1) as Ht.
  assert (session_start (content (nd_storage s0)) = host_deploy_height + Z.of_nat (length k) - 1) as Hst
    by (unfold session_start; lia).
  exists k, s0. rewrite Hst, Hn1 in Hn0. do 4 (split; [done|]).
  destruct (main_loop_content (content (nd_storage s0)) inputs [] s0 b s') as [(ann & Hr & Hd & Hn)|];
    [done|split; [done|constructor]|..|done| |by left; rewrite <- Hst].
  { rewrite Hn0, Hst. apply follow_start, Hf. pose proof (prefix_length _ _ Hk) as Hlen.
    destruct Hc1 as [Hne _]. destruct k; [done|]. simpl in *. lia. }
  right. exists ann. split; [by eapply holds_chain_extend|]. split; [done|].
  destruct Hr as [Hna _]. by rewrite Hst in *.
Qed.

(** C1: A started node leaves in storage the execution of one host chain: the
    part it had executed before and kept, then the blocks its notifier
    announced after the first, whatever was reverted in between; unless the
    notifier itself lost its anchor on the way. *)
Theorem start_replicates ok bf inputs hc s b s' :
  holds_chain hc (nd_storage s) ->
  (forall h, host_deploy_height <= h < host_deploy_height + Z.of_nat (length hc) ->
     fresh bf h (nd_notifier s)) ->
  start (NE:=NE) (SE:=SE) (PE:=PE) ok bf inputs s = (Ok b, s') ->
  exists k s0, k `prefix_of` hc /\ holds_chain k (nd_storage s0)
    /\ nd_notifier s0 = set_backfill_thresholds bf
         (set_head (host_deploy_height + Z.of_nat (length k) - 1) (nd_notifier s))
    /\ main_loop (NE:=NE) (SE:=SE) (PE:=PE) inputs s0 = (Ok b, s')
    /\ (went_astray (host_deploy_height + Z.of_nat (length k) - 1) inputs s0
        \/ exists announced, holds_chain (k ++ tail announced) (nd_storage s')
             /\ numbered_from (C:=C) (host_deploy_height + Z.of_nat (length k) - 1) announced
             /\ (b = false -> Rn (host_deploy_height + Z.of_nat (length k) - 1) announced (nd_notifier s'))).
Proof.
  intros Hc Hf Hs. destruct (start_content _ _ _ _ _ _ _ Hc Hf Hs) as (k & s0 & ? & ? & ? & ? & Hcase).
  exists k, s0. do 4 (split; [done|]). destruct Hcase as [?|(ann & ? & _ & ?)]; [by left|right; by exists ann].
Qed.
End follower.
End replica.
