(* ===== verification/Progress.v ===== *)
(** * The node keeps running

    [Replica] says what a node that is still running has stored; this file says
    that it is still running.  On storage, a processor and a notifier that do
    not fail themselves ([Dependable]), no notification that fits the announced
    chain makes [crates/node/src/node.rs] return an error: reverts cover the
    stored tip, and every block is executed on its parent. *)

From S2P Require Import Prelude HostTypes BlockTags Primitives Interest ChainNotifier BlockProcessor Node NodeProps Replica.

(** The operations succeed when they are asked for what they are there for:
    the next block is executed and appended, storage is cut at a height. *)
Class Dependable (N W C NE S SE PW PE Ext Ex L : Type)
    `{!HostNotifier N W C NE, !UnifiedStorage S SE Ex L, !Extraction C Ext, !Processing S PW PE Ext Ex}
    (content : S -> list Ex) (number : Ex -> Z) : Prop := {
  dep_last db : exists o, last_block_number db = Ok o;
  dep_cold db : exists o, cold_latest_block db = Ok o;
  dep_append b db : number b = tip_of number (content db) + 1 -> exists db', append_block b db = (Ok tt, db');
  dep_drain t db : 0 <= t -> exists d db', drain_above t db = (Ok d, db');
  dep_unwind t db : 0 <= t -> exists db', unwind_above t db = (Ok tt, db');
  dep_process db e w : ru_height e = tip_of number (content db) + 1 ->
    exists b w', process_extracts db e w = (Ok b, w');
  dep_finished h n : exists n', send_finished_height h n = (n', Ok tt) }.

Lemma tip_of_snoc {A} (number : A -> Z) l a : tip_of number (l ++ [a]) = number a.
Proof. unfold tip_of. by rewrite last_snoc. Qed.

(** A computation that ends in [Ok]. *)
Definition succeeds {S E A} (x : res E A * S) : Prop := exists a s', x = (Ok a, s').

Lemma succeeds_bind {S E A B} (m : st S E A) (f : A -> st S E B) s a s1 :
  m s = (Ok a, s1) -> succeeds (f a s1) -> succeeds ((m ≫= f) s).
Proof. intros Hm. unfold mbind, st_bind. by rewrite Hm. Qed.

Lemma succeeds_ret {S E A} (a : A) (s : S) : succeeds (E:=E) (mret (M:=st S E) a s).
Proof. by exists a, s. Qed.

Section progress.
Context {N W C NE S SE PW PE Ext Ex T R L B : Type}
  `{!HostNotifier N W C NE, !SystemConstants, !UnifiedStorage S SE Ex L, !Extraction C Ext,
    !Processing S PW PE Ext Ex, !Executed Ex T R, !HostBlocks C B, !BlockExtraction B Ext}.
Context (content : S -> list Ex) (number : Ex -> Z)
  `{!ContentStorage S SE Ex L content number, !LawfulProcessing S PW PE Ext Ex C number,
    !LawfulExtraction C B Ext, !LinearConstants,
    !Dependable N W C NE S SE PW PE Ext Ex L content number}.
Abbreviation NodeT := (SignetNode N S PW T R L).
Abbreviation rh := (ru_height (C:=C) (Ext:=Ext)).
Abbreviation num := (blk_number (C:=C)).
Abbreviation stored s := (tip_of number (content (nd_storage s))).
Abbreviation replicates := (replicates (C:=C) (B:=B) content number).
Abbreviation extracts_above := (extracts_above (C:=C) (B:=B) (Ext:=Ext)).
Abbreviation session_start := (session_start number).
Implicit Types (s : NodeT) (hc : list B).

(** ** Where storage stands *)

(** The extracts of blocks above storage are one per block, without a gap. *)
Lemma extracts_above_heights h h' (k : list B) :
  0 <= h -> h <= h' -> numbered_from (C:=C) (host_deploy_height + h' + 1) k ->
  rh <$> extracts_above h k = seqZ (h' + 1) (Z.of_nat (length k)).
Proof.
  intros Hh. revert h'. induction k as [|b k IH]; intros h' Hle Hn; [done|].
  pose proof (numbered_from_lookup _ _ 0 b Hn eq_refl) as Hb.
  apply (numbered_from_app _ [b]) in Hn as [_ Hn].
  destruct (extract_above_deploy (Ext:=Ext) b) as (e & He & Heq); [lia|].
  change (b :: k) with ([b] ++ k). rewrite extracts_above_app, fmap_app.
  rewrite (IH (h' + 1)); [|lia|by replace (host_deploy_height + (h' + 1) + 1)
    with (host_deploy_height + h' + 1 + Z.of_nat (length [b])) by (simpl; lia)].
  unfold Replica.extracts_above. csimpl. rewrite He. csimpl. rewrite filter_cons_True by lia.
  rewrite filter_nil. csimpl.
  rewrite (seqZ_cons (h' + 1)) by lia. f_equal; [lia|]. f_equal; lia.
Qed.

(** The block storage already holds gives no extract. *)
Lemma extracts_above_head h (b : B) k :
  num b = host_deploy_height + h -> extracts_above h (b :: k) = extracts_above h k.
Proof.
  intros Hb. unfold Replica.extracts_above. csimpl. destruct (extract_block b) as [e|] eqn:He; [|done].
  apply extract_block_some in He as [_ He]. by rewrite filter_cons_False by lia.
Qed.

(** The stored tip is the height of the last announced block. *)
Lemma replicates_tip base hc s :
  base_ok number base -> replicates base hc s ->
  stored s = tip_of number base + Z.max 0 (Z.of_nat (length hc) - 1).
Proof.
  intros Hb [Hn He]. pose proof (base_ok_tip _ _ Hb) as Hz.
  apply (execution_tip content number) in He as ->. destruct hc as [|b k]; [simpl; lia|].
  pose proof (numbered_from_lookup _ _ 0 b Hn eq_refl) as Hb0.
  apply (numbered_from_app _ [b]) in Hn as [_ Hn]. unfold Replica.session_start in *.
  rewrite extracts_above_head by lia.
  rewrite (extracts_above_heights _ (tip_of number base));
    [|lia|lia|by replace (host_deploy_height + tip_of number base + 1)
      with (host_deploy_height + tip_of number base + Z.of_nat (length [b])) by (simpl; lia)].
  destruct k as [|b' k]; [simpl; lia|]. rewrite (Nat2Z.inj_succ (length k) : Z.of_nat (length (b' :: k)) = _).
  rewrite <- Nat2Z.inj_succ, seqZ_S, last_snoc. simpl. lia.
Qed.

(** ** Each step succeeds *)
Lemma last_rollup_block_succeeds s : last_rollup_block (NE:=NE) (PE:=PE) s = (Ok (stored s), s).
Proof.
  destruct (dep_last (nd_storage s)) as [o Ho]. unfold last_rollup_block. rewrite Ho. simpl.
  by rewrite (content_last _ _ Ho).
Qed.

Lemma storage_succeeds {A} (m : st S SE A) s a db :
  m (nd_storage s) = (Ok a, db) ->
  storage (NE:=NE) (PE:=PE) m s
  = (Ok a, publish db (nd_chain s) s).
Proof. intros Hm. unfold storage. by rewrite Hm. Qed.

(** Extracts that begin right above storage are all executed and stored. *)
Lemma process_extracts_loop_succeeds es p s :
  rh <$> es = seqZ (stored s + 1) (Z.of_nat (length es)) ->
  succeeds (process_extracts_loop (NE:=NE) (SE:=SE) es p s).
Proof.
  revert p s. induction es as [|e es IH]; intros p s Hes; [apply succeeds_ret|].
  cbn [length] in Hes. rewrite seqZ_cons in Hes by lia. csimpl in Hes. injection Hes as He Hes.
  destruct (dep_process (nd_storage s) e (nd_process s)) as (b & w & Hp); [done|].
  pose proof (process_number _ _ _ _ _ Hp) as Hb. rewrite He in Hb.
  destruct (dep_append b (nd_storage s)) as (db & Ha); [done|].
  cbn [process_extracts_loop]. eapply succeeds_bind; [unfold process; by rewrite Hp|].
  eapply succeeds_bind; [reflexivity|]. eapply succeeds_bind; [by apply storage_succeeds|].
  apply IH. cbn [nd_storage]. rewrite (content_append _ _ _ _ Ha), tip_of_snoc, Hb, Hes. f_equal; lia.
Qed.

Lemma process_committed_chain_succeeds base hc c s :
  base_ok number base -> replicates base hc s ->
  numbered_from (C:=C) (session_start base) (hc ++ chain_blocks c) ->
  succeeds (process_committed_chain (NE:=NE) (SE:=SE) c s).
Proof.
  intros Hb Hr Hn. unfold process_committed_chain.
  eapply succeeds_bind; [apply last_rollup_block_succeeds|].
  rewrite (new_extracts_content content number base hc s c Hr Hn).
  pose proof (base_ok_tip _ _ Hb) as Hz. pose proof (replicates_tip _ _ _ Hb Hr) as Ht.
  apply process_extracts_loop_succeeds. rewrite Ht. unfold Replica.session_start in Hn.
  destruct hc as [|b hc].
  - destruct (chain_blocks c) as [|b k]; [done|]. pose proof (numbered_from_lookup _ _ 0 b Hn eq_refl) as Hb0.
    apply (numbered_from_app _ [b]) in Hn as [_ Hn].
    rewrite extracts_above_head by (simpl in Hb0; lia). rewrite <- (length_fmap rh).
    rewrite (extracts_above_heights _ (tip_of number base)), length_seqZ;
      [|lia|lia|by replace (host_deploy_height + tip_of number base + 1)
        with (host_deploy_height + tip_of number base + Z.of_nat (length [b])) by (simpl; lia)].
    f_equal; simpl; lia.
  - apply numbered_from_app in Hn as [_ Hn]. rewrite <- (length_fmap rh).
    rewrite (extracts_above_heights _ (tip_of number base + Z.of_nat (length hc))), length_seqZ; [|lia..|].
    + f_equal; cbn [length]; lia.
    + by replace (host_deploy_height + (tip_of number base + Z.of_nat (length hc)) + 1)
        with (host_deploy_height + tip_of number base + Z.of_nat (length (b :: hc))) by (cbn [length]; lia).
Qed.

(** A revert that ends at the tip of the announced chain covers storage. *)
Lemma on_host_revert_succeeds base now hc r s :
  base_ok number base -> replicates base hc s ->
  session_start base < first r <= tip r -> tip r = session_start base + Z.of_nat (length hc) - 1 ->
  succeeds (on_host_revert (NE:=NE) (PE:=PE) now r s).
Proof.
  intros Hb Hr Hf Ht. pose proof (base_ok_tip _ _ Hb) as Hz. pose proof (replicates_tip _ _ _ Hb Hr) as Hs.
  unfold on_host_revert, RevertRange_tip, RevertRange_first, Replica.session_start in *.
  destruct (Z.leb_spec (tip r) host_deploy_height); [apply succeeds_ret|].
  eapply succeeds_bind; [apply last_rollup_block_succeeds|].
  rewrite !rollup_num_linear, (proj2 (Z.leb_le _ (tip r))) by lia.
  eapply succeeds_bind; [reflexivity|]. eapply succeeds_bind.
  { unfold ensure, st_lift. by rewrite (proj2 (Z.leb_le _ _)) by lia. }
  set (target := sat_sub _ _). destruct (dep_drain target (nd_storage s)) as (d & db & Hd); [unfold target, sat_sub; lia|].
  eapply succeeds_bind; [by apply storage_succeeds|]. eapply succeeds_bind; [reflexivity|].
  by destruct d; eapply succeeds_bind; [reflexivity|apply succeeds_ret| |apply succeeds_ret].
Qed.

Lemma on_notification_succeeds base now hc notif s :
  base_ok number base -> replicates base hc s -> fits (session_start base) hc notif ->
  succeeds (on_notification (NE:=NE) (SE:=SE) (PE:=PE) now notif s).
Proof.
  intros Hb Hr [Hn Hf]. unfold on_notification. eapply succeeds_bind; [reflexivity|].
  set (s0 := mkNode _ _ _ _ _ _ _). assert (replicates base hc s0) as Hr0 by exact Hr. clearbody s0. clear Hr s.
  assert (succeeds (match revert_range notif with
                    | Some range => on_host_revert (NE:=NE) (PE:=PE) now range | None => mret false end s0))
    as (r & s1 & Hrev).
  { destruct (revert_range notif); [|apply succeeds_ret]. by eapply on_host_revert_succeeds; [..|apply Hf|apply Hf]. }
  eapply succeeds_bind; [exact Hrev|].
  assert (succeeds (match committed_chain notif with
                    | Some chain => process_committed_chain (NE:=NE) (SE:=SE) chain | None => mret false end s1))
    as (c & s2 & Hcom).
  { unfold host_apply, revert_range, committed_chain in *. destruct (kind notif) as [c|rg|rg c]; simpl in *.
    - injection Hrev as _ <-. by eapply process_committed_chain_succeeds.
    - apply succeeds_ret.
    - pose proof (proj1 (proj1 (numbered_from_app _ _ _) Hn)) as Hn0.
      eapply (on_host_revert_content content number) in Hrev as [Hr1 _]; [|done|exact Hr0|tauto|done].
      by eapply process_committed_chain_succeeds. }
  eapply succeeds_bind; [exact Hcom|].
  assert (succeeds ((if r || c then update_status_channel (NE:=NE) (PE:=PE) else mret tt) s2)) as ([] & s3 & Hu).
  { destruct (r || c); [|apply succeeds_ret]. unfold update_status_channel.
    eapply succeeds_bind; [apply last_rollup_block_succeeds|]. by eexists _, _. }
  eapply succeeds_bind; [exact Hu|]. eapply succeeds_bind; [reflexivity|]. apply succeeds_ret.
Qed.

Lemma update_block_tags_succeeds ru safe fin s :
  succeeds (update_block_tags (SE:=SE) (PE:=PE) ru safe fin s).
Proof.
  unfold update_block_tags. eapply succeeds_bind; [reflexivity|]. destruct (0 <? _); [|apply succeeds_ret].
  unfold update_highest_processed_height.
  destruct (dep_finished (sat_sub (ph_host (clamp_host_heights ru fin)) 1) (nd_notifier s)) as [n Hn].
  cbn [nd_notifier publish]. rewrite Hn. by eexists _, _.
Qed.

Lemma handle_notification_succeeds base now hc notif s :
  base_ok number base -> replicates base hc s -> fits (session_start base) hc notif ->
  succeeds (handle_notification (NE:=NE) (SE:=SE) (PE:=PE) now notif s).
Proof.
  intros Hb Hr Hf. destruct (on_notification_succeeds base now hc notif s Hb Hr Hf) as (c & s1 & Ho).
  unfold handle_notification. eapply succeeds_bind; [exact Ho|]. destruct c; [|apply succeeds_ret].
  eapply succeeds_bind; [apply last_rollup_block_succeeds|]. apply update_block_tags_succeeds.
Qed.

(** ** A notification with something new is reported and shown *)
Lemma process_extracts_loop_flag es p s p' s' :
  process_extracts_loop (NE:=NE) (SE:=SE) es p s = (Ok p', s') -> p' = p || negb (bool_decide (es = [])).
Proof.
  revert p s. induction es as [|e es IH]; intros p s Hp; [injection Hp as <- _; by rewrite orb_false_r|].
  cbn [process_extracts_loop] in Hp. apply st_bind_ok in Hp as (b & s1 & _ & Hp).
  apply st_bind_ok in Hp as ([] & s2 & _ & Hp). apply st_bind_ok in Hp as ([] & s3 & _ & Hp).
  apply IH in Hp as ->. by rewrite orb_true_r.
Qed.

Lemma process_committed_chain_flag base b hc c s p s' :
  base_ok number base -> replicates base (b :: hc) s ->
  numbered_from (C:=C) (session_start base) ((b :: hc) ++ chain_blocks c) -> chain_blocks c <> [] ->
  process_committed_chain (NE:=NE) (SE:=SE) c s = (Ok p, s') -> p = true.
Proof.
  intros Hb Hr Hn Hc Hp. unfold process_committed_chain in Hp.
  eapply st_bind_ok in Hp as (h & s1 & Hl & Hp). apply (last_rollup_block_tip content number) in Hl as [-> ->].
  rewrite (new_extracts_content content number base (b :: hc) s c Hr Hn) in Hp.
  apply process_extracts_loop_flag in Hp as ->. apply negb_true_iff, bool_decide_eq_false. intros He.
  pose proof (base_ok_tip _ _ Hb) as Hz. unfold Replica.session_start in Hn.
  apply numbered_from_app in Hn as [_ Hn]. apply (f_equal (fmap rh)) in He.
  rewrite (extracts_above_heights _ (tip_of number base + Z.of_nat (length hc))) in He; [|lia|lia|
    by replace (host_deploy_height + (tip_of number base + Z.of_nat (length hc)) + 1)
      with (host_deploy_height + tip_of number base + Z.of_nat (length (b :: hc))) by (cbn [length]; lia)].
  apply (f_equal length) in He. rewrite length_seqZ in He. destruct (chain_blocks c); [done|]. simpl in He. lia.
Qed.

Lemma on_host_revert_flag now r s p s' :
  host_deploy_height < tip r -> on_host_revert (NE:=NE) (PE:=PE) now r s = (Ok p, s') -> p = true.
Proof.
  intros Ht. unfold on_host_revert, RevertRange_tip. destruct (Z.leb_spec (tip r) host_deploy_height); [lia|].
  intros Hp. repeat (apply st_bind_ok in Hp as (? & ? & _ & Hp)). by injection Hp as <- _.
Qed.

(** A notification that reverts or commits something. *)
Definition eventful (notif : HostNotification C) : Prop :=
  is_Some (revert_range notif) \/ exists c, committed_chain notif = Some c /\ chain_blocks c <> [].

Lemma on_notification_shown base now b hc notif s c s' :
  base_ok number base -> replicates base (b :: hc) s -> fits (session_start base) (b :: hc) notif ->
  eventful notif -> on_notification (NE:=NE) (SE:=SE) (PE:=PE) now notif s = (Ok c, s') ->
  c = true /\ nd_status s' = AtHeight (stored s').
Proof.
  intros Hb Hr Hf He Hp. destruct Hf as [Hn Hf]. pose proof (base_ok_tip _ _ Hb) as Hz.
  unfold on_notification in Hp. apply st_bind_ok in Hp as ([] & s0 & Hm & Hp).
  assert (replicates base (b :: hc) s0) as Hr0 by by injection Hm as <-. clear Hm.
  apply st_bind_ok in Hp as (rev & s1 & Hrev & Hp). apply st_bind_ok in Hp as (com & s2 & Hcom & Hp).
  apply st_bind_ok in Hp as ([] & s3 & Hu & Hp). apply st_bind_ok in Hp as ([] & s4 & Hm & Hp).
  injection Hm as <-. injection Hp as <- <-.
  assert (rev || com = true) as Hc.
  { unfold host_apply, eventful, revert_range, committed_chain in *. destruct (kind notif) as [ch|r|r ch]; simpl in *.
    - injection Hrev as <- <-. destruct He as [[? ?]|(c' & [= <-] & Hne)]; [done|].
      by eapply process_committed_chain_flag in Hcom as ->.
    - unfold Replica.session_start in Hf. apply on_host_revert_flag in Hrev as ->; [done|lia].
    - unfold Replica.session_start in Hf. apply on_host_revert_flag in Hrev as ->; [done|lia]. }
  rewrite Hc in Hu |- *. split; [done|]. unfold update_status_channel in Hu.
  apply st_bind_ok in Hu as (h & s5 & Hl & Hu). apply (last_rollup_block_tip content number) in Hl as [-> ->].
  by injection Hu as <-.
Qed.

(** After it the status channel and the latest tag show the new tip. *)
Lemma handle_notification_shown base now b hc notif s :
  base_ok number base -> replicates base (b :: hc) s -> fits (session_start base) (b :: hc) notif ->
  eventful notif ->
  exists s1 s', on_notification (NE:=NE) (SE:=SE) (PE:=PE) now notif s = (Ok true, s1)
    /\ handle_notification (NE:=NE) (SE:=SE) (PE:=PE) now notif s = (Ok tt, s')
    /\ replicates base (host_apply notif (b :: hc)) s'
    /\ nd_status s' = AtHeight (stored s') /\ latest (cn_tags (nd_chain s')) = stored s'
    /\ (nd_notifier s' = nd_notifier s
        \/ exists h r, send_finished_height h (nd_notifier s) = (nd_notifier s', r)).
Proof.
  intros Hb Hr Hf He. destruct (on_notification_succeeds base now _ notif s Hb Hr Hf) as (c & s1 & Ho).
  destruct (on_notification_shown base now b hc notif s c s1 Hb Hr Hf He Ho) as [-> Hst].
  destruct (handle_notification_succeeds base now _ notif s Hb Hr Hf) as ([] & s' & Hh).
  pose proof (handle_notification_content content number _ _ _ _ _ _ _ Hb Hr Hf Hh) as [Hr' Hn].
  exists s1, s'. do 3 (split; [done|]). unfold handle_notification, mbind, st_bind in Hh.
  rewrite Ho, last_rollup_block_succeeds in Hh. apply update_block_tags_ok in Hh as ([Hs Hst'] & _ & Ht & _).
  rewrite Ht, update_all_eq, Hs, Hst', Hst. cbn [latest]. done.
Qed.

(** ** The loop

    [announces origin hc n inputs]: on these inputs the notifier [n], having
    announced [hc], gives one fitting notification after the other, whatever
    finished heights it is told in between. *)
Inductive announces (origin : Z) : list B -> N -> list (W * Z) -> Prop :=
| announces_end hc n : announces origin hc n []
| announces_next hc n w now n' notif inputs :
    next_notification w n = (n', Some (Ok notif)) -> fits origin hc notif ->
    (forall m, m = n' \/ (exists h r, send_finished_height h n' = (m, r)) ->
       announces origin (host_apply notif hc) m inputs) ->
    announces origin hc n ((w, now) :: inputs).

Lemma main_loop_runs base inputs hc s :
  base_ok number base -> replicates base hc s -> announces (session_start base) hc (nd_notifier s) inputs ->
  exists hc' s', main_loop (NE:=NE) (SE:=SE) (PE:=PE) inputs s = (Ok false, s') /\ replicates base hc' s'
    /\ delivers hc (nd_notifier s) inputs false hc' (nd_notifier s').
Proof.
  intros Hb. revert hc s. induction inputs as [|[w now] inputs IH]; intros hc s Hr Ha;
    [by exists hc, s; split_and!; [..|constructor]|].
  inversion Ha as [|? ? ? ? n' notif ? Hnext Hf Hrest]; subst.
  set (s1 := set_notifier n' s). assert (replicates base hc s1) as Hr1 by exact Hr.
  destruct (handle_notification_succeeds base now hc notif s1 Hb Hr1 Hf) as ([] & s2 & Hh).
  pose proof (handle_notification_content content number _ _ _ _ _ _ _ Hb Hr1 Hf Hh) as [Hr2 Hk].
  destruct (IH _ s2 Hr2) as (hc' & s' & Hm & Hr' & Hd).
  { apply Hrest. destruct Hk as [->|(h & r & Hk)]; [by left|right; eauto]. }
  exists hc', s'. apply and_comm. split; [split; [done|by econstructor]|]. cbn [main_loop]. unfold mbind, st_bind. rewrite Hnext. simpl.
  fold s1. rewrite Hh. exact Hm.
Qed.

Lemma reconcile_succeeds hc s :
  holds_chain (C:=C) (B:=B) content hc (nd_storage s) -> succeeds (reconcile (NE:=NE) (SE:=SE) (PE:=PE) s).
Proof.
  intros Hc. pose proof (base_ok_tip _ _ (holds_chain_base_ok content number _ _ Hc)) as Hz.
  destruct (dep_cold (nd_storage s)) as [o Ho]. unfold reconcile.
  eapply succeeds_bind; [apply last_rollup_block_succeeds|].
  eapply succeeds_bind; [by rewrite Ho|]. pose proof (content_cold _ _ Ho) as Hcold. simpl.
  destruct (_ || _); [|apply succeeds_ret].
  destruct (dep_unwind (stored s `min` default 0 o) (nd_storage s)) as [db Hu]; [lia|].
  by erewrite storage_succeeds; [eexists _, _|].
Qed.

Lemma start_prelude_succeeds bf s : succeeds (start_prelude (NE:=NE) (SE:=SE) (PE:=PE) true bf s).
Proof.
  unfold start_prelude. eapply succeeds_bind; [reflexivity|].
  eapply succeeds_bind; [apply last_rollup_block_succeeds|]. eapply succeeds_bind; [reflexivity|]. by eexists _, _.
Qed.

(** ** Property *)

(** C3: The node stays up: on a dependable storage, processor and
    notifier, and on inputs that are announced without a gap, a started node
    never returns an error and never panics.  It keeps the blocks that both
    storage layers hold, resumes the notifier there, handles every input and
    waits for the next, with storage holding the execution of what it kept and
    of exactly what the notifier announced on these inputs. *)
Theorem node_keeps_running bf inputs hc s :
  holds_chain (C:=C) (B:=B) content hc (nd_storage s) ->
  (forall h, host_deploy_height <= h < host_deploy_height + Z.of_nat (length hc) ->
     announces h [] (set_backfill_thresholds bf (set_head h (nd_notifier s))) inputs) ->
  exists k announced s', k `prefix_of` hc
    /\ (forall o, cold_latest_block (nd_storage s) = Ok o ->
         Z.of_nat (length k) = Z.min (Z.of_nat (length hc)) (default 0 o + 1))
    /\ start (NE:=NE) (SE:=SE) (PE:=PE) true bf inputs s = (Ok false, s')
    /\ delivers []
         (set_backfill_thresholds bf (set_head (host_deploy_height + Z.of_nat (length k) - 1) (nd_notifier s)))
         inputs false announced (nd_notifier s')
    /\ holds_chain (C:=C) (B:=B) content (k ++ tail announced) (nd_storage s').
Proof.
  intros Hc Ha. destruct (reconcile_succeeds hc s Hc) as ([] & s1 & Hr).
  pose proof (reconcile_content content number hc _ _ Hc Hr) as (k & Hk & Hc1 & Hn1 & Hlk).
  pose proof (holds_chain_base_ok content number _ _ Hc1) as Hb.
  destruct (start_prelude_succeeds bf s1) as ([] & s0 & Hp).
  pose proof (start_prelude_notifier content number _ _ _ _ (base_ok_tip _ _ Hb) Hp) as [Hs0 Hn0].
  pose proof (holds_chain_tip content number _ _ Hc1) as Ht.
  rewrite <- Hs0 in Hb, Hc1, Hn0, Ht.
  assert (session_start (content (nd_storage s0)) = host_deploy_height + Z.of_nat (length k) - 1) as Hst
    by (unfold Replica.session_start; lia).
  rewrite Hst, Hn1 in Hn0.
  destruct (main_loop_runs (content (nd_storage s0)) inputs [] s0) as (ann & s' & Hm & Hr' & Hd);
    [done|by split; constructor| |].
  { rewrite Hn0, Hst. apply Ha. pose proof (prefix_length _ _ Hk) as Hlen. destruct Hc1 as [Hne _].
    destruct k; [done|]. simpl in *. lia. }
  exists k, ann, s'. split; [done|]. split; [done|]. rewrite <- Hn0. split; [|split; [done|]].
  - unfold start, mbind, st_bind. by rewrite Hr, Hp.
  - by eapply holds_chain_extend.
Qed.
End progress.
