(* ===== verification/PollingNode.v ===== *)
(** * A polling client of a running node

    [EthFilterProps] follows a client through sessions of commits, reorgs and
    polls; [Replica] says what a node that handles notifications stores.  This
    file composes them: the node ([crates/node/src/node.rs]) handles the
    notifications of a host chain and shares its chain notifier and its storage
    with the filter endpoints ([crates/rpc/src/eth/endpoints.rs]), which a client
    polls in between.  What the client holds are the matching logs of the
    execution of the announced chain. *)

From S2P Require Import Prelude HostTypes BlockTags Primitives Interest ChainNotifier Metrics BlockProcessor.
From S2P Require Import Filters RpcConfig Errors Storage RpcCtx EthFilters EthFilterProps.
From S2P Require Import Node NodeProps Replica Progress.

(** ** The logs of the stored blocks *)
Section canon.
Context {Ex T R L : Type} `{!Executed Ex T R}.
Context (number : Ex -> Z) (block_logs : Ex -> list (Log L)).
Implicit Types (bs : list Ex).

(** Stored blocks are numbered from 1. *)
Definition contiguous bs : Prop := number <$> bs = seqZ 1 (Z.of_nat (length bs)).
Definition block_at bs (n : Z) : option Ex := if 1 <=? n then bs !! Z.to_nat (n - 1) else None.
Definition canon_of bs : Z -> list (Log L) := fun n => default [] (block_logs <$> block_at bs n).
(** What the reorg announcement says of a removed block. *)
Definition stored_removed (b : Ex) : RemovedBlock L :=
  mkRemovedBlock (number b) (sh_hash (ex_header b)) (h_timestamp (sh_header (ex_header b))) (block_logs b).

Lemma contiguous_lookup bs i b : contiguous bs -> bs !! i = Some b -> number b = Z.of_nat i + 1.
Proof.
  intros Hc Hi. apply (f_equal (fun l => l !! i)) in Hc. rewrite list_lookup_fmap, Hi in Hc. simpl in Hc.
  symmetry in Hc. apply lookup_seqZ in Hc. lia.
Qed.

Lemma contiguous_tip bs : contiguous bs -> tip_of number bs = Z.of_nat (length bs).
Proof.
  intros Hc. unfold tip_of. destruct bs as [|b bs _] using rev_ind; [done|]. rewrite last_snoc. simpl.
  rewrite (contiguous_lookup _ (length bs) b Hc) by by apply list_lookup_middle. rewrite length_app. simpl. lia.
Qed.

Lemma contiguous_snoc bs b : contiguous bs -> number b = Z.of_nat (length bs) + 1 -> contiguous (bs ++ [b]).
Proof.
  unfold contiguous. intros Hc Hb. rewrite fmap_app, Hc, length_app, Nat2Z.inj_add, seqZ_app by lia.
  rewrite (seqZ_cons _ (Z.of_nat (length [b]))), (seqZ_nil _ (Z.pred _)) by (simpl; lia). csimpl. do 2 f_equal. lia.
Qed.

Lemma contiguous_take bs t : 0 <= t <= Z.of_nat (length bs) -> contiguous bs ->
  filter (fun b => number b <= t) bs = take (Z.to_nat t) bs
  /\ filter (fun b => t < number b) bs = drop (Z.to_nat t) bs.
Proof.
  intros Ht Hc. rewrite <- (take_drop (Z.to_nat t) bs) at 1 3. rewrite !filter_app.
  assert (Forall (fun b => number b <= t) (take (Z.to_nat t) bs)) as H1.
  { apply Forall_lookup. intros i b Hi. apply lookup_take_Some in Hi as [Hi Hlt].
    rewrite (contiguous_lookup _ _ _ Hc Hi). lia. }
  assert (Forall (fun b => t < number b) (drop (Z.to_nat t) bs)) as H2.
  { apply Forall_lookup. intros i b Hi. rewrite lookup_drop in Hi.
    rewrite (contiguous_lookup _ _ _ Hc Hi). lia. }
  rewrite (filter_all (fun b => number b <= t) (take _ _)), (filter_all (fun b => t < number b) (drop _ _)) by done.
  rewrite (filter_none (fun b => number b <= t) (drop _ _)), (filter_none (fun b => t < number b) (take _ _)),
    app_nil_r; [done|..].
  - eapply Forall_impl; [exact H1|]. simpl. lia.
  - eapply Forall_impl; [exact H2|]. simpl. lia.
Qed.

Lemma contiguous_prefix bs t : contiguous bs -> contiguous (take t bs).
Proof.
  unfold contiguous. intros Hc. rewrite <- (take_drop t bs) in Hc.
  rewrite fmap_app, length_app, Nat2Z.inj_add, seqZ_app in Hc by lia.
  apply app_inj_1 in Hc as [Hc _]; [done|]. by rewrite length_fmap, length_seqZ, Nat2Z.id.
Qed.

(** More blocks do not change the logs below them. *)
Lemma canon_of_prefix bs ks n : n <= Z.of_nat (length bs) -> canon_of (bs ++ ks) n = canon_of bs n.
Proof.
  intros Hn. unfold canon_of, block_at. destruct (Z.leb_spec 1 n); [|done]. by rewrite lookup_app_l by lia.
Qed.

Lemma canon_of_at bs b n : n = Z.of_nat (length bs) + 1 -> canon_of (bs ++ [b]) n = block_logs b.
Proof.
  intros ->. unfold canon_of, block_at. rewrite (proj2 (Z.leb_le _ _)) by lia.
  replace (Z.to_nat _) with (length bs) by lia. by rewrite list_lookup_middle.
Qed.

(** The removed blocks are those of the chain of logs, height by height. *)
Lemma removed_by_height bs t :
  contiguous bs -> 0 <= t <= Z.of_nat (length bs) ->
  exists hash time, stored_removed <$> filter (fun b => t < number b) bs
    = (fun n => mkRemovedBlock n (hash n) (time n) (canon_of bs n)) <$> range_incl (t + 1) (Z.of_nat (length bs)).
Proof.
  intros Hc Ht. destruct (contiguous_take bs t Ht Hc) as [_ ->].
  exists (fun n => default 0 (sh_hash ∘ ex_header <$> block_at bs n)).
  exists (fun n => default 0 (h_timestamp ∘ sh_header ∘ ex_header <$> block_at bs n)).
  apply list_eq. intros i. rewrite !list_lookup_fmap, lookup_drop. unfold range_incl.
  destruct (bs !! (Z.to_nat t + i)%nat) as [b|] eqn:Hb; cbn.
  - pose proof (lookup_lt_Some _ _ _ Hb). rewrite lookup_seqZ_lt by lia. cbn.
    unfold canon_of, block_at. rewrite (proj2 (Z.leb_le _ _)) by lia.
    replace (Z.to_nat (t + 1 + Z.of_nat i - 1)) with (Z.to_nat t + i)%nat by lia. rewrite Hb. cbn.
    unfold stored_removed. rewrite (contiguous_lookup _ _ _ Hc Hb). do 2 f_equal. lia.
  - apply lookup_ge_None in Hb. by rewrite lookup_seqZ_ge by lia.
Qed.
End canon.

(** Storage keeps the logs of its blocks: a block's logs carry its number, a
    drain returns the blocks it removes, lowest first, and a log query that cold
    storage answers in full is answered from the stored blocks. *)
Class LoggedStorage (S SE CE TX Ex T R F L : Type)
    `{!UnifiedStorage S SE Ex L, !Executed Ex T R, !ColdStorage S CE TX F L, !LogFilter F L}
    (content : S -> list Ex) (number : Ex -> Z) (block_logs : Ex -> list (Log L)) : Prop := {
  block_logs_numbered b : block_logs_ok (number b) (block_logs b);
  drained_blocks t db d db' : drain_above t db = (Ok d, db') ->
    removed_block <$> d = stored_removed number block_logs <$> filter (fun b => t < number b) (content db);
  content_serves (f : F) db : serves f db (canon_of block_logs (content db)) (tip_of number (content db)) }.

Section client.
Context {N W C NE S SE PW PE Ext Ex T R L B CE TX F HE : Type}
  `{!HostNotifier N W C NE, !SystemConstants, !UnifiedStorage S SE Ex L, !Extraction C Ext,
    !Processing S PW PE Ext Ex, !Executed Ex T R, !HostBlocks C B, !BlockExtraction B Ext,
    !ColdStorage S CE TX F L, !LogFilter F L, !Display CE SE HE, !EqDecision L}.
Context (content : S -> list Ex) (number : Ex -> Z) (block_logs : Ex -> list (Log L))
  `{!ContentStorage S SE Ex L content number, !LawfulProcessing S PW PE Ext Ex C number,
    !LawfulExtraction C B Ext, !LinearConstants,
    !LoggedStorage S SE CE TX Ex T R F L content number block_logs}.
Context (config : StorageRpcConfig) (f : F) (id : Z).
Abbreviation NodeT := (SignetNode N S PW T R L).
Abbreviation Notifier := (ChainNotifier T R L).
Abbreviation rh := (ru_height (C:=C) (Ext:=Ext)).
Abbreviation blocks s := (content (nd_storage s)).
Abbreviation canon_of := (canon_of block_logs).
Abbreviation stored s := (tip_of number (blocks s)).
Implicit Types (s : NodeT) (hc : list B) (fm : FilterManager F).

(** ** The session that a node's state belongs to *)

(** A session whose storage, reorgs and filters are those given, up to logs
    above the tip. *)
Record tracks (db : S) (ch : Notifier) fm (clock : Z) (client : list (Log L)) (low : Z)
    (ss : Session (CS:=S) (T:=T) (R:=R) (F:=F) (L:=L)) : Prop := {
  tr_cold : ss_cold ss = db;
  tr_tip : ss_tip ss = Z.of_nat (length (content db));
  tr_canon n : n <= ss_tip ss -> ss_canon ss n = canon_of (content db) n;
  tr_clock : ss_clock ss <= clock;
  tr_reorgs : cn_reorgs (rpc_chain (ss_rpc ss)) = cn_reorgs ch;
  tr_filters : rpc_filters (ss_rpc ss) = fm;
  tr_client : ss_client ss = client;
  tr_low : ss_low ss = low }.

Definition tracked (db : S) (ch : Notifier) fm (clock : Z) (client : list (Log L)) (low : Z) : Prop :=
  contiguous number (content db)
  /\ exists ss, session_inv f id ss /\ tracks db ch fm clock client low ss.

Lemma logs_between_agree (canon canon' : Z -> list (Log L)) tip from to :
  (forall n, n <= tip -> canon n = canon' n) -> to <= tip ->
  logs_between f canon from to = logs_between f canon' from to.
Proof.
  intros Ha Ht. unfold logs_between. do 2 f_equal. apply list_fmap_ext. intros i n Hi.
  apply Ha. apply list_elem_of_lookup_2, elem_of_range_incl in Hi. lia.
Qed.

Lemma serves_content db (canon : Z -> list (Log L)) tip :
  tip = tip_of number (content db) -> (forall n, n <= tip -> canon n = canon_of (content db) n) ->
  serves (CE:=CE) (TX:=TX) f db canon tip.
Proof.
  intros -> Ha from to m d stream logs Ht Hs Hl.
  rewrite (logs_between_agree canon (canon_of (content db)) _ from to Ha Ht). by eapply content_serves.
Qed.

(** The session may be told another clock, other tags and other events. *)
Lemma session_inv_chain cold canon tip clock clock' (ch ch' : Notifier) fm client low :
  session_inv (CE:=CE) (TX:=TX) f id (mkSession cold canon tip clock (mkShared ch fm) client low) ->
  clock <= clock' -> cn_reorgs ch' = cn_reorgs ch -> latest (cn_tags ch') = tip ->
  session_inv (CE:=CE) (TX:=TX) f id (mkSession cold canon tip clock' (mkShared ch' fm) client low).
Proof.
  intros (seen & tip0 & last & base & H1 & H2 & H3 & H4 & H5 & H6 & _ & H8 & H9 & H10) Hc Hr Ht.
  exists seen, tip0, last, base. cbn in *. unfold buffer_ordered, reorgs_since in *. rewrite Hr.
  split; [done|]. split; [lia|]. do 6 (split; [done|]). split; [|done].
  destruct H9 as [Ho Hb]. split; [done|]. eapply Forall_impl; [exact Hb|]. simpl. lia.
Qed.

Lemma tracked_frame db (ch ch' : Notifier) fm clock clock' client low :
  tracked db ch fm clock client low -> cn_reorgs ch' = cn_reorgs ch -> clock <= clock' ->
  tracked db ch' fm clock' client low.
Proof.
  intros (Hc & ss & Hi & [H1 H2 H3 H4 H5 H6 H7 H8]) Hr Hcl. split; [done|]. exists ss. split; [done|].
  constructor; [done|done|done|lia|congruence|done|done|done].
Qed.

(** ** What the node's operations do to the session *)
Lemma tracked_append db db' (ch : Notifier) fm clock client low b u :
  tracked db ch fm clock client low -> append_block b db = (Ok u, db') ->
  number b = Z.of_nat (length (content db)) + 1 -> number b < max64 ->
  tracked db' ch fm clock client low.
Proof.
  intros (Hc & ss & Hi & [H1 H2 H3 H4 H5 H6 H7 H8]) Ha Hb Hmax. pose proof (content_append _ _ _ _ Ha) as Hdb.
  pose proof (contiguous_snoc _ _ _ Hc Hb) as Hc'. rewrite <- Hdb in Hc'. split; [done|].
  destruct ss as [cold canon tip cl [ch0 fm0] client0 low0]. cbn in *. subst.
  set (canon' := set_block (Z.of_nat (length (content db)) + 1) (block_logs b) canon).
  assert (forall n, n <= Z.of_nat (length (content db)) + 1 -> canon' n = canon_of (content db') n) as Hagree.
  { intros n Hn. unfold canon', set_block. rewrite Hdb. destruct (Z.eqb_spec n (Z.of_nat (length (content db)) + 1)) as [He|He].
    - by rewrite canon_of_at.
    - rewrite canon_of_prefix by lia. apply H3. lia. }
  eexists. split.
  - eapply (session_step_inv (CE:=CE) (SE:=SE) (HE:=HE) config); [|exact Hi].
    apply (step_commit _ _ _ _ _ _ _ _ _ _ db' (block_logs b) (new_block_notification b) 0 0).
    + lia.
    + rewrite <- Hb. apply (block_logs_numbered (SE:=SE) (CE:=CE) (TX:=TX)).
    + apply serves_content; [|exact Hagree]. rewrite (contiguous_tip _ _ Hc'), Hdb, length_app. simpl. lia.
  - constructor; cbn; try done. rewrite Hdb, length_app. simpl. lia.
Qed.

Lemma tracked_loop es p s p' s' fm clock client low :
  tracked (nd_storage s) (nd_chain s) fm clock client low ->
  process_extracts_loop (NE:=NE) (SE:=SE) es p s = (Ok p', s') ->
  rh <$> es = seqZ (stored s + 1) (Z.of_nat (length es)) -> stored s + Z.of_nat (length es) < max64 ->
  tracked (nd_storage s') (nd_chain s') fm clock client low /\ cn_tags (nd_chain s') = cn_tags (nd_chain s).
Proof.
  revert p s. induction es as [|e es IH]; intros p s Ht Hp Hes Hmax; [by injection Hp as _ <-|].
  cbn [length] in Hes, Hmax. rewrite seqZ_cons in Hes by lia. csimpl in Hes. injection Hes as He Hes.
  cbn [process_extracts_loop] in Hp. apply st_bind_ok in Hp as (b & s1 & Hb & Hp). unfold process in Hb.
  destruct (process_extracts (nd_storage s) e (nd_process s)) as [r w] eqn:Hx.
  injection Hb as Hr <-. apply map_err_ok in Hr as ->. apply process_number in Hx.
  apply st_bind_ok in Hp as ([] & s2 & Hn & Hp). injection Hn as <-.
  apply st_bind_ok in Hp as ([] & s3 & Ha & Hp). apply storage_ok in Ha as (db & Ha & ->).
  cbn [nd_storage] in Ha. pose proof (contiguous_tip _ _ (proj1 Ht)) as Htip.
  apply IH in Hp; [exact Hp|..]; cbn [nd_storage nd_chain].
  - eapply tracked_append; [eapply tracked_frame; [exact Ht|reflexivity|apply Z.le_refl]|exact Ha|lia|lia].
  - rewrite (content_append _ _ _ _ Ha), tip_of_snoc, Hx, He, Hes. f_equal; lia.
  - rewrite (content_append _ _ _ _ Ha), tip_of_snoc. lia.
Qed.

(** There is room in the ring buffer for another reorg before the next poll. *)
Definition room fm (ch : Notifier) : Prop :=
  forall entry, fm_filters fm !! id = Some entry ->
    (length (reorgs_since (af_last_poll_time entry) ch) < MAX_REORG_ENTRIES)%nat.

Lemma tracked_reorg db db' (ch ch' : Notifier) fm clock client low a now drained :
  tracked db ch fm clock client low -> room fm ch -> clock < now ->
  0 <= a < Z.of_nat (length (content db)) -> drain_above a db = (Ok drained, db') ->
  cn_reorgs ch' = push_reorg now (reorg_notification drained a) (cn_reorgs ch) ->
  tracked db' ch' fm now client (Z.min low (a + 1)).
Proof.
  intros (Hc & ss & Hi & [H1 H2 H3 H4 H5 H6 H7 H8]) Hroom Hnow Ha Hd Hch.
  destruct (contiguous_take number (content db) a ltac:(lia) Hc) as [Hf _].
  pose proof (content_drain _ _ _ _ Hd) as Hdb. rewrite Hf in Hdb.
  assert (contiguous number (content db')) as Hc' by (rewrite Hdb; by apply contiguous_prefix).
  assert (Z.of_nat (length (content db')) = a) as Hlen by (rewrite Hdb, length_take; lia).
  split; [done|]. destruct ss as [cold canon tip cl [ch0 fm0] client0 low0]. cbn in *.
  subst cold tip fm0 client0 low0.
  destruct (removed_by_height number block_logs (content db) a Hc ltac:(lia)) as (hash & time & Hrem).
  rewrite <- (drained_blocks _ _ _ _ Hd) in Hrem.
  assert (reorg_notification drained a = reorg_to a (Z.of_nat (length (content db))) canon hash time) as Hreorg.
  { unfold reorg_notification, reorg_to. rewrite Hrem. f_equal. apply list_fmap_ext. intros i n Hin.
    apply list_elem_of_lookup_2, elem_of_range_incl in Hin. by rewrite H3 by lia. }
  assert (forall n, n <= a -> canon n = canon_of (content db') n) as Hagree.
  { intros n Hn. rewrite (H3 n) by lia. rewrite <- (take_drop (Z.to_nat a) (content db)) at 1.
    rewrite Hdb. apply canon_of_prefix. rewrite length_take. lia. }
  pose proof Hi as (seen & tip0 & last & base & He & _). cbn in He.
  eexists. split.
  - eapply (session_step_inv (CE:=CE) (SE:=SE) (HE:=HE) config); [|exact Hi].
    apply (step_reorg _ _ _ _ _ _ _ _ _ _ db' a now hash time (mkActiveFilter (tip0 + 1) last (KLog f)) Ha); [lia| |exact He|].
    + apply serves_content; [|exact Hagree]. rewrite (contiguous_tip _ _ Hc'). lia.
    + unfold reorgs_since. cbn [rpc_chain]. rewrite H5. by apply Hroom.
  - constructor; cbn; try done; try lia. by rewrite Hch, Hreorg, H5.
Qed.

(** ** One notification *)
Abbreviation replicates := (replicates (C:=C) (B:=B) content number).
Abbreviation holds_chain := (holds_chain (C:=C) (B:=B) content).

Lemma holds_replicates hc s : holds_chain hc (nd_storage s) <-> hc <> [] /\ replicates [] hc s.
Proof. unfold Replica.replicates, Replica.holds_chain, Replica.session_start. cbn. by rewrite Z.add_0_r. Qed.

(** The lowest height the client follows after a notification. *)
Definition low_after (notif : HostNotification C) (low : Z) : Z :=
  match revert_range notif with Some r => Z.min low (first r - host_deploy_height) | None => low end.

Lemma commit_tracked hc c s p s' fm clock client low :
  holds_chain hc (nd_storage s) -> numbered_from (C:=C) host_deploy_height (hc ++ chain_blocks c) ->
  Z.of_nat (length (hc ++ chain_blocks c)) < max64 ->
  tracked (nd_storage s) (nd_chain s) fm clock client low ->
  process_committed_chain (NE:=NE) (SE:=SE) c s = (Ok p, s') ->
  tracked (nd_storage s') (nd_chain s') fm clock client low /\ cn_tags (nd_chain s') = cn_tags (nd_chain s)
  /\ (p = false -> nd_storage s' = nd_storage s).
Proof.
  intros Hh Hn Hmax Ht Hp. pose proof (holds_chain_tip content number _ _ Hh) as Htip.
  pose proof Hh as [Hne Hr]%holds_replicates. rewrite length_app in Hmax.
  unfold process_committed_chain in Hp. apply st_bind_ok in Hp as (h & s1 & Hl & Hp).
  apply (last_rollup_block_tip content number) in Hl as [-> ->].
  rewrite (new_extracts_content content number [] hc s c Hr) in Hp
    by (unfold Replica.session_start; cbn; by rewrite Z.add_0_r).
  apply numbered_from_app in Hn as [_ Hn].
  assert (rh <$> extracts_above (tip_of number []) (chain_blocks c)
    = seqZ (stored s + 1) (Z.of_nat (length (chain_blocks c)))) as Hes.
  { rewrite Htip. destruct hc as [|b0 hc]; [done|]. apply extracts_above_heights; [done|change (tip_of number (@nil Ex)) with 0; cbn [length]; lia|].
    by replace (host_deploy_height + (Z.of_nat (length (b0 :: hc)) - 1) + 1)
      with (host_deploy_height + Z.of_nat (length (b0 :: hc))) by lia. }
  assert (length (extracts_above (tip_of number []) (chain_blocks c)) = length (chain_blocks c)) as Hlen.
  { rewrite <- (length_fmap rh), Hes, length_seqZ. lia. }
  pose proof (process_extracts_loop_flag _ _ _ _ _ Hp) as Hflag. split_and!.
  - by eapply tracked_loop; [exact Ht|exact Hp|rewrite Hlen|rewrite Hlen; lia].
  - by eapply tracked_loop; [exact Ht|exact Hp|rewrite Hlen|rewrite Hlen; lia].
  - intros ->. symmetry in Hflag. apply negb_false_iff, bool_decide_eq_true in Hflag.
    rewrite Hflag in Hp. by injection Hp as <-.
Qed.

Lemma revert_tracked hc r now s p s' fm clock client low :
  holds_chain hc (nd_storage s) -> host_deploy_height < first r <= tip r ->
  tip r = host_deploy_height + Z.of_nat (length hc) - 1 ->
  tracked (nd_storage s) (nd_chain s) fm clock client low -> room fm (nd_chain s) -> clock < now ->
  on_host_revert (NE:=NE) (PE:=PE) now r s = (Ok p, s') ->
  tracked (nd_storage s') (nd_chain s') fm now client (Z.min low (first r - host_deploy_height)).
Proof.
  intros Hh Hf Htip Ht Hroom Hnow Hp. pose proof (holds_chain_tip content number _ _ Hh) as Hst.
  pose proof (contiguous_tip _ _ (proj1 Ht)) as Hlen. rewrite Hst in Hlen.
  unfold on_host_revert, RevertRange_tip, RevertRange_first in Hp.
  destruct (Z.leb_spec (tip r) host_deploy_height); [lia|].
  apply st_bind_ok in Hp as (h & s1 & Hl & Hp). apply (last_rollup_block_tip content number) in Hl as [-> _].
  apply st_bind_ok in Hp as (n & s2 & Hu & Hp). injection Hu as _ <-.
  apply st_bind_ok in Hp as (u & s2 & Hu & Hp). injection Hu as _ <-.
  apply st_bind_ok in Hp as (drained & s3 & Hd & Hp). apply storage_ok in Hd as (db & Hd & ->).
  apply st_bind_ok in Hp as ([] & s4 & Hc & Hp). injection Hc as <-.
  apply st_bind_ok in Hp as ([] & s5 & Hno & Hp). injection Hp as _ <-.
  rewrite rollup_num_linear, (proj2 (Z.leb_le _ _)) in Hd, Hno by lia. simpl in Hd, Hno.
  assert (sat_sub (first r - host_deploy_height) 1 = first r - host_deploy_height - 1) as Ha by (unfold sat_sub; lia).
  rewrite Ha in Hd, Hno. replace (first r - host_deploy_height) with (first r - host_deploy_height - 1 + 1) at 1 by lia.
  assert (drained <> []) as Hdr.
  { intros ->. pose proof (drained_blocks (CE:=CE) (TX:=TX) _ _ _ _ Hd) as Hrem. symmetry in Hrem.
    apply fmap_nil_inv in Hrem.
    assert (0 <= first r - host_deploy_height - 1 <= Z.of_nat (length (blocks s))) as Hb by lia.
    destruct (contiguous_take number (blocks s) (first r - host_deploy_height - 1) Hb (proj1 Ht)) as [_ Hdrop].
    rewrite Hdrop in Hrem. apply (f_equal length) in Hrem. rewrite length_drop in Hrem. simpl in Hrem. lia. }
  assert (nd_storage s5 = db /\ cn_reorgs (nd_chain s5) = push_reorg now
    (reorg_notification drained (first r - host_deploy_height - 1)) (cn_reorgs (nd_chain s))) as [-> Hch]
    by (destruct drained; [done|]; by injection Hno as <-).
  eapply tracked_reorg; [exact Ht|exact Hroom|exact Hnow|lia|exact Hd|exact Hch].
Qed.

Lemma on_notification_tracked hc notif now s changed s' fm clock client low :
  holds_chain hc (nd_storage s) -> fits host_deploy_height hc notif ->
  Z.of_nat (length (host_apply notif hc)) < max64 -> clock < now ->
  (revert_range notif <> None -> room fm (nd_chain s)) ->
  tracked (nd_storage s) (nd_chain s) fm clock client low ->
  on_notification (NE:=NE) (SE:=SE) (PE:=PE) now notif s = (Ok changed, s') ->
  tracked (nd_storage s') (nd_chain s') fm now client (low_after notif low)
  /\ (changed = false -> nd_storage s' = nd_storage s /\ cn_tags (nd_chain s') = cn_tags (nd_chain s)).
Proof.
  intros Hh Hfit Hmax Hnow Hroom Ht Hp.
  unfold on_notification in Hp. apply st_bind_ok in Hp as ([] & s0 & Hm & Hp).
  assert (nd_storage s0 = nd_storage s /\ nd_chain s0 = nd_chain s) as [Es Ec] by by injection Hm as <-.
  clear Hm. revert Hh Hroom Ht. rewrite <- Es, <- Ec. clear Es Ec s. intros Hh Hroom Ht.
  pose proof Hh as [Hne Hr]%holds_replicates.
  apply st_bind_ok in Hp as (rev & s1 & Hrev & Hp). apply st_bind_ok in Hp as (com & s2 & Hcom & Hp).
  assert (nd_storage s' = nd_storage s2 /\ nd_chain s' = nd_chain s2 /\ changed = rev || com) as (-> & -> & ->).
  { apply st_bind_ok in Hp as ([] & s3 & Hu & Hp).
    apply st_bind_ok in Hp as ([] & s5 & Hm & Hp). injection Hm as <-. injection Hp as <- <-.
    destruct (rev || com); [|by injection Hu as <-]. unfold update_status_channel in Hu.
    apply st_bind_ok in Hu as (h & s4 & Hl & Hu). apply (last_rollup_block_tip content number) in Hl as [-> _].
    by injection Hu as <-. }
  clear Hp. unfold fits, host_apply, low_after, revert_range, committed_chain in *.
  destruct (kind notif) as [c|r|r c]; simpl in *.
  - injection Hrev as <- <-. destruct (commit_tracked _ _ _ _ _ _ _ _ _ Hh (proj1 Hfit) Hmax Ht Hcom) as (H1 & H2 & H3).
    split; [|intros Hfalse; simpl in Hfalse; by auto]. eapply tracked_frame; [exact H1|done|lia].
  - injection Hcom as <- <-. destruct Hfit as (_ & Hf & Htip). pose proof Hrev as Hflag.
    apply on_host_revert_flag in Hflag as ->; [|lia]. split; [|done].
    eapply revert_tracked; [exact Hh|exact Hf|exact Htip|exact Ht|by apply Hroom|exact Hnow|exact Hrev].
  - destruct Hfit as (Hn & Hf & Htip). pose proof Hrev as Hflag.
    apply on_host_revert_flag in Hflag as ->; [|lia]. split; [|done].
    assert (tracked (nd_storage s1) (nd_chain s1) fm now client (Z.min low (first r - host_deploy_height))) as Ht1
      by (eapply revert_tracked; [exact Hh|exact Hf|exact Htip|exact Ht|by apply Hroom|exact Hnow|exact Hrev]).
    assert (holds_chain (below (C:=C) (first r) hc) (nd_storage s1)) as Hh1.
    { apply holds_replicates. split.
      - pose proof Hh as (_ & Hnh & _). rewrite (below_take _ _ _ Hnh). destruct hc; [done|].
        by replace (Z.to_nat (first r - host_deploy_height))
          with (Datatypes.S (Z.to_nat (first r - host_deploy_height - 1))) by lia.
      - eapply (on_host_revert_content content number) in Hrev as [Hr1 _]; [exact Hr1|constructor|exact Hr|..];
          unfold Replica.session_start; cbn; rewrite Z.add_0_r; [done|].
        by apply numbered_from_app in Hn as [? _]. }
    by eapply commit_tracked; [exact Hh1|exact Hn|exact Hmax|exact Ht1|exact Hcom].
Qed.

Lemma handle_notification_tracked hc notif now s s' fm clock client low :
  holds_chain hc (nd_storage s) -> fits host_deploy_height hc notif ->
  Z.of_nat (length (host_apply notif hc)) < max64 -> clock < now ->
  (revert_range notif <> None -> room fm (nd_chain s)) ->
  tracked (nd_storage s) (nd_chain s) fm clock client low -> latest (cn_tags (nd_chain s)) = stored s ->
  handle_notification (NE:=NE) (SE:=SE) (PE:=PE) now notif s = (Ok tt, s') ->
  tracked (nd_storage s') (nd_chain s') fm now client (low_after notif low)
  /\ latest (cn_tags (nd_chain s')) = stored s'.
Proof.
  intros Hh Hfit Hmax Hnow Hroom Ht Hl Hp. unfold handle_notification in Hp.
  apply st_bind_ok in Hp as (changed & s1 & Ho & Hp).
  destruct (on_notification_tracked _ _ _ _ _ _ _ _ _ _ Hh Hfit Hmax Hnow Hroom Ht Ho) as [Ht1 Hsame].
  destruct changed; cycle 1.
  { injection Hp as <-. split; [exact Ht1|]. destruct (Hsame eq_refl) as [-> ->]. exact Hl. }
  apply st_bind_ok in Hp as (ru & s2 & Hru & Hp). apply (last_rollup_block_tip content number) in Hru as [-> ->].
  unfold update_block_tags in Hp. apply st_bind_ok in Hp as ([] & s3 & Hc & Hp). injection Hc as <-.
  set (fin := ph_rollup (clamp_host_heights (stored s1) (finalized_block_number notif))) in *.
  set (saf := ph_rollup (clamp_host_heights (stored s1) (safe_block_number notif))) in *.
  set (tags := update_all (stored s1) saf fin (cn_tags (nd_chain s1))) in *.
  assert (nd_storage s' = nd_storage s1 /\ nd_chain s' = with_tags (fun _ => tags) (nd_chain s1)) as [-> ->].
  { destruct (0 <? _); [|by injection Hp as <-]. unfold update_highest_processed_height in Hp.
    destruct (send_finished_height _ _) as [n r]. by injection Hp as _ <-. }
  split; [eapply tracked_frame; [exact Ht1|reflexivity|apply Z.le_refl]|].
  change (latest tags = stored s1). unfold tags. by rewrite update_all_eq.
Qed.

Lemma handle_notification_holds hc notif now s s' :
  holds_chain hc (nd_storage s) -> fits host_deploy_height hc notif ->
  handle_notification (NE:=NE) (SE:=SE) (PE:=PE) now notif s = (Ok tt, s') ->
  holds_chain (host_apply notif hc) (nd_storage s').
Proof.
  intros Hh Hfit Hp. pose proof Hh as [Hne Hr]%holds_replicates. apply holds_replicates. split.
  - pose proof Hh as (_ & Hn & _). destruct Hfit as [_ Hf]. unfold host_apply, revert_range in *.
    destruct (kind notif) as [c|r|r c]; simpl in *; [by destruct hc| |]; rewrite (below_take _ _ _ Hn);
      (destruct hc; [done|]); by replace (Z.to_nat (first r - host_deploy_height))
        with (Datatypes.S (Z.to_nat (first r - host_deploy_height - 1))) by lia.
  - eapply (handle_notification_content content number) in Hp as [Hr' _]; [exact Hr'|constructor|exact Hr|].
    unfold Replica.session_start. cbn. by rewrite Z.add_0_r.
Qed.

(** ** The node, its client, and other clients *)
Record World := mkWorld {
  wd_node : NodeT; wd_chain : list B; wd_filters : FilterManager F; wd_clock : Z;
  wd_client : list (Log L); wd_low : Z }.  (* the lowest height the client follows *)

(** What the filter endpoints share with the node. *)
Definition rpc_shared s fm : RpcShared T R F L := mkShared (nd_chain s) fm.
Definition poll_node now s fm : res (EthError CE SE HE) (FilterOutput (L:=L)) * RpcShared T R F L :=
  get_filter_changes (fun x => x) (fun x => x) (nd_storage s) config now id (rpc_shared s fm).

(** The client has just installed its filter; the latest tag is the stored tip. *)
Definition world_start (w : World) : Prop :=
  let s := wd_node w in
  holds_chain (wd_chain w) (nd_storage s) /\ stored s < max64
  /\ latest (cn_tags (nd_chain s)) = stored s /\ buffer_ordered (wd_clock w) (nd_chain s)
  /\ (exists fm, new_filter (CE:=CE) (SE:=SE) (HE:=HE) (wd_clock w) f (rpc_shared s fm)
         = (Ok id, rpc_shared s (wd_filters w)))
  /\ wd_client w = [] /\ wd_low w = stored s + 1.

(** The node handles a notification of its host chain; the client polls; other
    clients install, poll and drop filters of their own. *)
Inductive world_step : World -> World -> Prop :=
| world_notification s s' hc fm clock client low now notif :
    clock < now -> fits host_deploy_height hc notif -> Z.of_nat (length (host_apply notif hc)) < max64 ->
    (revert_range notif <> None -> room fm (nd_chain s)) ->
    handle_notification (NE:=NE) (SE:=SE) (PE:=PE) now notif s = (Ok tt, s') ->
    world_step (mkWorld s hc fm clock client low)
      (mkWorld s' (host_apply notif hc) fm now client (low_after notif low))
| world_poll s hc fm clock client low now out rpc' :
    clock < now -> poll_node now s fm = (Ok out, rpc') ->
    world_step (mkWorld s hc fm clock client low)
      (mkWorld s hc (rpc_filters rpc') now (apply_output out client) low)
| world_others s hc fm fm' clock client low :
    fm_filters fm' !! id = fm_filters fm !! id ->
    world_step (mkWorld s hc fm clock client low) (mkWorld s hc fm' clock client low).

Definition world_inv (w : World) : Prop :=
  let s := wd_node w in
  holds_chain (wd_chain w) (nd_storage s)
  /\ tracked (nd_storage s) (nd_chain s) (wd_filters w) (wd_clock w) (wd_client w) (wd_low w)
  /\ latest (cn_tags (nd_chain s)) = stored s.

(** At rest the node's own state is a session. *)
Lemma world_session w :
  world_inv w ->
  exists canon, session_inv (CE:=CE) (TX:=TX) f id (mkSession (nd_storage (wd_node w)) canon (stored (wd_node w))
      (wd_clock w) (rpc_shared (wd_node w) (wd_filters w)) (wd_client w) (wd_low w))
    /\ forall n, n <= stored (wd_node w) -> canon n = canon_of (blocks (wd_node w)) n.
Proof.
  intros (_ & (Hc & ss & Hi & [H1 H2 H3 H4 H5 H6 H7 H8]) & Hl).
  destruct ss as [cold canon tip cl [ch fm] client low]. cbn in *. pose proof (contiguous_tip _ _ Hc) as Htip.
  exists canon. split; [|intros n Hn; apply H3; lia].
  rewrite <- H1, <- H6, <- H7, <- H8. unfold rpc_shared.
  replace (tip_of number (content cold)) with tip by (rewrite H1; lia).
  eapply session_inv_chain; [exact Hi|exact H4|by rewrite H5|lia].
Qed.

(** And a session over the node's own state is tracked. *)
Lemma session_tracked s fm clock client low canon :
  contiguous number (blocks s) ->
  session_inv (CE:=CE) (TX:=TX) f id
    (mkSession (nd_storage s) canon (stored s) clock (rpc_shared s fm) client low) ->
  (forall n, n <= stored s -> canon n = canon_of (blocks s) n) ->
  tracked (nd_storage s) (nd_chain s) fm clock client low.
Proof.
  intros Hc Hi Ha. split; [exact Hc|]. eexists. split; [exact Hi|]. constructor; cbn; try done.
  by apply contiguous_tip.
Qed.

Lemma holds_contiguous hc db : holds_chain hc db -> contiguous number (content db).
Proof.
  intros (Hne & Hn & He). apply (execution_split content number) in He as (ks & -> & Hk). cbn in *.
  destruct hc as [|b0 hc]; [done|]. pose proof (numbered_from_lookup _ _ 0 b0 Hn eq_refl) as Hb0.
  apply (numbered_from_app _ [b0]) in Hn as [_ Hn]. rewrite extracts_above_head in Hk by (simpl in Hb0; lia).
  assert (number <$> ks = rh <$> extracts_above 0 hc) as Hks.
  { clear -Hk. induction Hk as [|e b es ks Hb _ IH]; [done|]. csimpl. by rewrite IH, Hb. }
  rewrite (extracts_above_heights 0 0) in Hks; [|done|done|by rewrite Z.add_0_r].
  unfold contiguous. rewrite Hks. f_equal. apply (f_equal length) in Hks.
  rewrite length_fmap, length_seqZ in Hks. lia.
Qed.

Lemma world_start_inv w : world_start w -> world_inv w.
Proof.
  intros (Hh & Hmax & Hl & Hb & (fm & Hn) & Hcl & Hlow). split; [exact Hh|]. split; [|exact Hl].
  pose proof (holds_contiguous _ _ Hh) as Hc.
  apply (session_tracked _ _ _ _ _ (canon_of (blocks (wd_node w)))); [exact Hc| |done].
  apply (session_start_inv (SE:=SE) (HE:=HE)). exists (rpc_shared (wd_node w) fm). cbn.
  split; [exact Hn|]. split; [exact Hl|]. split; [exact Hb|]. split.
  { rewrite (contiguous_tip _ _ Hc) in *. lia. }
  split.
  { intros n. unfold PollingNode.canon_of, block_at. destruct (Z.leb_spec 1 n); [|constructor].
    destruct (blocks (wd_node w) !! Z.to_nat (n - 1)) as [b|] eqn:Hbl; [|constructor]. cbn.
    replace n with (number b) by (rewrite (contiguous_lookup _ _ _ _ Hc Hbl); lia).
    apply (block_logs_numbered (SE:=SE) (CE:=CE) (TX:=TX)). }
  split; [by apply serves_content|by split].
Qed.

Lemma world_step_inv w w' : world_step w w' -> world_inv w -> world_inv w'.
Proof.
  intros Hstep Hinv. pose proof (world_session _ Hinv) as (canon & Hs & Ha).
  destruct Hstep as [s s' hc fm clock client low now notif Hnow Hfit Hmax Hroom Hp
    |s hc fm clock client low now out rpc' Hnow Hp|s hc fm fm' clock client low Hfm]; cbn in *.
  - destruct Hinv as (Hh & Ht & Hl). cbn in *. split; [by eapply handle_notification_holds|].
    by eapply handle_notification_tracked.
  - destruct Hinv as (Hh & Ht & Hl). cbn in *. split; [exact Hh|]. split; [|exact Hl].
    pose proof (poll_catches_up (CE:=CE) (SE:=SE) (HE:=HE) config _ _ _ _ _ _ _ _ _ _ _ _ Hs Hnow Hp) as (_ & Hch & _).
    apply (session_tracked _ _ _ _ _ canon (proj1 Ht)); [|exact Ha].
    cbn [wd_node wd_chain wd_filters wd_clock wd_client wd_low].
    replace (rpc_shared s (rpc_filters rpc')) with rpc'
      by (destruct rpc' as [ch' fm']; cbn in *; by rewrite Hch).
    eapply (session_step_inv (SE:=SE) (HE:=HE) config); [|exact Hs]. eapply step_poll; [exact Hnow|exact Hp].
  - destruct Hinv as (Hh & Ht & Hl). cbn in *. split; [exact Hh|]. split; [|exact Hl].
    apply (session_tracked _ _ _ _ _ canon (proj1 Ht)); [|exact Ha].
    eapply (session_step_inv (SE:=SE) (HE:=HE) config); [|exact Hs].
    by apply (step_others _ _ _ _ _ _ _ (rpc_shared s fm)).
Qed.

(** A poll at rest leaves the client with the logs of the stored blocks. *)
Lemma world_poll_exact w now out rpc' :
  world_inv w -> wd_clock w < now -> poll_node now (wd_node w) (wd_filters w) = (Ok out, rpc') ->
  holds_chain (wd_chain w) (nd_storage (wd_node w))
  /\ apply_output out (wd_client w)
     = logs_between f (canon_of (blocks (wd_node w))) (wd_low w) (stored (wd_node w)).
Proof.
  intros Hinv Hnow Hp. split; [apply Hinv|]. destruct (world_session _ Hinv) as (canon & Hs & Ha).
  pose proof (poll_catches_up (CE:=CE) (SE:=SE) (HE:=HE) config _ _ _ _ _ _ _ _ _ _ _ _ Hs Hnow Hp) as (_ & _ & -> & _).
  by eapply logs_between_agree.
Qed.

(** ** Property *)

(** C6: What a polling client of a running node holds.  A client installs a log
    filter on a node at rest; the node then handles any notifications of its
    host chain, commits, reverts and reorgs (at most 25 reverts between two
    polls of the client), among polls of this client and of others.  After a
    further successful poll the client holds exactly the logs, matching its
    filter, of the blocks the announced host chain executes to, in order, from
    where it began (or the lowest block a revert took back) to the stored tip. *)
Theorem node_polling_client w0 w now out rpc' :
  world_start w0 -> rtc world_step w0 w -> wd_clock w < now ->
  poll_node now (wd_node w) (wd_filters w) = (Ok out, rpc') ->
  holds_chain (wd_chain w) (nd_storage (wd_node w))
  /\ apply_output out (wd_client w)
     = logs_between f (canon_of (blocks (wd_node w))) (wd_low w) (stored (wd_node w)).
Proof.
  intros Hstart Hrun. apply world_poll_exact. apply world_start_inv in Hstart.
  induction Hrun; [done|]. by eauto using world_step_inv.
Qed.
End client.
