(* ===== verification/PollingRun.v ===== *)
(** * A polling client of a started node

    [PollingNode] follows a client of a node that is handed notifications which
    fit its host chain.  This file gives the node its notifier back: the node is
    started ([SignetNode::start] of [crates/node/src/node.rs]), and then runs
    iterations of its main loop, over any notifier that keeps the contract
    [Follower] of [Replica], as those of [crates/host-rpc] and
    [crates/host-reth] do, while clients poll. *)

From S2P Require Import Prelude HostTypes BlockTags Primitives Interest ChainNotifier Metrics BlockProcessor.
From S2P Require Import Filters RpcConfig Errors Storage RpcCtx EthFilters EthFilterProps.
From S2P Require Import Node NodeProps Replica Progress PollingNode.

(** ** The chain a session extends

    A session begins at the last block of the chain [k] that storage held, and
    announces that block again. *)
Section extend.
Context {C B : Type} `{!HostBlocks C B}.
Implicit Types (k ann hc : list B).

Lemma below_app n hc hc' : below (C:=C) n (hc ++ hc') = below (C:=C) n hc ++ below (C:=C) n hc'.
Proof. apply filter_app. Qed.

Lemma below_all start n hc :
  numbered_from (C:=C) start hc -> start + Z.of_nat (length hc) <= n -> below (C:=C) n hc = hc.
Proof. intros Hn Hle. rewrite (below_take _ _ _ Hn). apply take_ge. lia. Qed.

Lemma below_tail start n ann :
  numbered_from (C:=C) start ann -> start < n -> below (C:=C) n (tail ann) = tail (below (C:=C) n ann).
Proof.
  intros Hn Hlt. destruct ann as [|b ann]; [done|]. pose proof (numbered_from_lookup _ _ 0 b Hn eq_refl) as Hb.
  unfold below. cbn [tail]. rewrite (filter_cons_True _ b) by lia. done.
Qed.

Lemma tail_app_ne (ann : list B) hc : ann <> [] -> tail (ann ++ hc) = tail ann ++ hc.
Proof. by destruct ann. Qed.

Lemma length_extend k ann : ann <> [] -> Z.of_nat (length (k ++ tail ann)) = Z.of_nat (length k) + Z.of_nat (length ann) - 1.
Proof. intros Hne. rewrite length_app. destruct ann; [done|]. simpl. lia. Qed.

(** What fits the announced blocks fits the whole chain, and extends it. *)
Lemma fits_extend origin k ann notif :
  numbered_from (C:=C) origin (k ++ tail ann) -> k <> [] -> ann <> [] ->
  numbered_from (C:=C) (origin + Z.of_nat (length k) - 1) ann ->
  fits (origin + Z.of_nat (length k) - 1) ann notif ->
  fits origin (k ++ tail ann) notif
  /\ host_apply notif (k ++ tail ann) = k ++ tail (host_apply notif ann) /\ host_apply notif ann <> [].
Proof.
  intros Hn Hk Hann Hna [Hf Hr]. pose proof (length_extend k _ Hann) as Hlen.
  assert (0 < length k)%nat as Hlk by (destruct k; [done|simpl; lia]).
  assert (forall r, origin + Z.of_nat (length k) - 1 < first r ->
    below (C:=C) (first r) (k ++ tail ann) = k ++ tail (below (C:=C) (first r) ann)
    /\ below (C:=C) (first r) ann <> []) as Hbelow.
  { intros r Hr'. apply numbered_from_app in Hn as [Hnk _]. split.
    - rewrite below_app, (below_all origin (first r) k Hnk) by lia. f_equal. by eapply below_tail.
    - rewrite (below_take _ _ _ Hna). destruct ann; [done|].
      by replace (Z.to_nat (first r - (origin + Z.of_nat (length k) - 1)))
        with (Datatypes.S (Z.to_nat (first r - (origin + Z.of_nat (length k))))) by lia. }
  assert (forall hc', hc' <> [] -> numbered_from (C:=C) (origin + Z.of_nat (length k) - 1) hc' ->
    numbered_from (C:=C) origin (k ++ tail hc')) as Hnum.
  { intros [|b hc'] Hne H; [done|]. apply numbered_from_app in Hn as [Hnk _]. apply numbered_from_app. split; [done|].
    apply (numbered_from_app _ [b]) in H as [_ H]. simpl in *.
    by replace (origin + Z.of_nat (length k)) with (origin + Z.of_nat (length k) - 1 + 1) by lia. }
  unfold fits, host_apply, revert_range in *. destruct (kind notif) as [c|r|r c]; simpl in *.
  - rewrite <- app_assoc, <- tail_app_ne by done. split_and!; [|done|done|by destruct ann].
    apply Hnum; [by destruct ann|done].
  - destruct (Hbelow r) as [-> Hne]; [lia|]. split_and!; [by apply Hnum|lia..|done|done].
  - destruct (Hbelow r) as [-> Hne]; [lia|]. rewrite <- app_assoc, <- tail_app_ne by done.
    assert (below (C:=C) (first r) ann ++ chain_blocks c <> []) as Hne' by by destruct (below _ ann).
    split_and!; [by apply Hnum|lia..|done|done].
Qed.
End extend.

Section run.
Context {N W C NE S SE PW PE Ext Ex T R L B CE TX F HE : Type}
  `{!HostNotifier N W C NE, !SystemConstants, !UnifiedStorage S SE Ex L, !Extraction C Ext,
    !Processing S PW PE Ext Ex, !Executed Ex T R, !HostBlocks C B, !BlockExtraction B Ext,
    !ColdStorage S CE TX F L, !LogFilter F L, !Display CE SE HE, !EqDecision L}.
Context (content : S -> list Ex) (number : Ex -> Z) (block_logs : Ex -> list (Log L))
  `{!ContentStorage S SE Ex L content number, !LawfulProcessing S PW PE Ext Ex C number,
    !LawfulExtraction C B Ext, !LinearConstants,
    !LoggedStorage S SE CE TX Ex T R F L content number block_logs}.
Context (fresh : option Z -> Z -> N -> Prop) (Rn : Z -> list B -> N -> Prop) (astray : Z -> W -> N -> Prop)
  `{!Follower N W C NE B fresh Rn astray}.
Context (config : StorageRpcConfig) (f : F) (id : Z).
Abbreviation NodeT := (SignetNode N S PW T R L).
Abbreviation WorldT := (World (N:=N) (S:=S) (PW:=PW) (T:=T) (R:=R) (L:=L) (B:=B) (F:=F)).
Implicit Types (s : NodeT) (w : WorldT) (k ann : list B) (fm : FilterManager F).

(** ** Iterations and polls

    One iteration of the main loop, on what the host answers ([wi]) and the
    clock; or a poll, or other clients, as in [world_step]. *)
Inductive run_step : WorldT -> WorldT -> Prop :=
| run_iteration s s' hc fm clock client low wi now n notif :
    clock < now -> next_notification wi (nd_notifier s) = (n, Some (Ok notif)) ->
    handle_notification (NE:=NE) (SE:=SE) (PE:=PE) (Ext:=Ext) now notif (set_notifier n s) = (Ok tt, s') ->
    Z.of_nat (length (host_apply (C:=C) notif hc)) < max64 ->
    (revert_range notif <> None -> room id fm (nd_chain s)) ->
    run_step (mkWorld s hc fm clock client low)
      (mkWorld s' (host_apply notif hc) fm now client (low_after notif low))
| run_client s hc fm fm' clock clock' client client' low :
    world_step (NE:=NE) (SE:=SE) (PE:=PE) (Ext:=Ext) (CE:=CE) (TX:=TX) (HE:=HE) config id
      (mkWorld s hc fm clock client low) (mkWorld s hc fm' clock' client' low) ->
    run_step (mkWorld s hc fm clock client low) (mkWorld s hc fm' clock' client' low).

(** The chain is [k], and what the session that began at its end announced. *)
Definition in_session k w : Prop :=
  let origin := host_deploy_height + Z.of_nat (length k) - 1 in
  exists ann, k <> [] /\ ann <> [] /\ wd_chain w = k ++ tail ann
    /\ numbered_from (C:=C) origin ann /\ Rn origin ann (nd_notifier (wd_node w)).

Abbreviation world_inv := (world_inv (C:=C) (Ext:=Ext) (CE:=CE) (TX:=TX) content number block_logs f id).

(** An iteration keeps the invariant of [PollingNode] and the session, or the
    notifier was astray. *)
Lemma iteration_inv k s s' hc fm clock client low wi now n notif :
  world_inv (mkWorld s hc fm clock client low) -> in_session k (mkWorld s hc fm clock client low) ->
  clock < now -> next_notification wi (nd_notifier s) = (n, Some (Ok notif)) ->
  handle_notification (NE:=NE) (SE:=SE) (PE:=PE) now notif (set_notifier n s) = (Ok tt, s') ->
  Z.of_nat (length (host_apply notif hc)) < max64 ->
  (revert_range notif <> None -> room id fm (nd_chain s)) ->
  let w' := mkWorld s' (host_apply notif hc) fm now client (low_after notif low) in
  (world_inv w' /\ in_session k w') \/ astray (host_deploy_height + Z.of_nat (length k) - 1) wi (nd_notifier s).
Proof.
  intros Hinv (ann & Hk & Hann & Hhc & Hna & Hr) Hnow Hnext Hp Hmax Hroom w'.
  cbn [wd_node wd_chain] in Hhc, Hr. subst hc.
  destruct (follow_next _ _ _ _ _ _ Hr Hnext) as [[Hf Hr']|?]; [left|by right].
  pose proof Hinv as (Hh & _ & _). cbn [wd_node wd_chain] in Hh. pose proof Hh as (_ & Hnum & _).
  destruct (fits_extend _ _ _ _ Hnum Hk Hann Hna Hf) as (Hfit & Happ & Hne).
  assert (world_inv (mkWorld (set_notifier n s) (k ++ tail ann) fm clock client low)) as Hinv' by exact Hinv.
  split.
  - eapply (world_step_inv (CE:=CE) (SE:=SE) (HE:=HE) content number block_logs config); [|exact Hinv'].
    by apply (world_notification (NE:=NE) (SE:=SE) (PE:=PE) (CE:=CE) (TX:=TX) (HE:=HE)).
  - exists (host_apply notif ann). cbn [w' wd_chain wd_node]. split_and!; [done|done|done|apply Hf|].
    pose proof (proj1 (holds_replicates (C:=C) (PE:=PE) (Ext:=Ext) content number _ (set_notifier n s)) Hh) as [_ Hrep]. destruct Hfit as [Hfn Hfr].
    eapply (handle_notification_content content number []) in Hp as [_ [->|(h & r & Hfin)]];
      [exact Hr'|by eapply follow_finished|by constructor|exact Hrep|].
    unfold Replica.session_start. cbn. rewrite Z.add_0_r. by split.
Qed.

(** The run lost its anchor: in a state it reached, the notifier was astray. *)
Definition run_astray k w0 : Prop :=
  exists w wi, rtc run_step w0 w
    /\ astray (host_deploy_height + Z.of_nat (length k) - 1) wi (nd_notifier (wd_node w)).

Lemma node_run_inv k w0 w :
  world_inv w0 -> in_session k w0 -> rtc run_step w0 w -> world_inv w \/ run_astray k w0.
Proof.
  intros Hi Hs Hrun. induction Hrun as [w|w w1 w2 Hstep Hrun IH]; [by left|].
  assert ((world_inv w1 /\ in_session k w1) \/ run_astray k w) as [[Hi1 Hs1]|?]; [| |by right].
  - destruct Hstep as [s s' hc fm clock client low wi now n notif Hnow Hnext Hp Hmax Hroom|s hc fm fm' clock clock' client client' low Hw].
    + destruct (iteration_inv _ _ _ _ _ _ _ _ _ _ _ _ Hi Hs Hnow Hnext Hp Hmax Hroom) as [?|Ha]; [by left|].
      right. eexists _, wi. split; [apply rtc_refl|exact Ha].
    + left. split; [by eapply world_step_inv|exact Hs].
  - destruct (IH Hi1 Hs1) as [?|(w3 & wi & Hw & Ha)]; [by left|]. right. exists w3, wi. split; [by eapply rtc_l|done].
Qed.

(** ** Property *)

(** C5: What a polling client of a started node holds.  A node is started on the
    execution of a host chain, over a notifier that follows the host, and runs
    its main loop; unless the notifier lost its anchor, storage then holds the
    execution of what was kept and of exactly what the notifier announced on
    these inputs.  Once it has announced something, a client installs a log
    filter and polls, between iterations of the main loop and polls of others (at
    most 25 reverts between two polls of the client); every iteration extends
    the announced chain by what the notifier gave it.  Unless the notifier lost
    its anchor meanwhile, a successful poll leaves the client with exactly the
    matching logs of the execution of the announced chain, which storage holds. *)
Theorem started_node_polling_client ok bf inputs hc s s1 :
  holds_chain (C:=C) (B:=B) content hc (nd_storage s) ->
  (forall h, host_deploy_height <= h < host_deploy_height + Z.of_nat (length hc) ->
     fresh bf h (nd_notifier s)) ->
  start (NE:=NE) (SE:=SE) (PE:=PE) ok bf inputs s = (Ok false, s1) ->
  exists k s0, k `prefix_of` hc /\ holds_chain (C:=C) (B:=B) content k (nd_storage s0)
    /\ nd_notifier s0 = set_backfill_thresholds bf
         (set_head (host_deploy_height + Z.of_nat (length k) - 1) (nd_notifier s))
    /\ main_loop (NE:=NE) (SE:=SE) (PE:=PE) inputs s0 = (Ok false, s1)
    /\ (went_astray (NE:=NE) (SE:=SE) (PE:=PE) (C:=C) (Ext:=Ext) astray
           (host_deploy_height + Z.of_nat (length k) - 1) inputs s0
        \/ exists ann, holds_chain (C:=C) (B:=B) content (k ++ tail ann) (nd_storage s1)
          /\ delivers [] (nd_notifier s0) inputs false ann (nd_notifier s1)
          /\ forall w0 w now out rpc',
               ann <> [] -> wd_node w0 = s1 -> wd_chain w0 = k ++ tail ann ->
               world_start (C:=C) (SE:=SE) (PE:=PE) (Ext:=Ext) (CE:=CE) (HE:=HE) content number f id w0 ->
               rtc run_step w0 w -> wd_clock w < now ->
               poll_node (CE:=CE) (TX:=TX) (HE:=HE) config id now (wd_node w) (wd_filters w) = (Ok out, rpc') ->
               (holds_chain (C:=C) (B:=B) content (wd_chain w) (nd_storage (wd_node w))
                /\ apply_output out (wd_client w)
                   = logs_between f (canon_of block_logs (content (nd_storage (wd_node w))))
                       (wd_low w) (tip_of number (content (nd_storage (wd_node w)))))
               \/ run_astray k w0).
Proof.
  intros Hc Hf Hs.
  destruct (start_content content number fresh Rn astray ok bf inputs hc s false s1 Hc Hf Hs)
    as (k & s0 & Hk & Hk0 & Hn0 & Hm & Hcase). exists k, s0. do 4 (split; [done|]).
  destruct Hcase as [Ha|(ann & Hann & Hd & Hna & Hr)]; [by left|right].
  exists ann. do 2 (split; [done|]). intros w0 w now out rpc' Hne Hw Hch Hstart Hrun Hnow Hp.
  destruct (node_run_inv k w0 w) as [Hinv|?]; [|exists ann; rewrite Hw; split_and!; auto|exact Hrun| |by right].
  - by eapply world_start_inv.
  - by apply Hk0.
  - left. by eapply world_poll_exact.
Qed.
End run.
