(* ===== verification/Harness.v ===== *)
(** * The test harness ([crates/node-tests])

    The context that drives a node in process: a channel as the notifier, the
    conversion of test notifications, the calls that send a block and wait until
    the node has processed it, and the guards on nonces and balances.  Block
    specifications, test chains and alloy's signed integers are third-party; the
    node's task and the caller share one thread, so the node runs while the
    caller waits. *)

From S2P Require Import Prelude HostTypes BlockTags Primitives Interest ChainNotifier Metrics BlockProcessor Storage Blobber RpcStart Node NodeProps Replica Progress.

(** ** [TestHostNotifier]

    The receiving end of an unbounded channel; an answer of the environment is
    what the senders send before [recv] resolves, nothing if they are gone. *)
Record TestHostNotifier (C : Type) := mkTest { receiver : list (HostNotification C) }.
Arguments mkTest {C} _.
Arguments receiver {C} _.

#[export] Instance test_host_notifier {C} :
    HostNotifier (TestHostNotifier C) (list (HostNotification C)) C Empty_set := {
  next_notification sent n := match receiver n ++ sent with
    | [] => (n, None)
    | notification :: rest => (mkTest rest, Some (Ok notification))
    end;
  set_head _ n := n;
  set_backfill_thresholds _ n := n;
  send_finished_height _ n := (n, Ok tt) }.

(** ** Test notifications ([convert.rs]) *)
Inductive ExExNotification (C : Type) :=
| Committed (new : C)
| Reorged (old new : C)
| Reverted (old : C).
Arguments Committed {C} new.
Arguments Reorged {C} old new.
Arguments Reverted {C} old.

(** What the harness reads of test chains and test notifications. *)
Class TestChains (C : Type) := {
  first_number : C -> Z;
  tip_number : C -> Z;
  exex_committed_chain : ExExNotification C -> option C;
  exex_reverted_chain : ExExNotification C -> option C }.

Definition to_host_notification {C E} `{!TestChains C} (notif : ExExNotification C) :
    res E (HostNotification C) :=
  kind ← (match notif with
          | Committed new => Ok (ChainCommitted new)
          | Reorged old new =>
              old ← RevertRange_new (first_number old) (tip_number old); Ok (ChainReorged old new)
          | Reverted old =>
              old ← RevertRange_new (first_number old) (tip_number old); Ok (ChainReverted old)
          end);
  Ok (mkHostNotification kind None None).

(** [NotificationWithSidecars], the blob transactions by their hash. *)
Record NotificationWithSidecars (C Sd Tx : Type) := mkNotification {
  nw_notification : ExExNotification C; nw_sidecars : list (Sd * Tx) }.
Arguments mkNotification {C Sd Tx} _ _.
Arguments nw_notification {C Sd Tx} _.
Arguments nw_sidecars {C Sd Tx} _.

(** Block specifications ([HostBlockSpec]) and notification specifications
    ([NotificationSpec]). *)
Class BlockSpecs (Spec : Type) := { spec_number : Spec -> Z; set_block_number : Z -> Spec -> Spec }.
Class NotificationSpecs (Spec NSpec C Sd Tx : Type) := {
  commit_single_block : Spec -> NotificationWithSidecars C Sd Tx;
  revert_single_block : Spec -> NotificationWithSidecars C Sd Tx;
  nspec_default : NSpec;
  nspec_commit : NSpec -> Spec -> NSpec;
  to_exex_notification : NSpec -> NotificationWithSidecars C Sd Tx }.
#[export] Hint Mode BlockSpecs ! : typeclass_instances.

(** How a call of the harness can fail to return: the node's task has ended, or
    nothing will ever wake the caller. A failed assertion panics. *)
Inductive HarnessError := RecvError | Pending.

Section context.
Context {C S SE PW PE Ext Ex T R L B Spec NSpec Sd Tx Blob : Type}
  `{!SystemConstants, !UnifiedStorage S SE Ex L, !Extraction C Ext, !Processing S PW PE Ext Ex,
    !Executed Ex T R, !HostBlocks C B, !TestChains C, !BlockSpecs Spec, !NotificationSpecs Spec NSpec C Sd Tx}.
Variable tx_hash : Tx -> B256.
Variable sidecar_variant : Sd -> SidecarVariant Blob.
(** The answers cold storage gives to [get_latest_block] within the timeout. *)
Variable cold_polls : S -> list (res SE (option Z)).
Abbreviation NodeT := (SignetNode (TestHostNotifier C) S PW T R L).

(** [SignetTestContext]: what it shares with the node, and whether the node's
    task is still running. *)
Record SignetTestContext := mkContext {
  tc_node : NodeT;
  tc_running : bool;
  tc_blob_source : gmap Z (SidecarVariant Blob);
  tc_height : Z;
  tc_alias_oracle : gset Z }.
Abbreviation HM := (st SignetTestContext HarnessError).

Definition set_node (node : NodeT) (running : bool) (ctx : SignetTestContext) : SignetTestContext :=
  mkContext node running (tc_blob_source ctx) (tc_height ctx) (tc_alias_oracle ctx).
Definition set_height (h : Z) (ctx : SignetTestContext) : SignetTestContext :=
  mkContext (tc_node ctx) (tc_running ctx) (tc_blob_source ctx) h (tc_alias_oracle ctx).

Definition set_should_alias (address : Address) (should_alias : bool) (ctx : SignetTestContext) :
    SignetTestContext :=
  mkContext (tc_node ctx) (tc_running ctx) (tc_blob_source ctx) (tc_height ctx)
    (if should_alias then {[address]} ∪ tc_alias_oracle ctx else tc_alias_oracle ctx ∖ {[address]}).

(** [height.fetch_add(1)] and [height.fetch_sub(1)]. *)
Definition fetch_add_height : HM Z := fun ctx => (Ok (tc_height ctx), set_height (add64 (tc_height ctx) 1) ctx).
Definition fetch_sub_height : HM Z := fun ctx => (Ok (tc_height ctx), set_height (sub64 (tc_height ctx) 1) ctx).

(** ** Sending *)
Definition insert_sidecars (sidecars : list (Sd * Tx)) (m : gmap Z (SidecarVariant Blob)) :
    gmap Z (SidecarVariant Blob) :=
  fold_left (fun m '(sidecar, tx) => memory_insert (tx_hash tx) (sidecar_variant sidecar) m) sidecars m.

(** [sender.send(..).unwrap()]: the receiver is dropped with the node's task. *)
Definition send (notification : HostNotification C) : HM unit := fun ctx =>
  if tc_running ctx
  then (Ok tt, set_node (set_notifier (mkTest (receiver (nd_notifier (tc_node ctx)) ++ [notification]))
                           (tc_node ctx)) true ctx)
  else (Panic, ctx).

Definition send_notification (n : NotificationWithSidecars C Sd Tx) : HM unit :=
  _ ← st_modify (fun ctx => mkContext (tc_node ctx) (tc_running ctx)
        (insert_sidecars (nw_sidecars n) (tc_blob_source ctx)) (tc_height ctx) (tc_alias_oracle ctx));
  host_notification ← st_lift (to_host_notification (nw_notification n));
  send host_notification.

(** ** The node's task, until it waits on an empty channel

    Whether the status channel was sent to, and whether the task goes on. *)
Fixpoint node_task (now : Z) (queued : nat) (node : NodeT) : bool * bool * NodeT :=
  match queued with
  | O => (false, true, node)
  | Datatypes.S queued =>
      let '(n, r) := next_notification [] (nd_notifier node) in
      let node := set_notifier n node in
      match r with
      | Some (Ok notification) =>
          let sent := match (on_notification (NE:=Empty_set) (SE:=SE) (PE:=PE) now notification node).1 with
                      | Ok changed => changed | _ => false end in
          match handle_notification (SE:=SE) (PE:=PE) now notification node with
          | (Ok _, node) =>
              let '(sent', running, node) := node_task now queued node in (sent || sent', running, node)
          | (_, node) => (sent, false, node)
          end
      | _ => (false, true, node)
      end
  end.

(** [recv.changed().await], the node running meanwhile. *)
Definition status_changed (now : Z) : HM unit := fun ctx =>
  let '(sent, running, node) := node_task now (length (receiver (nd_notifier (tc_node ctx)))) (tc_node ctx) in
  (if sent then Ok tt else if running then Err Pending else Err RecvError, set_node node running ctx).

(** ** Waiting *)

(** The height the rollup should have: that of the last committed block, else
    the one below the first reverted block. *)
Definition expected_height (n : ExExNotification C) : Z :=
  let committed := exex_committed_chain n ≫= fun c => blk_number (C:=C) <$> last (chain_blocks c) in
  let reverted := exex_reverted_chain n ≫= fun c =>
    (fun b => sat_sub (blk_number (C:=C) b) 1) <$> head (chain_blocks c) in
  sat_sub (default 0 (match committed with Some h => Some h | None => reverted end)) host_deploy_height.

(** The loop over [get_latest_block]; running out of time is an [expect]. *)
Fixpoint cold_reaches {A} (height : Z) (polls : list (res SE (option Z))) : res A unit :=
  match polls with
  | [] => Panic
  | Ok (Some latest) :: polls => if height <=? latest then Ok tt else cold_reaches height polls
  | _ :: polls => cold_reaches height polls
  end.

(** The answer of the node's RPC server to [eth_blockNumber] is compared. *)
Definition check_rpc (expected : Z) : HM unit := fun ctx =>
  (if block_number (cn_tags (nd_chain (tc_node ctx))) =? expected then Ok tt else Panic, ctx).
Definition wait_for_cold (expected : Z) : HM unit := fun ctx =>
  (cold_reaches expected (cold_polls (nd_storage (tc_node ctx))), ctx).

Definition process_notification (now : Z) (n : NotificationWithSidecars C Sd Tx) : HM unit :=
  let expected := expected_height (nw_notification n) in
  _ ← send_notification n; _ ← status_changed now; _ ← wait_for_cold expected; check_rpc expected.

Definition process_block (now : Z) (block : Spec) : HM unit :=
  height ← fetch_add_height;
  process_notification now (commit_single_block (set_block_number (add64 height 1) block)).

Fixpoint commit_blocks (blocks : list Spec) (spec : NSpec) : HM NSpec :=
  match blocks with
  | [] => mret spec
  | block :: blocks =>
      height ← fetch_add_height; commit_blocks blocks (nspec_commit spec (set_block_number (add64 height 1) block))
  end.
Definition process_blocks (now : Z) (blocks : list Spec) : HM unit :=
  spec ← commit_blocks blocks nspec_default; process_notification now (to_exex_notification spec).

Definition revert_block (now : Z) (block : Spec) : HM unit :=
  height ← fetch_sub_height;
  process_notification now (revert_single_block (set_block_number height block)).
End context.

(** What the harness relies on: test chains and specifications hold the blocks
    they are made of, and cold storage catches up within the timeout. *)
Class LawfulHarness {C S SE Ex B Spec NSpec Sd Tx : Type}
    `{!HostBlocks C B, !TestChains C, !BlockSpecs Spec, !NotificationSpecs Spec NSpec C Sd Tx}
    (content : S -> list Ex) (number : Ex -> Z) (cold_polls : S -> list (res SE (option Z))) : Prop := {
  exex_committed_eq n : exex_committed_chain (C:=C) n
    = match n with Committed new | Reorged _ new => Some new | Reverted _ => None end;
  exex_reverted_eq n : exex_reverted_chain (C:=C) n
    = match n with Reverted old | Reorged old _ => Some old | Committed _ => None end;
  first_number_head (c : C) b k : chain_blocks c = b :: k -> first_number c = blk_number (C:=C) b;
  tip_number_last (c : C) b k : chain_blocks c = k ++ [b] -> tip_number c = blk_number (C:=C) b;
  spec_number_set h (sp : Spec) : spec_number (set_block_number h sp) = h;
  commit_single (sp : Spec) : exists c b,
    nw_notification (commit_single_block sp) = Committed c
    /\ chain_blocks c = [b] /\ blk_number (C:=C) b = spec_number sp;
  revert_single (sp : Spec) : exists c b,
    nw_notification (revert_single_block sp) = Reverted c
    /\ chain_blocks c = [b] /\ blk_number (C:=C) b = spec_number sp;
  to_exex_blocks (sps : list Spec) : sps <> [] -> exists c,
    nw_notification (to_exex_notification (fold_left nspec_commit sps nspec_default)) = Committed c
    /\ blk_number (C:=C) <$> chain_blocks c = spec_number <$> sps;
  cold_settles db : exists n, Ok (Some n) ∈ cold_polls db /\ tip_of number (content db) <= n }.

Section props.
Context {C S SE PW PE Ext Ex T R L B Spec NSpec Sd Tx Blob : Type}
  `{!SystemConstants, !UnifiedStorage S SE Ex L, !Extraction C Ext, !Processing S PW PE Ext Ex,
    !Executed Ex T R, !HostBlocks C B, !BlockExtraction B Ext, !TestChains C, !BlockSpecs Spec,
    !NotificationSpecs Spec NSpec C Sd Tx}.
Context (tx_hash : Tx -> B256) (sidecar_variant : Sd -> SidecarVariant Blob)
  (cold_polls : S -> list (res SE (option Z))) (content : S -> list Ex) (number : Ex -> Z)
  `{!ContentStorage S SE Ex L content number, !LawfulProcessing S PW PE Ext Ex C number,
    !LawfulExtraction C B Ext, !LinearConstants,
    !Dependable (TestHostNotifier C) (list (HostNotification C)) C Empty_set S SE PW PE Ext Ex L content number,
    !LawfulHarness (C:=C) (SE:=SE) (B:=B) (Spec:=Spec) (NSpec:=NSpec) (Sd:=Sd) (Tx:=Tx) content number cold_polls}.
Abbreviation Ctx := (SignetTestContext (C:=C) (S:=S) (PW:=PW) (T:=T) (R:=R) (L:=L) (Blob:=Blob)).
Abbreviation num := (blk_number (C:=C)).
Abbreviation stored db := (tip_of number (content db)).
Abbreviation process_notification := (process_notification (SE:=SE) (PE:=PE) (B:=B) tx_hash sidecar_variant cold_polls).
Implicit Types (ctx : Ctx) (hc : list B).

(** The node is up, idle, and holds the host chain [hc] from the deployment
    block on. *)
Definition node_holds ctx hc : Prop :=
  tc_running ctx = true /\ receiver (nd_notifier (tc_node ctx)) = []
  /\ replicates (C:=C) (B:=B) content number [] hc (tc_node ctx).

(** What the node shows of it. *)
Definition shows ctx (height : Z) : Prop :=
  nd_status (tc_node ctx) = AtHeight height /\ block_number (cn_tags (nd_chain (tc_node ctx))) = height.

Lemma cold_reaches_settled {A} height db :
  height = stored db -> cold_reaches (A:=A) height (cold_polls db) = Ok tt.
Proof.
  intros ->. destruct (cold_settles db) as (n & Hin & Hle). revert Hin.
  induction (cold_polls db) as [|r polls IH]; intros Hin; [by apply elem_of_nil in Hin|].
  apply elem_of_cons in Hin as [<-|Hin]; simpl; [by rewrite (proj2 (Z.leb_le _ _))|].
  specialize (IH Hin). destruct r as [[m|]|e|]; [|done..]. by destruct (_ <=? m).
Qed.

Lemma base_nil_ok : base_ok number [].
Proof. constructor. Qed.

Lemma node_holds_tip ctx b hc :
  node_holds ctx (b :: hc) -> stored (nd_storage (tc_node ctx)) = Z.of_nat (length hc).
Proof.
  intros (_ & _ & Hr). rewrite (replicates_tip content number [] (b :: hc) _ base_nil_ok Hr).
  unfold tip_of. simpl last. cbn [fmap option_fmap option_map from_option length default]. cbn. lia.
Qed.

(** ** The harness drives the node *)

(** One queued notification, handled to the end. *)
Lemma node_task_one now notif node s1 s' :
  receiver (nd_notifier node) = [notif] ->
  on_notification (NE:=Empty_set) (SE:=SE) (PE:=PE) now notif (set_notifier (mkTest []) node) = (Ok true, s1) ->
  handle_notification (SE:=SE) (PE:=PE) now notif (set_notifier (mkTest []) node) = (Ok tt, s') ->
  node_task (SE:=SE) (PE:=PE) now 1 node = (true, true, s').
Proof.
  intros Hq Ho Hh. cbn [node_task next_notification test_host_notifier]. rewrite Hq.
  cbn [app]. by rewrite Ho, Hh.
Qed.

(** A test notification that fits is sent, processed, and passes the checks. *)
Lemma process_notification_settles now n notif b hc b' hc' ctx :
  node_holds ctx (b :: hc) -> to_host_notification (E:=HarnessError) (nw_notification n) = Ok notif ->
  fits host_deploy_height (b :: hc) notif -> eventful (B:=B) notif -> host_apply notif (b :: hc) = b' :: hc' ->
  expected_height (B:=B) (nw_notification n) = Z.of_nat (length hc') ->
  exists ctx', process_notification now n ctx = (Ok tt, ctx')
    /\ node_holds ctx' (b' :: hc') /\ shows ctx' (Z.of_nat (length hc')) /\ tc_height ctx' = tc_height ctx.
Proof.
  intros (Hrun & Hq & Hr) Hto Hf He Happ Hexp.
  replace host_deploy_height with (session_start number []) in Hf by (unfold session_start, tip_of; simpl; lia).
  destruct (handle_notification_shown content number [] now b hc notif (set_notifier (mkTest []) (tc_node ctx))
    base_nil_ok Hr Hf He) as (s1 & s' & Ho & Hh & Hr' & Hst & Hlat & Hn).
  rewrite Happ in Hr'. set (ctx1 := set_node s' true (set_node (set_notifier (mkTest [notif]) (tc_node ctx)) true
    (mkContext (tc_node ctx) true (insert_sidecars tx_hash sidecar_variant (nw_sidecars n) (tc_blob_source ctx))
       (tc_height ctx) (tc_alias_oracle ctx)))).
  assert (node_holds ctx1 (b' :: hc')) as Hholds.
  { split; [done|]. split; [|exact Hr']. unfold ctx1. cbn [tc_node set_node].
    by destruct Hn as [->|(h & r & [= <- _])]. }
  pose proof (node_holds_tip _ _ _ Hholds) as Htip. cbn [tc_node ctx1 set_node] in Htip.
  assert (shows ctx1 (Z.of_nat (length hc'))) as Hshows.
  { unfold shows, block_number, ctx1. cbn [tc_node set_node]. by rewrite Hst, Hlat, Htip. }
  exists ctx1. split; [|done].
  unfold Harness.process_notification, send_notification, send, mbind, st_bind, st_modify, st_lift.
  cbn [tc_running tc_node]. rewrite Hto, Hrun. cbn [tc_running tc_node].
  unfold status_changed. cbn [tc_node set_node nd_notifier set_notifier receiver]. rewrite Hq.
  change (length ([] ++ [notif])) with 1%nat.
  rewrite (node_task_one now notif _ s1 s'); [|done|exact Ho|exact Hh].
  unfold wait_for_cold, check_rpc. cbn [tc_node set_node]. rewrite Hexp.
  rewrite (cold_reaches_settled (Z.of_nat (length hc')) (nd_storage s')) by by rewrite Htip.
  unfold block_number. by rewrite Hlat, Htip, Z.eqb_refl.
Qed.

(** New blocks right above the chain. *)
Lemma commit_settles now n c b hc k ctx :
  node_holds ctx (b :: hc) -> nw_notification n = Committed c ->
  num <$> chain_blocks c = seqZ (host_deploy_height + Z.of_nat (length hc) + 1) (Z.of_nat (Datatypes.S k)) ->
  exists ctx', process_notification now n ctx = (Ok tt, ctx')
    /\ node_holds ctx' (b :: (hc ++ chain_blocks c))
    /\ shows ctx' (Z.of_nat (length (hc ++ chain_blocks c))) /\ tc_height ctx' = tc_height ctx.
Proof.
  intros Hh Hn Hb. pose proof Hh as (_ & _ & Hchain & _). apply (f_equal length) in Hb as Hlen.
  rewrite length_fmap, length_seqZ in Hlen.
  apply (process_notification_settles now n (mkHostNotification (ChainCommitted c) None None) b hc); [done| | | |done|].
  - unfold to_host_notification. by rewrite Hn.
  - split; [|done]. unfold host_apply. simpl kind. cbv iota. apply numbered_from_app. split.
    + unfold session_start, tip_of in Hchain. simpl in Hchain. by rewrite Z.add_0_r in Hchain.
    + unfold numbered_from. rewrite Hb. cbn [length]. f_equal; lia.
  - right. exists c. split; [done|]. intros Hnil. rewrite Hnil in Hlen. simpl in Hlen. lia.
  - unfold expected_height. rewrite Hn, exex_committed_eq. simpl. rewrite <- fmap_last, Hb, seqZ_S, last_snoc. simpl.
    rewrite length_app. unfold sat_sub. pose proof (Nat2Z.is_nonneg (length hc)). lia.
Qed.

(** The last block taken back; the block of the deployment stays. *)
Lemma revert_settles now n c b hc b1 b' ctx :
  0 <= host_deploy_height -> node_holds ctx (b :: hc ++ [b']) -> nw_notification n = Reverted c ->
  chain_blocks c = [b1] -> num b1 = host_deploy_height + Z.of_nat (length hc) + 1 ->
  exists ctx', process_notification now n ctx = (Ok tt, ctx')
    /\ node_holds ctx' (b :: hc) /\ shows ctx' (Z.of_nat (length hc)) /\ tc_height ctx' = tc_height ctx.
Proof.
  intros Hd Hh Hn Hc Hb1. pose proof Hh as (_ & _ & Hchain & _).
  unfold session_start, tip_of in Hchain. simpl in Hchain. rewrite Z.add_0_r in Hchain.
  assert (below (C:=C) (num b1) (b :: hc ++ [b']) = b :: hc) as Hbelow.
  { rewrite (below_take _ _ _ Hchain), Hb1.
    replace (Z.to_nat _) with (length (b :: hc)) by (cbn [length]; lia). apply (take_app_length (b :: hc)). }
  apply (process_notification_settles now n
    (mkHostNotification (ChainReverted (mkRevertRange (num b1) (num b1))) None None) b (hc ++ [b'])); [done| | | | |].
  - unfold to_host_notification. rewrite Hn, (first_number_head c b1 []), (tip_number_last c b1 []) by done.
    by rewrite RevertRange_new_total by lia.
  - unfold fits, host_apply. simpl kind. cbn [revert_range kind_revert_range kind first tip]. rewrite Hbelow. split.
    + by apply (numbered_from_app _ (b :: hc) [b']) in Hchain as [? _].
    + cbn [length]. rewrite length_app. simpl. lia.
  - left. by eexists.
  - exact Hbelow.
  - unfold expected_height. rewrite Hn, exex_committed_eq, exex_reverted_eq. simpl. rewrite Hc. simpl.
    unfold sat_sub. lia.
Qed.

(** ** Scripts *)
Inductive harness_op := ProcessBlock (block : Spec) | ProcessBlocks (blocks : list Spec) | RevertBlock (block : Spec).

Definition run_op (now : Z) (op : harness_op) : st Ctx HarnessError unit :=
  match op with
  | ProcessBlock block => process_block (SE:=SE) (PE:=PE) tx_hash sidecar_variant cold_polls now block
  | ProcessBlocks blocks => process_blocks (SE:=SE) (PE:=PE) tx_hash sidecar_variant cold_polls now blocks
  | RevertBlock block => revert_block (SE:=SE) (PE:=PE) tx_hash sidecar_variant cold_polls now block
  end.
Fixpoint run_script (script : list (Z * harness_op)) : st Ctx HarnessError unit :=
  match script with [] => mret tt | (now, op) :: script => _ ← run_op now op; run_script script end.

(** The rollup height after an operation. *)
Definition height_after (height : Z) (op : harness_op) : Z :=
  match op with
  | ProcessBlock _ => height + 1
  | ProcessBlocks blocks => height + Z.of_nat (length blocks)
  | RevertBlock _ => height - 1
  end.
(** Every call changes something and no call takes back the deployment. *)
Fixpoint script_ok (height : Z) (script : list (Z * harness_op)) : Prop :=
  match script with
  | [] => True
  | (_, op) :: script =>
      match op with ProcessBlock _ => True | ProcessBlocks blocks => blocks <> [] | RevertBlock _ => 0 < height end
      /\ host_deploy_height + Z.max height (height_after height op) < max64
      /\ script_ok (height_after height op) script
  end.

(** The host height of the harness is that of the node's chain. *)
Definition in_step ctx (height : Z) : Prop :=
  exists b hc, node_holds ctx (b :: hc) /\ Z.of_nat (length hc) = height
    /\ tc_height ctx = host_deploy_height + height.

Lemma node_holds_height ctx h hc : node_holds (set_height h ctx) hc <-> node_holds ctx hc.
Proof. done. Qed.

(** The heights [process_blocks] gives out. *)
Fixpoint number_blocks (h : Z) (blocks : list Spec) : list Spec :=
  match blocks with [] => [] | sp :: blocks => set_block_number (h + 1) sp :: number_blocks (h + 1) blocks end.

Lemma number_blocks_numbers h blocks :
  spec_number <$> number_blocks h blocks = seqZ (h + 1) (Z.of_nat (length blocks)).
Proof.
  revert h. induction blocks as [|sp blocks IH]; intros h; [done|]. cbn [number_blocks length]. csimpl.
  rewrite (spec_number_set (LawfulHarness:=LawfulHarness0)), IH, (seqZ_cons (h + 1)) by lia. f_equal. f_equal; lia.
Qed.

Lemma commit_blocks_numbers blocks spec ctx :
  0 <= tc_height ctx -> tc_height ctx + Z.of_nat (length blocks) < max64 ->
  commit_blocks (Blob:=Blob) blocks spec ctx
  = (Ok (fold_left nspec_commit (number_blocks (tc_height ctx) blocks) spec),
     set_height (tc_height ctx + Z.of_nat (length blocks)) ctx).
Proof.
  revert spec ctx. induction blocks as [|sp blocks IH]; intros spec ctx Hz Hm.
  - cbn. rewrite Z.add_0_r. by destruct ctx.
  - cbn [commit_blocks length] in *. unfold mbind, st_bind, fetch_add_height.
    rewrite add64_exact by width. rewrite IH by (cbn [tc_height set_height]; lia).
    cbn [tc_height set_height number_blocks fold_left]. f_equal. unfold set_height. cbn. f_equal. lia.
Qed.

(** The state and the result of a call that settles at [height]. *)
Definition settles (m : st Ctx HarnessError unit) ctx (height : Z) : Prop :=
  exists ctx', m ctx = (Ok tt, ctx') /\ in_step ctx' height /\ shows ctx' height.

Lemma process_block_settles now sp height ctx :
  0 <= host_deploy_height -> in_step ctx height -> host_deploy_height + (height + 1) < max64 ->
  settles (run_op now (ProcessBlock sp)) ctx (height + 1).
Proof.
  intros Hd (b & hc & Hh & Hlen & Hht) Hmax. set (h := host_deploy_height + height + 1).
  destruct (commit_single (LawfulHarness:=LawfulHarness0) (set_block_number h sp)) as (c & b1 & Hc & Hb & Hn).
  rewrite (spec_number_set (LawfulHarness:=LawfulHarness0)) in Hn.
  destruct (commit_settles now (commit_single_block (set_block_number h sp)) c b hc 0
    (set_height (tc_height ctx + 1) ctx)) as (ctx' & Hp & Hh' & Hs & Ht); [done|done| |].
  { rewrite Hb. cbn. rewrite Hn, seqZ_cons by lia. cbn. f_equal. unfold h. lia. }
  rewrite Hb, length_app in *. cbn [length tc_height set_height] in *.
  replace (Z.of_nat (length hc + 1)) with (height + 1) in Hs by lia.
  exists ctx'. split; [|split; [|done]].
  - cbn [run_op]. unfold process_block, mbind, st_bind, fetch_add_height.
    rewrite add64_exact by width. rewrite Hht in *. exact Hp.
  - exists b, (hc ++ [b1]). rewrite length_app. cbn [length]. split; [done|]. lia.
Qed.

Lemma process_blocks_settles now sps height ctx :
  0 <= host_deploy_height -> in_step ctx height -> sps <> [] ->
  host_deploy_height + (height + Z.of_nat (length sps)) < max64 ->
  settles (run_op now (ProcessBlocks sps)) ctx (height + Z.of_nat (length sps)).
Proof.
  intros Hd (b & hc & Hh & Hlen & Hht) Hne Hmax. set (h := host_deploy_height + height).
  assert (exists k, length sps = Datatypes.S k) as [k Hk] by (destruct sps; [done|by eexists]).
  pose proof (number_blocks_numbers h sps) as Hnum. rewrite Hk in Hnum.
  destruct (to_exex_blocks (LawfulHarness:=LawfulHarness0) (number_blocks h sps)) as (c & Hc & Hb);
    [by destruct sps|]. rewrite Hnum in Hb.
  set (n := to_exex_notification _) in *.
  destruct (commit_settles now n c b hc k (set_height (tc_height ctx + Z.of_nat (length sps)) ctx))
    as (ctx' & Hp & Hh' & Hs & Ht); [done|done|rewrite Hb; unfold h; f_equal; lia|].
  apply (f_equal length) in Hb. rewrite length_fmap, length_seqZ in Hb.
  rewrite length_app in Hs. cbn [tc_height set_height] in *.
  replace (Z.of_nat _) with (height + Z.of_nat (length sps)) in Hs by lia.
  exists ctx'. split; [|split; [|done]].
  - cbn [run_op]. unfold process_blocks. unfold mbind at 1, st_bind. rewrite commit_blocks_numbers by lia.
    rewrite Hht in *. exact Hp.
  - exists b, (hc ++ chain_blocks c). rewrite length_app. split; [done|]. lia.
Qed.

Lemma revert_block_settles now sp height ctx :
  0 <= host_deploy_height -> in_step ctx height -> 0 < height -> host_deploy_height + height < max64 ->
  settles (run_op now (RevertBlock sp)) ctx (height - 1).
Proof.
  intros Hd (b & hc & Hh & Hlen & Hht) Hpos Hmax.
  destruct hc as [|b' hc' _] using rev_ind; [simpl in Hlen; lia|]. rewrite length_app in Hlen. simpl in Hlen.
  set (h := host_deploy_height + height).
  destruct (revert_single (LawfulHarness:=LawfulHarness0) (set_block_number h sp)) as (c & b1 & Hc & Hb & Hn).
  rewrite (spec_number_set (LawfulHarness:=LawfulHarness0)) in Hn.
  destruct (revert_settles now (revert_single_block (set_block_number h sp)) c b hc' b1 b'
    (set_height (tc_height ctx - 1) ctx)) as (ctx' & Hp & Hh' & Hs & Ht); [done|done|done|done|rewrite Hn; unfold h; lia|].
  cbn [tc_height set_height] in *. replace (Z.of_nat (length hc')) with (height - 1) in Hs by lia.
  exists ctx'. split; [|split; [|done]].
  - cbn [run_op]. unfold revert_block, mbind, st_bind, fetch_sub_height.
    rewrite sub64_exact by width. rewrite Hht in *. exact Hp.
  - exists b, hc'. split; [done|]. lia.
Qed.

(** ** Property *)

(** C12: Every script of the harness runs to its end: starting from an
    idle node whose chain ends at the harness's height, every call that sends
    blocks or takes back the last one returns, and returns without a failed
    assertion, none waits for ever and none finds the node gone, provided no
    call is empty and the deployment is never taken back; after it the status
    channel and [eth_blockNumber] both show the height the calls add up to. *)
Theorem harness_script_settles script height ctx :
  0 <= host_deploy_height -> in_step ctx height -> script_ok height script ->
  exists ctx', run_script script ctx = (Ok tt, ctx')
    /\ in_step ctx' (fold_left height_after (snd <$> script) height)
    /\ (script <> [] -> shows ctx' (fold_left height_after (snd <$> script) height)).
Proof.
  intros Hd. revert height ctx. induction script as [|[now op] script IH]; intros height ctx Hin Hok.
  { by exists ctx. }
  cbn [script_ok] in Hok. destruct Hok as (Hop & Hmax & Hok).
  assert (settles (run_op now op) ctx (height_after height op)) as (ctx1 & Hr & Hin1 & Hs1).
  { destruct op; cbn [height_after] in *.
    - apply process_block_settles; [done..|lia].
    - apply process_blocks_settles; [done..|lia].
    - apply revert_block_settles; [done..|lia]. }
  destruct (IH _ _ Hin1 Hok) as (ctx' & Hr' & Hin' & Hs'). exists ctx'. csimpl.
  split; [|split; [exact Hin'|]].
  - cbn [run_script]. unfold mbind, st_bind. by rewrite Hr.
  - intros _. destruct script; [|by apply Hs']. injection Hr' as <-. exact Hs1.
Qed.
End props.
