(* ===== verification/PollingSamples.v ===== *)
(** * A polling client of a sample node

    Blocks of the rollup are their height and the branch they are on; a block has
    one log, and cold storage answers from the stored blocks. *)

From S2P Require Import Prelude HostTypes BlockTags Primitives Interest ChainNotifier Metrics BlockProcessor Filters RpcConfig Errors Storage RpcCtx.
From S2P Require Import EthFilters EthFilterProps RpcStart Node NodeProps Replica Progress Harness PollingNode.
Import Sample.

Module SamplePollNode.
Definition block : Type := Z * Z.  (* height and branch; of the host or of the rollup *)
Definition store : Type := list block.
Definition chain : Type := list block.

#[export] Instance constants : SystemConstants := {
  host_deploy_height := 100;
  pair_ru n := mkPaired (100 + n) n;
  pair_host h := if 100 <=? h then Some (mkPaired h (h - 100)) else None;
  host_block_to_rollup_block_num h := if 100 <=? h then Some (h - 100) else None }.
#[export] Instance linear_constants : LinearConstants.
Proof. by constructor. Qed.

Definition sealed (b : block) : SealedHeader := mkSealedHeader (header b.1) (1000 * b.2 + b.1).
Definition block_logs (b : block) : list (Log raw_log) :=
  [mkLog 7 (Some (1000 * b.2 + b.1)) (Some b.1) None None None (Some 0) false].

#[export] Instance storage : UnifiedStorage store unit block raw_log := {
  last_block_number s := Ok (fst <$> last s);
  cold_latest_block s := Ok (Some (Z.max 0 (tip_of fst s)));
  unwind_above t s := (Ok tt, filter (fun b => b.1 <= t) s);
  append_block b s := (Ok tt, s ++ [b]);
  drain_above t s :=
    (Ok ((fun b => mkDrained (sealed b) [block_logs b]) <$> filter (fun b => t < b.1) s),
     filter (fun b => b.1 <= t) s) }.
#[export] Instance content_storage : ContentStorage store unit block raw_log id fst.
Proof.
  constructor; unfold id; simpl.
  - by intros s o [= <-].
  - intros s o [= <-]. simpl. lia.
  - by intros b s u s' [= _ <-].
  - by intros t s d s' [= _ <-].
  - by intros t s u s' [= _ <-].
Qed.

#[export] Instance host_blocks : HostBlocks chain block := { chain_blocks c := c; blk_number := fst }.
#[export] Instance block_extraction : BlockExtraction block block := {
  extract_block b := if 100 <? b.1 then Some (b.1 - 100, b.2) else None }.
#[export] Instance extraction : Extraction chain block := {
  extract_signet c := omap extract_block c; ru_height := fst }.
#[export] Instance lawful_extraction : LawfulExtraction chain block block.
Proof.
  constructor; unfold extract_block; simpl.
  - done.
  - intros b e. destruct (Z.ltb_spec 100 b.1); [|done]. by intros [= <-].
  - intros b. by destruct (Z.ltb_spec 100 b.1).
Qed.
#[export] Instance processing : Processing store unit unit block block := { process_extracts _ e w := (Ok e, w) }.
#[export] Instance lawful_processing : LawfulProcessing store unit unit block block chain fst.
Proof. constructor. by intros db e w b w' [= <- <-]. Qed.
#[export] Instance executed : Executed block unit unit := {
  ex_header := sealed; ex_transactions _ := []; ex_receipts _ := [] }.

#[export] Instance cold : ColdStorage store unit unit log_filter raw_log := {
  get_header_by_number _ _ := Ok None;
  get_headers _ ns := Ok ((fun _ => None) <$> ns);
  get_transactions_in_block _ _ := Ok [];
  get_transaction_count _ _ := Ok 0;
  get_receipts_in_block _ _ := Ok [];
  get_tx_by_hash _ _ := Ok None;
  get_tx_by_block_and_index _ _ _ := Ok None;
  get_receipt _ _ := Ok None;
  stream_logs s fl _ _ :=
    match fl.1 with
    | Range (Some (Number a)) (Some (Number b)) => Ok (Ok <$> logs_between fl (canon_of block_logs s) a b)
    | _ => Err tt
    end;
  get_latest_block s := Ok (fst <$> last s) }.
#[export] Instance display : Display unit unit unit := {
  show_hash _ := "h"%string; show_id _ := "i"%string; show_u64 _ := "n"%string;
  show_cold _ := "c"%string; show_hot _ := "s"%string; show_db _ := "d"%string }.

Lemma collect_ok (l logs : list (Log raw_log)) :
  collect_log_stream (CE:=unit) (Ok <$> l) = Ok logs -> logs = l.
Proof.
  unfold collect_log_stream. intros Hl. apply mapM_ok in Hl. revert logs Hl.
  induction l as [|x l IH]; intros logs Hl; [by apply Forall2_nil_inv_l in Hl|].
  apply Forall2_cons_inv_l in Hl as (y & ys & [= ->] & Hys & ->). by rewrite <- (IH ys).
Qed.

#[export] Instance logged_storage :
  LoggedStorage store unit unit unit block unit unit log_filter raw_log id fst block_logs.
Proof.
  constructor.
  - intros b. by repeat constructor.
  - intros t db d db' [= <- _]. unfold id. rewrite <- list_fmap_compose. by apply list_fmap_ext.
  - intros f db from to m d stream logs _ Hs Hl. cbn in Hs. injection Hs as <-.
    by apply collect_ok in Hl as ->.
Qed.

(** A node that stores the block 101 of branch 1 when the client installs its
    filter; then block 102 arrives, and is replaced by 102 and 103 of branch 2. *)
Definition watch : log_filter := (Range None None, 7).
Definition Node : Type := SignetNode (TestHostNotifier chain) store unit unit unit raw_log.
Definition node0 : Node :=
  mkNode (mkTest []) [(1, 1)] (with_tags (update_all 1 0 0) ChainNotifier_new) (AtHeight 1) tt Recorder_new [].
Definition commit : HostNotification chain := mkHostNotification (ChainCommitted [(102, 1)]) None None.
Definition reorg : HostNotification chain :=
  mkHostNotification (ChainReorged (mkRevertRange 102 102) [(102, 2); (103, 2)]) None None.
Definition handle (now : Z) (notif : HostNotification chain) (s : Node) :=
  handle_notification (NE:=Empty_set) (SE:=unit) (PE:=unit) (Ext:=block) now notif s.
Definition poll (now : Z) (s : Node) (fm : FilterManager log_filter) :=
  poll_node (CE:=unit) (TX:=unit) (HE:=unit) StorageRpcConfig_default 1 now s fm.

Definition filters0 : FilterManager log_filter :=
  rpc_filters (new_filter (CE:=unit) (SE:=unit) (HE:=unit) 1 watch (rpc_shared node0 FilterManager_new)).2.
Definition node1 : Node := (handle 2 commit node0).2.
Definition filters1 : FilterManager log_filter := rpc_filters (poll 3 node1 filters0).2.
Definition node2 : Node := (handle 4 reorg node1).2.
End SamplePollNode.
Import SamplePollNode.

(** The client installs its filter at block 1, polls after block 102 of the host,
    and again after the reorg that replaces it. *)
Lemma node_polling_client_witness :
  let old := block_logs (2, 1) in
  exists out rpc', poll 5 node2 filters1 = (Ok out, rpc')
    /\ nd_storage node2 = [(1, 1); (2, 2); (3, 2)]
    /\ apply_output out old = logs_between watch (canon_of block_logs (nd_storage node2)) 2 3
    /\ apply_output out old = (block_logs (2, 2) ++ block_logs (3, 2))%list.
Proof.
  intros old. destruct (poll 5 node2 filters1) as [r rpc'] eqn:Hp. pose proof Hp as Hr.
  apply (f_equal fst) in Hr. vm_compute in Hr. destruct r as [out| |]; [|discriminate Hr..].
  exists out, rpc'. split; [done|]. split; [by vm_compute|]. split; [|by injection Hr as <-]. clear Hr.
  apply (node_polling_client (NE:=Empty_set) (SE:=unit) (PE:=unit) (Ext:=block) (C:=chain) (B:=block)
    (CE:=unit) (TX:=unit) (HE:=unit) id fst block_logs StorageRpcConfig_default watch 1
    (mkWorld node0 [(100, 0); (101, 1)] filters0 1 [] 2)
    (mkWorld node2 [(100, 0); (101, 1); (102, 2); (103, 2)] filters1 4 old 2) 5 out rpc'); [| |done|exact Hp].
  - split; [split_and!; [done|done|]|].
    { apply (exec_block _ _ [] [] [] (1, 1) tt (1, 1) tt); [constructor|done|done]. }
    split; [done|]. split; [done|]. split; [split; constructor|]. split; [|done].
    exists FilterManager_new. by unfold filters0.
  - assert (apply_output (BufLog old) [] = old) as Hold by by vm_compute.
    assert (host_apply (C:=chain) reorg [(100, 0); (101, 1); (102, 1)] = [(100, 0); (101, 1); (102, 2); (103, 2)])
      as Hchain by by vm_compute.
    eapply rtc_l; [apply (world_notification (NE:=Empty_set) (SE:=unit) (PE:=unit) (Ext:=block) (C:=chain) (B:=block) (CE:=unit)
      (TX:=unit) (HE:=unit) StorageRpcConfig_default 1 node0 node1 [(100, 0); (101, 1)] filters0 1 [] 2 2 commit);
      try by vm_compute|].
    eapply rtc_l; [apply (world_poll (NE:=Empty_set) (SE:=unit) (PE:=unit) (Ext:=block) (C:=chain) (B:=block) (CE:=unit)
      (TX:=unit) (HE:=unit) StorageRpcConfig_default 1 node1 [(100, 0); (101, 1); (102, 1)] filters0 2 [] 2 3 (BufLog old)
      (poll 3 node1 filters0).2); by vm_compute|]. rewrite Hold, <- Hchain.
    fold filters1. change 2 with (low_after (C:=chain) reorg 2) at 2.
    apply rtc_once, (world_notification (NE:=Empty_set) (SE:=unit) (PE:=unit) (Ext:=block) (C:=chain) (B:=block) (CE:=unit)
      (TX:=unit) (HE:=unit) StorageRpcConfig_default 1 node1 node2 [(100, 0); (101, 1); (102, 1)] filters1 3 old 2 4 reorg);
      try by vm_compute.
    intros _ entry He. vm_compute in He. injection He as <-. vm_compute. lia.
Defined.
