(* ===== verification/HarnessChecks.v ===== *)
(** * Reads and guards of the test harness ([crates/node-tests/src/context.rs])

    What tests read of the rollup's state, the guards that remember a nonce or a
    balance and assert how it changed, the balances minted at start-up and the
    check of the genesis allocations.  A failed [unwrap] or assertion is a
    panic.  The 256-bit integers are alloy's. *)

From S2P Require Import Prelude HostTypes BlockTags Primitives Storage Node.

(** Operations of [U256] and of the signed [I256]. *)
Inductive Sign := Positive | Negative.
#[export] Instance Sign_eq_dec : EqDecision Sign.
Proof. solve_decision. Defined.

Class U256Ops := {
  u256_add : Z -> Z -> Z; u256_sub : Z -> Z -> Z; u256_saturating_add : Z -> Z -> Z }.
Class I256Ops (I : Type) := {
  into_sign_and_abs : I -> Sign * Z;
  checked_from_sign_and_abs : Sign -> Z -> option I }.

Definition max256 : Z := 2 ^ 256 - 1.

(** Arithmetic is exact in range; zero has the positive sign. *)
Class LawfulU256 `{U256Ops} : Prop := {
  u256_add_exact a b : 0 <= a -> 0 <= b -> a + b <= max256 -> u256_add a b = a + b;
  u256_sub_exact a b : 0 <= b <= a -> a <= max256 -> u256_sub a b = a - b }.
Class LawfulI256 (I : Type) `{I256Ops I} : Prop := {
  sign_abs_back sign abs i : 0 <= abs -> checked_from_sign_and_abs sign abs = Some i ->
    into_sign_and_abs i = (if abs =? 0 then Positive else sign, abs);
  sign_abs_fits sign abs : 0 <= abs < 2 ^ 255 -> is_Some (checked_from_sign_and_abs (I:=I) sign abs) }.

(** The accounts of hot storage, by a reader [Rd] or a writer [Wr]. *)
Class AccountReads (Rd HE : Type) := {
  get_account : Rd -> Address -> res HE (option Account);
  get_storage : Rd -> Address -> Z -> res HE (option Z) }.
Class AccountWrites (Wr HE : Type) := { put_account : Address -> Account -> st Wr HE unit }.

(** [Result::unwrap], and an assertion. *)
Definition unwrap {E F A} (r : res E A) : res F A := match r with Ok a => Ok a | _ => Panic end.
Definition assert {E} (b : bool) : res E unit := if b then Ok tt else Panic.
Definition default_account : Account := mkAccount 0 0 None.

(** What a genesis allocation is checked for. *)
Record GenesisAccount (Code : Type) := mkAlloc {
  al_balance : Z; al_nonce : option Z; al_code : option Code; al_storage : option (list (B256 * B256)) }.
Arguments mkAlloc {Code} _ _ _ _.
Arguments al_balance {Code} _.
Arguments al_nonce {Code} _.
Arguments al_code {Code} _.
Arguments al_storage {Code} _.

Section checks.
Context {S SE HE Rd Code CE T F L USE Ex UL E I : Type}
  `{!HotStorage S SE HE Rd Code, !AccountReads Rd HE, !ColdStorage S CE T F L,
    !UnifiedStorage S USE Ex UL, !U256Ops, !I256Ops I}.
Variable is_empty : Account -> bool.
Variable keccak256 : Code -> B256.
Abbreviation result := (res E).

(** ** Reads *)
Definition account (db : S) (address : Address) : result (option Account) :=
  rd ← unwrap (reader db); unwrap (get_account rd address).
Definition nonce (db : S) (address : Address) : result Z :=
  (fun a => acct_nonce (default default_account a)) <$> account db address.
Definition balance_of (db : S) (address : Address) : result Z :=
  (fun a => acct_balance (default default_account a)) <$> account db address.
Definition account_at_height (db : S) (address : Address) (height : Z) : result (option Account) :=
  rd ← unwrap (reader db);
  a ← unwrap (get_account_at_height rd address (Some height));
  Ok (a ≫= fun a => if is_empty a then None else Some a).
Definition header_by_number (db : S) (number : Z) : result (option SealedHeader) :=
  rd ← unwrap (reader db); unwrap (get_header rd number).
Definition tip_block_number (db : S) : result Z := default 0 <$> unwrap (last_block_number db).
Definition transactions_in_block (db : S) (block : Z) : result (list T) :=
  unwrap (get_transactions_in_block db block).
Definition transaction_by_hash (db : S) (hash : B256) : result (option T) :=
  (fun found : option (T * ConfirmationMeta) => fst <$> found) <$> unwrap (get_tx_by_hash db hash).

(** ** The guards: an address and the value last seen *)
Record Checks := mkChecks { ck_address : Address; ck_stored : Z }.
Abbreviation G := (st Checks E).

Definition set_stored (v : Z) (g : Checks) : Checks := mkChecks (ck_address g) v.
(** Reads the value anew and returns the one seen before. *)
Definition update (read : Address -> result Z) : G Z := fun g =>
  match read (ck_address g) with
  | Ok v => (Ok (ck_stored g), set_stored v g)
  | Err e => (Err e, g)
  | Panic => (Panic, g)
  end.
Definition stored : G Z := fun g => (Ok (ck_stored g), g).

(** *** [NonceChecks] *)
Definition NonceChecks_new (db : S) (address : Address) : result Checks :=
  mkChecks address <$> nonce db address.
Definition update_nonce (db : S) : G Z := update (nonce db).
Definition assert_increase_by (db : S) (amount : Z) : G unit :=
  old_nonce ← update_nonce db; now ← stored; st_lift (assert (now =? add64 old_nonce amount)).
Definition assert_incremented (db : S) : G unit := assert_increase_by db 1.

(** *** [BalanceChecks] *)
Definition BalanceChecks_new (db : S) (address : Address) : result Checks :=
  mkChecks address <$> balance_of db address.
Definition update_balance (db : S) : G Z := update (balance_of db).

Definition assert_change (db : S) (change : I) : G unit :=
  old_balance ← update_balance db; now ← stored;
  let actual := if old_balance <? now then (Positive, u256_sub now old_balance)
                else (Negative, u256_sub old_balance now) in
  st_lift (assert (bool_decide (actual = into_sign_and_abs change))).
Definition assert_decrease (db : S) : G unit :=
  old_balance ← update_balance db; now ← stored; st_lift (assert (now <? old_balance)).
Definition assert_decrease_at_least (db : S) (amount : Z) : G unit :=
  old_balance ← update_balance db; now ← stored; st_lift (assert (now <=? u256_sub old_balance amount)).
Definition assert_decrease_exact (db : S) (amount : Z) : G unit :=
  change ← st_lift (expect (checked_from_sign_and_abs Negative amount)); assert_change db change.
Definition assert_increase (db : S) : G unit :=
  old_balance ← update_balance db; now ← stored; st_lift (assert (old_balance <? now)).
Definition assert_increase_at_least (db : S) (amount : Z) : G unit :=
  old_balance ← update_balance db; now ← stored; st_lift (assert (u256_add old_balance amount <=? now)).
Definition assert_increase_exact (db : S) (amount : Z) : G unit :=
  change ← st_lift (expect (checked_from_sign_and_abs Positive amount)); assert_change db change.
Definition assert_no_change (db : S) : G unit :=
  old_balance ← update_balance db; now ← stored; st_lift (assert (now =? old_balance)).
Definition assert_eq (db : S) (expected : Z) : G unit :=
  _ ← update_balance db; now ← stored; st_lift (assert (now =? expected)).

(** ** Genesis *)
Fixpoint verify_storage (rd : Rd) (address : Address) (slots : list (B256 * B256)) : result unit :=
  match slots with
  | [] => Ok tt
  | (key, value) :: slots =>
      v ← unwrap (get_storage rd address key);
      _ ← assert (bool_decide (v = Some value)); verify_storage rd address slots
  end.
Definition verify_alloc (db : S) (address : Address) (alloc : GenesisAccount Code) : result unit :=
  account ← account db address ≫= expect;
  _ ← assert (acct_balance account =? al_balance alloc);
  _ ← assert (acct_nonce account =? default 0 (al_nonce alloc));
  _ ← assert (bool_decide (acct_bytecode_hash account = keccak256 <$> al_code alloc));
  match al_storage alloc with
  | None => Ok tt
  | Some slots => rd ← unwrap (reader db); verify_storage rd address slots
  end.
Fixpoint verify_each (db : S) (allocs : list (Address * GenesisAccount Code)) : result unit :=
  match allocs with
  | [] => Ok tt
  | (address, alloc) :: allocs => _ ← verify_alloc db address alloc; verify_each db allocs
  end.
(** On any other block than the genesis nothing is checked. *)
Definition verify_allocs (db : S) (allocs : list (Address * GenesisAccount Code)) : result unit :=
  tip ← tip_block_number db; if tip =? 0 then verify_each db allocs else Ok tt.

(** The balances minted when a context is made: all accounts are read before
    the first is written. *)
Definition minted (amount : Z) (existing : Account) : Account :=
  mkAccount (acct_nonce existing) (u256_saturating_add (acct_balance existing) amount)
    (acct_bytecode_hash existing).
Definition existing_accounts (rd : Rd) (addresses : list Address) : res HE (list Account) :=
  foldr (fun address rest => a ← get_account rd address; k ← rest; Ok (default default_account a :: k))
    (Ok []) addresses.
Definition mint_accounts {Wr} `{!AccountWrites Wr HE} (amount : Z) (addresses : list Address)
    (existing : list Account) : st Wr HE (list unit) :=
  st_mapM (fun '(address, a) => put_account address (minted amount a)) (zip addresses existing).
End checks.

Section props.
Context {S SE HE Rd Code E I : Type}
  `{!HotStorage S SE HE Rd Code, !AccountReads Rd HE, !U256Ops, !I256Ops I, !LawfulU256, !LawfulI256 I}.
Abbreviation G := (st Checks E).
Implicit Types (db : S) (g : Checks).

Lemma assert_ok {F} b : assert (E:=F) b = Ok tt <-> b = true.
Proof. by destruct b. Qed.

(** A guard whose account can be read: it decides, and remembers what it read. *)
Lemma guard_decides (read : Address -> res E Z) (test : Z -> Z -> bool) g now :
  read (ck_address g) = Ok now ->
  (old ← update read; v ← stored; st_lift (assert (test old v))) g
  = (assert (test (ck_stored g) now), set_stored now g).
Proof. intros Hr. unfold mbind, st_bind, update. by rewrite Hr. Qed.

(** [assert_change] accepts a rise as a positive and anything else as a
    negative change. *)
Lemma assert_change_decides db (change : I) g now :
  balance_of (E:=E) db (ck_address g) = Ok now -> 0 <= ck_stored g <= max256 -> 0 <= now <= max256 ->
  assert_change (E:=E) db change g
  = (assert (bool_decide ((if ck_stored g <? now then (Positive, now - ck_stored g)
                           else (Negative, ck_stored g - now)) = into_sign_and_abs change)),
     set_stored now g).
Proof.
  intros Hb Ho Hn. unfold assert_change, update_balance.
  rewrite (guard_decides (balance_of db) (fun old v => bool_decide
    ((if old <? v then (Positive, u256_sub v old) else (Negative, u256_sub old v)) = into_sign_and_abs change)) g now Hb).
  f_equal. f_equal. apply bool_decide_ext. destruct (Z.ltb_spec (ck_stored g) now); by rewrite u256_sub_exact by lia.
Qed.

(** What the guards on an exact change accept: the balance went up, or down, by
    exactly the amount, and the amount is not zero: a balance that is asserted
    to change by zero and does not change is reported as a failure. Either way
    the guard remembers the balance it read. *)
Theorem exact_guards db amount g now :
  balance_of (E:=E) db (ck_address g) = Ok now -> 0 <= ck_stored g <= max256 -> 0 <= now <= max256 ->
  0 <= amount < 2 ^ 255 ->
  ((assert_increase_exact (E:=E) (I:=I) db amount g).1 = Ok tt <-> 0 < amount /\ now = ck_stored g + amount)
  /\ ((assert_decrease_exact (E:=E) (I:=I) db amount g).1 = Ok tt <-> 0 < amount /\ now = ck_stored g - amount)
  /\ (assert_increase_exact (E:=E) (I:=I) db amount g).2 = set_stored now g
  /\ (assert_decrease_exact (E:=E) (I:=I) db amount g).2 = set_stored now g.
Proof.
  intros Hb Ho Hn Ha. unfold assert_increase_exact, assert_decrease_exact, mbind, st_bind, st_lift, expect.
  destruct (sign_abs_fits (I:=I) Positive amount Ha) as [up Hup],
    (sign_abs_fits (I:=I) Negative amount Ha) as [down Hdown].
  rewrite Hup, Hdown, !(assert_change_decides db _ g now Hb Ho Hn). cbn [fst snd].
  rewrite !assert_ok, !bool_decide_eq_true, (sign_abs_back _ _ _ (proj1 Ha) Hup), (sign_abs_back _ _ _ (proj1 Ha) Hdown).
  split; [|split; [|done]]; destruct (Z.ltb_spec (ck_stored g) now), (Z.eqb_spec amount 0);
    split; try (intros [= ?]; lia); intros [? ?]; try lia; f_equal; lia.
Qed.

(** The bounds are sound and complete as long as they do not leave the 256
    bits. *)
Theorem bound_guards db amount g now :
  balance_of (E:=E) db (ck_address g) = Ok now -> 0 <= amount ->
  (amount <= ck_stored g <= max256 ->
     (assert_decrease_at_least (E:=E) db amount g).1 = Ok tt <-> amount <= ck_stored g - now)
  /\ (0 <= ck_stored g -> ck_stored g + amount <= max256 ->
     (assert_increase_at_least (E:=E) db amount g).1 = Ok tt <-> amount <= now - ck_stored g).
Proof.
  intros Hb Ha. unfold assert_decrease_at_least, assert_increase_at_least, update_balance.
  rewrite (guard_decides (balance_of db) (fun old v => v <=? u256_sub old amount) g now Hb),
    (guard_decides (balance_of db) (fun old v => u256_add old amount <=? v) g now Hb).
  cbn [fst]. rewrite !assert_ok, !Z.leb_le. split; intros.
  - rewrite u256_sub_exact by lia. lia.
  - rewrite u256_add_exact by lia. lia.
Qed.

(** A nonce guard accepts exactly the given number of transactions. *)
Theorem nonce_guard db amount g now :
  nonce (E:=E) db (ck_address g) = Ok now -> u64_ok (ck_stored g + amount) ->
  assert_increase_by db amount g = (assert (E:=E) (now =? ck_stored g + amount), set_stored now g).
Proof.
  intros Hn Hw. unfold assert_increase_by, update_nonce.
  rewrite (guard_decides (nonce db) (fun old v => v =? add64 old amount) g now Hn).
  by rewrite add64_exact.
Qed.
End props.
