(* ===== verification/ReplicaRpc.v ===== *)
(** * The RPC notifier follows a host chain

    The RPC notifier ([crates/host-rpc/src/notifier.rs]) discharges the contract
    [Follower] of the node: the chain of the blocks it announced since
    [set_head] stays numbered without a gap from the requested block, its view
    is the end of that chain, and it goes astray only where it announces a head
    from an empty view with no backfill pending. *)

From S2P Require Import Prelude HostTypes Primitives BlockTags Interest ChainNotifier BlockProcessor.
From S2P Require Import HostRpc HostRpcView HostRpcNotifier Node NodeProps Replica.

Section follower.
Context {P PE PB PR T R : Type} `{!Provider P PE PB PR T R, !HeaderOps}.
Context (header_of : B256 -> option Header) `{!LawfulProvider (P:=P) header_of}.
Abbreviation segment := (RpcChainSegment T R).
Implicit Types (n m : RpcHostNotifier) (h : RpcHost P) (hc : list (RpcBlock T R)).

#[export] Instance rpc_blocks : HostBlocks segment (RpcBlock T R) :=
  {| chain_blocks := blocks; blk_number := block_number |}.

(** The notifier as the builder leaves it, started at a height and with a
    batch size the invariant allows. *)
Definition rpc_fresh (bf : option Z) (start : Z) h : Prop :=
  host_inv header_of (host_notifier h) /\ head_set (host_notifier h) = false
  /\ chain_view (host_notifier h) = [] /\ 0 <= start < 2 ^ 63 /\ default 1 bf <= 2 ^ 63.

(** The notifier announced [hc] since it was started at [start]. *)
Record rpc_follows (start : Z) hc h : Prop := {
  rf_inv : host_inv header_of (host_notifier h);
  rf_numbered : numbered_from (C:=segment) start hc;
  rf_last : last_emitted (host_notifier h) = last (block_entry <$> hc);
  rf_view : chain_view (host_notifier h) `suffix_of` (block_entry <$> hc);
  rf_cursor : hc = [] ->
    backfill_from (host_notifier h) = Some start \/ backfill_from (host_notifier h) = None }.

(** It will announce a head with nothing to anchor it. *)
Definition rpc_astray (_ : Z) (_ : unit) h : Prop :=
  exists (m : RpcHost P) notif h', rtc silent h m /\ emits (T:=T) (R:=R) m notif h'
    /\ chain_view (host_notifier m) = [] /\ backfill_from (host_notifier m) = None.

Lemma entries_numbered_from start hc :
  numbered_from (C:=segment) start hc <-> numbered start (block_entry <$> hc).
Proof.
  unfold numbered_from, numbered. by rewrite <- list_fmap_compose, length_fmap.
Qed.

Lemma last_n_suffix {A} k (l : list A) : last_n k l `suffix_of` l.
Proof. exists (take (length l - k) l). unfold last_n. by rewrite take_drop. Qed.

Lemma suffix_filter {A} (Q : A -> Prop) `{forall x, Decision (Q x)} (l k : list A) :
  l `suffix_of` k -> filter Q l `suffix_of` filter Q k.
Proof. intros [x ->]. exists (filter Q x). by rewrite filter_app. Qed.

Lemma below_entries k hc :
  block_entry <$> below (C:=segment) k hc = filter (fun e => fst e < k) (block_entry <$> hc).
Proof.
  unfold below. cbn [blk_number rpc_blocks]. induction hc as [|b hc IH]; [done|]. csimpl.
  rewrite !filter_cons. simpl. destruct (decide (block_number b < k)); csimpl; by rewrite IH.
Qed.

(** The view after an emission is the end of the announced chain. *)
Lemma view_after_suffix hc m n' (notif : HostNotification segment) :
  chain_view m `suffix_of` (block_entry <$> hc) -> view_after m n' (kind notif) ->
  chain_view n' `suffix_of` (block_entry <$> host_apply notif hc).
Proof.
  unfold view_after, host_apply, seg_entries. intros Hs ->. etrans; [apply last_n_suffix|].
  destruct (kind notif) as [seg|old|old seg]; simpl; rewrite ?fmap_app, ?below_entries.
  - by apply suffix_app.
  - rewrite app_nil_r. by apply suffix_filter.
  - by apply suffix_app, suffix_filter.
Qed.

Lemma rpc_position start hc h k g :
  rpc_follows start hc h -> last_emitted (host_notifier h) = Some (k, g) ->
  hc <> [] /\ k = start + Z.of_nat (length hc) - 1.
Proof.
  intros [_ Hn Hl _ _] Hk. rewrite Hl in Hk. split; [by intros ->|].
  apply entries_numbered_from in Hn. rewrite (numbered_last _ _ _ Hn Hk : k = _), length_fmap. done.
Qed.

(** The last entry of a chain that a non-empty segment was put on. *)
Lemma last_entries_app (l : list (RpcBlock T R)) (seg : segment) :
  blocks seg <> [] -> last (seg_entries seg) = last (block_entry <$> (l ++ blocks seg)).
Proof.
  intros Hne. rewrite fmap_app. unfold seg_entries.
  destruct (last (block_entry <$> blocks seg)) as [e|] eqn:El; [symmetry; by apply last_app_some|].
  apply last_None in El. by destruct (blocks seg).
Qed.

(** The first segment of a session starts where the backfill was told to. *)
Lemma rpc_first_emission start hc h (m : RpcHost P) notif h' seg :
  rpc_follows start hc h -> rtc silent h m -> emits m notif h' ->
  ~ (chain_view (host_notifier m) = [] /\ backfill_from (host_notifier m) = None) ->
  last_emitted (host_notifier h) = None -> kind notif = ChainCommitted seg ->
  hc = [] /\ numbered start (seg_entries seg).
Proof.
  intros Hr Hm He Hanchor Hla Hk.
  destruct (silent_steps_ok header_of _ _ Hm (rf_inv _ _ _ Hr)) as (Him & _ & Hvm & Hbm).
  pose proof (rf_last _ _ _ Hr) as Hl0. rewrite Hla in Hl0. symmetry in Hl0.
  apply last_None, fmap_nil_inv in Hl0 as ->. split; [done|].
  pose proof (rf_view _ _ _ Hr) as Hv. simpl in Hv. apply suffix_nil_inv in Hv.
  assert (chain_view (host_notifier m) = []) as Hvm' by (destruct Hvm as [->| ->]; done).
  destruct He as [n p n' p' hs no from Hb Hd|]; [|by destruct Hanchor].
  destruct (drain_backfill_cases header_of _ _ _ _ _ _ Him Hb Hd) as [_ Hcase].
  destruct Hcase as (seg' & to & Hk' & Hle & Hnums & _). rewrite Hk in Hk'. injection Hk' as <-.
  assert (from = start) as ->.
  { simpl in *. rewrite Hla in Hbm. cbn in Hbm. destruct (rf_cursor _ _ _ Hr eq_refl), Hbm as [|[|]]; congruence. }
  by eapply entries_numbered.
Qed.

(** A revert down to an entry of the view leaves a non-empty numbered chain. *)
Lemma below_view_numbered start hc h k anc (seg : segment) :
  rpc_follows start hc h -> last_emitted (host_notifier h) <> None ->
  (k - 1, anc) ∈ chain_view (host_notifier h) ->
  k - 1 <= start + Z.of_nat (length hc) - 1 -> numbered k (seg_entries seg) ->
  start <= k - 1 /\ numbered_from start (below k hc ++ blocks seg).
Proof.
  intros Hr _ Hin Hpos Hn.
  assert (start <= k - 1) as Hfirst.
  { eapply view_entry_number; [apply entries_numbered_from, (rf_numbered _ _ _ Hr)|].
    destruct (rf_view _ _ _ Hr) as [x Hx]. rewrite Hx. apply elem_of_app. by right. }
  split; [done|]. rewrite (below_take _ _ _ (rf_numbered _ _ _ Hr)). apply numbered_from_app.
  rewrite length_take_le by lia. split.
  - pose proof (rf_numbered _ _ _ Hr) as Hn0. rewrite <- (take_drop (Z.to_nat (k - start)) hc) in Hn0.
    by apply numbered_from_app in Hn0 as [? _].
  - apply entries_numbered_from. by replace (start + Z.of_nat (Z.to_nat (k - start))) with k by lia.
Qed.

(** From a state that silent steps reach, an anchored emission fits. *)
Lemma rpc_emission_fits start hc h (m : RpcHost P) notif h' :
  rpc_follows start hc h -> rtc silent h m -> emits m notif h' ->
  ~ (chain_view (host_notifier m) = [] /\ backfill_from (host_notifier m) = None) ->
  fits start hc notif /\ host_apply notif hc <> []
  /\ last_emitted (host_notifier h') = last (block_entry <$> host_apply notif hc).
Proof.
  intros Hr Hm He Hanchor. destruct (silent_steps_ok header_of _ _ Hm (rf_inv _ _ _ Hr)) as (Him & Hlm & Hvm & _).
  destruct (emits_ok header_of _ _ _ He Him) as (_ & Ho & _).
  unfold fits, emitted_ok, host_apply, revert_range in *. rewrite Hlm in Ho.
  destruct (kind notif) as [seg|old|old seg] eqn:Hk; [|done|]; simpl in *.
  - destruct Ho as (Hne & Hl & [Hc|]); [|done].
    split; [|split; [by destruct hc, (blocks seg)|by rewrite Hl; apply last_entries_app]].
    split; [|done]. apply numbered_from_app. split; [apply Hr|]. apply entries_numbered_from.
    destruct (last_emitted (host_notifier h)) as [[k g]|] eqn:Hla.
    + destruct (rpc_position _ _ _ _ _ Hr Hla) as [_ ->]. destruct (Hc _ _ eq_refl) as [Hn _].
      by replace (start + Z.of_nat (length hc)) with (start + Z.of_nat (length hc) - 1 + 1) by lia.
    + destruct (rpc_first_emission _ _ _ _ _ _ _ Hr Hm He Hanchor Hla Hk) as [-> Hn]. by rewrite Z.add_0_r.
  - destruct Ho as (Hne & Hl & Hwf & Htip & anc & Hin & _ & Hn).
    destruct (last_emitted (host_notifier h)) as [[k g]|] eqn:Hla; [|done]. injection Htip as Hk'; simpl in Hk'.
    destruct (rpc_position _ _ _ _ _ Hr Hla) as [_ Hpos].
    assert ((first old - 1, anc) ∈ chain_view (host_notifier h)) as Hin'
      by (destruct Hvm as [<-|Hv0]; [done|rewrite Hv0 in Hin; by apply not_elem_of_nil in Hin]).
    destruct (below_view_numbered start hc h (first old) anc seg Hr ltac:(by rewrite Hla) Hin' ltac:(lia) Hn)
      as [Hfirst Hnum].
    split; [by split; [|lia]|]. split; [by destruct (below _ hc), (blocks seg)|].
    rewrite Hl. by apply last_entries_app.
Qed.

#[export] Instance rpc_follower :
  Follower (RpcHost P) unit segment (RpcHostError PE) (RpcBlock T R) rpc_fresh rpc_follows rpc_astray.
Proof.
  constructor.
  - intros start h bf (Hi & Hh & Hv & Hs & Hbf). simpl.
    unfold notifier_set_head. rewrite Hh. destruct Hi as [I1 I2 I3 I4 I5 I6 I7]. constructor; simpl; try done.
    + constructor; cbn -[Z.pow Z.max]; try done.
      * unfold DEFAULT_BACKFILL_BATCH_SIZE. destruct bf as [b|]; cbn -[Z.pow Z.max] in *; lia.
      * intros from [= <-]. done.
    + by rewrite Hv.
    + by left.
  - intros start hc h [] h' notif Hr Hn.
    destruct (next_notification_steps header_of _ _ _ (rf_inv _ _ _ Hr) Hn) as (m & Hm & He).
    destruct (decide (chain_view (host_notifier m) = [] /\ backfill_from (host_notifier m) = None))
      as [[Hv Hb]|Hanchor]; [right; by exists m, notif, h'|left].
    destruct (rpc_emission_fits _ _ _ _ _ _ Hr Hm He Hanchor) as (Hf & Hne & Hl).
    destruct (silent_steps_ok header_of _ _ Hm (rf_inv _ _ _ Hr)) as (Him & _ & Hvm & _).
    destruct (emits_ok header_of _ _ _ He Him) as (Hi' & _ & Hv').
    split; [done|]. constructor; [done|apply Hf|done| |done].
    eapply view_after_suffix; [|exact Hv'].
    destruct Hvm as [->| ->]; [apply Hr|apply suffix_nil].
  - by intros start hc h b h' r Hr [= <- <-].
Qed.
End follower.
