(* ===== verification/ReplicaReth.v ===== *)
(** * The Reth notifier follows a host chain

    The ExEx notifier ([crates/host-reth/src/notifier.rs]) discharges the
    contract [Follower] of the node, as the RPC notifier does: the backfill
    announces the blocks of the host's database without a gap, the stream takes
    over at the block above them, and the notifier goes astray only where Reth
    reverts the block the session was started at. *)

From S2P Require Import Prelude HostTypes Primitives BlockTags Interest ChainNotifier Metrics BlockProcessor.
From S2P Require Import RpcConfig Serve HostReth RethContext Node NodeProps Replica.

(** Reth's notification stream, as its documentation has it: [anchored tip ns]
    is that [ns] goes on from a host whose tip is [tip].  A stream with a head
    starts above it; a commit continues at the tip, a revert ends at it, the
    new chain of a reorg starts where the old one did, and a chain is not empty
    and numbered without a gap. *)
Class LawfulExEx (NS NE LC P PE K R : Type) `{!RethProvider P PE K R, !LiveChain LC K R, !ExExStream NS NE LC}
    (anchored : Z -> NS -> Prop) : Prop := {
  set_with_head_anchored n hash ns : anchored n (set_with_head (n, hash) ns);
  live_numbered (c : LC) :
    reth_number ∘ fst <$> live_blocks c = seqZ (live_first c) (Z.of_nat (length (live_blocks c)))
    /\ live_blocks c <> [] /\ live_tip c = live_first c + Z.of_nat (length (live_blocks c)) - 1;
  stream_commit tip ns new ns' :
    anchored tip ns -> stream_next ns = (Some (Ok (ExCommitted new)), ns') ->
    live_first new = tip + 1 /\ anchored (live_tip new) ns';
  stream_revert tip ns old ns' :
    anchored tip ns -> stream_next ns = (Some (Ok (ExReverted old)), ns') ->
    live_tip old = tip /\ anchored (live_first old - 1) ns';
  stream_reorg tip ns old new ns' :
    anchored tip ns -> stream_next ns = (Some (Ok (ExReorged old new)), ns') ->
    live_tip old = tip /\ live_first new = live_first old /\ anchored (live_tip new) ns' }.

Section follower.
Context {NS NE LC P PE K R : Type}
  `{!RethProvider P PE K R, !LiveChain LC K R, !ExExStream NS NE LC}
  (anchored : Z -> NS -> Prop)
  `{!LawfulReth (P:=P) (PE:=PE) (K:=K) (R:=R), !LawfulExEx NS NE LC P PE K R anchored}.
Abbreviation Chain := (HostChain LC K R).
Abbreviation Notifier := (RethHostNotifier NS P).
Abbreviation block := (K * list R)%type.
Implicit Types (n : Notifier) (hc : list block).

#[export] Instance reth_blocks : HostBlocks Chain block :=
  {| chain_blocks := blocks_and_receipts; blk_number := reth_number ∘ fst |}.

(** The notifier as [decompose_exex_context] leaves it, started at a height
    and with a batch size in range. *)
Definition reth_fresh (bf : option Z) (start : Z) n : Prop :=
  rn_head_set n = false /\ 1 <= start < 2 ^ 63 /\ default 1 bf <= 2 ^ 63.

(** The notifier announced [hc] since it was started at [start]: its cursor is
    above [hc], or the stream goes on from there. *)
Definition reth_follows (start : Z) hc n : Prop :=
  numbered_from (C:=Chain) start hc /\ 1 <= start
  /\ match rn_backfill n with
     | Some b => backfill_ok b /\ cursor b = start + Z.of_nat (length hc)
     | None => anchored (start + Z.of_nat (length hc) - 1) (rn_notifications n)
     end.

(** Reth reverts the block the session was started at. *)
Definition reth_astray (start : Z) (w : unit) n : Prop :=
  exists n' (notif : HostNotification Chain) range,
    next_notification w n = (n', Some (Ok notif))
    /\ revert_range notif = Some range /\ first range <= start.

(** ** Backfill *)
Lemma segment_numbered (segment : list (DbBlock K R)) from :
  numbered_from (C:=Chain) from (blocks_and_receipts (LC:=LC) (Backfill segment))
  <-> segment_numbers segment = seqZ from (Z.of_nat (length segment)).
Proof.
  unfold numbered_from, segment_numbers. simpl. by rewrite length_fmap, <- list_fmap_compose.
Qed.

Lemma backfill_extends start hc n b n' segment b' (notif : HostNotification Chain) :
  numbered_from (C:=Chain) start hc -> cursor b = start + Z.of_nat (length hc) ->
  kind notif = ChainCommitted (Backfill segment) ->
  segment_numbers segment = range_incl (cursor b) (cursor b' - 1) -> cursor b < cursor b' ->
  numbered_from (C:=Chain) start (host_apply notif hc)
  /\ cursor b' = start + Z.of_nat (length (host_apply notif hc)).
Proof.
  intros Hn Hc Hk Hs Hlt. unfold host_apply. rewrite Hk. cbn [chain_blocks reth_blocks].
  pose proof (f_equal length Hs) as Hlen. unfold segment_numbers in Hlen. rewrite length_fmap in Hlen.
  pose proof (length_range_incl (cursor b) (cursor b' - 1)) as Hr. rewrite <- Hlen in Hr.
  split.
  - apply numbered_from_app. split; [done|]. apply segment_numbered. rewrite Hs, <- Hc.
    unfold range_incl. f_equal. lia.
  - rewrite length_app. simpl. rewrite length_fmap. lia.
Qed.

(** ** The stream *)

(** What a live notification carries. *)
Definition live_event (x : ExExNotification LC) (k : HostNotificationKind Chain) : Prop :=
  match x with
  | ExCommitted new => k = ChainCommitted (Live new)
  | ExReverted old => exists r, k = ChainReverted r /\ r = mkRevertRange (live_first old) (live_tip old)
  | ExReorged old new =>
      exists r, k = ChainReorged r (Live new) /\ r = mkRevertRange (live_first old) (live_tip old)
  end.

Lemma live_phase_event n (notif : HostNotification Chain) n' :
  live_phase (NE:=NE) n = (Ok (Some notif), n') ->
  exists x, stream_next (rn_notifications n) = (Some (Ok x), rn_notifications n')
    /\ live_event x (kind notif) /\ rn_backfill n' = rn_backfill n.
Proof.
  unfold live_phase. destruct (stream_next (rn_notifications n)) as [[found|] ns]; [|discriminate].
  intros Hl. apply st_bind_ok in Hl as (x & n1 & Hx & Hl). injection Hx as Hx <-. apply map_err_ok in Hx as ->.
  apply st_bind_ok in Hl as (safe & n2 & Hs & Hl). apply st_bind_ok in Hl as (fin & n3 & Hf & Hl).
  apply st_bind_ok in Hl as (k & n4 & Hk & Hl). injection Hl as <- <-. cbn [kind].
  apply tag_or_none_frame in Hs as (Hs1 & Hs2 & _), Hf as (Hf1 & Hf2 & _).
  assert (n4 = n3 /\ live_event x k) as [-> He].
  { destruct x as [new|old|old new]; simpl in Hk |- *; [by injection Hk as <- <-| |];
      apply st_bind_ok in Hk as (range & n5 & Ho & Hk); injection Hk as <- <-;
      injection Ho as Ho <-; apply RevertRange_new_ok in Ho as [-> _]; eauto. }
  exists x. by rewrite Hf1, Hf2, Hs1, Hs2.
Qed.

Lemma live_numbered_from (c : LC) :
  numbered_from (C:=Chain) (live_first c) (blocks_and_receipts (Live c)).
Proof. apply (live_numbered (NS:=NS) (NE:=NE) (anchored:=anchored) c). Qed.

Lemma below_numbered start hc k :
  numbered_from (C:=Chain) start hc -> start <= k <= start + Z.of_nat (length hc) ->
  numbered_from (C:=Chain) start (below (C:=Chain) k hc)
  /\ start + Z.of_nat (length (below (C:=Chain) k hc)) = k.
Proof.
  intros Hn Hk. rewrite (below_take _ _ _ Hn). split.
  - rewrite <- (take_drop (Z.to_nat (k - start)) hc) in Hn. by apply numbered_from_app in Hn as [? _].
  - rewrite length_take_le by lia. lia.
Qed.

(** A live notification fits the announced chain, unless it reverts the first
    announced block, and the stream stays anchored. *)
Lemma live_follows start hc n (notif : HostNotification Chain) n' :
  numbered_from (C:=Chain) start hc -> 1 <= start ->
  rn_backfill n = None -> anchored (start + Z.of_nat (length hc) - 1) (rn_notifications n) ->
  live_phase (NE:=NE) n = (Ok (Some notif), n') ->
  fits start hc notif /\ reth_follows start (host_apply notif hc) n'
  \/ exists range, revert_range notif = Some range /\ first range <= start.
Proof.
  intros Hn Hs Hb Ha Hl. apply live_phase_event in Hl as (x & Hx & He & Hb').
  unfold fits, reth_follows, host_apply, revert_range. rewrite Hb', Hb.
  destruct x as [new|old|old new]; simpl in He.
  - left. rewrite He. cbn [kind_revert_range chain_blocks reth_blocks].
    destruct (stream_commit _ _ _ _ Ha Hx) as [Hf Ha'].
    destruct (live_numbered (NS:=NS) (NE:=NE) (anchored:=anchored) new) as (_ & _ & Htip).
    assert (numbered_from (C:=Chain) start (hc ++ blocks_and_receipts (Live new))) as Hnum.
    { apply numbered_from_app. split; [done|].
      replace (start + Z.of_nat (length hc)) with (live_first new) by lia. apply live_numbered_from. }
    split; [done|]. split; [done|]. split; [done|]. rewrite length_app. cbn [blocks_and_receipts].
    by replace (start + Z.of_nat (length hc + length (live_blocks new)) - 1) with (live_tip new) by lia.
  - destruct He as (r & -> & ->). cbn [kind_revert_range first tip].
    destruct (stream_revert _ _ _ _ Ha Hx) as [Htip Ha'].
    destruct (Z.le_gt_cases (live_first old) start) as [Hle|Hgt]; [right; by eexists|left].
    destruct (live_numbered (NS:=NS) (NE:=NE) (anchored:=anchored) old) as (_ & Hne & Hold).
    assert (live_first old <= live_tip old) by (destruct (live_blocks old); simpl in *; [done|lia]).
    destruct (below_numbered start hc (live_first old) Hn) as [Hnum Hlen]; [lia|].
    split; [split; [done|lia]|]. split; [done|]. split; [done|]. by rewrite Hlen.
  - destruct He as (r & -> & ->). cbn [kind_revert_range first tip chain_blocks reth_blocks].
    destruct (stream_reorg _ _ _ _ _ Ha Hx) as (Htip & Hf & Ha').
    destruct (Z.le_gt_cases (live_first old) start) as [Hle|Hgt]; [right; by eexists|left].
    destruct (live_numbered (NS:=NS) (NE:=NE) (anchored:=anchored) old) as (_ & Hne & Hold).
    destruct (live_numbered (NS:=NS) (NE:=NE) (anchored:=anchored) new) as (_ & _ & Hnew).
    assert (live_first old <= live_tip old) by (destruct (live_blocks old); simpl in *; [done|lia]).
    destruct (below_numbered start hc (live_first old) Hn) as [Hnum Hlen]; [lia|].
    assert (numbered_from (C:=Chain) start
              (below (C:=Chain) (live_first old) hc ++ blocks_and_receipts (Live new))) as Hall.
    { apply numbered_from_app. split; [done|]. rewrite Hlen, <- Hf. apply live_numbered_from. }
    split; [split; [done|lia]|]. split; [done|]. split; [done|]. rewrite length_app. cbn [blocks_and_receipts].
    by replace (start + Z.of_nat (length (below (C:=Chain) (live_first old) hc) + length (live_blocks new)) - 1)
      with (live_tip new) by lia.
Qed.

(** ** The contract *)
Lemma reth_next_follows start hc n (notif : HostNotification Chain) n' :
  reth_follows start hc n -> reth_next (NE:=NE) n = (Ok (Some notif), n') ->
  fits start hc notif /\ reth_follows start (host_apply notif hc) n'
  \/ exists range, revert_range notif = Some range /\ first range <= start.
Proof.
  intros (Hn & Hs & Hcase) Hx. unfold reth_next in Hx. destruct (rn_backfill n) as [b|] eqn:Hb.
  2: { by eapply live_follows. }
  destruct Hcase as [Hok Hc]. apply st_bind_ok in Hx as (found & n1 & Hp & Hx).
  apply (backfill_phase_ok b) in Hp; [|done]. destruct found as [found|].
  - injection Hx as -> <-. left.
    destruct Hp as (segment & b' & Hk & Hb' & Hok' & _ & Hlt & Hnum & _).
    destruct (backfill_extends start hc n b n1 segment b' notif Hn Hc Hk Hnum Hlt) as [Hn' Hc'].
    unfold fits, reth_follows, revert_range. rewrite Hb', Hk. by split_and!.
  - destruct Hp as (Hb1 & _ & header & p & p' & _ & Hns).
    eapply live_follows; [done..| |exact Hx].
    rewrite Hns. unfold sat_sub. rewrite Z.max_r by lia. rewrite Hc. apply set_with_head_anchored.
Qed.

(** A pending backfill is in range. *)
Definition backfill_fine n : Prop := forall b, rn_backfill n = Some b -> backfill_ok b.

(** A notifier that was just set going has its backfill in range. *)
Lemma reth_started_fine bf start n :
  reth_fresh bf start n -> backfill_fine (reth_set_backfill_thresholds bf (reth_set_head start n)).
Proof.
  intros (Hh & Hs & Hbf). unfold reth_set_head. rewrite Hh.
  unfold backfill_fine, reth_set_backfill_thresholds. cbn [rn_backfill]. intros b [= <-].
  unfold backfill_ok, set_batch_size, reset_batch_size, DbBackfill_new, DEFAULT_BATCH_SIZE.
  destruct bf as [m|]; cbn -[Z.pow Z.max] in *; split; split; lia.
Qed.
Lemma reth_finished_frame h n n' (r : res (RethHostError NE PE) unit) :
  send_finished_height (W:=unit) (C:=Chain) h n = (n', r) ->
  rn_backfill n' = rn_backfill n /\ rn_notifications n' = rn_notifications n.
Proof.
  intros Hx. simpl in Hx. unfold reth_send_finished_height in Hx.
  unfold mbind, st_bind, with_provider, ask, st_map_err, st_lift, send_event in Hx.
  destruct (sealed_header h (rn_provider n)) as [[found|e|] p]; cbn -[sh_hash] in Hx; [|by injection Hx as <- _..].
  destruct found as [header|]; cbn -[sh_hash] in Hx; [|by injection Hx as <- _].
  destruct (rn_manager_gone n); by injection Hx as <- _.
Qed.

#[export] Instance reth_follower :
  Follower Notifier unit Chain (RethHostError NE PE) block reth_fresh reth_follows reth_astray.
Proof.
  constructor.
  - intros start n bf Hfr. pose proof (reth_started_fine bf start n Hfr) as Hfine.
    destruct Hfr as (Hh & Hs & _). revert Hfine. simpl. unfold reth_set_head. rewrite Hh.
    unfold reth_follows, reth_set_backfill_thresholds. cbn [rn_backfill]. intros Hfine. split; [done|].
    split; [lia|]. split; [by apply Hfine|]. destruct bf; cbn; lia.
  - intros start hc n [] n' notif Hr Hx. pose proof Hx as Hnext. simpl in Hx.
    destruct (reth_next n) as [r n1] eqn:Hn. injection Hx as -> Hr'.
    destruct r as [o|e|]; [|done..]. destruct o as [notif'|]; [|done]. injection Hr' as ->.
    destruct (reth_next_follows start hc n notif n' Hr Hn) as [?|(range & Hrange & Hle)]; [by left|right].
    by exists n', notif, range.
  - intros start hc n h n' r (Hn & Hs & Hcase) Hx. apply reth_finished_frame in Hx as [Hb Hns].
    unfold reth_follows. by rewrite Hb, Hns.
Qed.

(** ** What the notifier reads

    A successful call of [reth_next] announces one of two things: a segment of
    the host's database, or the next item of Reth's stream. *)
Inductive source := FromDatabase (segment : list (DbBlock K R)) | FromStream (x : ExExNotification LC).

Definition source_apply hc (x : source) : list block :=
  match x with
  | FromDatabase segment => hc ++ ((fun d => (db_block d, db_receipts d)) <$> segment)
  | FromStream (ExCommitted new) => hc ++ live_blocks new
  | FromStream (ExReverted old) => below (C:=Chain) (live_first old) hc
  | FromStream (ExReorged old new) => below (C:=Chain) (live_first old) hc ++ live_blocks new
  end.

(** The segment is the provider's, from the cursor and not past the finalized
    block; the cursor moves above it. *)
Definition reads_segment n (segment : list (DbBlock K R)) n' : Prop :=
  exists b fin to p p', rn_backfill n = Some b
    /\ ask (NE:=NE) finalized_number (rn_provider n) = (Ok (Some fin), p)
    /\ cursor b <= fin /\ to <= fin
    /\ read_block_range (NE:=NE) (cursor b) to p = (Ok segment, p')
    /\ rn_backfill n' = Some (mkBackfill (add64 to 1) (batch_size b))
    /\ rn_notifications n' = rn_notifications n.

(** The stream, or the stream restarted above the last backfilled block. *)
Definition live_stream n (ns : NS) : Prop :=
  match rn_backfill n with
  | None => ns = rn_notifications n
  | Some b => exists header p p', sealed_header (sat_sub (cursor b) 1) p = (Ok (Some header), p')
      /\ ns = set_with_head (sat_sub (cursor b) 1, sh_hash header) (rn_notifications n)
  end.

Definition reads n (x : source) n' : Prop :=
  match x with
  | FromDatabase segment => reads_segment n segment n'
  | FromStream x => rn_backfill n' = None
      /\ exists ns, live_stream n ns /\ stream_next ns = (Some (Ok x), rn_notifications n')
  end.

(** A run of reads; between two the node may report a finished height. *)
Inductive reads_all : Notifier -> list source -> Notifier -> Prop :=
| reads_end n : reads_all n [] n
| reads_ended n n' : next_notification tt n = (n', @None (res (RethHostError NE PE) (HostNotification Chain))) -> reads_all n [] n'
| reads_next n x n1 n2 xs n' :
    reads n x n1 ->
    n2 = n1 \/ (exists h r, send_finished_height (W:=unit) (C:=Chain) (E:=RethHostError NE PE) h n1 = (n2, r)) ->
    reads_all n2 xs n' -> reads_all n (x :: xs) n'.

Lemma backfill_phase_reads b n (notif : HostNotification Chain) n' :
  rn_backfill n = Some b -> backfill_phase (NE:=NE) b n = (Ok (Some notif), n') ->
  exists segment, kind notif = ChainCommitted (Backfill segment) /\ reads_segment n segment n'.
Proof.
  intros Hb Hp. unfold backfill_phase in Hp. apply st_bind_ok in Hp as (batch & n1 & Hbatch & Hp).
  unfold with_provider in Hbatch. destruct (next_batch b (rn_provider n)) as [o p1] eqn:Hn.
  injection Hbatch as -> <-. destruct batch as [[segment b']|].
  2:{ apply st_bind_ok in Hp as (? & ? & _ & Hp). apply st_bind_ok in Hp as (? & ? & _ & Hp).
      apply st_bind_ok in Hp as (? & ? & _ & Hp). by apply st_bind_ok in Hp as (? & ? & _ & Hp). }
  apply st_bind_ok in Hp as (u & n2 & Hset & Hp). injection Hset as _ <-.
  apply st_bind_ok in Hp as (sf & n3 & Hs & Hp). apply st_bind_ok in Hp as (fn & n4 & Hf & Hp).
  injection Hp as <- <-. apply tag_or_none_frame in Hs as (Hs1 & Hs2 & _), Hf as (Hf1 & Hf2 & _).
  unfold next_batch in Hn. apply st_bind_ok in Hn as (fin & p2 & Hfin & Hn).
  destruct fin as [fin|]; [|discriminate]. destruct (Z.ltb_spec fin (cursor b)) as [|Hle]; [discriminate|].
  apply st_bind_ok in Hn as (seg & p3 & Hr & Hn). injection Hn as -> <- <-.
  exists segment. split; [done|]. eexists b, fin, _, p2, p3. rewrite Hf1, Hf2, Hs1, Hs2. cbn.
  split_and!; [done|done|lia| |exact Hr|done|done]. lia.
Qed.

Lemma reth_next_reads n (notif : HostNotification Chain) n' hc :
  backfill_fine n -> reth_next (NE:=NE) n = (Ok (Some notif), n') ->
  backfill_fine n' /\ exists x, reads n x n' /\ host_apply notif hc = source_apply hc x.
Proof.
  intros Hok Hx. unfold reth_next in Hx.
  assert (forall m, rn_backfill m = None -> live_phase (NE:=NE) m = (Ok (Some notif), n') ->
    rn_backfill n' = None /\ exists x, stream_next (rn_notifications m) = (Some (Ok x), rn_notifications n')
      /\ host_apply notif hc = source_apply hc (FromStream x)) as Hlive.
  { intros m Hm Hl. apply live_phase_event in Hl as (x & Hx' & He & Hb').
    split; [by rewrite Hb'|]. exists x. split; [done|]. unfold host_apply.
    destruct x as [new|old|old new]; simpl in He; [by rewrite He|by destruct He as (r & -> & ->)..]. }
  assert (rn_backfill n' = None -> backfill_fine n') as Hfine by by intros Hn b; rewrite Hn.
  destruct (rn_backfill n) as [b|] eqn:Hb.
  2:{ destruct (Hlive n Hb Hx) as (H1 & x & H2 & H3). split; [by apply Hfine|]. exists (FromStream x).
      split; [|done]. split; [done|]. exists (rn_notifications n). unfold live_stream. by rewrite Hb. }
  apply st_bind_ok in Hx as (found & n1 & Hp & Hx).
  pose proof (backfill_phase_ok b _ _ _ (Hok _ Hb) Hp) as Hphase. destruct found as [found|].
  - injection Hx as -> <-. apply backfill_phase_reads in Hp as (segment & Hk & Hr); [|done].
    split; [destruct Hphase as (? & b' & _ & Hb' & Hok' & _); intros b1; rewrite Hb'; by intros [= <-]|].
    exists (FromDatabase segment). split; [done|]. unfold host_apply. by rewrite Hk.
  - destruct Hphase as (Hb1 & _ & header & p & p' & Hh & Hns).
    destruct (Hlive n1 Hb1 Hx) as (H1 & x & H2 & H3). split; [by apply Hfine|]. exists (FromStream x).
    split; [|done]. split; [done|].
    exists (rn_notifications n1). unfold live_stream. rewrite Hb. split; [|done]. by exists header, p, p'.
Qed.

(** What the notifier delivers is what it reads, in order, nothing else. *)
Lemma delivers_reads hc n inputs ended hc' n' :
  backfill_fine n -> delivers (NE:=RethHostError NE PE) (C:=Chain) hc n inputs ended hc' n' ->
  exists xs, reads_all n xs n' /\ hc' = foldl source_apply hc xs /\ (ended = false -> length xs = length inputs).
Proof.
  intros Hr Hd. induction Hd as [hc n|hc n [] now inputs n' Hn|hc n [] now inputs n1 notif n2 ended hc' n' Hn Hfin Hd IH].
  - exists []. split_and!; [constructor|done|done].
  - exists []. split_and!; [by apply reads_ended|done|done].
  - cbn in Hn. destruct (reth_next n) as [o m] eqn:Hnext. injection Hn as -> Ho.
    destruct o as [o|e|]; [|done..]. destruct o as [notif'|]; [|done]. injection Ho as ->.
    destruct (reth_next_reads n notif n1 hc Hr Hnext) as (Hr1 & x & Hx & Happ).
    destruct IH as (xs & Hxs & -> & Hlen).
    { destruct Hfin as [->|(h & r & Hfin)]; [done|]. apply reth_finished_frame in Hfin as [Hb _].
      intros b. rewrite Hb. apply Hr1. }
    exists (x :: xs). split; [by econstructor|]. split; [by rewrite Happ|]. intros He. simpl. by rewrite Hlen.
Qed.

End follower.

(** ** The whole program on Reth *)
Section node.
Context {NS NE LC P PE K R S SE PW RE Ext Ex T Rc L Pool A : Type}
  `{!RethProvider P PE K R, !LiveChain LC K R, !ExExStream NS NE LC}
  `{!SystemConstants, !UnifiedStorage S SE Ex L, !Extraction (HostChain LC K R) Ext,
    !Processing S PW RE Ext Ex, !Executed Ex T Rc, !BlockExtraction (K * list R) Ext}.
Context (anchored : Z -> NS -> Prop) (content : S -> list Ex) (number : Ex -> Z)
  `{!LawfulReth (P:=P) (PE:=PE) (K:=K) (R:=R), !LawfulExEx NS NE LC P PE K R anchored,
    !ContentStorage S SE Ex L content number, !LawfulProcessing S PW RE Ext Ex (HostChain LC K R) number,
    !LawfulExtraction (HostChain LC K R) (K * list R) Ext, !LinearConstants}.

(** C2: A node started on Reth's context leaves in storage the execution of one
    host chain: the part it had executed before and kept, then what the notifier
    read since it was set to the end of that part, without a gap or an overlap:
    one read per iteration, segments of the host's database up to the finalized
    block, then the items of the live stream, restarted above the last segment,
    each applied as it says (a commit appends, a revert removes, a reorg
    replaces); unless Reth reverted the block the session was started at. *)
Theorem reth_node_replicates (ctx : ExExContext NS P Pool A) ok bf inputs hc
    (s : SignetNode (RethHostNotifier NS P) S PW T Rc L) b s' :
  nd_notifier s = dc_notifier (decompose_exex_context ctx) ->
  1 <= host_deploy_height -> host_deploy_height + Z.of_nat (length hc) <= 2 ^ 63 -> default 1 bf <= 2 ^ 63 ->
  holds_chain (C:=HostChain LC K R) (Ext:=Ext) content hc (nd_storage s) ->
  start (W:=unit) (C:=HostChain LC K R) (NE:=RethHostError NE PE) (SE:=SE) (PE:=RE) (Ext:=Ext) (Ex:=Ex)
    ok bf inputs s = (Ok b, s') ->
  exists k s0, k `prefix_of` hc /\ holds_chain (C:=HostChain LC K R) (Ext:=Ext) content k (nd_storage s0)
    /\ nd_notifier s0 = reth_set_backfill_thresholds bf
         (reth_set_head (host_deploy_height + Z.of_nat (length k) - 1) (nd_notifier s))
    /\ main_loop (W:=unit) (C:=HostChain LC K R) (NE:=RethHostError NE PE) (SE:=SE) (PE:=RE) (Ext:=Ext) (Ex:=Ex)
         inputs s0 = (Ok b, s')
    /\ (went_astray (C:=HostChain LC K R) (NE:=RethHostError NE PE) (SE:=SE) (PE:=RE) (Ext:=Ext) (Ex:=Ex)
          (reth_astray (NE:=NE) (LC:=LC) (K:=K) (R:=R)) (host_deploy_height + Z.of_nat (length k) - 1) inputs s0
        \/ exists xs,
             reads_all (NE:=NE) (LC:=LC) (PE:=PE) (K:=K) (R:=R) (nd_notifier s0) xs (nd_notifier s')
             /\ (b = false -> length xs = length inputs)
             /\ holds_chain (C:=HostChain LC K R) (Ext:=Ext) content (k ++ tail (foldl source_apply [] xs)) (nd_storage s')
             /\ numbered_from (C:=HostChain LC K R) (host_deploy_height + Z.of_nat (length k) - 1)
                  (foldl source_apply [] xs)).
Proof.
  intros Hs Hd Hlen Hbf Hc Hstart.
  assert (forall h, host_deploy_height <= h < host_deploy_height + Z.of_nat (length hc) ->
    reth_fresh bf h (nd_notifier s)) as Hfresh by (intros h Hh; rewrite Hs; split; [done|]; split; [lia|done]).
  destruct (start_content content number reth_fresh (reth_follows (LC:=LC) (K:=K) (R:=R) anchored)
    (reth_astray (NE:=NE) (LC:=LC) (K:=K) (R:=R)) ok bf inputs hc s b s' Hc Hfresh Hstart)
    as (k & s0 & Hk & Hc0 & Hn0 & Hm & Hcase).
  exists k, s0. do 4 (split; [done|]). destruct Hcase as [?|(ann & Ha & Hdel & Hn & _)]; [by left|right].
  apply delivers_reads in Hdel as (xs & Hxs & -> & Hl).
  - by exists xs.
  - rewrite Hn0. apply reth_started_fine, Hfresh. destruct Hc0 as [Hne _]. pose proof (prefix_length _ _ Hk).
    destruct k; [done|]. simpl in *. lia.
Qed.
End node.
