(* ===== verification/ReplicaSamples.v ===== *)
(** * The replica theorem on a forking sample host

    A host with two branches from height 6 on, followed by the RPC notifier; a
    run through a backfill, a live head and a reorg, and a run that starts
    after the host was reorganised while the node was down. *)

From S2P Require Import Prelude HostTypes BlockTags Primitives Interest ChainNotifier Metrics BlockProcessor.
From S2P Require Import HostRpc HostRpcView HostRpcNotifier Node NodeProps Replica ReplicaRpc.

Module ForkHost.
(** The branch is kept in [h_gas_used]; branch 1 leaves branch 0 at height 6. *)
Definition id_of (branch n : Z) : B256 := branch * 2 ^ 50 + n.
Definition header (branch n : Z) : Header :=
  mkHeader (id_of (if (branch =? 1) && (6 <? n) then 1 else 0) (n - 1)) n 0 0 branch None.
#[export] Instance ops : HeaderOps := {
  hash_slow hd := id_of (h_gas_used hd) (h_number hd); next_block_base_fee _ := None }.

Definition header_of (h : B256) : option Header :=
  if (0 <=? h) && (h <? 2 ^ 40) then Some (header 0 h)
  else if (2 ^ 50 + 6 <=? h) && (h <? 2 ^ 50 + 2 ^ 40) then Some (header 1 (h - 2 ^ 50)) else None.

(** The provider's state: its tip and the branch it calls canonical. *)
Definition host : Type := Z * Z.
Definition canonical (p : host) (n : Z) : option Header :=
  if n <? 2 ^ 40 then header_of (id_of (if (p.2 =? 1) && (6 <=? n) then 1 else 0) n) else None.
Definition rpc_header (branch n : Z) : RpcHeader := mkRpcHeader (id_of branch n) (header branch n) None None.

#[export] Instance fork_provider : Provider host unit Header unit unit unit := {
  get_block_by_hash h p := (Ok ((fun hd => mkRpcHeader h hd None None) <$> header_of h), p);
  get_full_block_by_hash h p := (Ok (header_of h), p);
  get_block_by_number t p := (Ok (Some (rpc_header p.2 (match t with Number n => n | _ => p.1 end))), p);
  get_full_block_by_number t p := (Ok (canonical p (match t with Number n => n | _ => p.1 end)), p);
  get_block_receipts _ p := (Ok None, p);
  get_block_number p := if (0 <=? p.1) && (p.1 <=? max64) then (Ok p.1, p) else (Err tt, p);
  get_code_at _ p := (Ok [], p);
  block_header b := b;
  block_transactions _ := [];
  into_primitives_receipt r := r }.

Lemma fork_header_some h hd :
  header_of h = Some hd ->
  exists branch n, h = id_of branch n /\ hd = header branch n
    /\ (branch = 0 /\ 0 <= n < 2 ^ 40 \/ branch = 1 /\ 6 <= n < 2 ^ 40).
Proof.
  unfold header_of, id_of. destruct (Z.leb_spec 0 h), (Z.ltb_spec h (2 ^ 40)); simpl andb;
    [intros [= <-]; exists 0, h; split_and!; [lia|done|lia]|..].
  all: destruct (Z.leb_spec (2 ^ 50 + 6) h), (Z.ltb_spec h (2 ^ 50 + 2 ^ 40)); simpl andb; [|done..].
  all: intros [= <-]; exists 1, (h - 2 ^ 50); split_and!; [lia|done|lia].
Qed.

Lemma header_of_number h hd n :
  (h = true -> 0 <= n) -> n < 2 ^ 40 ->
  header_of (id_of (if h : bool then 1 else 0) n) = Some hd -> h_number hd = n /\ 0 <= n < 2 ^ 40.
Proof.
  intros Hn Hb (br & k & Hid & -> & Hk)%fork_header_some. cbn [h_number header]. unfold id_of in Hid.
  destruct Hk as [[-> ?]|[-> ?]], h; try specialize (Hn eq_refl); lia.
Qed.

#[export] Instance fork_lawful : LawfulProvider (P:=host) header_of.
Proof.
  constructor.
  - intros h p b p' [= Hb <-]. by apply fmap_Some in Hb as (hd & Hh & ->).
  - split.
    + intros h hd (br & k & -> & -> & Hk)%fork_header_some. simpl. width.
    + intros h hd hd' (br & k & -> & -> & Hk)%fork_header_some Hp. cbn [h_parent_hash header] in Hp.
      apply header_of_number in Hp as [Hp _]; [|intros []%andb_true_iff; lia|lia]. cbn [h_number header]. lia.
  - intros h hd (br & k & -> & -> & Hk)%fork_header_some. cbn [h_number header]. lia.
  - by intros h hd (br & k & -> & -> & Hk)%fork_header_some.
  - intros h p b p' [= Hb <-]. done.
  - intros k p b p' [= Hb <-]. unfold canonical in Hb. cbn [block_header fork_provider].
    destruct (Z.ltb_spec k (2 ^ 40)); [|done].
    pose proof (header_of_number ((p.2 =? 1) && (6 <=? k)) _ k ltac:(intros []%andb_true_iff; lia) ltac:(done) Hb) as [Hn _]. split; [done|].
    pose proof Hb as (br & j & Hid & -> & Hk)%fork_header_some. cbn in Hn. subst j.
    cbn [hash_slow ops h_gas_used h_number header]. by rewrite <- Hid.
  - intros p t p'. cbn [get_block_number fork_provider].
    destruct (Z.leb_spec 0 p.1), (Z.leb_spec p.1 max64); simpl andb; intros [=]. subst. width.
Qed.

(** ** Storage by content: each rollup block with the host block it is from *)
Definition block : Type := Z * B256.
Definition store : Type := list block.
Definition segment : Type := RpcChainSegment unit unit.

#[export] Instance constants : SystemConstants := {
  host_deploy_height := 4;
  pair_ru n := mkPaired (4 + n) n;
  pair_host h := if 4 <=? h then Some (mkPaired h (h - 4)) else None;
  host_block_to_rollup_block_num h := if 4 <=? h then Some (h - 4) else None }.
#[export] Instance linear_constants : LinearConstants.
Proof. by constructor. Qed.

#[export] Instance storage : UnifiedStorage store unit block unit := {
  last_block_number s := Ok (fst <$> last s);
  cold_latest_block s := Ok (Some (Z.max 0 (tip_of fst s)));
  unwind_above t s := (Ok tt, filter (fun b => b.1 <= t) s);
  append_block b s := (Ok tt, s ++ [b]);
  drain_above t s := (Ok [], filter (fun b => b.1 <= t) s) }.
#[export] Instance content_storage : ContentStorage store unit block unit id fst.
Proof.
  constructor; unfold id; simpl.
  - by intros s o [= <-].
  - intros s o [= <-]. simpl. lia.
  - by intros b s u s' [= _ <-].
  - by intros t s d s' [= _ <-].
  - by intros t s u s' [= _ <-].
Qed.

(** Every host block above the deployment has a rollup block. *)
#[export] Instance block_extraction : BlockExtraction (RpcBlock unit unit) (RpcBlock unit unit) :=
  { extract_block b := if 4 <? block_number b then Some b else None }.
#[export] Instance extraction : Extraction segment (RpcBlock unit unit) := {
  extract_signet c := omap extract_block (blocks c); ru_height b := block_number b - 4 }.
#[export] Instance lawful_extraction : LawfulExtraction segment (RpcBlock unit unit) (RpcBlock unit unit).
Proof.
  constructor; unfold extract_block; simpl.
  - done.
  - intros b e. destruct (Z.ltb_spec 4 (block_number b)); [|done]. by intros [= <-].
  - intros b. by destruct (Z.ltb_spec 4 (block_number b)).
Qed.

#[export] Instance processing : Processing store unit unit (RpcBlock unit unit) block := {
  process_extracts _ b w := (Ok (block_number b - 4, block_hash b), w) }.
#[export] Instance lawful_processing :
  LawfulProcessing store unit unit (RpcBlock unit unit) block segment fst.
Proof. constructor. by intros db e w b w' [= <- <-]. Qed.
#[export] Instance executed : Executed block unit unit := {
  ex_header b := mkSealedHeader (header 0 b.1) b.2; ex_transactions _ := []; ex_receipts _ := [] }.

Definition new_notifier : RpcHostNotifier := RpcHostNotifier_new 64 32 8 12 0.
Definition node (db : store) (p : host) (heads : list RpcHeader) :
    SignetNode (RpcHost host) store unit unit unit unit :=
  mkNode (mkRpcHost new_notifier p heads) db ChainNotifier_new Booting tt Recorder_new [].

Lemma new_notifier_fresh h p heads :
  4 <= h < 2 ^ 63 -> rpc_fresh (P:=host) header_of None h (mkRpcHost new_notifier p heads).
Proof.
  intros Hh. split; [|split_and!; cbn -[Z.pow]; lia || done].
  constructor; cbn -[Z.pow]; try done; try lia; [|constructor].
  split; [simpl; lia|]. exists 0. by split.
Qed.

Definition host_block (branch n : Z) : RpcBlock unit unit := mkRpcBlock (header branch n) [] [].

(** A node that knows the deployment block only. *)
Lemma genesis_holds_chain : holds_chain (C:=segment) id [host_block 0 4] ([] : store).
Proof. split_and!; [done|done|constructor]. Qed.
End ForkHost.
Import ForkHost.

(** Instance: a backfill of heights 4 and 5, the head 8 of branch 0, and the
    head 8 of branch 1, which reverts 6 to 8. *)
Lemma start_replicates_witness :
  let inputs := [(tt, 0); (tt, 5); (tt, 9)] in
  let s := node [] (5, 0) [rpc_header 0 8; rpc_header 1 8] in
  let '(r, s') := start (PE:=unit) true None inputs s in
  r = Ok false
  /\ nd_storage s' = [(1, id_of 0 5); (2, id_of 1 6); (3, id_of 1 7); (4, id_of 1 8)]
  /\ exists k s0, k `prefix_of` [host_block 0 4]
      /\ (went_astray (PE:=unit) (C:=segment) (Ext:=RpcBlock unit unit) (Ex:=block) rpc_astray
            (host_deploy_height + Z.of_nat (length k) - 1) inputs s0
          \/ exists announced, holds_chain (C:=segment) id (k ++ tail announced) (nd_storage s')).
Proof.
  intros inputs s. destruct (start true None inputs s) as [r s'] eqn:E.
  assert (r = Ok false) as -> by (apply (f_equal fst) in E; vm_compute in E; by symmetry).
  split; [done|]. split; [apply (f_equal snd) in E; vm_compute in E; by subst s'|].
  destruct (start_replicates (B:=RpcBlock unit unit) id fst (rpc_fresh (P:=host) header_of) (rpc_follows header_of)
    rpc_astray true None inputs [host_block 0 4] s false s' genesis_holds_chain
    ltac:(intros h Hh; apply new_notifier_fresh; simpl in Hh; lia) E)
    as (k & s0 & Hk & _ & _ & _ & [?|(ann & Hc & _)]);
    exists k, s0; (split; [exact Hk|]); [by left|right; by exists ann].
Defined.

(** A reorg of the host while the node is down goes unnoticed: the start
    resumes at the height of the last block, the block of that height is
    skipped as already executed whatever its hash, and the next one is executed
    on top of the blocks of the abandoned branch. *)
Theorem offline_reorg_kept :
  let s := node [(1, id_of 0 5); (2, id_of 0 6); (3, id_of 0 7)] (8, 1) [] in
  let '(r, s') := start (PE:=unit) true None [(tt, 0)] s in
  r = Ok false
  /\ nd_storage s' = [(1, id_of 0 5); (2, id_of 0 6); (3, id_of 0 7); (4, id_of 1 8)]
  /\ h_parent_hash (header 1 8) <> id_of 0 7.
Proof. vm_compute. split_and!; congruence. Qed.

(** A reorg deeper than the buffer that ends at the height of the old tip is
    missed as well: the walk gives up, backfill finds itself one above the tip
    and is dropped, and the next head is announced from an empty view, although
    the last announced block is not among its ancestors. *)
Definition following : RpcHostNotifier :=
  mkNotifier [(8, id_of 0 8); (9, id_of 0 9)] 2 None None None None 32 8 (Some (9, id_of 0 9)) 12 0 true.
Definition gave_up : RpcHostNotifier := with_backfill_from (Some 10) (with_view [] following).
Definition unanchored : RpcHostNotifier := with_backfill_from None gave_up.

Lemma walk_gives_up :
  handle_new_head (T:=unit) (R:=unit) (rpc_header 1 9) (following, (9, 1)) = (Ok None, (gave_up, (9, 1))).
Proof. vm_compute. reflexivity. Qed.

Lemma backfill_dropped :
  drain_backfill (T:=unit) (R:=unit) (gave_up, (9, 1)) = (Ok None, (unanchored, (9, 1))).
Proof. vm_compute. reflexivity. Qed.

Theorem deep_reorg_unanchored :
  exists m notif h',
    rtc (silent (T:=unit) (R:=unit))
      (mkRpcHost following (9, 1) [rpc_header 1 9; rpc_header 1 10]) m
    /\ emits (T:=unit) (R:=unit) m notif h'
    /\ kind notif = ChainCommitted (mkSegment [host_block 1 10])
    /\ last_emitted (host_notifier m) = Some (9, id_of 0 9)
    /\ h_parent_hash (header 1 10) <> id_of 0 9.
Proof.
  exists (mkRpcHost unanchored (9, 1) [rpc_header 1 10]).
  destruct (handle_new_head (T:=unit) (R:=unit) (rpc_header 1 10) (unanchored, (9, 1)))
    as [[[notif|]|e|] [n' p']] eqn:E; [|vm_compute in E; discriminate..].
  exists notif, (mkRpcHost n' p' []). split; [|split].
  - eapply rtc_l; [apply silent_head; [reflexivity|apply walk_gives_up]|].
    apply rtc_once, silent_backfill, backfill_dropped.
  - by apply emits_head.
  - vm_compute in E. injection E as <- _ _. vm_compute. split_and!; congruence.
Qed.
