(* ===== verification/PollingRunSamples.v ===== *)
(** * A polling client of a node that follows the forking sample host

    The host and its RPC notifier of [ReplicaSamples], and storage that keeps a
    log per block: the node backfills block 5, a client installs its filter, the
    head 8 arrives, and then the head 8 of the other branch. *)

From S2P Require Import Prelude HostTypes BlockTags Primitives Interest ChainNotifier Metrics BlockProcessor Filters RpcConfig Errors Storage RpcCtx.
From S2P Require Import EthFilters EthFilterProps HostRpc HostRpcView HostRpcNotifier Node NodeProps Replica ReplicaRpc Progress.
From S2P Require Import PollingNode PollingRun PollingSamples ReplicaSamples.
Import Sample ForkHost.

Module ForkPoll.
Definition sealed (b : block) : SealedHeader := mkSealedHeader (header 0 b.1) b.2.
Definition block_logs (b : block) : list (Log raw_log) :=
  [mkLog 7 (Some b.2) (Some b.1) None None None (Some 0) false].

#[export] Instance storage : UnifiedStorage store unit block raw_log := {
  last_block_number s := Ok (fst <$> last s);
  cold_latest_block s := Ok (Some (Z.max 0 (tip_of fst s)));
  unwind_above t s := (Ok tt, filter (fun b => b.1 <= t) s);
  append_block b s := (Ok tt, s ++ [b]);
  drain_above t s :=
    (Ok ((fun b => mkDrained (sealed b) [block_logs b]) <$> filter (fun b => t < b.1) s),
     filter (fun b => b.1 <= t) s) }.
#[export] Instance content_storage : ContentStorage store unit block raw_log id fst.
Proof.
  constructor; unfold id; simpl.
  - by intros s o [= <-].
  - intros s o [= <-]. simpl. lia.
  - by intros b s u s' [= _ <-].
  - by intros t s d s' [= _ <-].
  - by intros t s u s' [= _ <-].
Qed.

#[export] Instance cold : ColdStorage store unit unit log_filter raw_log := {
  get_header_by_number _ _ := Ok None;
  get_headers _ ns := Ok ((fun _ => None) <$> ns);
  get_transactions_in_block _ _ := Ok [];
  get_transaction_count _ _ := Ok 0;
  get_receipts_in_block _ _ := Ok [];
  get_tx_by_hash _ _ := Ok None;
  get_tx_by_block_and_index _ _ _ := Ok None;
  get_receipt _ _ := Ok None;
  stream_logs s fl _ _ :=
    match fl.1 with
    | Range (Some (Number a)) (Some (Number b)) => Ok (Ok <$> logs_between fl (canon_of block_logs s) a b)
    | _ => Err tt
    end;
  get_latest_block s := Ok (fst <$> last s) }.

#[export] Instance logged_storage :
  LoggedStorage store unit unit unit block unit unit log_filter raw_log id fst block_logs.
Proof.
  constructor.
  - intros b. by repeat constructor.
  - intros t db d db' [= <- _]. unfold id. rewrite <- list_fmap_compose. by apply list_fmap_ext.
  - intros f db from to m d stream logs _ Hs Hl. cbn in Hs. injection Hs as <-.
    by apply SamplePollNode.collect_ok in Hl as ->.
Qed.

#[export] Instance display : Display unit unit unit := SamplePollNode.display.

Definition watch : log_filter := (Range None None, 7).
Definition Node : Type := SignetNode (RpcHost host) store unit unit unit raw_log.
Definition node0 : Node :=
  mkNode (mkRpcHost new_notifier (5, 0) [rpc_header 0 8; rpc_header 1 8]) [] ChainNotifier_new Booting tt Recorder_new [].
Definition node1 : Node := (start (PE:=unit) (C:=segment) (Ext:=RpcBlock unit unit) true None [(tt, 0)] node0).2.

Definition WorldT : Type := World (N:=RpcHost host) (S:=store) (PW:=unit) (T:=unit) (R:=unit) (L:=raw_log)
  (B:=RpcBlock unit unit) (F:=log_filter).

(** What the notifier answers next, and what the node makes of it. *)
Definition next (s : Node) : HostNotification segment :=
  match (next_notification tt (nd_notifier s)).2 with
  | Some (Ok notif) => notif
  | _ => mkHostNotification (ChainCommitted (mkSegment [])) None None
  end.
Definition iterate (now : Z) (s : Node) : Node :=
  (handle_notification (PE:=unit) (Ext:=RpcBlock unit unit) now (next s)
     (set_notifier (next_notification tt (nd_notifier s)).1 s)).2.
Definition poll (now : Z) (s : Node) (fm : FilterManager log_filter) :=
  poll_node (CE:=unit) (SE:=unit) (TX:=unit) (HE:=unit) StorageRpcConfig_default 1 now s fm.

Definition filters0 : FilterManager log_filter :=
  rpc_filters (new_filter (CE:=unit) (SE:=unit) (HE:=unit) 1 watch (rpc_shared node1 FilterManager_new)).2.
Definition node2 : Node := iterate 5 node1.
Definition filters1 : FilterManager log_filter := rpc_filters (poll 6 node2 filters0).2.
Definition node3 : Node := iterate 9 node2.

Example installed :
  new_filter (CE:=unit) (SE:=unit) (HE:=unit) 1 watch (rpc_shared node1 FilterManager_new)
    = (Ok 1, rpc_shared node1 filters0).
Proof. reflexivity. Qed.
Example stored1 : nd_storage node1 = [(1, id_of 0 5)].
Proof. by vm_compute. Qed.
Example stored2 : nd_storage node2 = [(1, id_of 0 5); (2, id_of 0 6); (3, id_of 0 7); (4, id_of 0 8)].
Proof. by vm_compute. Qed.
Example stored3 : nd_storage node3 = [(1, id_of 0 5); (2, id_of 1 6); (3, id_of 1 7); (4, id_of 1 8)].
Proof. by vm_compute. Qed.
Definition old : list (Log raw_log) := mjoin (block_logs <$> [(2, id_of 0 6); (3, id_of 0 7); (4, id_of 0 8)]).
Example polled1 : apply_output (BufLog old) [] = old /\ (poll 6 node2 filters0).1 = Ok (BufLog old).
Proof. by vm_compute. Qed.
End ForkPoll.
Import ForkPoll.

Lemma length_host_apply (notif : HostNotification segment) (hc : list (RpcBlock unit unit)) :
  (length (host_apply notif hc) <= length hc + length (from_option blocks [] (committed_chain notif)))%nat.
Proof.
  unfold host_apply, committed_chain, below. destruct (kind notif) as [c|r|r c]; cbn [from_option chain_blocks rpc_blocks].
  - by rewrite length_app.
  - rewrite Nat.add_0_r. apply length_filter.
  - rewrite length_app. apply Nat.add_le_mono_r, length_filter.
Qed.

(** The run of the sample, from any chain the node may hold at the start. *)
Lemma sample_run chain :
  length chain = 2%nat ->
  rtc (run_step (NE:=RpcHostError unit) (SE:=unit) (PE:=unit) (Ext:=RpcBlock unit unit) (C:=segment) (CE:=unit)
         (TX:=unit) (HE:=unit) StorageRpcConfig_default 1)
    (mkWorld node1 chain filters0 1 [] 2)
    (mkWorld node3 (host_apply (next node2) (host_apply (next node1) chain)) filters1 9 old 2).
Proof.
  intros Hlen. pose proof (length_host_apply (next node1) chain) as H1.
  pose proof (length_host_apply (next node2) (host_apply (next node1) chain)) as H2.
  assert (length (from_option blocks [] (committed_chain (next node1))) = 3%nat) as E1 by by vm_compute.
  assert (length (from_option blocks [] (committed_chain (next node2))) = 3%nat) as E2 by by vm_compute.
  rewrite E1, Hlen in H1. rewrite E2 in H2.
  assert (forall n, (n <= 8)%nat -> Z.of_nat n < max64) as Hmax by (intros; width).
  assert (low_after (next node1) 2 = 2) as L1 by (vm_compute; reflexivity).
  assert (low_after (next node2) 2 = 2) as L2 by (vm_compute; reflexivity).
  destruct polled1 as [Hold Hpoll].
  assert (handle_notification (PE:=unit) (Ext:=RpcBlock unit unit) 5 (next node1)
            (set_notifier (next_notification tt (nd_notifier node1)).1 node1) = (Ok tt, node2)) as S1
    by (vm_compute; reflexivity).
  assert (handle_notification (PE:=unit) (Ext:=RpcBlock unit unit) 9 (next node2)
            (set_notifier (next_notification tt (nd_notifier node2)).1 node2) = (Ok tt, node3)) as S2
    by (vm_compute; reflexivity).
  assert (poll 6 node2 filters0 = (Ok (BufLog old), (poll 6 node2 filters0).2)) as HP
    by (rewrite <- Hpoll; apply surjective_pairing).
  assert (next_notification tt (nd_notifier node1)
            = ((next_notification tt (nd_notifier node1)).1, Some (Ok (next node1)))) as N1 by (vm_compute; reflexivity).
  assert (next_notification tt (nd_notifier node2)
            = ((next_notification tt (nd_notifier node2)).1, Some (Ok (next node2)))) as N2 by (vm_compute; reflexivity).
  eapply rtc_l; [apply (run_iteration (NE:=RpcHostError unit) (SE:=unit) (PE:=unit) (Ext:=RpcBlock unit unit) (C:=segment)
    (CE:=unit) (TX:=unit) (HE:=unit) StorageRpcConfig_default 1
    node1 node2 chain filters0 1 [] 2 tt 5 _ (next node1) eq_refl N1 S1); [apply Hmax; lia|by intros []]|].
  rewrite L1. eapply rtc_l; [apply run_client, (world_poll (NE:=RpcHostError unit) (SE:=unit) (PE:=unit) (Ext:=RpcBlock unit unit) (C:=segment)
    (CE:=unit) (TX:=unit) (HE:=unit) StorageRpcConfig_default 1
    node2 _ filters0 5 [] 2 6 (BufLog old) (poll 6 node2 filters0).2 eq_refl HP)|].
  rewrite Hold. fold filters1. rewrite <- L2 at 2. apply rtc_once.
  apply (run_iteration (NE:=RpcHostError unit) (SE:=unit) (PE:=unit) (Ext:=RpcBlock unit unit) (C:=segment)
    (CE:=unit) (TX:=unit) (HE:=unit) StorageRpcConfig_default 1
    node2 node3 _ filters1 6 old 2 tt 9 _ (next node2) eq_refl N2 S2); [apply Hmax; lia|].
  intros _ entry He. vm_compute in He. injection He as <-. vm_compute. lia.
Qed.

(** Instance: the node is started and backfills block 5; the client begins at
    block 1, polls after the head 8, and again after the reorg to the other
    branch, and holds the logs of that branch. *)
Lemma started_node_polling_client_witness :
  let new := mjoin (block_logs <$> [(2, id_of 1 6); (3, id_of 1 7); (4, id_of 1 8)]) in
  exists out rpc', poll 10 node3 filters1 = (Ok out, rpc') /\ apply_output out old = new
    /\ exists k, k `prefix_of` [host_block 0 4]
      /\ ((exists s0, went_astray (NE:=RpcHostError unit) (SE:=unit) (PE:=unit) (C:=segment) (Ext:=RpcBlock unit unit)
              rpc_astray (host_deploy_height + Z.of_nat (length k) - 1) [(tt, 0)] s0)
          \/ exists w0 w : WorldT, wd_node w0 = node1 /\ wd_node w = node3 /\ wd_client w = old
              /\ (new = logs_between watch (canon_of block_logs (nd_storage node3)) 2 4
                  \/ run_astray (NE:=RpcHostError unit) (SE:=unit) (PE:=unit) (Ext:=RpcBlock unit unit) (C:=segment)
                       (CE:=unit) (TX:=unit) (HE:=unit) rpc_astray StorageRpcConfig_default 1 k w0)).
Proof.
  intros new. destruct (poll 10 node3 filters1) as [r rpc'] eqn:Hp.
  assert (exists out, r = Ok out /\ apply_output out old = new) as (out & -> & Hnew).
  { apply (f_equal fst) in Hp. simpl in Hp. subst r. eexists. split; [by vm_compute|by vm_compute]. }
  exists out, rpc'. split; [done|]. split; [done|].
  destruct (started_node_polling_client (NE:=RpcHostError unit) (SE:=unit) (PE:=unit) (Ext:=RpcBlock unit unit)
    (C:=segment) (CE:=unit) (TX:=unit) (HE:=unit) id fst block_logs (rpc_fresh (P:=host) header_of)
    (rpc_follows header_of) rpc_astray StorageRpcConfig_default watch 1 true None [(tt, 0)] [host_block 0 4]
    node0 node1) as (k & s0 & Hk & _ & _ & _ & [Ha|(ann & Hh & _ & Hrun)]).
  - split_and!; [done|done|constructor].
  - intros h Hh. apply new_notifier_fresh. simpl in Hh. lia.
  - by vm_compute.
  - exists k. split; [exact Hk|]. left. by exists s0.
  - exists k. split; [exact Hk|]. right.
    assert (1 = Z.of_nat (length (k ++ tail ann)) - 1) as Htip
      by (etransitivity; [|exact (holds_chain_tip id fst _ _ Hh)]; by vm_compute).
    assert (length (k ++ tail ann) = 2%nat) as Hlen by lia.
    pose proof (prefix_length _ _ Hk) as Hkl. rewrite length_app in Hlen. simpl in Hkl.
    assert (ann <> []) as Hne by (intros ->; simpl in Hlen; lia).
    exists (mkWorld node1 (k ++ tail ann) filters0 1 [] 2),
      (mkWorld node3 (host_apply (next node2) (host_apply (next node1) (k ++ tail ann))) filters1 9 old 2).
    do 3 (split; [cbn [wd_node wd_client]; reflexivity|]).
    destruct (Hrun (mkWorld node1 (k ++ tail ann) filters0 1 [] 2)
      (mkWorld node3 (host_apply (next node2) (host_apply (next node1) (k ++ tail ann))) filters1 9 old 2)
      10 out rpc' Hne) as [[_ Hx]|Hx]; [| | | |done| | |by right]; cbn [wd_node wd_chain wd_clock wd_filters].
    + reflexivity.
    + reflexivity.
    + split; [exact Hh|]. split; [by vm_compute|]. split; [by vm_compute|]. split; [split; constructor|].
      split; [exists FilterManager_new; exact installed|split; by vm_compute].
    + apply sample_run. rewrite length_app. exact Hlen.
    + exact Hp.
    + left. rewrite <- Hnew. exact Hx.
Defined.
