(* ===== verification/RethSamples.v ===== *)
(** * The Reth composition on a sample host

    A scripted ExEx stream over Reth's sample provider ([HostReth.SampleReth]),
    and a node started on it that reads a backfill, a live commit and a reorg. *)

From S2P Require Import Prelude HostTypes BlockTags Primitives Interest ChainNotifier Metrics BlockProcessor.
From S2P Require Import Float64 RpcConfig Serve HostReth RethContext Node NodeProps Replica ReplicaReth.
Import SampleReth.

Module SampleExEx.
(** A live chain is its first number and how many blocks follow it. *)
Definition chain : Type := Z * nat.
#[export] Instance live : LiveChain chain Z unit := {
  live_blocks c := (fun n => (n, [])) <$> seqZ c.1 (Z.of_nat (S c.2));
  live_first c := c.1; live_tip c := c.1 + Z.of_nat c.2; live_len c := S c.2 }.

(** The script of the host: it grows by some blocks, drops some, or replaces
    some by others; the stream keeps its tip. *)
Inductive event := Grow (k : nat) | Shrink (k : nat) | Swap (k j : nat).
Definition script : Type := Z * list event.
#[export] Instance stream : ExExStream script unit chain := {
  stream_next s :=
    match s.2 with
    | [] => (None, s)
    | Grow k :: es => (Some (Ok (ExCommitted (s.1 + 1, k))), (s.1 + 1 + Z.of_nat k, es))
    | Shrink k :: es => (Some (Ok (ExReverted (s.1 - Z.of_nat k, k))), (s.1 - Z.of_nat k - 1, es))
    | Swap k j :: es =>
        (Some (Ok (ExReorged (s.1 - Z.of_nat k, k) (s.1 - Z.of_nat k, j))), (s.1 - Z.of_nat k + Z.of_nat j, es))
    end;
  set_with_head h s := (h.1, s.2) }.
Definition anchored (tip : Z) (s : script) : Prop := s.1 = tip.

#[export] Instance lawful_stream : LawfulExEx script unit chain Z unit Z unit anchored.
Proof.
  constructor; unfold anchored.
  - done.
  - intros c. cbn [live_blocks live_first live_tip live]. rewrite length_fmap, length_seqZ, Nat2Z.id.
    split; [|split; [|lia]].
    + rewrite <- list_fmap_compose. etrans; [|apply list_fmap_id]. by apply list_fmap_ext.
    + destruct (seqZ c.1 _) eqn:Hs; [|done]. apply (f_equal length) in Hs. by rewrite length_seqZ, Nat2Z.id in Hs.
  - intros t [tip es] new ns' <- Hn. destruct es as [|[k|k|k j] es]; try discriminate Hn.
    injection Hn as <- <-. split; reflexivity.
  - intros t [tip es] old ns' <- Hn. destruct es as [|[k|k|k j] es]; try discriminate Hn.
    injection Hn as <- <-. cbn. split; lia.
  - intros t [tip es] old new ns' <- Hn. destruct es as [|[k|k|k j] es]; try discriminate Hn.
    injection Hn as <- <- <-. cbn. split_and!; lia.
Qed.

(** ** A rollup deployed at block 4, whose blocks are their heights *)
Abbreviation host_chain := (HostChain chain Z unit).
Definition store : Type := list Z.
#[export] Instance constants : SystemConstants := {
  host_deploy_height := 4;
  pair_ru n := mkPaired (4 + n) n;
  pair_host h := if 4 <=? h then Some (mkPaired h (h - 4)) else None;
  host_block_to_rollup_block_num h := if 4 <=? h then Some (h - 4) else None }.
#[export] Instance linear_constants : LinearConstants.
Proof. by constructor. Qed.

#[export] Instance storage : UnifiedStorage store unit Z unit := {
  last_block_number s := Ok (last s);
  cold_latest_block s := Ok (Some (Z.max 0 (tip_of id s)));
  unwind_above t s := (Ok tt, filter (fun n => id n <= t) s);
  append_block b s := (Ok tt, s ++ [b]);
  drain_above t s := (Ok [], filter (fun n => id n <= t) s) }.
#[export] Instance content_storage : ContentStorage store unit Z unit id id.
Proof.
  constructor; unfold id; simpl.
  - intros s o [= <-]. unfold tip_of. by destruct (last s).
  - intros s o [= <-]. simpl. lia.
  - by intros b s u s' [= _ <-].
  - by intros t s d s' [= _ <-].
  - by intros t s u s' [= _ <-].
Qed.

#[export] Instance block_extraction : BlockExtraction (Z * list unit) Z :=
  { extract_block b := if 4 <? b.1 then Some b.1 else None }.
#[export] Instance extraction : Extraction host_chain Z := {
  extract_signet c := omap extract_block (blocks_and_receipts c); ru_height n := n - 4 }.
#[export] Instance lawful_extraction : LawfulExtraction host_chain (Z * list unit) Z.
Proof.
  constructor; unfold extract_block; simpl.
  - done.
  - intros [n rs] e. cbn. destruct (Z.ltb_spec 4 n); [|done]. by intros [= <-].
  - intros [n rs]. cbn. by destruct (Z.ltb_spec 4 n).
Qed.
#[export] Instance processing : Processing store unit unit Z Z := { process_extracts _ n w := (Ok (n - 4), w) }.
#[export] Instance lawful_processing : LawfulProcessing store unit unit Z Z host_chain id.
Proof. constructor. by intros db e w b w' [= <- <-]. Qed.
#[export] Instance executed : Executed Z unit unit := {
  ex_header b := mkSealedHeader (Sample.header b) b; ex_transactions _ := []; ex_receipts _ := [] }.

(** The finalized block is 11; the host then grows by three and replaces two. *)
Definition args : RpcServerArgs unit :=
  mkArgs 0 25 20 60 0 0 false tt None false tt None true "ipc"%string.
Definition ctx : ExExContext script Z unit unit := mkExEx "mainnet"%string args (0, [Grow 2; Swap 1 2]) 11 tt.
Definition node : SignetNode (RethHostNotifier script Z) store unit unit unit unit :=
  mkNode (dc_notifier (decompose_exex_context ctx)) [] ChainNotifier_new Booting tt Recorder_new [].

Lemma deploy_holds_chain : holds_chain (C:=host_chain) (Ext:=Z) (B:=Z * list unit) id [(4, [])] ([] : store).
Proof. split_and!; [done|done|constructor]. Qed.
End SampleExEx.
Import SampleExEx.

Lemma reth_node_replicates_witness :
  let inputs := [(tt, 0); (tt, 1); (tt, 2); (tt, 3)] in
  let '(r, s') := start (C:=host_chain) (NE:=RethHostError unit unit) (SE:=unit) (PE:=unit) (Ext:=Z) (Ex:=Z)
                    true (Some 5) inputs node in
  r = Ok false /\ nd_storage s' = [1; 2; 3; 4; 5; 6; 7; 8; 9; 10; 11]
  /\ exists k s0, k `prefix_of` [(4, [])]
      /\ (went_astray (C:=host_chain) (NE:=RethHostError unit unit) (SE:=unit) (PE:=unit) (Ext:=Z) (Ex:=Z)
            (reth_astray (NE:=unit) (LC:=chain) (K:=Z) (R:=unit))
            (host_deploy_height + Z.of_nat (length k) - 1) inputs s0
          \/ exists xs, length xs = 4%nat
               /\ reads_all (NE:=unit) (LC:=chain) (PE:=unit) (K:=Z) (R:=unit) (nd_notifier s0) xs (nd_notifier s')
               /\ holds_chain (C:=host_chain) (Ext:=Z) (B:=Z * list unit) id (k ++ tail (foldl source_apply [] xs)) (nd_storage s')).
Proof.
  intros inputs. destruct (start true (Some 5) inputs node) as [r s'] eqn:E.
  assert (r = Ok false) as -> by (apply (f_equal fst) in E; vm_compute in E; by symmetry).
  split; [done|]. split; [apply (f_equal snd) in E; vm_compute in E; by subst s'|].
  destruct (reth_node_replicates anchored id id ctx true (Some 5) inputs [(4, [])] node false s')
    as (k & s0 & Hk & _ & _ & _ & Hcase);
    [reflexivity|vm_compute; discriminate|vm_compute; discriminate|vm_compute; discriminate
    |exact deploy_holds_chain|exact E|].
  exists k, s0. split; [exact Hk|]. destruct Hcase as [?|(xs & Hx & Hl & Hc & _)]; [by left|right].
  exists xs. split; [exact (Hl eq_refl)|]. by split.
Defined.
