(* ===== verification/HarnessSamples.v ===== *)
(** * The harness on a sample rollup

    Host blocks are their numbers, the rollup is deployed at host block 100,
    storage is the list of stored rollup heights, and a block specification is
    the number it was given. *)

From S2P Require Import Prelude HostTypes BlockTags Primitives Interest ChainNotifier Metrics BlockProcessor Storage Blobber.
From S2P Require Import RpcStart Node NodeProps Replica Progress Harness HarnessChecks.

Module SampleHarness.
Definition store : Type := list Z.
Definition chain : Type := list Z.

#[export] Instance constants : SystemConstants := {
  host_deploy_height := 100;
  pair_ru n := mkPaired (100 + n) n;
  pair_host h := if 100 <=? h then Some (mkPaired h (h - 100)) else None;
  host_block_to_rollup_block_num h := if 100 <=? h then Some (h - 100) else None }.
#[export] Instance linear_constants : LinearConstants.
Proof. by constructor. Qed.

#[export] Instance storage : UnifiedStorage store unit Z Z := {
  last_block_number s := Ok (last s);
  cold_latest_block s := Ok (Some (Z.max 0 (tip_of id s)));
  unwind_above t s := (Ok tt, filter (fun b => b <= t) s);
  append_block b s := (Ok tt, s ++ [b]);
  drain_above t s := (Ok [], filter (fun b => b <= t) s) }.
#[export] Instance content_storage : ContentStorage store unit Z Z id id.
Proof.
  constructor; unfold id; simpl.
  - intros s o [= <-]. unfold tip_of. by destruct (last s).
  - intros s o [= <-]. simpl. lia.
  - by intros b s u s' [= _ <-].
  - by intros t s d s' [= _ <-].
  - by intros t s u s' [= _ <-].
Qed.

#[export] Instance host_blocks : HostBlocks chain Z := { chain_blocks c := c; blk_number b := b }.
#[export] Instance block_extraction : BlockExtraction Z Z := {
  extract_block b := if 100 <? b then Some (b - 100) else None }.
#[export] Instance extraction : Extraction chain Z := {
  extract_signet c := omap extract_block c; ru_height e := e }.
#[export] Instance lawful_extraction : LawfulExtraction chain Z Z.
Proof.
  constructor; unfold extract_block; simpl.
  - done.
  - intros b e. destruct (Z.ltb_spec 100 b); [|done]. by intros [= <-].
  - intros b. by destruct (Z.ltb_spec 100 b).
Qed.
#[export] Instance processing : Processing store unit unit Z Z := { process_extracts _ e w := (Ok e, w) }.
#[export] Instance executed : Executed Z unit unit := {
  ex_header b := SampleNode.sealed b; ex_transactions _ := []; ex_receipts _ := [] }.
#[export] Instance lawful_processing : LawfulProcessing store unit unit Z Z chain id.
Proof. constructor. by intros db e w b w' [= <- <-]. Qed.

#[export] Instance dependable :
  Dependable (TestHostNotifier chain) (list (HostNotification chain)) chain Empty_set store unit unit unit Z Z Z id id.
Proof. constructor; intros; repeat eexists. Qed.

#[export] Instance chains : TestChains chain := {
  first_number c := default 0 (head c);
  tip_number c := default 0 (last c);
  exex_committed_chain n := match n with Committed new | Reorged _ new => Some new | Reverted _ => None end;
  exex_reverted_chain n := match n with Reverted old | Reorged old _ => Some old | Committed _ => None end }.
#[export] Instance block_specs : BlockSpecs Z := { spec_number n := n; set_block_number h _ := h }.
#[export] Instance notification_specs : NotificationSpecs Z chain chain unit Z := {
  commit_single_block n := mkNotification (Committed [n]) [];
  revert_single_block n := mkNotification (Reverted [n]) [];
  nspec_default := [];
  nspec_commit c n := c ++ [n];
  to_exex_notification c := mkNotification (Committed c) [] }.
Definition cold_polls (s : store) : list (res unit (option Z)) := [Err tt; Ok None; Ok (Some (tip_of id s))].

Lemma commit_all (l k : list Z) : fold_left (fun c n => c ++ [n]) l k = k ++ l.
Proof. revert k. induction l as [|n l IH]; intros k; simpl; [by rewrite app_nil_r|]. by rewrite IH, <- app_assoc. Qed.

#[export] Instance lawful_harness :
  LawfulHarness (C:=chain) (SE:=unit) (B:=Z) (Spec:=Z) (NSpec:=chain) (Sd:=unit) (Tx:=Z) id id cold_polls.
Proof.
  constructor; try done; simpl.
  - by intros c b k ->.
  - intros c b k ->. by rewrite last_snoc.
  - intros n. by exists [n], n.
  - intros n. by exists [n], n.
  - intros l _. exists l. by rewrite commit_all.
  - intros s. exists (tip_of id s). split; [|done]. do 2 right. by left.
Qed.

Definition node : SignetNode (TestHostNotifier chain) store unit unit unit Z :=
  mkNode (mkTest []) [] ChainNotifier_new (AtHeight 0) tt Recorder_new [].
Definition context : SignetTestContext (Blob:=unit) := mkContext node true ∅ 100 ∅.

Lemma context_in_step : in_step (B:=Z) (PE:=unit) (Ext:=Z) (Ex:=Z) (C:=chain) id id context 0.
Proof. exists 100, []. split; [|done]. split; [done|]. split; [done|]. split; [done|constructor]. Qed.

Definition run (script : list (Z * harness_op)) :=
  run_script (SE:=unit) (PE:=unit) (B:=Z) (fun tx : Z => tx) (fun _ : unit => Eip4844 []) cold_polls script context.
End SampleHarness.
Import SampleHarness.

Lemma harness_script_settles_witness :
  let script := [(0, ProcessBlock 0); (1, ProcessBlocks [0; 0; 0]); (2, RevertBlock 0); (3, ProcessBlock 0)] in
  exists ctx, run script = (Ok tt, ctx) /\ nd_status (tc_node ctx) = AtHeight 4
    /\ block_number (cn_tags (nd_chain (tc_node ctx))) = 4 /\ tc_height ctx = 104.
Proof.
  intros script.
  destruct (harness_script_settles (NSpec:=chain) (fun tx : Z => tx) (fun _ : unit => Eip4844 (Blob:=unit) []) cold_polls id id
    script 0 context) as (ctx & Hr & _ & Hs).
  - done.
  - apply context_in_step.
  - vm_compute. by split_and!.
  - destruct Hs as [Hst Hb]; [done|]. exists ctx. split; [exact Hr|]. split; [exact Hst|]. split; [exact Hb|].
    vm_compute in Hr. by injection Hr as <-.
Defined.

(** Taking back the block of the deployment changes nothing in the rollup: the
    node stays up and the caller waits for a status that is never sent. *)
Lemma deployment_revert_waits :
  let '(r, ctx) := run [(0, RevertBlock 0)] in r = Err Pending /\ tc_running ctx = true.
Proof. vm_compute. by split. Qed.

(** A revert that starts in the middle of the chain but ends below the stored
    tip stops the node: the caller learns that the sender is gone. *)
Lemma uncovering_revert_stops :
  let '(r, ctx) := (_ ← run_op (SE:=unit) (PE:=unit) (B:=Z) (fun tx : Z => tx) (fun _ : unit => Eip4844 []) cold_polls 0
                          (ProcessBlocks [0; 0; 0]);
                    process_notification (SE:=unit) (PE:=unit) (B:=Z) (fun tx : Z => tx) (fun _ : unit => Eip4844 []) cold_polls 1
                      (mkNotification (Reverted [102]) [])) context in
  r = Err RecvError /\ tc_running ctx = false.
Proof. vm_compute. by split. Qed.

(** ** A node that keeps running *)
Module SampleRun.
Definition commit (c : chain) : HostNotification chain := mkHostNotification (ChainCommitted c) None None.
Definition reorg : HostNotification chain :=
  mkHostNotification (ChainReorged (mkRevertRange 101 102) [101; 102; 103]) (Some 102) (Some 101).
Definition inputs : list (list (HostNotification chain) * Z) :=
  [([commit [100; 101; 102]], 0); ([reorg; commit [104]], 1); ([], 2)].

Lemma inputs_announced : announces (C:=chain) (B:=Z) 100 [] (mkTest []) inputs.
Proof.
  assert (forall n m : TestHostNotifier chain,
    m = n \/ (exists h r, send_finished_height (W:=list (HostNotification chain)) h n = (m, r)) -> m = n) as Hfin.
  { intros n m [->|(h & r & [= <- _])]; done. }
  eapply announces_next; [reflexivity|by split|]. intros m ->%Hfin.
  eapply announces_next; [reflexivity| |].
  { split; [by vm_compute|]. vm_compute. by split_and!. }
  intros m' ->%Hfin. eapply announces_next; [reflexivity|by split|]. intros m'' ->%Hfin. constructor.
Qed.
End SampleRun.

Lemma node_keeps_running_witness :
  exists k announced s', k = [100]
    /\ start (NE:=Empty_set) (SE:=unit) (PE:=unit) true None SampleRun.inputs node = (Ok false, s')
    /\ delivers (C:=chain) (B:=Z) [] (mkTest []) SampleRun.inputs false announced (nd_notifier s')
    /\ holds_chain (C:=chain) (B:=Z) (Ext:=Z) (PE:=unit) id (k ++ tail announced) (nd_storage s')
    /\ nd_storage s' = [1; 2; 3; 4].
Proof.
  destruct (node_keeps_running id id None SampleRun.inputs [100] node) as (k & ann & s' & Hk & Hl & Hs & Hd & Hh).
  - split; [done|]. split; [done|constructor].
  - intros h Hr. simpl in Hr. assert (h = 100) as -> by lia. apply SampleRun.inputs_announced.
  - specialize (Hl (Some 0) eq_refl). assert (k = [100]) as -> by (apply (prefix_length_eq _ _ Hk); cbn in *; lia).
    exists [100], ann, s'. split; [done|].
    split; [exact Hs|]. split; [exact Hd|]. split; [exact Hh|].
    vm_compute in Hs. by injection Hs as <-.
Defined.

(** ** A guard that rejects what happened *)
Module SampleGuards.
#[export] Instance hot : HotStorage Z unit unit Z unit := {
  reader s := Ok s;
  get_header_number _ _ := Ok None;
  header_by_hash _ _ := Ok None;
  get_header _ _ := Ok None;
  get_account_at_height _ _ _ := Ok None;
  get_storage_at_height _ _ _ _ := Ok None;
  get_bytecode _ _ := Ok None;
  original_bytes _ := [];
  revm_reader_at_height s n := Ok (s, n) }.
(** Every account has the balance the storage is. *)
#[export] Instance accounts : AccountReads Z unit := {
  get_account s _ := Ok (Some (mkAccount 7 s None)); get_storage _ _ _ := Ok None }.
#[export] Instance u256 : U256Ops := {
  u256_add a b := (a + b) mod 2 ^ 256; u256_sub a b := (a - b) mod 2 ^ 256;
  u256_saturating_add a b := Z.min max256 (a + b) }.
#[export] Instance lawful_u256 : LawfulU256.
Proof. constructor; intros; apply Z.mod_small; unfold max256 in *; lia. Qed.
#[export] Instance i256 : I256Ops Z := {
  into_sign_and_abs z := (if z <? 0 then Negative else Positive, Z.abs z);
  checked_from_sign_and_abs s a :=
    if a <? 2 ^ 255 then Some (match s with Positive => a | Negative => - a end) else None }.
#[export] Instance lawful_i256 : LawfulI256 Z.
Proof.
  constructor; simpl.
  - intros s a i Ha. destruct (Z.ltb_spec a (2 ^ 255)); [|done]. intros [= <-].
    destruct (Z.eqb_spec a 0) as [->|]; [by destruct s|].
    destruct s; [rewrite (proj2 (Z.ltb_ge _ _)) by lia|rewrite (proj2 (Z.ltb_lt _ _)) by lia]; f_equal; lia.
  - intros s a Ha. rewrite (proj2 (Z.ltb_lt _ _)) by lia. by eexists.
Qed.
End SampleGuards.
Import SampleGuards.

(** An unchanged balance is not an increase by exactly zero; a decrease by at
    least more than there was is accepted, since the bound wraps around. *)
Lemma zero_change_rejected :
  let g := mkChecks 1 50 in
  (assert_increase_exact (E:=unit) (I:=Z) 50 0 g).1 = Panic
  /\ (assert_no_change (E:=unit) 50 g).1 = Ok tt
  /\ (assert_decrease_at_least (E:=unit) 49 60 g).1 = Ok tt.
Proof. vm_compute. by split_and!. Qed.

Lemma exact_guards_witness :
  let g := mkChecks 1 50 in
  ((assert_increase_exact (E:=unit) (I:=Z) 70 20 g).1 = Ok tt <-> 0 < 20 /\ 70 = 50 + 20)
  /\ (assert_increase_exact (E:=unit) (I:=Z) 70 20 g).1 = Ok tt.
Proof.
  intros g. destruct (exact_guards (E:=unit) (I:=Z) 70 20 g 70) as (Hi & _).
  - done.
  - unfold max256. simpl. lia.
  - unfold max256. lia.
  - lia.
  - split; [exact Hi|]. by apply Hi.
Defined.
