(* ===== verification/Builder.v ===== *)
(** * The node builder ([crates/node/src/builder.rs], [crates/node/src/rpc.rs])

    The builder with its type-state, the genesis initialisation of both storage
    layers, the construction of the node and the start of its RPC server.  A
    component's type parameter is its type-state, as in the source; storage is
    the interface [GenesisStorage]. *)

From S2P Require Import Prelude Primitives RpcConfig Genesis Serve.
#[local] Open Scope string_scope.
#[local] Open Scope Z_scope.

(** [NotAnAof], [NotAStorage]. *)
Inductive NotAnAof := not_an_aof.
Inductive NotAStorage := not_a_storage.

(** [SignetNodeBuilder]; [Cfg] is the node configuration, [Cl] the HTTP client,
    [Ca] the blob cache handle, [Sv] the transport configuration. *)
Record SignetNodeBuilder (Cfg Cl Ca Sv N S Aof : Type) := mkBuilder {
  bd_config : Cfg; bd_alias_oracle : option Aof; bd_notifier : option N; bd_storage : option S;
  bd_client : option Cl; bd_blob_cacher : option Ca; bd_serve_config : option Sv;
  bd_rpc_config : option StorageRpcConfig }.
Arguments mkBuilder {Cfg Cl Ca Sv N S Aof} _ _ _ _ _ _ _ _.
Arguments bd_config {Cfg Cl Ca Sv N S Aof} _.
Arguments bd_alias_oracle {Cfg Cl Ca Sv N S Aof} _.
Arguments bd_notifier {Cfg Cl Ca Sv N S Aof} _.
Arguments bd_storage {Cfg Cl Ca Sv N S Aof} _.
Arguments bd_client {Cfg Cl Ca Sv N S Aof} _.
Arguments bd_blob_cacher {Cfg Cl Ca Sv N S Aof} _.
Arguments bd_serve_config {Cfg Cl Ca Sv N S Aof} _.
Arguments bd_rpc_config {Cfg Cl Ca Sv N S Aof} _.

Section setters.
Context {Cfg Cl Ca Sv : Type}.
Abbreviation B := (SignetNodeBuilder Cfg Cl Ca Sv).

Definition SignetNodeBuilder_new (config : Cfg) : B unit NotAStorage NotAnAof :=
  mkBuilder config None None None None None None None.

Definition with_storage {N S S' Aof} (storage : S') (b : B N S Aof) : B N S' Aof :=
  mkBuilder (bd_config b) (bd_alias_oracle b) (bd_notifier b) (Some storage) (bd_client b)
    (bd_blob_cacher b) (bd_serve_config b) (bd_rpc_config b).
Definition with_notifier {N N' S Aof} (notifier : N') (b : B N S Aof) : B N' S Aof :=
  mkBuilder (bd_config b) (bd_alias_oracle b) (Some notifier) (bd_storage b) (bd_client b)
    (bd_blob_cacher b) (bd_serve_config b) (bd_rpc_config b).
Definition with_alias_oracle {N S Aof Aof'} (alias_oracle : Aof') (b : B N S Aof) : B N S Aof' :=
  mkBuilder (bd_config b) (Some alias_oracle) (bd_notifier b) (bd_storage b) (bd_client b)
    (bd_blob_cacher b) (bd_serve_config b) (bd_rpc_config b).
Definition with_client {N S Aof} (client : Cl) (b : B N S Aof) : B N S Aof :=
  mkBuilder (bd_config b) (bd_alias_oracle b) (bd_notifier b) (bd_storage b) (Some client)
    (bd_blob_cacher b) (bd_serve_config b) (bd_rpc_config b).
Definition with_blob_cacher {N S Aof} (blob_cacher : Ca) (b : B N S Aof) : B N S Aof :=
  mkBuilder (bd_config b) (bd_alias_oracle b) (bd_notifier b) (bd_storage b) (bd_client b)
    (Some blob_cacher) (bd_serve_config b) (bd_rpc_config b).
Definition with_serve_config {N S Aof} (serve_config : Sv) (b : B N S Aof) : B N S Aof :=
  mkBuilder (bd_config b) (bd_alias_oracle b) (bd_notifier b) (bd_storage b) (bd_client b)
    (bd_blob_cacher b) (Some serve_config) (bd_rpc_config b).
Definition with_rpc_config {N S Aof} (rpc_config : StorageRpcConfig) (b : B N S Aof) : B N S Aof :=
  mkBuilder (bd_config b) (bd_alias_oracle b) (bd_notifier b) (bd_storage b) (bd_client b)
    (bd_blob_cacher b) (bd_serve_config b) (Some rpc_config).

(** The builders a program can make: the three flags say which type-state
    components have left their sentinel. *)
Inductive reach : forall N S Aof, bool -> bool -> bool -> B N S Aof -> Prop :=
| reach_new config : reach unit NotAStorage NotAnAof false false false (SignetNodeBuilder_new config)
| reach_storage N S S' Aof n s a b (x : S') :
    reach N S Aof n s a b -> reach N S' Aof n true a (with_storage x b)
| reach_notifier N N' S Aof n s a b (x : N') :
    reach N S Aof n s a b -> reach N' S Aof true s a (with_notifier x b)
| reach_alias N S Aof Aof' n s a b (x : Aof') :
    reach N S Aof n s a b -> reach N S Aof' n s true (with_alias_oracle x b)
| reach_client N S Aof n s a b x :
    reach N S Aof n s a b -> reach N S Aof n s a (with_client x b)
| reach_cacher N S Aof n s a b x :
    reach N S Aof n s a b -> reach N S Aof n s a (with_blob_cacher x b)
| reach_serve N S Aof n s a b x :
    reach N S Aof n s a b -> reach N S Aof n s a (with_serve_config x b)
| reach_rpc N S Aof n s a b x :
    reach N S Aof n s a b -> reach N S Aof n s a (with_rpc_config x b).

(** The type-state is the truth: a component whose type was set has a value. *)
Lemma reach_typestate N S Aof n s a (b : B N S Aof) :
  reach N S Aof n s a b ->
  (n = true -> is_Some (bd_notifier b)) /\ (s = true -> is_Some (bd_storage b))
  /\ (a = true -> is_Some (bd_alias_oracle b)).
Proof. induction 1; simpl; naive_solver. Qed.
End setters.

(** ** Storage as the builder uses it

    [Rd] and [Wr] are hot readers and writers; [Fl] the hardfork flags. *)
Class GenesisStorage (S SE Rd Wr A Fl : Type) := {
  gs_reader : S -> res SE Rd;
  has_block : Rd -> Z -> res SE bool;
  rd_get_header : Rd -> Z -> res SE (option SealedHeader);
  hot_writer : S -> res SE Wr;
  writer_load_genesis : Genesis A -> Fl -> Wr -> res SE Wr;
  writer_commit : Wr -> st S SE unit;
  gs_cold_latest : S -> res SE (option Z);
  append_genesis : SealedHeader -> st S SE unit }.

(** What the builder relies on: [hot] and [cold] say whether the layers hold a
    genesis. *)
Class LawfulGenesisStorage {S SE Rd Wr A Fl : Type} `{GenesisStorage S SE Rd Wr A Fl}
    (hot cold : S -> bool) : Prop := {
  has_block_hot s rd b : gs_reader s = Ok rd -> has_block rd 0 = Ok b -> b = hot s;
  cold_latest_genesis s o : gs_cold_latest s = Ok o -> bool_decide (is_Some o) = cold s;
  commit_loads s w w' g f u s' :
    hot_writer s = Ok w -> writer_load_genesis g f w = Ok w' -> writer_commit w' s = (Ok u, s') ->
    hot s' = true /\ cold s' = cold s;
  append_loads h s u s' : append_genesis h s = (Ok u, s') -> cold s' = true /\ hot s' = hot s }.

Inductive BuildError (SE CE : Type) :=
| NotifierMissing | StorageMissing | BuildStorage (e : SE) | GenesisHeaderMissing
| BlobCacherMissing | ServeConfigMissing | RpcConfigMissing | ConstantsError (e : CE).
Arguments NotifierMissing {SE CE}.
Arguments StorageMissing {SE CE}.
Arguments BuildStorage {SE CE} e.
Arguments GenesisHeaderMissing {SE CE}.
Arguments BlobCacherMissing {SE CE}.
Arguments ServeConfigMissing {SE CE}.
Arguments RpcConfigMissing {SE CE}.
Arguments ConstantsError {SE CE} e.

(** The node as it is built: [SignetNode] with its components. *)
Record BuiltNode (Cfg Con Cl Ca Sv N S Aof : Type) := mkBuilt {
  bn_config : Cfg; bn_notifier : N; bn_storage : S; bn_constants : Con; bn_alias_oracle : Aof;
  bn_client : Cl; bn_blob_cacher : Ca; bn_serve_config : Sv; bn_rpc_config : StorageRpcConfig;
  bn_rpc_handle : option RpcServerGuard }.
Arguments mkBuilt {Cfg Con Cl Ca Sv N S Aof} _ _ _ _ _ _ _ _ _ _.
Arguments bn_config {Cfg Con Cl Ca Sv N S Aof} _.
Arguments bn_notifier {Cfg Con Cl Ca Sv N S Aof} _.
Arguments bn_storage {Cfg Con Cl Ca Sv N S Aof} _.
Arguments bn_constants {Cfg Con Cl Ca Sv N S Aof} _.
Arguments bn_alias_oracle {Cfg Con Cl Ca Sv N S Aof} _.
Arguments bn_client {Cfg Con Cl Ca Sv N S Aof} _.
Arguments bn_blob_cacher {Cfg Con Cl Ca Sv N S Aof} _.
Arguments bn_serve_config {Cfg Con Cl Ca Sv N S Aof} _.
Arguments bn_rpc_config {Cfg Con Cl Ca Sv N S Aof} _.
Arguments bn_rpc_handle {Cfg Con Cl Ca Sv N S Aof} _.

Section build.
Context {A IO JE X ST SC Cl Ca Sv N S Aof SE Rd Wr Fl CE Con : Type}
  `{!GenesisIO A IO JE, !HardforkFlags Fl, !GenesisStorage S SE Rd Wr A Fl}.
Variable default_client : Cl.
Variable try_from_genesis : Genesis A -> res CE Con.
Abbreviation Cfg := (SignetNodeConfig X ST SC).
Abbreviation B := (SignetNodeBuilder Cfg Cl Ca Sv N S Aof).
Abbreviation BErr := (BuildError SE CE).
(** The builder and the process's genesis cell. *)
Abbreviation M := (st (B * option (Genesis A)) BErr).

Definition get_builder : M B := fun s => (Ok s.1, s).
Definition read_storage {Y} (f : S -> res SE Y) : M Y := fun s =>
  (db ← ok_or (bd_storage s.1) StorageMissing; map_err BuildStorage (f db), s).
Definition write_storage {Y} (m : st S SE Y) : M Y := fun s =>
  match bd_storage s.1 with
  | Some db => let '(r, db) := m db in (map_err BuildStorage r, (with_storage db s.1, s.2))
  | None => (Err StorageMissing, s)
  end.
Definition on_cell {Y} (m : st (option (Genesis A)) BErr Y) : M Y := fun s =>
  let '(r, once) := m s.2 in (r, (s.1, once)).
(** [self.config.genesis()], which panics or succeeds. *)
Definition the_genesis : M (Genesis A) := fun s =>
  match config_genesis (bd_config s.1) s.2 with
  | (Ok g, once) => (Ok g, (s.1, once))
  | (_, once) => (Panic, (s.1, once))
  end.

Definition load_hot_genesis : M unit :=
  genesis ← the_genesis;
  let hardforks := genesis_hardforks genesis in
  writer ← read_storage (fun db => writer ← hot_writer db; writer_load_genesis genesis hardforks writer);
  write_storage (writer_commit writer).

Definition load_cold_genesis : M unit :=
  found ← read_storage (fun db => reader ← gs_reader db; rd_get_header reader 0);
  genesis_header ← st_lift (ok_or found GenesisHeaderMissing);
  write_storage (append_genesis genesis_header).

Definition insert_default_client (b : B) : B :=
  match bd_client b with Some _ => b | None => with_client default_client b end.

Definition prebuild : M unit :=
  _ ← st_modify (fun s => (insert_default_client s.1, s.2));
  b ← get_builder;
  _ ← st_lift (ok_or (bd_notifier b) NotifierMissing);
  _ ← st_lift (ok_or (bd_storage b) StorageMissing);
  has_hot_genesis ← read_storage (fun db => reader ← gs_reader db; has_block reader 0);
  _ ← (if has_hot_genesis : bool then mret tt else load_hot_genesis);
  cold_latest ← read_storage gs_cold_latest;
  match cold_latest with Some _ => mret tt | None => load_cold_genesis end.

(** [SignetNode::new_unsafe]. *)
Definition new_unsafe (notifier : N) (config : Cfg) (storage : S) (alias_oracle : Aof) (client : Cl)
    (blob_cacher : Ca) (serve_config : Sv) (rpc_config : StorageRpcConfig) :
    st (option (Genesis A)) BErr (BuiltNode Cfg Con Cl Ca Sv N S Aof) :=
  constants ← st_map_err ConstantsError (config_constants try_from_genesis config);
  mret (mkBuilt config notifier storage constants alias_oracle client blob_cacher serve_config
          rpc_config None).

Definition build : M (BuiltNode Cfg Con Cl Ca Sv N S Aof) :=
  _ ← prebuild;
  b ← get_builder;
  notifier ← st_lift (expect (bd_notifier b));
  storage ← st_lift (expect (bd_storage b));
  alias_oracle ← st_lift (expect (bd_alias_oracle b));
  client ← st_lift (expect (bd_client b));
  blob_cacher ← st_lift (ok_or (bd_blob_cacher b) BlobCacherMissing);
  serve_config ← st_lift (ok_or (bd_serve_config b) ServeConfigMissing);
  rpc_config ← st_lift (ok_or (bd_rpc_config b) RpcConfigMissing);
  on_cell (new_unsafe notifier (bd_config b) storage alias_oracle client blob_cacher serve_config rpc_config).

(** ** Properties *)

Section initialised.
Context (hot cold : S -> bool) `{!LawfulGenesisStorage hot cold}.

Lemma read_storage_ok {Y} (f : S -> res SE Y) s y s' :
  read_storage f s = (Ok y, s') -> s' = s /\ exists db, bd_storage s.1 = Some db /\ f db = Ok y.
Proof.
  unfold read_storage. destruct (bd_storage s.1) as [db|]; simpl; [|done].
  intros [= Hf <-]. apply map_err_ok in Hf. eauto.
Qed.

Lemma write_storage_ok {Y} (m : st S SE Y) s y s' :
  write_storage m s = (Ok y, s') ->
  exists db db', bd_storage s.1 = Some db /\ m db = (Ok y, db') /\ s' = (with_storage db' s.1, s.2).
Proof.
  unfold write_storage. destruct (bd_storage s.1) as [db|]; [|done].
  destruct (m db) as [r db'] eqn:Hm. intros [= Hr <-]. apply map_err_ok in Hr as ->. eauto.
Qed.

(** The builder up to its storage. *)
Definition same_parts (b b' : B) : Prop :=
  exists db, b' = with_storage db b.

Lemma load_hot_ok s u s' db :
  bd_storage s.1 = Some db -> load_hot_genesis s = (Ok u, s') ->
  exists db', bd_storage s'.1 = Some db' /\ same_parts s.1 s'.1 /\ hot db' = true /\ cold db' = cold db.
Proof.
  intros Hdb Hl. unfold load_hot_genesis in Hl.
  apply st_bind_ok in Hl as (g & s1 & Hg & Hl).
  assert (s1.1 = s.1) as Hs1.
  { unfold the_genesis in Hg. destruct (config_genesis _ _) as [[]]; by simplify_eq/=. }
  apply st_bind_ok in Hl as (w & s2 & Hw & Hl).
  apply read_storage_ok in Hw as (-> & db1 & Hdb1 & Hw). rewrite Hs1, Hdb in Hdb1. injection Hdb1 as <-.
  res_inv. apply write_storage_ok in Hl as (db1 & db' & Hdb1 & Hc & ->).
  rewrite Hs1, Hdb in Hdb1. injection Hdb1 as <-. exists db'. rewrite Hs1. split; [done|].
  split; [by exists db'|]. by eapply commit_loads.
Qed.

Lemma load_cold_ok s u s' db :
  bd_storage s.1 = Some db -> load_cold_genesis s = (Ok u, s') ->
  exists db', bd_storage s'.1 = Some db' /\ same_parts s.1 s'.1 /\ cold db' = true /\ hot db' = hot db.
Proof.
  intros Hdb Hl. unfold load_cold_genesis in Hl.
  apply st_bind_ok in Hl as (o & s1 & Ho & Hl). apply read_storage_ok in Ho as (-> & _).
  apply st_bind_ok in Hl as (h & s1 & Hh & Hl). injection Hh as _ <-.
  apply write_storage_ok in Hl as (db1 & db' & Hdb1 & Ha & ->).
  rewrite Hdb in Hdb1. injection Hdb1 as <-. exists db'. split; [done|].
  split; [by exists db'|]. by eapply append_loads.
Qed.

(** A successful [prebuild] leaves a genesis in both layers, and touches nothing
    of a storage that has one in both. *)
Lemma prebuild_initialises b once db u s' :
  bd_storage b = Some db -> prebuild (b, once) = (Ok u, s') ->
  exists db', bd_storage s'.1 = Some db' /\ hot db' = true /\ cold db' = true
    /\ s'.1 = with_storage db' (insert_default_client b)
    /\ (hot db = true -> cold db = true -> db' = db /\ s'.2 = once).
Proof.
  intros Hdb Hp. unfold prebuild in Hp.
  apply st_bind_ok in Hp as (y1 & s1 & H1 & Hp). unfold st_modify in H1. injection H1 as _ <-.
  assert (bd_storage (insert_default_client b) = Some db) as Hdb1
    by (unfold insert_default_client; by destruct (bd_client b)).
  assert (insert_default_client b = with_storage db (insert_default_client b)) as Hself
    by (destruct (insert_default_client b); simpl in *; by rewrite Hdb1).
  set (b1 := insert_default_client b) in *. cbn [fst snd] in Hp.
  apply st_bind_ok in Hp as (y2 & s2 & H2 & Hp). unfold get_builder in H2. injection H2 as _ <-.
  apply st_bind_ok in Hp as (y3 & s3 & H3 & Hp). unfold st_lift in H3. injection H3 as _ <-.
  apply st_bind_ok in Hp as (y4 & s4 & H4 & Hp). unfold st_lift in H4. injection H4 as _ <-.
  apply st_bind_ok in Hp as (has_hot & s5 & H5 & Hp).
  apply read_storage_ok in H5 as (-> & db0 & E0 & H5). cbn in E0. rewrite Hdb1 in E0. injection E0 as <-.
  apply bind_ok in H5 as (rd & Hrd & Hhb). pose proof (has_block_hot db rd has_hot Hrd Hhb) as ->.
  apply st_bind_ok in Hp as (y6 & s6 & H6 & Hp).
  assert (exists db1, bd_storage s6.1 = Some db1 /\ hot db1 = true /\ cold db1 = cold db
    /\ s6.1 = with_storage db1 b1 /\ (hot db = true -> db1 = db /\ s6.2 = once))
    as (db1 & Hs6 & Hhot & Hcold & Hparts & Hsame).
  { destruct (hot db) eqn:Eh.
    - injection H6 as _ <-. by exists db.
    - destruct (load_hot_ok (b1, once) y6 s6 db Hdb1 H6) as (db1 & ? & [db2 Hsp] & ? & ?).
      exists db1. do 3 (split; [done|]). split; [|done]. cbn [fst] in Hsp. rewrite Hsp in *. by simplify_eq/=. }
  apply st_bind_ok in Hp as (o & s7 & H7 & Hp).
  apply read_storage_ok in H7 as (-> & db2 & E2 & H7). rewrite Hs6 in E2. injection E2 as <-.
  apply cold_latest_genesis in H7. rewrite Hcold in H7. destruct o as [n|].
  - injection Hp as _ <-. exists db1. split; [done|]. split; [done|]. split; [|split; [done|]].
    + rewrite Hcold, <- H7. done.
    + intros Hh _. by apply Hsame.
  - destruct (load_cold_ok s6 u s' db1 Hs6 Hp) as (db3 & ? & [db4 Hsp] & ? & Hh3).
    exists db3. split; [done|]. split; [by rewrite Hh3|]. split; [done|]. split.
    + rewrite Hparts in Hsp. rewrite Hsp in *. by simplify_eq/=.
    + intros _ Hc. rewrite Hc in H7. done.
Qed.

(** C39: Building succeeds or names the first component that is missing: for every
    builder whose type-state allows [build], once [prebuild] has succeeded (and
    both layers hold a genesis) no [expect] of [build] panics; the blob cacher,
    the transport and the RPC configuration are asked for in this order, and
    the node is made of exactly the given components. *)
Theorem build_outcomes b once u s1 :
  reach N S Aof true true true b -> prebuild (b, once) = (Ok u, s1) ->
  exists notifier alias_oracle client db,
    bd_notifier b = Some notifier /\ bd_alias_oracle b = Some alias_oracle
    /\ client = default default_client (bd_client b)
    /\ hot db = true /\ cold db = true
    /\ build (b, once) =
       match bd_blob_cacher b, bd_serve_config b, bd_rpc_config b with
       | None, _, _ => (Err BlobCacherMissing, s1)
       | Some _, None, _ => (Err ServeConfigMissing, s1)
       | Some _, Some _, None => (Err RpcConfigMissing, s1)
       | Some blob_cacher, Some serve_config, Some rpc_config =>
           on_cell (new_unsafe notifier (bd_config b) db alias_oracle client blob_cacher
                      serve_config rpc_config) s1
       end.
Proof.
  intros Hr Hp. destruct (reach_typestate _ _ _ _ _ _ _ Hr) as (Hn & Hs & Ha).
  destruct (Hn eq_refl) as [n En], (Hs eq_refl) as [db Edb], (Ha eq_refl) as [a Ea].
  destruct (prebuild_initialises b once db u s1 Edb Hp) as (db' & _ & Hh & Hc & Hparts & _).
  exists n, a, (default default_client (bd_client b)), db'. do 5 (split; [done|]).
  unfold build. unfold mbind at 1, st_bind at 1. rewrite Hp.
  unfold get_builder. unfold mbind at 1, st_bind at 1. rewrite Hparts.
  destruct b as [cfg ao no sto cl ca sv rc]. simpl in *. simplify_eq/=.
  unfold insert_default_client. destruct s1 as [b1 once1]. simpl in Hparts. subst b1.
  destruct cl, ca, sv, rc; reflexivity.
Qed.
End initialised.
End build.
