(* ===== verification/Samples.v ===== *)
(** * Instances of the properties on sample data

    Each theorem with hypotheses is applied to a concrete input that meets
    them, over the sample chain of [Primitives.Sample] and the sample storage
    below: every height up to 2^40 holds one block with two transactions. *)

From S2P Require Import Prelude HostTypes BlockTags Primitives Interest ChainNotifier Subs Filters.
From S2P Require Import Float64 RpcConfig Errors Storage RpcCtx GasOracle FeeHistory EthFilters EthQueries Tracer Tracing TracingPermits TracingProps.
From S2P Require Import HostRpc Alias Blobber Metrics BlockProcessor.
Import Sample.

Module SampleStorage.
Definition block_at (n : Z) : option SealedHeader :=
  if (0 <=? n) && (n <? 2 ^ 40) then Some (mkSealedHeader (Sample.header n) (1000 + n)) else None.
Definition txs_at (n : Z) : list tx := [mkTx (2 * n) 3 false; mkTx (2 * n + 1) 5 true].
Definition receipt_ix (n i : Z) : ColdReceipt raw_log :=
  mkColdReceipt Legacy true 21000 [] (2 * n + i) n (1000 + n) i 0 10500.
Definition receipt_at (n : Z) : ColdReceipt raw_log := receipt_ix n 0.
Definition tx_ix (n i : Z) : option (tx * ConfirmationMeta) :=
  t ← txs_at n !! Z.to_nat i; h ← block_at n; Some (t, mkMeta n (sh_hash h) i).

#[export] Instance cold_storage : ColdStorage unit unit tx log_filter raw_log := {
  get_header_by_number _ n := Ok (block_at n);
  get_headers _ ns := Ok (block_at <$> ns);
  get_transactions_in_block _ n := Ok (txs_at n);
  get_transaction_count _ _ := Ok 2;
  get_receipts_in_block _ n := Ok [receipt_ix n 0; receipt_ix n 1];
  get_tx_by_hash _ h := Ok (tx_ix (h / 2) (h mod 2));
  get_tx_by_block_and_index _ n i := Ok (tx_ix n i);
  get_receipt _ h := Ok (Some (receipt_ix (h / 2) (h mod 2)));
  stream_logs _ _ _ _ := Ok [];
  get_latest_block _ := Ok (Some 100) }.

#[export] Instance hot_storage : HotStorage unit unit unit unit unit := {
  reader _ := Ok tt;
  get_header_number _ h := Ok (Some (h - 1000));
  header_by_hash _ h := Ok (block_at (h - 1000));
  get_header _ n := Ok (block_at n);
  get_account_at_height _ _ _ := Ok (Some (mkAccount 5 100 (Some 9)));
  get_storage_at_height _ _ _ _ := Ok None;
  get_bytecode _ _ := Ok (Some tt);
  original_bytes _ := [96; 0];
  revm_reader_at_height _ n := Ok (tt, n) }.

Definition ctx : RpcCtx unit unit :=
  mkRpcCtx tt (BlockTags_new 50 40 30) 12 (fun _ => tt) 1 StorageRpcConfig_default.

#[export] Instance display : Display unit unit unit := {
  show_hash _ := "h"%string; show_id _ := "i"%string; show_u64 _ := "n"%string;
  show_cold _ := "c"%string; show_hot _ := "s"%string; show_db _ := "d"%string }.
End SampleStorage.
Import SampleStorage.

(** ** Block tags *)
Lemma rewind_to_memory_ordered_witness :
  let c := mkConfig (mkBlockTags 92 92 90 None) [] None None in
  tags_ordered (mem c) /\ (BlockTags.pending c = [] -> tags_below 92 (mem c)).
Proof.
  intros c. apply (rewind_to_memory_ordered (BlockTags_new 100 95 90) 92 c).
  - vm_compute. split; discriminate.
  - unfold c. eapply rtc_l; [apply step_write|]. eapply rtc_l; [apply step_write|].
    eapply rtc_l; [apply step_write|]. apply rtc_refl.
Defined.

Lemma update_all_no_inversion_witness :
  let c := mkConfig (mkBlockTags 100 95 95 None) [StoreSafe 98; StoreLatest 101] (Some 100) None in
  ~ observed_inversion c.
Proof.
  intros c. apply (update_all_no_inversion (BlockTags_new 100 95 90) 101 98 95 c); try (simpl; lia).
  unfold c. eapply rtc_l; [apply step_write|]. eapply rtc_l; [apply step_load_latest|]. apply rtc_refl.
Defined.

(** ** Subscriptions and filters *)
Definition notif : NewBlockNotification tx receipt :=
  mkNewBlock (Sample.header 7) (txs_at 7) [[11; 12]; [11]].

Lemma apply_filter_logs_witness :
  exists out, filter_notification_for_sub (E:=unit) (KLog (Range None None, 11) : InterestKind log_filter) notif
      = Ok (BufLog out)
    /\ l_inner <$> out = [11; 11].
Proof.
  destruct (apply_filter_logs (E:=unit) (Range None None, 11) notif) as (out & Ho & Hi & _);
    [vm_compute; lia|].
  exists out. split; [exact Ho|]. etransitivity; [exact Hi|vm_compute; reflexivity].
Defined.

Definition polls : list (Ready raw_log tx receipt) :=
  [mkReady false false None (Some (RecvOk (NewBlock notif)));
   mkReady false false (Some (Some 1%nat)) None].

Lemma subscription_fifo_witness :
  exists st brs, run_task (E:=unit) (KLog (Range None None, 11) : InterestKind log_filter)
      (task_start (KLog (Range None None, 11))) polls = Ok (st, brs)
    /\ t_sent st ++ buffer_items (t_buffer st)
       = mjoin (event_items (KLog (Range None None, 11)) <$> consumed brs).
Proof.
  apply (subscription_fifo (E:=unit) (KLog (Range None None, 11) : InterestKind log_filter) polls).
  repeat constructor; intros ev [= <-]. vm_compute. lia.
Defined.

Lemma cancelled_task_is_silent_witness :
  let k := KLog (Range None None, 11) : InterestKind log_filter in
  exists st brs, run_task (E:=unit) k (task_start k)
      [mkReady false true (Some (Some 9%nat)) (Some (RecvOk (NewBlock notif)))] = Ok (st, brs)
    /\ t_sent st = [] /\ t_running st = false.
Proof.
  intros k.
  destruct (cancelled_task_is_silent (E:=unit) k (task_start k)
    (mkReady false true (Some (Some 9%nat)) (Some (RecvOk (NewBlock notif)))) [] eq_refl eq_refl)
    as (st & brs & Hr & Hs & Hrun & _).
  by exists st, brs.
Defined.

Lemma subscribe_then_unsubscribe_witness :
  exists id task m1 m2,
    subscribe true (KBlock : InterestKind log_filter) SubscriptionManager_new = (Some (id, task), m1)
    /\ unsubscribe id m1 = (true, m2) /\ unsubscribe id m2 = (false, m2).
Proof.
  destruct (subscribe_then_unsubscribe SubscriptionManager_new (KBlock : InterestKind log_filter))
    as (id & task & m1 & m2 & H1 & _ & _ & _ & H2 & _ & _ & H3); [apply rtc_refl|vm_compute; reflexivity|].
  by exists id, task, m1, m2.
Defined.

Definition removed (n : Z) : RemovedBlock raw_log := mkRemovedBlock n (1000 + n) 0 [any_log 11; any_log 12].
Definition two_reorgs : list (ReorgNotification raw_log) :=
  [mkReorg 8 [removed 9; removed 10]; mkReorg 7 [removed 8; removed 9]].

Lemma two_reorgs_wf : Forall reorg_wf two_reorgs.
Proof.
  repeat constructor; cbn; try lia; try discriminate; rewrite ?elem_of_cons;
    try (intros [?|Hn]; [lia|by apply not_elem_of_nil in Hn]); apply not_elem_of_nil.
Qed.

Lemma compute_removed_logs_spec_witness :
  let a := mkActiveFilter 10 0 (KLog (Range None None, 11) : InterestKind log_filter) in
  af_next_start_block (compute_removed_logs two_reorgs a).2 = 8
  /\ length (compute_removed_logs two_reorgs a).1 = 2%nat.
Proof.
  intros a. destruct (compute_removed_logs_spec two_reorgs a (Range None None, 11) eq_refl two_reorgs_wf)
    as (_ & Hn & _).
  rewrite Hn. vm_compute. auto.
Defined.

Lemma removed_heights_once_witness :
  Forall (fun bj => delivered_at 11 two_reorgs 1 bj -> rb_number bj <> 9)
    (removed_blocks (mkReorg 7 [removed 8; removed 9])).
Proof.
  apply Forall_forall. intros bj Hin Hd Heq.
  destruct (removed_heights_once 11 two_reorgs 0 1 (mkReorg 8 [removed 9; removed 10])
    (mkReorg 7 [removed 8; removed 9]) (removed 9) bj two_reorgs_wf eq_refl eq_refl
    ltac:(left) Hin ltac:(split; [simpl; lia|intros j r Hj; lia]) Hd (eq_sym Heq)) as [H _].
  discriminate H.
Defined.

(** ** Errors and context *)
Lemma storage_errors_are_opaque_witness :
  signet_error_code (SE:=unit) (HE:=unit) (SignetResolve (ResolveDb tt)) = -32000.
Proof.
  apply (storage_errors_are_opaque (CE:=unit) tt tt (ResolveDb tt)). intros h. discriminate.
Defined.

Lemma resolve_evm_block_consistent_witness :
  exists rd sealed, reader (HS:=unit) (R:=unit) (Code:=unit) (HE:=unit) (SE:=unit) tt = Ok rd
    /\ get_header (HS:=unit) (Code:=unit) (SE:=unit) (HE:=unit) rd 50 = Ok (Some sealed)
    /\ h_number (sh_header sealed) = 50.
Proof.
  destruct (resolve_evm_block (R:=unit) (Code:=unit) (CE:=unit) (SE:=unit) (HE:=unit) ctx (IdNumber Pending)) as [eb|e|] eqn:E;
    [|vm_compute in E; discriminate..].
  destruct (resolve_evm_block_consistent ctx (IdNumber Pending) eb E)
    as (rd & sealed & Hr & Hg & _ & _ & Hn & _).
  exists rd, sealed. split; [exact Hr|]. split; [exact Hg|].
  vm_compute in Hg. injection Hg as <-. reflexivity.
Defined.

(** ** Log queries *)
Lemma get_logs_bounded_witness :
  exists resolved, query_logs (SE:=unit) (HE:=unit) tt StorageRpcConfig_default resolved = Ok []
    /\ resolved = (number_range 10 50, 7).
Proof.
  pose proof (get_logs_bounded (SE:=unit) (HE:=unit) tt StorageRpcConfig_default
    (BlockTags_new 49 40 30) (BlockTags_new 50 40 30) Finished (Range (Some (Number 10)) None, 7) []) as H.
  destruct H as (resolved & Hq & -> & _); [|reflexivity|].
  { intros from to Heq. injection Heq as <- <-. vm_compute. repeat split; discriminate. }
  by exists (number_range 10 50, 7).
Defined.

(** ** Block, transaction and account queries *)
Module SampleQueries.
#[export] Instance encoding : TxEncoding tx := { encoded_2718 t := [s_hash t]; create_address a n := a + n }.
#[export] Instance sample_bloom : ReceiptBloom raw_log := { bloom _ := 0 }.

Lemma hash_index n i : 0 <= i < 2 -> (2 * n + i) / 2 = n /\ (2 * n + i) mod 2 = i.
Proof. intros Hi. split; [symmetry; apply (Z.div_unique _ _ _ i)|symmetry; apply (Z.mod_unique _ _ n)]; lia. Qed.

#[export] Instance coherent : CoherentCold tt.
Proof.
  constructor.
  - intros n h txs i t Hh Ht Hi meta. cbn in Hh, Ht. injection Hh as Hh. injection Ht as <-.
    assert (tx_ix n (Z.of_nat i) = Some (t, meta)) as Hix.
    { unfold tx_ix. rewrite Nat2Z.id, Hi. simpl. rewrite Hh. done. }
    cbn. rewrite Hix. split; [done|]. do 2 f_equal. rewrite <- Hix.
    destruct i as [|[|i]]; simpl in Hi; simplify_eq; cbn [tx_hash sample_tx s_hash].
    + destruct (hash_index n 0) as [H1 H2]; [lia|]. rewrite Z.add_0_r in H1, H2. by rewrite H1, H2.
    + destruct (hash_index n 1) as [-> ->]; [lia|]. done.
  - intros n h txs crs i t cr Hh Ht Hc Hi Hcr. cbn in Hh, Ht, Hc. injection Ht as <-. injection Hc as <-.
    destruct i as [|[|i]]; simpl in Hi, Hcr; simplify_eq; cbn [cr_tx_hash cr_block_number receipt_ix tx_hash s_hash].
    + split; [cbn; lia|]. split; [done|]. cbn -[Z.div Z.modulo Z.mul].
      by destruct (hash_index n 0) as [-> ->]; [lia|].
    + split; [done|]. split; [done|]. cbn -[Z.div Z.modulo Z.mul].
      by destruct (hash_index n 1) as [-> ->]; [lia|].
Qed.
End SampleQueries.
Import SampleQueries.

Lemma transaction_queries_agree_witness :
  transaction_by_hash (L:=raw_log) (SE:=unit) (HE:=unit) tt Finished 15
  = Ok (Some (mkRpcTx (mkTx 15 5 true) 0 (Some 1007) (Some 7) (Some 1) (Some 12))).
Proof.
  destruct (block (SE:=unit) (HE:=unit) tt ctx Finished (IdNumber (Number 7)) (Some true))
    as [[blk|]| |] eqn:Hb; [|vm_compute in Hb; discriminate..].
  destruct (transaction_queries_agree tt ctx Finished (IdNumber (Number 7)) blk Hb)
    as (entries & Hs & Hget & _).
  vm_compute in Hb. injection Hb as <-.
  destruct entries as [|e0 [|e1 [|e2 entries]]]; try discriminate Hs.
  assert (e1 = mkRpcTx (mkTx 15 5 true) 0 (Some 1007) (Some 7) (Some 1) (Some 12)) as ->.
  { by injection Hs. }
  exact (proj2 (Hget 1%nat _ eq_refl)).
Defined.

Lemma receipt_queries_agree_witness :
  exists rr, transaction_receipt (SE:=unit) (HE:=unit) tt Finished 15 = Ok (Some rr).
Proof.
  destruct (block_receipts (SE:=unit) (HE:=unit) tt ctx Finished (IdNumber (Number 7)))
    as [[lr|]| |] eqn:Hb; [|vm_compute in Hb; discriminate..].
  destruct (receipt_queries_agree tt ctx Finished (IdNumber (Number 7)) lr Hb) as [Hget _].
  vm_compute in Hb. injection Hb as <-.
  eexists. exact (Hget 1%nat _ eq_refl).
Defined.

Lemma effective_gas_price_bounds_witness :
  rt_effective_gas_price (build_rpc_transaction (mkTx 1 9 false) (mkMeta 1 2 0) (Some 0)) = Some 9.
Proof.
  destruct (effective_gas_price_bounds (mkTx 1 9 false) 0 9 (receipt_at 7) (mkMeta 1 2 0))
    as (H & _); [reflexivity|lia|lia|cbn; lia|vm_compute; discriminate|exact H].
Defined.

Lemma account_queries_consistent_witness :
  exists rd : unit, exists a c, get_account_at_height rd 1 (Some 50) = Ok (Some a) /\ original_bytes c = [96; 0].
Proof.
  pose proof (account_queries_consistent (CE:=unit) ctx Finished 1 None 5 100 [96; 0]) as H.
  destruct H as (rd & height & acct & _ & Hh & Ha & _ & _ & [?|(a & h & c & -> & _ & _ & Hc)]);
    [reflexivity..|discriminate|].
  injection Hh as <-. by exists rd, a, c.
Defined.

(** ** Tracing: an EVM whose state is the sum of the tips it executed *)
Module SampleTracing.
Definition machine : Type := Z * Z.
#[export] Instance trace_evm : TraceEvm machine machine machine Z tx := {
  te_run v := Ok v;
  te_run_inspected _ v := Ok (v.1, v);
  run_tx t v := Ok (v.1, s_tip t);
  fill_tx t v := (v.1, s_tip t);
  gas_limit _ := 30000; x_gas_limit _ := 30000; gas_used _ := 21000;
  accept_state x := (x.1 + x.2, 0);
  take_result_and_state x := (x, x);
  commit r _ := (r.1 + r.2, 0) }.
#[export] Instance inspectors : Inspectors machine machine Z Z Z Z unit unit unit unit unit unit := {
  into_call_config c := Some c; into_pre_state_config c := Some c;
  into_flat_call_config c := Some c; into_mux_config c := Some c;
  four_byte_inspector := 0; call_inspector _ := 0; prestate_inspector _ := 0;
  flat_call_inspector _ := 0; mux_inspector _ := Ok 0; parity_inspector := 0; parity_config_inspector _ := 0;
  noop_frame := 0; four_byte_frame i := i; geth_call_traces i _ _ _ := i;
  geth_prestate_traces i _ _ _ _ := Ok i; flat_call_frame i _ _ := i; mux_frame i _ _ _ := Ok i;
  into_localized_transaction_traces i _ _ := [i];
  into_trace_results_with_state i _ _ _ := Ok i }.
#[export] Instance lawful : LawfulTraceEvm.
Proof. constructor; cbn; intros; by simplify_eq. Qed.
#[export] Instance setup : TraceSetup machine (unit * Z) unit tx unit unit unit := {
  te_new db _ _ _ := (db.2, 0); fill_request _ v := v;
  te_state_overrides _ v := Ok v; te_block_overrides _ v := v }.
#[export] Instance matcher : TraceMatcher unit Z := { trace_matches _ t := 8 <=? t }.
Definition call_opts : TracingOptions unit := mkOptions (Some (BuiltIn CallTracer)) tt.

Lemma stored_7 : stored_block (SE:=unit) (HE:=unit) ctx tt 7 (mkSealedHeader (Sample.header 7) 1007) (txs_at 7).
Proof. constructor; try reflexivity. apply (bool_decide_unpack (NoDup (A:=Z) [14; 15])). exact I. Qed.
End SampleTracing.
Import SampleTracing.

Lemma parity_traces_agree_witness :
  exists groups, [6] = mjoin (M:=list) groups
    /\ agrees groups 0 (mkTx 14 3 false) (fun g => Ok (Some g)) (Ok None)
         (trace_transaction (SE:=unit) (HE:=unit) ctx tt Finished 14).
Proof.
  destruct (trace_block (SE:=unit) (HE:=unit) ctx tt Finished (Number 7)) as [[traces|]| |] eqn:Hb;
    [|vm_compute in Hb; discriminate..].
  destruct (parity_traces_agree stored_7 traces Hb) as (groups & Hg & Hagree).
  vm_compute in Hb. injection Hb as <-.
  exists groups. split; [exact Hg|]. exact (Hagree 0%nat _ eq_refl).
Defined.

Lemma geth_traces_agree_witness :
  debug_trace_transaction (SE:=unit) (HE:=unit) ctx tt Finished 14 call_opts = Ok 6.
Proof.
  destruct (debug_trace_block (SE:=unit) (HE:=unit) ctx tt Finished (IdHash 1007) call_opts)
    as [frames| |] eqn:Hb; [|vm_compute in Hb; discriminate..].
  destruct (geth_traces_agree stored_7 (IdHash 1007) call_opts frames eq_refl Hb 0%nat _ eq_refl)
    as [Ha _].
  vm_compute in Hb. injection Hb as <-. destruct Ha as (f & Hf & Hr). injection Hf as <-. exact Hr.
Defined.

Lemma trace_filter_spec_witness :
  exists blocks,
    Forall2 (fun n traces => trace_block (CE:=unit) (SE:=unit) (HE:=unit) ctx tt Finished (Number n) = Ok traces)
      (range_incl 8 12) blocks
    /\ [9; 10] = take 2 (drop 1 (mjoin (M:=list)
         ((fun traces => filter (fun t => trace_matches tt t = true) (default [] traces)) <$> blocks))).
Proof.
  pose proof (trace_filter_spec (CE:=unit) (SE:=unit) (HE:=unit) ctx tt
    (mkTraceFilter (Some 8) (Some 12) tt (Some 1) (Some 2)) _ _ _ _ eq_refl eq_refl eq_refl eq_refl ltac:(simpl; lia) ltac:(reflexivity)) as H.
  destruct (trace_filter _ _ _ _) as [answer|e|] eqn:E; [|vm_compute in E; discriminate..].
  destruct H as (_ & _ & blocks & Hb & Ha). vm_compute in E. injection E as <-.
  exists blocks. split; [exact Hb|exact Ha].
Defined.

(** ** Permits: a semaphore that counts, limit and permits out *)
Module SamplePermits.
#[export] Instance counting : Semaphore (nat * nat) := {
  semaphore_new n := (n, 0%nat);
  poll_acquire _ s := if (s.2 <? s.1)%nat then (true, (s.1, S s.2)) else (false, s);
  cancel_acquire _ s := s;
  drop_permit s := (s.1, pred s.2) }.
#[export] Instance counting_lawful : LawfulSemaphore (nat * nat) fst snd.
Proof.
  constructor; try done; intros id [limit out] s'; simpl; destruct (Nat.ltb_spec out limit); intros; simplify_eq; [|done].
  split; [done|]. split; [done|]. simpl. lia.
Qed.
#[export] Instance codec : RawCodec tx raw_log := {
  decode_block _ := Err "no block"%string; decode_transaction _ := Ok None;
  encode_block h _ := [h_number h]; encode_header h := [h_number h]; encode_receipt _ _ g _ _ := [g] }.
Definition single : StorageRpcConfig :=
  build_config [SetMaxTracingRequests 1].
Abbreviation SampleServer := (Server (G:=Z) (PT:=Z) (TR:=Z) (TC:=unit) (Types:=unit) (CS:=unit) (CE:=unit) (SE:=unit) (HE:=unit)
  (HS:=unit) (Spec:=unit) (Q:=unit) (SO:=unit) (BO:=unit) (Mt:=unit) (Sem:=nat * nat)).
End SamplePermits.
Import SamplePermits.


(** ** Gas oracle and fee history *)
Lemma suggest_tip_cap_spec_witness :
  exists c, suggest_tip_cap id tt 50 StorageRpcConfig_default GasOracleCache_new = (Ok 5, c)
    /\ c = cache_set 50 5 GasOracleCache_new.
Proof.
  destruct (suggest_tip_cap id tt 50 StorageRpcConfig_default GasOracleCache_new) as [r c] eqn:E.
  assert (r = Ok 5) as -> by (apply (f_equal fst) in E; vm_compute in E; by symmetry).
  exists c. split; [reflexivity|].
  exact (proj1 (suggest_tip_cap_spec id tt 50 StorageRpcConfig_default GasOracleCache_new 5 c
    (fun l => Permutation_refl l) eq_refl E)).
Defined.

Lemma suggest_tip_cap_schedule_independent_witness :
  suggest_tip_cap id tt 50 StorageRpcConfig_default GasOracleCache_new
  = suggest_tip_cap (@rev (Z * Z)) tt 50 StorageRpcConfig_default GasOracleCache_new.
Proof.
  refine (proj1 (suggest_tip_cap_schedule_independent (F:=log_filter) (L:=raw_log) id (@rev (Z * Z)) tt 50
    StorageRpcConfig_default GasOracleCache_new _ _ _ _ _)).
  - reflexivity.
  - intros l. apply Permutation_sym, Permutation_rev.
  - reflexivity.
  - apply Forall_forall. intros x _. by eexists.
Defined.

Lemma suggest_tip_cap_cached_witness :
  suggest_tip_cap id tt 50 StorageRpcConfig_default (cache_set 50 5 GasOracleCache_new)
  = (Ok 5, cache_set 50 5 GasOracleCache_new).
Proof.
  refine (proj2 (suggest_tip_cap_cached id id tt tt 50 StorageRpcConfig_default
    StorageRpcConfig_default 5 GasOracleCache_new _ _ _ _)); [discriminate|discriminate|].
  vm_compute. reflexivity.
Defined.

Lemma oracle_range_witness :
  Z.of_nat (length (range_incl (oracle_start StorageRpcConfig_default 50) 50)) = 20.
Proof.
  apply (oracle_range StorageRpcConfig_default 50); vm_compute; (split; [discriminate|reflexivity]).
Defined.

Definition receipts2 : list (ColdReceipt raw_log) := [receipt_at 7; receipt_at 7].

Lemma reward_percentiles_sound_witness :
  exists rewards,
    calculate_reward_percentiles [f64_of_int 10; f64_of_int 90] 21000 7 (txs_at 7) receipts2 = Some rewards
    /\ length rewards = 2%nat /\ key_sorted id rewards.
Proof.
  destruct (calculate_reward_percentiles [f64_of_int 10; f64_of_int 90] 21000 7 (txs_at 7) receipts2)
    as [rw|] eqn:E; [|vm_compute in E; discriminate].
  destruct (reward_percentiles_sound _ _ _ _ _ _ E) as (Hl & Hs & _).
  by exists rw.
Defined.

Lemma first_reward_exact_witness :
  exists rewards,
    calculate_reward_percentiles [f64_of_int 60] 21000 7 (txs_at 7) receipts2 = Some rewards
    /\ head rewards = Some 5.
Proof.
  destruct (first_reward_exact (f64_of_int 60) [] 21000 7 (txs_at 7) receipts2)
    as (rw & Hr & Hh); try discriminate.
  - vm_compute. do 2 (constructor; [intros Hx; discriminate Hx|]). constructor.
  - exists rw. split; [exact Hr|]. etransitivity; [exact Hh|vm_compute; reflexivity].
Defined.

Lemma fee_history_shape_witness :
  exists fh, fee_history (CE:=unit) (SE:=unit) (HE:=unit) tt StorageRpcConfig_default
      (BlockTags_new 50 40 30) 3 Latest (Some [f64_of_int 50]) = Ok fh
    /\ length (fh_base_fee_per_gas fh) = 4%nat /\ length (fh_gas_used_ratio fh) = 3%nat.
Proof.
  destruct (fee_history (CE:=unit) (SE:=unit) (HE:=unit) tt StorageRpcConfig_default
      (BlockTags_new 50 40 30) 3 Latest (Some [f64_of_int 50])) as [fh|e|] eqn:E;
    [|vm_compute in E; discriminate..].
  assert (forall specs hs, get_headers (CS:=unit) (T:=tx) (F:=log_filter) (L:=raw_log) (CE:=unit) tt specs = Ok hs ->
    length hs = length specs) as Hlen by (intros specs hs [= <-]; apply length_fmap).
  pose proof (fee_history_shape tt StorageRpcConfig_default (BlockTags_new 50 40 30) 3 Latest
    (Some [f64_of_int 50]) fh Hlen ltac:(discriminate) E) as H.
  destruct (fee_history_range _ _ _ _ _) as [sb eb] eqn:Er. vm_compute in Er. injection Er as <- <-.
  destruct H as (H1 & H2 & _). exists fh. split; [reflexivity|]. by split.
Defined.

Lemma fee_history_range_spec_witness :
  let '(s, e) := fee_history_range StorageRpcConfig_default (BlockTags_new 50 40 30) 3 Pending false in
  e = 50 /\ 0 <= s.
Proof.
  destruct (fee_history_range _ _ _ _ _) as [s e] eqn:E.
  destruct (fee_history_range_spec StorageRpcConfig_default (BlockTags_new 50 40 30) 3 Pending false s e
    ltac:(lia) ltac:(vm_compute; discriminate) ltac:(vm_compute; split; [discriminate|reflexivity]) E)
    as (H1 & H2 & _).
  split; [exact H1|exact H2].
Defined.

(** ** Blobs: one source, a cache that holds the last entry *)
Module SampleBlobs.
#[export] Instance lru : LruMap (option (Z * B256 * Blobs Z)) (Blobs Z) := {
  lru_get k m := (match m with Some (k', b) => if decide (k' = k) then Some b else None | None => None end, m);
  lru_insert k b _ := Some (k, b) }.
#[export] Instance coder : Coder Z (Z * list Z) := {
  decode_all l := if bool_decide (l = []) then None else Some ((fun b => [b]) <$> l);
  keccak256 d := foldr Z.add 0 d;
  from_header_and_data h d := (h, d) }.
Definition blobs : Blobs Z := Other [4; 5].
Definition source : BlobSource unit Z := fun spec => if bs_slot spec =? 1 then Ok (Some blobs) else Err tt.
Definition silent : BlobSource unit Z := fun _ => Ok None.
Definition fetcher : BlobFetcher unit Z := mkFetcher [silent] [silent; source].
(** The first attempt fails, the next succeeds. *)
Definition attempts : Attempts (E:=unit) (Blob:=Z) := fun i spec =>
  if (i =? 1)%nat then Err (MissingSidecar 0) else Ok blobs.
Definition event : Submitted := mkSubmitted 77 (Some [1]) 5 (fun n => n).
End SampleBlobs.
Import SampleBlobs.

Lemma fetch_blobs_race_independent_witness :
  fetch_blobs fetcher (@rev _) (mkBlobSpec 77 1 []) = Ok blobs.
Proof.
  rewrite (fetch_blobs_race_independent fetcher (@rev _) (mkBlobSpec 77 1 []) blobs).
  - vm_compute. reflexivity.
  - intros l. apply Permutation_sym, Permutation_rev.
  - repeat constructor; try discriminate; intros c [= <-]; reflexivity.
Defined.

Lemma cacher_retries_witness :
  cacher_fetch_blobs attempts 1 77 [] None = (Ok blobs, Some ((1, 77), blobs)).
Proof.
  destruct (cacher_retries attempts 1 77 [] None) as [(i & b & Hi & Hb & Hprev & Hc)|[Hall _]].
  - intros i s. unfold attempts. by destruct (i =? 1)%nat.
  - reflexivity.
  - vm_compute. reflexivity.
  - destruct (Hall 2%nat ltac:(lia)) as [e He]. discriminate He.
Defined.

(** The blobs decode to [[4]] and [[5]], and the event names the hash of the
    second. *)
Lemma signet_block_outcomes_witness :
  exists found, finds (ZB:=Z * list Z) blobs 5 found
    /\ ((9, [5]) : Z * list Z) = from_header_and_data (Blob:=Z) 9 (default [] found).
Proof.
  destruct (signet_block (ZB:=Z * list Z) true attempts 9 1 event None) as [r c] eqn:E.
  pose proof (signet_block_outcomes true attempts 9 1 event None r c E) as H.
  vm_compute in E. injection E as <- <-. destruct H as [[(b & found & Hb & Hf & Hd)|[_ Hd]] _]; [|discriminate Hd].
  vm_compute in Hb. injection Hb as <-. exists found. split; [exact Hf|].
  injection Hd as Hd. rewrite <- Hd. reflexivity.
Defined.

Lemma signet_block_decodes_witness :
  signet_block (ZB:=Z * list Z) true attempts 9 1 event None
  = (Ok (decode_block_or_default (E:=unit) blobs 9 5), Some ((1, 77), blobs)).
Proof.
  apply (signet_block_decodes true attempts 9 1 event [1] blobs None (Some ((1, 77), blobs)) eq_refl).
  vm_compute. reflexivity.
Defined.

(** ** The block processor: an EVM that includes what it is given *)
Module SampleDriver.
(** Transactions above 100 are system transactions. *)
#[export] Instance magic : Magic Z := {
  magic_sig t := if t <? 100 then None else if t <? 200 then Some MagicEnter
                 else if t <? 300 then Some MagicEnterToken else Some MagicTransact }.
#[export] Instance driver : Driver unit unit Z Z Z Z (Z * list Z) Z Z Z Z unit unit := {
  spec_id := tt;
  slot_ending_at t := if 0 <=? t then Some 1 else None;
  zb_transactions b := b.2;
  is_eip4844 t := t =? 4;
  host_sender t := t;
  drive_block db _ ex to_alias txns parent :=
    Ok (mkBlockResult (mkSealedHeader (Sample.header (ex_ru_height ex)) (1000 + ex_ru_height ex))
          ((fun t => (t, 0)) <$> (txns ++ [100; 300; 301])%list) txns (h_number parent));
  build_executed b := Ok b }.
Definition extracts : Extracts Z Z Z Z := mkExtracts 8 108 96 (Some event) [1] [] [7; 5] (Some 3).
Definition world : World (gset Z) (option (Z * Z * Blobs Z)) := mkWorld {[7]} None Recorder_new.
Definition processor : SignetBlockProcessor (HS:=unit) (BE:=unit) (Blob:=Z) := mkProcessor tt true attempts.
End SampleDriver.
Import SampleDriver.

Lemma process_block_inputs_witness :
  exists b w', process_block (AE:=unit) (ZB:=Z * list Z) processor (mkDuration 0 5000000) extracts world = (Ok b, w')
    /\ exists to_alias : gset Z, forall a, a ∈ to_alias <-> a ∈ [7; 5] /\ bool_decide (a ∈ ({[7]} : gset Z)) = true.
Proof.
  destruct (process_block (AE:=unit) (ZB:=Z * list Z) processor (mkDuration 0 5000000) extracts world)
    as [[b|e|] w'] eqn:E; [|vm_compute in E; discriminate..].
  exists b, w'. split; [reflexivity|].
  pose proof (process_block_inputs (AE:=unit) (ZB:=Z * list Z) (good:=fun _ => True)
    (status:=fun s a => bool_decide (a ∈ s)) processor (mkDuration 0 5000000) extracts world b w' I) as H.
  destruct H as (rd & parent & rd' & to_alias & txns & result & _ & _ & _ & _ & Hal & _);
    [intros x y Hxy; by injection Hxy|exact E|].
  exists to_alias. exact Hal.
Defined.

Lemma process_block_metrics_witness :
  let '(r, w') := process_block (AE:=unit) (ZB:=Z * list Z) processor (mkDuration 0 5000000) extracts world in
  is_ok r = true /\ described (w_metrics w') = true
  /\ counter TRANSACTIONS_PROCESSED (w_metrics w') = 4
  /\ Forall (fun tx => is_system tx = true) [100; 300; 301].
Proof.
  destruct (process_block (AE:=unit) (ZB:=Z * list Z) processor (mkDuration 0 5000000) extracts world)
    as [[b|e|] w'] eqn:E; [|vm_compute in E; discriminate..].
  split; [reflexivity|].
  destruct (process_block_metrics (AE:=unit) (ZB:=Z * list Z) processor (mkDuration 0 5000000) extracts world b w'
    [5] [100; 300; 301]) as [Hsys _];
    [intros x y Hxy; by injection Hxy|exact E|vm_compute in E; injection E as <- _; reflexivity|repeat constructor..|].
  split; [vm_compute in E; injection E as _ <-; reflexivity|].
  split; [vm_compute in E; injection E as _ <-; reflexivity|exact Hsys].
Defined.
