(* ===== verification/StartSamples.v ===== *)
(** * Start-up on sample data

    The theorems on genesis, transports and the node builder at concrete
    inputs: hardfork flags are the bits of an integer, every genesis file is its
    own text, storage is a pair of flags, and port 1 cannot be bound. *)

From S2P Require Import Prelude Primitives RpcConfig Genesis Serve Builder.
#[local] Open Scope string_scope.
#[local] Open Scope Z_scope.

Module SampleStart.
Definition fork_bit (f : Fork) : Z :=
  match f with
  | Frontier => 0 | Homestead => 1 | Dao => 2 | Tangerine => 3 | SpuriousDragon => 4 | Byzantium => 5
  | Constantinople => 6 | Petersburg => 7 | Istanbul => 8 | MuirGlacier => 9 | Berlin => 10 | London => 11
  | ArrowGlacier => 12 | GrayGlacier => 13 | Paris => 14 | Shanghai => 15 | Cancun => 16 | Prague => 17
  | Osaka => 18
  end.
#[export] Instance bits : HardforkFlags Z := {
  fork_flag f := Z.shiftl 1 (fork_bit f); fork_empty := 0; fork_union := Z.lor;
  fork_contains b f := Z.testbit b (fork_bit f) }.
#[export] Instance lawful_bits : LawfulFlags Z.
Proof.
  constructor; intros; cbn.
  - apply Z.bits_0.
  - rewrite Z.lor_spec. f_equal. destruct f, g; vm_compute; reflexivity.
Qed.

Definition no_forks : ChainConfig :=
  mkChainConfig (Some 0) None (Some 5) None None None None None None None None None None None
    (Some 100) (Some 300) None None.
Definition sample_genesis : Genesis string := mkGenesis None 200 no_forks "rest".
#[export] Instance files : GenesisIO string unit unit := {
  include_str f := match f with mainnet_genesis => "m" | _ => "o" end;
  parse_genesis text := Ok (mkGenesis None 200 no_forks text);
  read_to_string path := if String.eqb path "/none" then Err tt else Ok path }.

(** Storage: whether the hot and the cold layer hold a genesis. *)
Definition layers : Type := bool * bool.
#[export] Instance layered : GenesisStorage layers unit layers layers string Z := {
  gs_reader s := Ok s;
  has_block s n := Ok (s.1 && (n =? 0));
  rd_get_header s n := Ok (if s.1 then Some (mkSealedHeader (Sample.header 0) 1000) else None);
  hot_writer s := Ok s;
  writer_load_genesis _ _ w := Ok (true, w.2);
  writer_commit w _ := (Ok tt, w);
  gs_cold_latest s := Ok (if s.2 then Some 0 else None);
  append_genesis _ s := (Ok tt, (s.1, true)) }.
#[export] Instance lawful_layers : LawfulGenesisStorage (fst : layers -> bool) (snd : layers -> bool).
Proof.
  constructor; cbn.
  - intros s rd b [= <-] [= <-]. by rewrite andb_true_r.
  - intros [hot cold] o [= <-]. by destruct cold.
  - intros s w w' g f u s' [= <-] [= <-] [= <- <-]. done.
  - intros h s u s' [= <- <-]. done.
Qed.

Definition config : SignetNodeConfig unit unit unit := SignetNodeConfig_new tt tt None (Known Mainnet) tt.
Definition builder := with_rpc_config (Cl:=unit) (Ca:=Z) (Sv:=unit) StorageRpcConfig_default
  (with_blob_cacher 9 (with_alias_oracle true (with_notifier 4 (with_storage ((false, false) : layers)
     (SignetNodeBuilder_new config))))).
Lemma builder_reach : reach Z layers bool true true true builder.
Proof.
  unfold builder. apply reach_rpc, reach_cacher. eapply reach_alias, reach_notifier, reach_storage, reach_new.
Qed.

Definition transports : ServeConfig (Z * Z) := mkServe [(0, 80)] (Some "a,b") [(0, 1)] None (Some "/ipc").
Definition bind_port (addrs : list (Z * Z)) : res unit unit :=
  if bool_decide ((0, 1) ∈ addrs) then Err tt else Ok tt.
End SampleStart.
Import SampleStart.

Lemma genesis_hardforks_exact_witness :
  Z.testbit (genesis_hardforks (B:=Z) sample_genesis) (fork_bit Shanghai) = true
  /\ Z.testbit (genesis_hardforks (B:=Z) sample_genesis) (fork_bit Tangerine) = false.
Proof.
  split; [exact (genesis_hardforks_exact (B:=Z) sample_genesis Shanghai)
         |exact (genesis_hardforks_exact (B:=Z) sample_genesis Tangerine)].
Defined.

(** The HTTP server of a failed start keeps running. *)
Lemma serve_outcomes_witness :
  serve (HV:=string) Some bind_port (fun _ => Ok tt) transports [] = (Err (ServeIo tt), [Http])
  /\ exists before t after, [Http; Ws; Ipc] = (before ++ t :: after)%list /\ [Http] = before
       /\ fails Some bind_port (fun _ => Ok tt) t transports (ServeIo tt).
Proof.
  split; [vm_compute; reflexivity|].
  assert (forall a, bind_port a <> Panic) as Hb by (intros a; unfold bind_port; by case_bool_decide).
  pose proof (serve_outcomes (HV:=string) Some bind_port (fun _ => Ok tt) Hb ltac:(discriminate)
    transports []) as H.
  destruct (serve _ _ _ transports []) as [r running] eqn:E. vm_compute in E. injection E as <- <-.
  destruct H as (before & t & after & Hc & Hf & _ & Hr). exists before, t, after. split; [exact Hc|]. by split.
Defined.

(** A builder without a transport configuration: the genesis is written before
    the missing component is noticed. *)
Lemma build_outcomes_witness :
  exists s1, bd_storage s1.1 = Some ((true, true) : layers)
    /\ build (CE:=unit) (Con:=unit) tt (fun _ => Ok tt) (builder, None) = (Err ServeConfigMissing, s1).
Proof.
  destruct (prebuild (CE:=unit) tt (builder, None)) as [[u| |] s1] eqn:E; [|vm_compute in E; discriminate..].
  destruct (build_outcomes (CE:=unit) (Con:=unit) tt (fun _ => Ok tt) fst snd builder None u s1 builder_reach E)
    as (n & a & c & db & _ & _ & _ & _ & _ & H).
  exists s1. split; [|exact H]. vm_compute in E. injection E as _ <-. reflexivity.
Defined.

(** Two configurations in one process: the second gets the first one's
    genesis. *)
Example shared_genesis_cell :
  let other := SignetNodeConfig_new tt tt None (Known TestChain) tt in
  exists once, (config_genesis (A:=string) config None).2 = once
    /\ g_rest <$> (config_genesis other None).1 = Ok "o"
    /\ g_rest <$> (config_genesis other once).1 = Ok "m".
Proof. eexists. split; [reflexivity|]. split; reflexivity. Qed.
