(* ===== verification/UnitTests.v ===== *)
(** * The repository's unit tests, on the model

    Each test function of the [#[cfg(test)]] modules that the model can run is a
    definition, the list of its assertions as booleans, over the same inputs;
    each passes, by evaluation.  Third-party parts the tests use (an address
    filter, the EIP-7702 constants, a ready stream) are instantiated as their
    documentation has them. *)

From stdpp Require Import pretty.
From S2P Require Import Prelude HostTypes BlockTags Primitives Interest ChainNotifier Filters Errors RpcConfig HostRpc Alias Serve Float64 HostReth.

(** [assert_eq!]; a test passes when all its assertions hold. *)
Definition assert_eq {A} `{EqDecision A} (a b : A) : bool := bool_decide (a = b).
Definition passes (assertions : list bool) : bool := forallb id assertions.

(** [str::contains]. *)
Fixpoint contains (pattern s : string) : bool :=
  String.prefix pattern s || match s with EmptyString => false | String _ s => contains pattern s end.

(** ** [interest/filters.rs] and [interest/kind.rs] *)
Module InterestTests.
(** The parts of [alloy::primitives::Log] the tests fill in. *)
Record RawLog := mkRaw { raw_address : Address; raw_topics : list B256 }.
#[export] Instance RawLog_eq_dec : EqDecision RawLog.
Proof. solve_decision. Defined.
(** [Filter::new().address(addr)]. *)
Definition AddressFilter : Type := FilterBlockOption * Address.
#[export] Instance address_filter : LogFilter AddressFilter RawLog := {
  matches f l := f.2 =? raw_address l;
  block_option f := f.1;
  with_block_option o f := (o, f.2) }.
Definition filter_address (addr : Address) : AddressFilter := (Range None None, addr).

Definition block_filter (start : Z) : ActiveFilter AddressFilter := mkActiveFilter start 0 KBlock.
Definition log_filter (start : Z) (addr : Address) : ActiveFilter AddressFilter :=
  mkActiveFilter start 0 (KLog (filter_address addr)).
Definition test_log (addr : Address) (number : Z) (hash : B256) : Log RawLog :=
  mkLog (mkRaw addr []) (Some hash) (Some number) (Some (1000000 + number)) (Some 0) (Some 0) (Some 0) false.
Definition reorg_notification (ancestor : Z) (removed : list (RemovedBlock RawLog)) :
    ReorgNotification RawLog := mkReorg ancestor removed.
Definition removed_block (number : Z) (logs : list (Log RawLog)) : RemovedBlock RawLog :=
  mkRemovedBlock number 1 (1000000 + number) logs.

Definition compute_removed_logs_rewinds_start_block : list bool :=
  let f := block_filter 10 in
  let reorg := reorg_notification 7 [] in
  let '(_, f) := compute_removed_logs [reorg] f in
  [assert_eq (af_next_start_block f) 8].

Definition compute_removed_logs_matches_removed : list bool :=
  let '(addr, hash) := (1, 1) in
  let f := log_filter 11 addr in
  let reorg := reorg_notification 8
    [removed_block 9 [test_log addr 9 hash]; removed_block 10 [test_log addr 10 hash]] in
  let '(removed, f) := compute_removed_logs [reorg] f in
  [assert_eq (length removed) 2%nat;
   forallb l_removed removed;
   forallb (fun l => raw_address (l_inner l) =? addr) removed;
   forallb (fun l => assert_eq (l_transaction_hash l) (Some 0)) removed;
   forallb (fun l => assert_eq (l_log_index l) (Some 0)) removed].

Definition compute_removed_logs_skips_undelivered_blocks : list bool :=
  let '(addr, hash) := (1, 1) in
  let f := log_filter 11 addr in
  let reorg := reorg_notification 9
    [removed_block 10 [test_log addr 10 hash]; removed_block 11 [test_log addr 11 hash];
     removed_block 12 [test_log addr 12 hash]] in
  let '(removed, f) := compute_removed_logs [reorg] f in
  [assert_eq (length removed) 1%nat; assert_eq (l_block_number <$> removed !! 0%nat) (Some (Some 10))].

Definition compute_removed_logs_cascading : list bool :=
  let '(addr, hash) := (1, 1) in
  let f := log_filter 101 addr in
  let reorg_a := reorg_notification 98
    [removed_block 99 [test_log addr 99 hash]; removed_block 100 [test_log addr 100 hash]] in
  let reorg_b := reorg_notification 95
    [removed_block 96 [test_log addr 96 hash]; removed_block 97 [test_log addr 97 hash];
     removed_block 98 [test_log addr 98 hash]; removed_block 99 [test_log addr 99 hash];
     removed_block 100 [test_log addr 100 hash]; removed_block 101 [test_log addr 101 hash];
     removed_block 102 [test_log addr 102 hash]; removed_block 103 [test_log addr 103 hash]] in
  let '(removed, f) := compute_removed_logs [reorg_a; reorg_b] f in
  [assert_eq (length removed) 5%nat; assert_eq (af_next_start_block f) 96].

Definition compute_removed_logs_block_filter_empty : list bool :=
  let f := block_filter 10 in
  let reorg := reorg_notification 5 [removed_block 6 []] in
  let '(removed, f) := compute_removed_logs [reorg] f in
  [assert_eq (length removed) 0%nat; assert_eq (af_next_start_block f) 6].

(** [interest/kind.rs]. *)
Definition kind_test_log (addr : Address) (topic : B256) (number : Z) (hash : B256) : Log RawLog :=
  mkLog (mkRaw addr [topic]) (Some hash) (Some number) (Some (1000000 + number)) (Some 0) (Some 0) (Some 0) false.
Definition test_filter (addr : Address) : AddressFilter := filter_address addr.
Definition test_removed_block (number : Z) (hash : B256) (logs : list (Log RawLog)) : RemovedBlock RawLog :=
  mkRemovedBlock number hash (1000000 + number) logs.

(** [let SubscriptionBuffer::Log(logs) = buf else { panic!() }]. *)
Definition expect_logs (buf : SubscriptionBuffer (L:=RawLog)) (k : list (Log RawLog) -> list bool) : list bool :=
  match buf with BufLog logs => k logs | BufBlock _ => [false] end.

Definition filter_reorg_for_sub_matches_logs : list bool :=
  let '(addr, topic, block_hash) := (1, 1, 153) in
  let kind := KLog (test_filter addr) in
  let reorg := mkReorg 10 [test_removed_block 11 block_hash [kind_test_log addr topic 11 block_hash]] in
  expect_logs (filter_reorg_for_sub kind reorg) (fun logs =>
    [assert_eq (length logs) 1%nat;
     assert_eq (l_removed <$> logs !! 0%nat) (Some true);
     assert_eq (raw_address ∘ l_inner <$> logs !! 0%nat) (Some addr);
     assert_eq (l_block_hash <$> logs !! 0%nat) (Some (Some block_hash));
     assert_eq (l_block_number <$> logs !! 0%nat) (Some (Some 11));
     assert_eq (l_block_timestamp <$> logs !! 0%nat) (Some (Some 1000011))]).

Definition filter_reorg_for_sub_filters_non_matching : list bool :=
  let '(addr, other, topic, block_hash) := (1, 2, 1, 153) in
  let kind := KLog (test_filter addr) in
  let reorg := mkReorg 10 [test_removed_block 11 block_hash [kind_test_log other topic 11 block_hash]] in
  expect_logs (filter_reorg_for_sub kind reorg) (fun logs => [assert_eq (length logs) 0%nat]).

Definition filter_reorg_for_sub_block_returns_empty : list bool :=
  let block_hash := 1 in
  let reorg := mkReorg 10 [test_removed_block 11 block_hash []] in
  let buf := filter_reorg_for_sub (KBlock : InterestKind AddressFilter) reorg in
  [buffer_is_empty buf].

Example filters_tests_pass :
  forallb passes
    [compute_removed_logs_rewinds_start_block; compute_removed_logs_matches_removed;
     compute_removed_logs_skips_undelivered_blocks; compute_removed_logs_cascading;
     compute_removed_logs_block_filter_empty] = true.
Proof. by vm_compute. Qed.
Example kind_tests_pass :
  forallb passes
    [filter_reorg_for_sub_matches_logs; filter_reorg_for_sub_filters_non_matching;
     filter_reorg_for_sub_block_returns_empty] = true.
Proof. by vm_compute. Qed.
End InterestTests.

(** ** [config/chain_notifier.rs] and [config/resolve.rs]

    The clock at each operation is the argument; a [sleep] moves it on. *)
Module ConfigTests.
Abbreviation Notifier := (ChainNotifier unit unit unit).
Definition chain_reorg_notification (ancestor : Z) : ReorgNotification unit := mkReorg ancestor [].

Definition push_reorg_evicts_oldest : list bool :=
  let notifier : Notifier := ChainNotifier_new in
  let notifier := fold_left (fun n i => send_reorg i (chain_reorg_notification i) n)
                    (seqZ 0 (Z.of_nat MAX_REORG_ENTRIES + 5)) notifier in
  let buf := cn_reorgs notifier in
  [assert_eq (length buf) MAX_REORG_ENTRIES;
   assert_eq (common_ancestor ∘ snd <$> buf !! 0%nat) (Some 5)].

Definition reorgs_since_filters_by_time : list bool :=
  let notifier : Notifier := ChainNotifier_new in
  let before := 0 in
  let notifier := send_reorg 5 (chain_reorg_notification 10) notifier in
  let mid := 6 in
  let notifier := send_reorg 11 (chain_reorg_notification 8) notifier in
  let all := reorgs_since before notifier in
  let recent := reorgs_since mid notifier in
  [assert_eq (length all) 2%nat; assert_eq (length recent) 1%nat;
   assert_eq (common_ancestor <$> recent !! 0%nat) (Some 8)].

Definition reorgs_since_skips_pre_creation_reorgs : list bool :=
  let notifier : Notifier := ChainNotifier_new in
  let notifier := send_reorg 0 (chain_reorg_notification 5) notifier in
  let after := 5 in
  let reorgs := reorgs_since after notifier in
  [assert_eq (length reorgs) 0%nat].

Definition tags_are (tags : BlockTags) (l s f : Z) : list bool :=
  [assert_eq (latest tags) l; assert_eq (safe tags) s; assert_eq (finalized tags) f].
Definition rewind_to_caps_all_tags : list bool :=
  let tags := BlockTags_new 100 95 90 in tags_are (rewind_to 92 tags) 92 92 90.
Definition rewind_to_caps_all_above_ancestor : list bool :=
  let tags := BlockTags_new 100 95 90 in tags_are (rewind_to 50 tags) 50 50 50.
Definition rewind_to_noop_when_all_below : list bool :=
  let tags := BlockTags_new 100 95 90 in tags_are (rewind_to 200 tags) 100 95 90.

Example chain_notifier_tests_pass :
  forallb passes
    [push_reorg_evicts_oldest; reorgs_since_filters_by_time; reorgs_since_skips_pre_creation_reorgs] = true.
Proof. by vm_compute. Qed.
Example resolve_tests_pass :
  forallb passes
    [rewind_to_caps_all_tags; rewind_to_caps_all_above_ancestor; rewind_to_noop_when_all_below] = true.
Proof. by vm_compute. Qed.
End ConfigTests.

(** ** [node-types/src/notification.rs] *)
Module NotificationTests.
Definition revert_range_valid : list bool :=
  let range (first tip : Z) (k : RevertRange -> list bool) : list bool :=
    match RevertRange_new (E:=unit) first tip with Ok range => k range | _ => [false] end in
  range 1 1 (fun range =>
    [assert_eq (RevertRange_first range) 1; assert_eq (RevertRange_tip range) 1; assert_eq (RevertRange_len range) 1])
  ++ range 5 10 (fun range => [assert_eq (RevertRange_len range) 6]).
(** [#[should_panic]]. *)
Definition revert_range_zero_first : list bool := [assert_eq (RevertRange_new (E:=unit) 0 5) Panic].
Definition revert_range_inverted : list bool := [assert_eq (RevertRange_new (E:=unit) 10 5) Panic].

Example notification_tests_pass :
  forallb passes [revert_range_valid; revert_range_zero_first; revert_range_inverted] = true.
Proof. by vm_compute. Qed.
End NotificationTests.

(** ** [host-rpc/src/latest.rs]

    [stream::iter] is ready with its items and then with the end, again and
    again; [next] polls until the stream is ready. *)
Module LatestTests.
Definition iter (items : list Z) : list (Poll Z) := (PollReady ∘ Some <$> items) ++ replicate 4 (PollReady None).
Definition next (s : list (Poll Z)) : option (option Z) * list (Poll Z) :=
  match latest_poll_next s with
  | (PollReady item, _, s) => (Some item, s)
  | (PollPending, _, s) => (None, s)
  end.
Fixpoint nexts (expected : list (option Z)) (s : list (Poll Z)) : list bool :=
  match expected with
  | [] => []
  | e :: expected => let '(item, s) := next s in assert_eq item (Some e) :: nexts expected s
  end.

Definition single_item_yields_immediately : list bool := nexts [Some 42; None] (iter [42]).
Definition multiple_ready_items_yields_last : list bool := nexts [Some 5; None] (iter [1; 2; 3; 4; 5]).
Definition empty_stream_yields_none : list bool := nexts [None] (iter []).
Definition fused_after_inner_terminates : list bool := nexts [Some 7; None; None] (iter [7]).

Example latest_tests_pass :
  forallb passes
    [single_item_yields_immediately; multiple_ready_items_yields_last; empty_stream_yields_none;
     fused_after_inner_terminates] = true.
Proof. by vm_compute. Qed.
End LatestTests.

(** ** [host-rpc/src/alias.rs] *)
Module AliasTests.
(** [0xef0100]; the cleared delegation is the designator with a zero address. *)
#[export] Instance eip7702 : Eip7702 := { DELEGATION_DESIGNATOR := [239; 1; 0] }.
Definition CLEARED_DELEGATION : list Z := DELEGATION_DESIGNATOR ++ replicate 20 0.

Definition empty_code_is_not_aliased : list bool := [negb (should_alias_bytecode [])].
Definition valid_delegation_is_not_aliased : list bool :=
  let delegation := DELEGATION_DESIGNATOR ++ replicate 20 171 in [negb (should_alias_bytecode delegation)].
Definition cleared_delegation_is_not_aliased : list bool := [negb (should_alias_bytecode CLEARED_DELEGATION)].
Definition contract_bytecode_is_aliased : list bool := [should_alias_bytecode [96; 128; 96; 64; 82]].
Definition short_ef_prefix_is_aliased : list bool := [should_alias_bytecode DELEGATION_DESIGNATOR].
Definition long_ef_prefix_is_aliased : list bool :=
  let long := DELEGATION_DESIGNATOR ++ replicate 21 0 in [should_alias_bytecode long].

Example alias_tests_pass :
  forallb passes
    [empty_code_is_not_aliased; valid_delegation_is_not_aliased; cleared_delegation_is_not_aliased;
     contract_bytecode_is_aliased; short_ef_prefix_is_aliased; long_ef_prefix_is_aliased] = true.
Proof. by vm_compute. Qed.
End AliasTests.

(** ** The error tests of the four namespaces

    Storage errors are strings, as [ColdStorageError::NotFound] carries one. *)
Module ErrorTests.
#[local] Open Scope string_scope.
#[export] Instance test_display : Display string string string := {
  show_hash _ := "0x00"; show_id _ := "latest"; show_u64 n := pretty n;
  show_cold e := e; show_hot e := e; show_db e := e }.
Definition EthErr : Type := EthError string string string.
Definition DebugErr : Type := DebugError string string string.
Definition TraceErr : Type := TraceError string string string.
Definition SignetErr : Type := SignetError string string.
Definition latest_id : BlockId := IdNumber Latest.

Definition eth_cold_storage_error : list bool :=
  let err : EthErr := EthCold "test" in
  [assert_eq (eth_error_code err) (-32000); assert_eq (eth_error_message err) "server error";
   assert_eq (eth_error_data err) None].
Definition eth_resolve_hash_not_found : list bool :=
  let err : EthErr := EthResolve (HashNotFound 0) in
  [assert_eq (eth_error_code err) (-32001); contains "block hash not found" (eth_error_message err)].
Definition eth_block_not_found : list bool :=
  let err : EthErr := EthBlockNotFound latest_id in
  [assert_eq (eth_error_code err) (-32001); contains "block not found" (eth_error_message err)].
Definition eth_transaction_missing : list bool :=
  let err : EthErr := EthTransactionMissing 0 in
  [assert_eq (eth_error_code err) (-32001); contains "transaction not found" (eth_error_message err)].
Definition eth_evm_revert : list bool :=
  let output := [222; 173] in
  let err : EthErr := EthEvmRevert output in
  [assert_eq (eth_error_code err) 3; assert_eq (eth_error_message err) "execution reverted";
   assert_eq (eth_error_data err) (Some output)].
Definition eth_evm_halt : list bool :=
  let err : EthErr := EthEvmHalt "OutOfGas" in
  [assert_eq (eth_error_code err) (-32000); contains "OutOfGas" (eth_error_message err);
   assert_eq (eth_error_data err) None].
Definition eth_invalid_params : list bool :=
  let err : EthErr := EthInvalidParams "bad param" in
  [assert_eq (eth_error_code err) (-32602); assert_eq (eth_error_message err) "bad param"].
Definition eth_internal : list bool :=
  let err : EthErr := EthInternal "something broke" in
  [assert_eq (eth_error_code err) (-32000); assert_eq (eth_error_message err) "something broke"].
Definition task_panic_constructor : list bool :=
  let err : EthErr := task_panic in
  [assert_eq (eth_error_code err) (-32000); contains "task panicked" (eth_error_message err)].

Definition debug_cold_storage_error : list bool :=
  let err : DebugErr := DebugCold "test" in
  [assert_eq (debug_error_code err) (-32000); assert_eq (debug_error_message err) "server error"].
Definition debug_resolve_hash_not_found : list bool :=
  let err : DebugErr := DebugResolve (HashNotFound 0) in
  [assert_eq (debug_error_code err) (-32001); contains "block hash not found" (debug_error_message err)].
Definition invalid_tracer_config : list bool :=
  let err : DebugErr := DebugInvalidTracerConfig in
  [assert_eq (debug_error_code err) (-32602); assert_eq (debug_error_message err) "invalid tracer config"].
Definition unsupported : list bool :=
  let err : DebugErr := DebugUnsupported "flatCallTracer" in
  [assert_eq (debug_error_code err) (-32601); contains "flatCallTracer" (debug_error_message err)].
Definition debug_evm_halt : list bool :=
  let err : DebugErr := DebugEvmHalt "OutOfGas" in
  [assert_eq (debug_error_code err) (-32000); contains "OutOfGas" (debug_error_message err)].
Definition debug_block_not_found : list bool :=
  let err : DebugErr := DebugBlockNotFound latest_id in
  [assert_eq (debug_error_code err) (-32001); contains "block not found" (debug_error_message err)].
Definition debug_transaction_not_found : list bool :=
  let err : DebugErr := DebugTransactionNotFound 0 in
  [assert_eq (debug_error_code err) (-32001); contains "transaction not found" (debug_error_message err)].
Definition debug_internal : list bool :=
  let err : DebugErr := DebugInternal "task panicked or cancelled" in
  [assert_eq (debug_error_code err) (-32000); contains "task panicked" (debug_error_message err)].
Definition rlp_decode_error_code : list bool :=
  let err : DebugErr := DebugRlpDecode "invalid block RLP" in
  [assert_eq (debug_error_code err) (-32602); contains "RLP" (debug_error_message err)].
Definition sender_recovery_error_code : list bool :=
  let err : DebugErr := DebugSenderRecovery in [assert_eq (debug_error_code err) (-32000)].

Definition trace_cold_error_code : list bool :=
  let err : TraceErr := TraceSenderRecovery in [assert_eq (trace_error_code err) (-32000)].
Definition block_not_found_code : list bool :=
  let err : TraceErr := TraceBlockNotFound latest_id in [assert_eq (trace_error_code err) (-32001)].
Definition transaction_not_found_code : list bool :=
  let err : TraceErr := TraceTransactionNotFound 0 in [assert_eq (trace_error_code err) (-32001)].
Definition rlp_decode_code : list bool :=
  let err : TraceErr := TraceRlpDecode "bad" in [assert_eq (trace_error_code err) (-32602)].
Definition invalid_block_range_code : list bool :=
  let err : TraceErr := TraceInvalidBlockRange "bad range" in
  [assert_eq (trace_error_code err) (-32602); contains "bad range" (trace_error_message err)].
Definition block_range_exceeded_code : list bool :=
  let err : TraceErr := TraceBlockRangeExceeded 200 100 in
  [assert_eq (trace_error_code err) (-32602); contains "200" (trace_error_message err)].

Definition tx_cache_not_provided : list bool :=
  let err : SignetErr := SignetTxCacheNotProvided in
  [assert_eq (signet_error_code err) (-32000); assert_eq (signet_error_message err) "transaction cache not provided"].
Definition signet_resolve_hash_not_found : list bool :=
  let err : SignetErr := SignetResolve (HashNotFound 0) in
  [assert_eq (signet_error_code err) (-32001);
   contains "block hash not found" (signet_error_message (CE:=string) err)].
Definition signet_evm_halt : list bool :=
  let err : SignetErr := SignetEvmHalt "OutOfGas" in
  [assert_eq (signet_error_code err) (-32000); contains "OutOfGas" (signet_error_message (CE:=string) err)].
Definition timeout : list bool :=
  let err : SignetErr := SignetTimeout in
  [assert_eq (signet_error_code err) (-32000);
   assert_eq (signet_error_message (CE:=string) err) "timeout during bundle simulation"].
Definition signet_internal : list bool :=
  let err : SignetErr := SignetInternal "task panicked or cancelled" in
  [assert_eq (signet_error_code err) (-32000); contains "task panicked" (signet_error_message (CE:=string) err)].
Definition from_eth_error_resolve : list bool :=
  let eth : EthErr := EthResolve (HashNotFound 0) in
  let signet := signet_of_eth eth in [assert_eq (signet_error_code signet) (-32001)].
Definition from_eth_error_other : list bool :=
  let eth : EthErr := EthInternal "boom" in
  let signet := signet_of_eth eth in
  [assert_eq (signet_error_code signet) (-32000); contains "boom" (signet_error_message (CE:=string) signet)].

Example eth_error_tests_pass :
  forallb passes
    [eth_cold_storage_error; eth_resolve_hash_not_found; eth_block_not_found; eth_transaction_missing;
     eth_evm_revert; eth_evm_halt; eth_invalid_params; eth_internal; task_panic_constructor] = true.
Proof. by vm_compute. Qed.
Example debug_error_tests_pass :
  forallb passes
    [debug_cold_storage_error; debug_resolve_hash_not_found; invalid_tracer_config; unsupported;
     debug_evm_halt; debug_block_not_found; debug_transaction_not_found; debug_internal;
     rlp_decode_error_code; sender_recovery_error_code] = true.
Proof. by vm_compute. Qed.
Example trace_error_tests_pass :
  forallb passes
    [trace_cold_error_code; block_not_found_code; transaction_not_found_code; rlp_decode_code;
     invalid_block_range_code; block_range_exceeded_code] = true.
Proof. by vm_compute. Qed.
Example signet_error_tests_pass :
  forallb passes
    [tx_cache_not_provided; signet_resolve_hash_not_found; signet_evm_halt; timeout; signet_internal;
     from_eth_error_resolve; from_eth_error_other] = true.
Proof. by vm_compute. Qed.
End ErrorTests.

(** ** [web3/mod.rs]: for every build and every hash function *)
Module Web3Tests.
#[local] Open Scope string_scope.
Definition client_version_format (pkg_version os : string) : list bool :=
  let version := client_version pkg_version os in
  [String.prefix "signet/v" version; contains "/" version].
Definition sha3_empty_input (keccak256 : list Z -> Z) : list bool :=
  let result := web3_sha3 keccak256 [] in [assert_eq result (keccak256 [])].
Definition sha3_nonempty_input (keccak256 : list Z -> Z) : list bool :=
  let input := [104; 101; 108; 108; 111] in
  let result := web3_sha3 keccak256 input in [assert_eq result (keccak256 input)].

Lemma web3_tests_pass pkg_version os keccak256 :
  forallb passes
    [client_version_format pkg_version os; sha3_empty_input keccak256; sha3_nonempty_input keccak256] = true.
Proof.
  unfold sha3_empty_input, sha3_nonempty_input, assert_eq, web3_sha3. rewrite !bool_decide_true by done.
  by destruct pkg_version; [destruct os|]; vm_compute.
Qed.
End Web3Tests.

(** ** [host-reth/src/config.rs]: for all arguments that enable and disable what
    [RpcServerArgs::default] does *)
Module ArgsTests.
(** Equal as data, so equal for [==] unless they are not a number. *)
#[export] Instance f64_eq_dec : EqDecision f64.
Proof. unfold f64. solve_decision. Defined.

Section args.
Context {A : Type} `{EqDecision A} (args : RpcServerArgs A).
Definition with_http : RpcServerArgs A :=
  mkArgs (arg_rpc_gas_cap args) (arg_max_tracing_requests args) (gpo_blocks args) (gpo_percentile args)
    (gpo_ignore_price args) (gpo_max_price args) true (arg_http_addr args) (arg_http_corsdomain args)
    (arg_ws args) (arg_ws_addr args) (arg_ws_allowed_origins args) (arg_ipcdisable args) (arg_ipcpath args).
Definition with_ws : RpcServerArgs A :=
  mkArgs (arg_rpc_gas_cap args) (arg_max_tracing_requests args) (gpo_blocks args) (gpo_percentile args)
    (gpo_ignore_price args) (gpo_max_price args) (arg_http args) (arg_http_addr args) (arg_http_corsdomain args)
    true (arg_ws_addr args) (arg_ws_allowed_origins args) (arg_ipcdisable args) (arg_ipcpath args).

Definition rpc_config_from_default_args : list bool :=
  let config := rpc_config_from_args args in
  [assert_eq (rpc_gas_cap config) (arg_rpc_gas_cap args);
   assert_eq (max_tracing_requests config) (arg_max_tracing_requests args);
   assert_eq (gas_oracle_block_count config) (gpo_blocks args);
   assert_eq (gas_oracle_percentile config) (f64_of_int (gpo_percentile args));
   assert_eq (ignore_price config) (Some (gpo_ignore_price args));
   assert_eq (max_price config) (Some (gpo_max_price args))].
Definition serve_config_http_disabled_by_default : list bool :=
  let config := serve_config_from_args args in
  [assert_eq (length (sc_http config)) 0%nat; assert_eq (length (sc_ws config)) 0%nat].
Definition serve_config_http_enabled : list bool :=
  let config := serve_config_from_args with_http in
  [assert_eq (length (sc_http config)) 1%nat; assert_eq (sc_http config !! 0%nat) (Some (arg_http_addr args))].
Definition serve_config_ws_enabled : list bool :=
  let config := serve_config_from_args with_ws in
  [assert_eq (length (sc_ws config)) 1%nat; assert_eq (sc_ws config !! 0%nat) (Some (arg_ws_addr args))].
Definition serve_config_ipc_enabled_by_default : list bool :=
  let config := serve_config_from_args args in [bool_decide (is_Some (sc_ipc config))].

Lemma args_tests_pass :
  arg_http args = false -> arg_ws args = false -> arg_ipcdisable args = false ->
  forallb passes
    [rpc_config_from_default_args; serve_config_http_disabled_by_default; serve_config_http_enabled;
     serve_config_ws_enabled; serve_config_ipc_enabled_by_default] = true.
Proof.
  intros Hh Hw Hi. unfold serve_config_http_disabled_by_default, serve_config_ipc_enabled_by_default, serve_config_from_args.
  unfold rpc_config_from_default_args, serve_config_http_enabled, serve_config_ws_enabled, assert_eq.
  rewrite Hh, Hw, Hi. rewrite !bool_decide_true by done. reflexivity.
Qed.
End args.
End ArgsTests.
