(* ===== verification/ReorgTests.v ===== *)
(** * The reorg tests of the harness, on the model

    [crates/node-tests/tests/reorg.rs] drives a node with host blocks and
    reverts, while clients poll filters and listen on subscriptions.  Here each
    of its tests is a script of the modelled calls ([Harness], [EthFilters],
    [Subs]) over the same blocks, on a sample rollup with the [Counter]
    contract; each runs to its end. *)

From S2P Require Import Prelude HostTypes BlockTags Primitives Interest ChainNotifier Subs Filters Metrics BlockProcessor RpcConfig Errors Storage RpcCtx Blobber.
From S2P Require Import EthFilters EthFilterProps RpcStart Node Replica Harness UnitTests.
Import InterestTests.

(** ** A rollup with one contract

    A block specification asks for system transactions that increment the
    counter and for an amount of tokens to enter; the rollup block it executes to
    has the counter's value, and a log [Count(value)] per increment. *)
Module CounterRollup.
Record Spec := mkSpec { sp_number : Z; sp_increments : Z; sp_enters : Z }.
Definition chain : Type := list Spec.
Record block := mkBlock { b_number : Z; b_count : Z; b_increments : Z; b_enters : Z }.
Definition store : Type := list block.

Definition COUNTER : Address := 192.
Definition SIGNATURE_HASH : B256 := 7.
(** The values the block's increments count up to. *)
Definition counts (b : block) : list Z := range_incl (b_count b - b_increments b + 1) (b_count b).
Definition block_id (b : block) : B256 := (b_enters b * 1000 + b_count b) * 1000 + b_number b.
Definition sealed (b : block) : SealedHeader :=
  mkSealedHeader (mkHeader 0 (b_number b) 0 0 0 (Some (block_id b))) (block_id b).
Definition count_log (value : Z) : RawLog := mkRaw COUNTER [SIGNATURE_HASH; value].
Definition stored_log (b : block) (i : nat) (value : Z) : Log RawLog :=
  mkLog (count_log value) (Some (block_id b)) (Some (b_number b)) (Some 0) (Some value)
    (Some (Z.of_nat i)) (Some (Z.of_nat i)) false.
Definition stored_logs (b : block) : list (Log RawLog) := imap (stored_log b) (counts b).

#[export] Instance header_ops : HeaderOps := {
  hash_slow h := default 0 (h_base_fee_per_gas h); next_block_base_fee _ := None }.
#[export] Instance tx_ops : Transaction Z := {
  tx_hash t := t; tx_signer _ := 0; tx_nonce _ := 0; tx_kind _ := Call COUNTER;
  max_fee_per_gas _ := 0; effective_tip_per_gas _ _ := None; is_magic_sig _ := true }.
#[export] Instance receipt_ops : ReceiptLogs (list RawLog) RawLog := { receipt_logs r := r }.
#[export] Instance constants : SystemConstants := {
  host_deploy_height := 100;
  pair_ru n := mkPaired (100 + n) n;
  pair_host h := if 100 <=? h then Some (mkPaired h (h - 100)) else None;
  host_block_to_rollup_block_num h := if 100 <=? h then Some (h - 100) else None }.

#[export] Instance storage : UnifiedStorage store unit block RawLog := {
  last_block_number s := Ok (b_number <$> last s);
  cold_latest_block s := Ok (Some (Z.max 0 (tip_of b_number s)));
  unwind_above t s := (Ok tt, filter (fun b => b_number b <= t) s);
  append_block b s := (Ok tt, s ++ [b]);
  drain_above t s :=
    (Ok ((fun b => mkDrained (sealed b) [stored_logs b]) <$> filter (fun b => t < b_number b) s),
     filter (fun b => b_number b <= t) s) }.
#[export] Instance cold : ColdStorage store unit unit AddressFilter RawLog := {
  get_header_by_number s n := Ok (sealed <$> head (filter (fun b => b_number b = n) s));
  get_headers s ns := Ok ((fun n => sealed <$> head (filter (fun b => b_number b = n) s)) <$> ns);
  get_transactions_in_block _ _ := Ok [];
  get_transaction_count _ _ := Ok 0;
  get_receipts_in_block _ _ := Ok [];
  get_tx_by_hash _ _ := Ok None;
  get_tx_by_block_and_index _ _ _ := Ok None;
  get_receipt _ _ := Ok None;
  stream_logs s f _ _ :=
    match block_option f with
    | Range (Some (Number a)) (Some (Number b)) =>
        Ok (Ok <$> filter (fun l => matches f (l_inner l) = true)
              (mjoin (stored_logs <$> filter (fun e => a <= b_number e <= b) s)))
    | _ => Err tt
    end;
  get_latest_block s := Ok (b_number <$> last s) }.
#[export] Instance display : Display unit unit unit := {
  show_hash _ := "h"%string; show_id _ := "i"%string; show_u64 _ := "n"%string;
  show_cold _ := "c"%string; show_hot _ := "s"%string; show_db _ := "d"%string }.

#[export] Instance host_blocks : HostBlocks chain Spec := { chain_blocks c := c; blk_number := sp_number }.
#[export] Instance extraction : Extraction chain Spec := {
  extract_signet c := filter (fun b => 100 < sp_number b) c; ru_height b := sp_number b - 100 }.
#[export] Instance processing : Processing store unit unit Spec block := {
  process_extracts s b w :=
    (Ok (mkBlock (sp_number b - 100) (from_option b_count 0 (last s) + sp_increments b) (sp_increments b) (sp_enters b)), w) }.
#[export] Instance executed : Executed block Z (list RawLog) := {
  ex_header := sealed; ex_transactions b := counts b; ex_receipts b := (fun v => [count_log v]) <$> counts b }.

#[export] Instance chains : TestChains chain := {
  first_number c := default 0 (sp_number <$> head c);
  tip_number c := default 0 (sp_number <$> last c);
  exex_committed_chain n := match n with Committed new | Reorged _ new => Some new | Reverted _ => None end;
  exex_reverted_chain n := match n with Reverted old | Reorged old _ => Some old | Committed _ => None end }.
#[export] Instance block_specs : BlockSpecs Spec := {
  spec_number := sp_number; set_block_number h b := mkSpec h (sp_increments b) (sp_enters b) }.
#[export] Instance notification_specs : NotificationSpecs Spec chain chain unit Z := {
  commit_single_block b := mkNotification (Committed [b]) [];
  revert_single_block b := mkNotification (Reverted [b]) [];
  nspec_default := [];
  nspec_commit c b := c ++ [b];
  to_exex_notification c := mkNotification (Committed c) [] }.
End CounterRollup.
Import CounterRollup.

(** ** What a test does

    The harness's context, the filter table of the RPC context and the clock. *)
Module Script.
Abbreviation Context := (SignetTestContext (C:=chain) (S:=store) (PW:=unit) (T:=Z) (R:=list RawLog) (L:=RawLog) (Blob:=unit)).
Record TestState := mkTestState { ts_ctx : Context; ts_filters : FilterManager AddressFilter; ts_now : Z }.
(** A test ends, or an assertion or an [unwrap] panics, or a call never returns. *)
Definition Test (A : Type) : Type := st TestState HarnessError A.

Definition assert_that (b : bool) : Test unit := st_lift (if b then Ok tt else Panic).
Definition chain_of (s : TestState) : ChainNotifier Z (list RawLog) RawLog := nd_chain (tc_node (ts_ctx s)).
Definition storage_of (s : TestState) : store := nd_storage (tc_node (ts_ctx s)).

(** A call of the harness, one unit of time later. *)
Definition harness {A} (op : Z -> st Context HarnessError A) : Test A := fun s =>
  let '(r, ctx) := op (ts_now s) (ts_ctx s) in (r, mkTestState ctx (ts_filters s) (ts_now s + 1)).
Definition polls (s : store) : list (res unit (option Z)) := [Ok (Some (tip_of b_number s))].
Definition process (b : Spec) : Test unit :=
  harness (fun now => process_block (SE:=unit) (PE:=unit) (B:=Spec) (fun tx : Z => tx) (fun _ : unit => Eip4844 []) polls now b).
Definition revert (b : Spec) : Test unit :=
  harness (fun now => revert_block (SE:=unit) (PE:=unit) (B:=Spec) (fun tx : Z => tx) (fun _ : unit => Eip4844 []) polls now b).

(** A call of the filter endpoints, [unwrap]ped. *)
Definition rpc {A} (op : Z -> st (RpcShared Z (list RawLog) AddressFilter RawLog) (EthError unit unit unit) A) : Test A :=
  fun s => let '(r, shared) := op (ts_now s) (mkShared (chain_of s) (ts_filters s)) in
    (match r with Ok a => Ok a | _ => Panic end,
     mkTestState (ts_ctx s) (rpc_filters shared) (ts_now s + 1)).
Definition get_block_number : Test Z := fun s => (Ok (block_number (cn_tags (chain_of s))), s).
Definition get_block_by_number (n : Z) : Test (option SealedHeader) := fun s =>
  (match get_header_by_number (storage_of s) n with Ok h => Ok h | _ => Panic end, s).
Definition install_filter (f : AddressFilter) : Test Z := rpc (fun now => new_filter now f).
Definition install_block_filter : Test Z := rpc (fun now => new_block_filter now).
Definition get_filter_changes (id : Z) : Test (FilterOutput (L:=RawLog)) := fun s =>
  rpc (fun now => EthFilters.get_filter_changes (fun x => x) (fun x => x) (storage_of s)
                    StorageRpcConfig_default now id) s.
Definition poll_logs (id : Z) : Test (list (Log RawLog)) :=
  out ← get_filter_changes id; st_lift (match out with BufLog logs => Ok logs | BufBlock _ => Panic end).
Definition poll_hashes (id : Z) : Test (list B256) :=
  out ← get_filter_changes id; st_lift (match out with BufBlock hashes => Ok hashes | BufLog _ => Panic end).

(** A subscription: its interest and the events sent before it. *)
Definition Subscription : Type := InterestKind AddressFilter * nat.
Definition subscribe (k : InterestKind AddressFilter) : Test Subscription := fun s =>
  (Ok (k, length (cn_sent (chain_of s))), s).
(** The [n]th item [recv] gives; [None] where it times out. *)
Definition recv (sub : Subscription) (n : nat) : Test (option (EventItem RawLog RpcHeader)) := fun s =>
  (Ok (mjoin (event_items sub.1 <$> drop sub.2 (cn_sent (chain_of s))) !! n), s).
Definition recv_log (sub : Subscription) (n : nat) : Test (Log RawLog) :=
  item ← recv sub n; st_lift (match item with Some (ItemLog l) => Ok l | _ => Panic end).
Definition recv_header (sub : Subscription) (n : nat) : Test RpcHeader :=
  item ← recv sub n; st_lift (match item with Some (ItemBlock h) => Ok h | _ => Panic end).

Definition topic (n : nat) (l : Log RawLog) : B256 := default 0 (raw_topics (l_inner l) !! n).
Definition address_of (l : Log RawLog) : Address := raw_address (l_inner l).
(** The counter values the logs of an answer report. *)
Definition values (logs : list (Log RawLog)) : list Z := topic 1 <$> logs.

(** [increment_block], [process_increment]: the specification is kept for a
    later revert. *)
Definition increment_block : Spec := mkSpec 0 1 0.
Definition process_increment : Test Spec :=
  let block := increment_block in let for_revert := block in
  _ ← process block; mret for_revert.
Definition enter_block (amount : Z) : Spec := mkSpec 0 0 amount.

Definition context0 : Context :=
  mkContext (mkNode (mkTest []) [] ChainNotifier_new (AtHeight 0) tt Recorder_new []) true ∅ 100 ∅.
(** [run_test] on a fresh context; [rpc_test] deploys the counter in block 1. *)
Definition run_test (f : Test unit) : res HarnessError unit := (f (mkTestState context0 FilterManager_new 0)).1.
Definition deploy_counter : Test Address := _ ← process (mkSpec 0 0 0); mret COUNTER.
Definition rpc_test (f : Address -> Test unit) : res HarnessError unit :=
  run_test (instance ← deploy_counter; f instance).
End Script.
Import Script.

(** ** The tests *)
Definition test_block_tags_reorg : res HarnessError unit := run_test (
  let block1 := enter_block 1000 in let block1_clone := block1 in
  _ ← process block1;
  let block2 := enter_block 2000 in let block2_clone := block2 in
  _ ← process block2;
  n ← get_block_number; _ ← assert_that (n =? 2);
  _ ← revert block2_clone;
  n ← get_block_number; _ ← assert_that (n =? 1);
  _ ← revert block1_clone;
  n ← get_block_number; _ ← assert_that (n =? 0);
  let new_block1 := enter_block 500 in
  _ ← process new_block1;
  n ← get_block_number; _ ← assert_that (n =? 1);
  let new_block2 := enter_block 600 in
  _ ← process new_block2;
  n ← get_block_number; _ ← assert_that (n =? 2);
  block ← get_block_by_number 2; assert_that (bool_decide (is_Some block))).

Definition test_block_filter_reorg : res HarnessError unit := rpc_test (fun contract =>
  filter_id ← install_block_filter;
  _block2 ← process_increment;
  hashes ← poll_hashes filter_id; _ ← assert_that (assert_eq (length hashes) 1%nat);
  block3 ← process_increment;
  _ ← revert block3;
  hashes ← poll_hashes filter_id; _ ← assert_that (assert_eq (length hashes) 0%nat);
  _new_block3 ← process_increment;
  hashes ← poll_hashes filter_id; _ ← assert_that (assert_eq (length hashes) 1%nat);
  new_block3 ← get_block_by_number 3;
  assert_that (assert_eq (hashes !! 0%nat) (sh_hash <$> new_block3))).

Definition test_log_filter_reorg : res HarnessError unit := rpc_test (fun contract =>
  filter_id ← install_filter (filter_address contract);
  _block2 ← process_increment;
  logs ← poll_logs filter_id; _ ← assert_that (assert_eq (length logs) 1%nat);
  _ ← assert_that (assert_eq (topic 0 <$> logs !! 0%nat) (Some SIGNATURE_HASH));
  _ ← assert_that (assert_eq (topic 1 <$> logs !! 0%nat) (Some 1));
  block3 ← process_increment;
  _ ← revert block3;
  logs ← poll_logs filter_id; _ ← assert_that (assert_eq (length logs) 0%nat);
  _new_block3 ← process_increment;
  logs ← poll_logs filter_id; _ ← assert_that (assert_eq (length logs) 1%nat);
  assert_that (assert_eq (topic 1 <$> logs !! 0%nat) (Some 2))).

Definition test_block_subscription_reorg : res HarnessError unit := rpc_test (fun contract =>
  sub ← subscribe KBlock;
  block2 ← process_increment;
  header ← recv_header sub 0; _ ← assert_that (h_number (rh_inner header) =? 2);
  _ ← revert block2;
  _new_block2 ← process_increment;
  header ← recv_header sub 1; assert_that (h_number (rh_inner header) =? 2)).

Definition test_log_subscription_reorg : res HarnessError unit := rpc_test (fun contract =>
  sub ← subscribe (KLog (filter_address contract));
  block2 ← process_increment;
  log ← recv_log sub 0;
  _ ← assert_that (negb (l_removed log)); _ ← assert_that (address_of log =? contract);
  _ ← assert_that (topic 0 log =? SIGNATURE_HASH); _ ← assert_that (topic 1 log =? 1);
  _ ← revert block2;
  removed_log ← recv_log sub 1;
  _ ← assert_that (l_removed removed_log); _ ← assert_that (address_of removed_log =? contract);
  _ ← assert_that (topic 0 removed_log =? SIGNATURE_HASH);
  _new_block2 ← process_increment;
  new_log ← recv_log sub 2;
  _ ← assert_that (negb (l_removed new_log)); _ ← assert_that (address_of new_log =? contract);
  assert_that (topic 1 new_log =? 1)).

Definition SOME_USER : Address := 57.
Definition test_log_subscription_reorg_filter_selectivity : res HarnessError unit := rpc_test (fun contract =>
  matching_sub ← subscribe (KLog (filter_address contract));
  non_matching_sub ← subscribe (KLog (filter_address SOME_USER));
  block2 ← process_increment;
  log ← recv_log matching_sub 0;
  _ ← assert_that (negb (l_removed log)); _ ← assert_that (address_of log =? contract);
  extra ← recv non_matching_sub 0; _ ← assert_that (bool_decide (~ is_Some extra));
  _ ← revert block2;
  removed ← recv_log matching_sub 1;
  _ ← assert_that (l_removed removed); _ ← assert_that (address_of removed =? contract);
  extra ← recv non_matching_sub 0; assert_that (bool_decide (~ is_Some extra))).

Definition test_no_regression_filters_and_subscriptions : res HarnessError unit := rpc_test (fun contract =>
  block_filter ← install_block_filter;
  log_filter ← install_filter (filter_address contract);
  block_sub ← subscribe KBlock;
  log_sub ← subscribe (KLog (filter_address contract));
  _b2 ← process_increment; _b3 ← process_increment;
  hashes ← poll_hashes block_filter; _ ← assert_that (assert_eq (length hashes) 2%nat);
  logs ← poll_logs log_filter; _ ← assert_that (assert_eq (values logs) [1; 2]);
  header ← recv_header block_sub 0; _ ← assert_that (h_number (rh_inner header) =? 2);
  header ← recv_header block_sub 1; _ ← assert_that (h_number (rh_inner header) =? 3);
  log ← recv_log log_sub 0;
  _ ← assert_that (negb (l_removed log) && (address_of log =? contract) && (topic 1 log =? 1));
  log ← recv_log log_sub 1;
  assert_that (negb (l_removed log) && (address_of log =? contract) && (topic 1 log =? 2))).

Definition test_multi_block_reorg_log_filter : res HarnessError unit := rpc_test (fun addr =>
  filter_id ← install_filter (filter_address addr);
  block2 ← process_increment; block3 ← process_increment; block4 ← process_increment;
  logs ← poll_logs filter_id; _ ← assert_that (assert_eq (values logs) [1; 2; 3]);
  _ ← revert block4; _ ← revert block3; _ ← revert block2;
  logs ← poll_logs filter_id; _ ← assert_that (assert_eq (length logs) 3%nat);
  _ ← assert_that (forallb l_removed logs);
  _new_b2 ← process_increment; _new_b3 ← process_increment;
  logs ← poll_logs filter_id; assert_that (assert_eq (values logs) [1; 2])).

Definition test_multi_block_reorg_log_subscription : res HarnessError unit := rpc_test (fun addr =>
  sub ← subscribe (KLog (filter_address addr));
  block2 ← process_increment; block3 ← process_increment;
  log ← recv_log sub 0; _ ← assert_that (negb (l_removed log) && (topic 1 log =? 1));
  log ← recv_log sub 1; _ ← assert_that (negb (l_removed log) && (topic 1 log =? 2));
  _ ← revert block3; _ ← revert block2;
  log ← recv_log sub 2; _ ← assert_that (l_removed log && (address_of log =? addr));
  log ← recv_log sub 3; _ ← assert_that (l_removed log && (address_of log =? addr));
  _new_b2 ← process_increment;
  log ← recv_log sub 4; assert_that (negb (l_removed log) && (topic 1 log =? 1))).

Definition test_multiple_reorgs_between_polls : res HarnessError unit := rpc_test (fun addr =>
  filter_id ← install_filter (filter_address addr);
  _b2 ← process_increment; _b3 ← process_increment; b4 ← process_increment; b5 ← process_increment;
  logs ← poll_logs filter_id; _ ← assert_that (assert_eq (length logs) 4%nat);
  _ ← revert b5;
  new_b5 ← process_increment;
  _ ← revert new_b5; _ ← revert b4;
  logs ← poll_logs filter_id; _ ← assert_that (assert_eq (length logs) 2%nat);
  _ ← assert_that (forallb l_removed logs);
  _new_b4 ← process_increment; _new_b5 ← process_increment;
  logs ← poll_logs filter_id; assert_that (assert_eq (values logs) [3; 4])).

(** Each runs to its end: no assertion fails, and every call returns. *)
Example reorg_tests_pass :
  Forall (fun test => test = Ok tt)
    [test_block_tags_reorg; test_block_filter_reorg; test_log_filter_reorg; test_block_subscription_reorg;
     test_log_subscription_reorg; test_log_subscription_reorg_filter_selectivity;
     test_no_regression_filters_and_subscriptions; test_multi_block_reorg_log_filter;
     test_multi_block_reorg_log_subscription; test_multiple_reorgs_between_polls].
Proof. repeat constructor; vm_compute; reflexivity. Qed.
