(* ===== verification/EthRpcTests.v ===== *)
(** * The integration tests of the [eth] endpoints, on the model

    [crates/rpc/tests/eth_rpc.rs] calls the endpoints over storage kept in
    memory.  Here each of its tests, the two that trace with the EVM apart, is
    the list of its assertions on the answers of the modelled handlers over the
    same blocks and accounts; each passes, by evaluation. *)

From stdpp Require Import pretty.
From S2P Require Import Prelude HostTypes BlockTags Primitives Interest ChainNotifier Filters Float64 RpcConfig Errors Storage RpcCtx GasOracle FeeHistory.
From S2P Require Import EthFilters EthQueries EthCall RpcStart UnitTests.

(** ** Storage in memory ([MemKv], [MemColdBackend]) and the test data builders *)
Module Mem.
(** [make_signed_tx_with_gas_price]: a legacy transaction; the key, and with it
    the sender and the hash, follow from the nonce. *)
Record Tx := mkTx { t_nonce : Z; t_gas_price : Z }.
#[export] Instance tx_ops : Transaction Tx := {
  tx_hash t := 500 + t_nonce t; tx_signer t := 900 + t_nonce t; tx_nonce := t_nonce; tx_kind _ := Call 0;
  max_fee_per_gas := t_gas_price;
  effective_tip_per_gas t base_fee := if base_fee <=? t_gas_price t then Some (t_gas_price t - base_fee) else None;
  is_magic_sig _ := false }.
#[export] Instance tx_encoding : TxEncoding Tx := {
  encoded_2718 t := [192; t_nonce t; t_gas_price t]; create_address a n := a + n }.
#[export] Instance tx_decoder : TxDecoder Tx := {
  decode_2718 raw := match raw with [192; nonce; gas_price] => Ok (mkTx nonce gas_price) | _ => Err "unexpected length"%string end;
  x_hash := tx_hash }.
#[export] Instance header_ops : HeaderOps := {
  hash_slow h := 7000 + h_number h; next_block_base_fee := h_base_fee_per_gas }.

Definition LOG_ADDR : Address := 187.
Definition LOG_TOPIC : B256 := 204.
Definition TEST_ADDR : Address := 170.
Record RawLog := mkRaw { raw_address : Address; raw_topic : B256; raw_data : Z }.
(** A filter's block option, address and first topic. *)
Record Filter := mkFilter { f_block : FilterBlockOption; f_address : option Address; f_topic : option B256 }.
Definition selects (o : option Z) (x : Z) : bool := from_option (Z.eqb x) true o.
#[export] Instance filter_ops : LogFilter Filter RawLog := {
  matches f l := selects (f_address f) (raw_address l) && selects (f_topic f) (raw_topic l);
  block_option := f_block;
  with_block_option o f := mkFilter o (f_address f) (f_topic f) }.

(** [BlockData]: a sealed header, the transactions and the logs per receipt. *)
Record BlockData := mkBlockData { bd_header : SealedHeader; bd_txs : list Tx; bd_logs : nat }.
Definition number_of (b : BlockData) : Z := h_number (sh_header (bd_header b)).
Definition make_block (block_num : Z) (txs : list Tx) (logs_per_receipt : nat) : BlockData :=
  let gas_used := 21000 * Z.of_nat (length txs) in
  let header := mkHeader 0 block_num (1700000000 + block_num) 30000000 gas_used (Some 1000000000) in
  mkBlockData (mkSealedHeader header (hash_slow header)) txs logs_per_receipt.
Definition make_signed_tx_with_gas_price (nonce gas_price : Z) : Tx := mkTx nonce gas_price.
Definition make_signed_tx (nonce : Z) : Tx := make_signed_tx_with_gas_price nonce 1000000000.

(** The logs and receipts cold storage keeps of a block. *)
Definition logs_of (b : BlockData) (i : nat) (t : Tx) : list (Log RawLog) :=
  (fun l => mkLog (mkRaw LOG_ADDR LOG_TOPIC (Z.of_nat l)) (Some (sh_hash (bd_header b))) (Some (number_of b))
     (Some (h_timestamp (sh_header (bd_header b)))) (Some (tx_hash t)) (Some (Z.of_nat i))
     (Some (Z.of_nat (i * bd_logs b + l))) false) <$> seq 0 (bd_logs b).
Definition receipt_of (b : BlockData) (i : nat) (t : Tx) : ColdReceipt RawLog :=
  mkColdReceipt Legacy true (21000 * (Z.of_nat i + 1)) (logs_of b i t) (tx_hash t) (number_of b)
    (sh_hash (bd_header b)) (Z.of_nat i) (tx_signer t) 21000.
Definition receipts_of (b : BlockData) : list (ColdReceipt RawLog) := imap (receipt_of b) (bd_txs b).
Definition meta_of (b : BlockData) (i : nat) (t : Tx) : Tx * ConfirmationMeta :=
  (t, mkMeta (number_of b) (sh_hash (bd_header b)) (Z.of_nat i)).

Record Store := mkStore {
  st_blocks : list BlockData; st_accounts : list (Address * Account);
  st_slots : list ((Address * Z) * Z); st_code : list (B256 * list Z) }.
Definition at_number (s : Store) (n : Z) : option BlockData := head (filter (fun b => number_of b = n) (st_blocks s)).
Definition by_hash (s : Store) (h : B256) : option BlockData :=
  head (filter (fun b => sh_hash (bd_header b) = h) (st_blocks s)).
Definition find_key {K V} `{EqDecision K} (k : K) (l : list (K * V)) : option V :=
  snd <$> head (filter (fun e => e.1 = k) l).

#[export] Instance cold : ColdStorage Store string Tx Filter RawLog := {
  get_header_by_number s n := Ok (bd_header <$> at_number s n);
  get_headers s ns := Ok ((fun n => bd_header <$> at_number s n) <$> ns);
  get_transactions_in_block s n := Ok (from_option bd_txs [] (at_number s n));
  get_transaction_count s n := Ok (from_option (fun b => Z.of_nat (length (bd_txs b))) 0 (at_number s n));
  get_receipts_in_block s n := Ok (from_option receipts_of [] (at_number s n));
  get_tx_by_hash s h :=
    Ok (head (filter (fun c => tx_hash c.1 = h) (mjoin ((fun b => imap (meta_of b) (bd_txs b)) <$> st_blocks s))));
  get_tx_by_block_and_index s n i :=
    Ok (b ← at_number s n; t ← bd_txs b !! Z.to_nat i; Some (meta_of b (Z.to_nat i) t));
  get_receipt s h := Ok (head (filter (fun r => cr_tx_hash r = h) (mjoin (receipts_of <$> st_blocks s))));
  stream_logs s f _ _ :=
    let of_block b := filter (fun l => matches f (l_inner l) = true) (mjoin (cr_logs <$> receipts_of b)) in
    match block_option f with
    | AtBlockHash h => Ok (Ok <$> from_option of_block [] (by_hash s h))
    | Range (Some (Number a)) (Some (Number z)) =>
        Ok (Ok <$> mjoin (of_block <$> filter (fun b => a <= number_of b <= z) (st_blocks s)))
    | _ => Err "unresolved range"%string
    end;
  get_latest_block s := Ok (number_of <$> last (st_blocks s)) }.
#[export] Instance hot : HotStorage Store string string Store (list Z) := {
  reader s := Ok s;
  get_header_number s h := Ok (number_of <$> by_hash s h);
  header_by_hash s h := Ok (bd_header <$> by_hash s h);
  get_header s n := Ok (bd_header <$> at_number s n);
  get_account_at_height s a _ := Ok (find_key a (st_accounts s));
  get_storage_at_height s a k _ := Ok (find_key (a, k) (st_slots s));
  get_bytecode s h := Ok (find_key h (st_code s));
  original_bytes c := c;
  revm_reader_at_height s n := Ok (s, n) }.
#[export] Instance bloom_ops : ReceiptBloom RawLog := { bloom _ := 0 }.
#[export] Instance display : Display string string string := ErrorTests.test_display.

(** [TestHarness]: storage, the shared chain state and the filter table. *)
Definition Shared : Type := RpcShared Tx unit Filter RawLog.
Record TestHarness := mkHarness { th_store : Store; th_shared : Shared }.
Definition harness_new (latest : Z) : TestHarness :=
  mkHarness (mkStore [] [] [] [])
    (mkShared (with_tags (update_all latest (sat_sub latest 2) 0) ChainNotifier_new) FilterManager_new).
Definition append_block (b : BlockData) (h : TestHarness) : TestHarness :=
  let s := th_store h in
  mkHarness (mkStore (st_blocks s ++ [b]) (st_accounts s) (st_slots s) (st_code s)) (th_shared h).
Definition on_tags (f : BlockTags -> BlockTags) (h : TestHarness) : TestHarness :=
  mkHarness (th_store h) (mkShared (with_tags f (rpc_chain (th_shared h))) (rpc_filters (th_shared h))).
Definition tags_of (h : TestHarness) : BlockTags := cn_tags (rpc_chain (th_shared h)).
Definition ctx_of (h : TestHarness) : RpcCtx Store unit :=
  mkRpcCtx (th_store h) (tags_of h) 12 (fun _ => tt) 14174 StorageRpcConfig_default.

Definition setup_cold_block (h : TestHarness) : TestHarness * list B256 * list Address :=
  let '(tx0, tx1) := (make_signed_tx 0, make_signed_tx 1) in
  (on_tags (set_latest 1) (append_block (make_block 1 [tx0; tx1] 1) h),
   [tx_hash tx0; tx_hash tx1], [tx_signer tx0; tx_signer tx1]).
Definition setup_hot_account (h : TestHarness) : TestHarness :=
  let s := th_store h in
  mkHarness (mkStore (st_blocks s) [(TEST_ADDR, mkAccount 5 (10 ^ 18) (Some 77))] [((TEST_ADDR, 42), 999)]
               [(77, [96; 0; 96; 0; 243])])
    (th_shared h).

(** [rpc_call]: an answer that is an error fails the test. *)
Definition rpc_call {A} (r : res (EthError string string string) A) (k : A -> list bool) : list bool :=
  match r with Ok a => k a | _ => [false] end.
(** Reading a field of a [null] fails the test. *)
Definition non_null {A} (o : option A) (k : A -> list bool) : list bool :=
  match o with Some a => k a | None => [false] end.
Definition num (n : Z) : BlockId := IdNumber (Number n).
End Mem.
Import Mem.

(** ** The handlers under the harness *)
Module Calls.
Abbreviation Res A := (res (EthError string string string) A).
Definition getBlock (h : TestHarness) (id : BlockId) (full : bool) : Res (option (RpcBlock Tx)) :=
  EthQueries.block (th_store h) (ctx_of h) Finished id (Some full).
Definition getLogs (h : TestHarness) (f : Filter) : Res (list (Log RawLog)) :=
  get_logs (th_store h) StorageRpcConfig_default (tags_of h) (tags_of h) Finished f.
Definition gasPrice (h : TestHarness) : Res Z :=
  (gas_price id (th_store h) (tags_of h) StorageRpcConfig_default GasOracleCache_new Finished).1.
Definition maxPriorityFeePerGas (h : TestHarness) : Res Z :=
  (max_priority_fee_per_gas id (th_store h) (tags_of h) StorageRpcConfig_default GasOracleCache_new Finished).1.
Definition feeHistory (h : TestHarness) (count newest : Z) (percentiles : option (list f64)) : Res FeeHistory :=
  fee_history (th_store h) StorageRpcConfig_default (tags_of h) count (Number newest) percentiles.
(** The calls on the filter table, at one instant. *)
Definition shared_call {A} (op : st Shared (EthError string string string) A) (h : TestHarness)
    (k : A -> TestHarness -> list bool) : list bool :=
  let '(r, shared) := op (th_shared h) in rpc_call r (fun a => k a (mkHarness (th_store h) shared)).
Definition getFilterChanges (id : Z) (h : TestHarness) :
    (FilterOutput (L:=RawLog) -> TestHarness -> list bool) -> list bool :=
  shared_call (get_filter_changes (fun x => x) (fun x => x) (th_store h) StorageRpcConfig_default 0 id) h.
End Calls.
Import Calls.

Definition nth_tx (b : RpcBlock Tx) (i : nat) : option (RpcTransaction Tx + B256) :=
  serialize_transactions (rb_transactions b) !! i.
Definition block_count (b : RpcBlock Tx) : nat := length (serialize_transactions (rb_transactions b)).
Definition header_number (b : RpcBlock Tx) : Z := h_number (rh_inner (rb_header b)).

(** ** Simple queries and blocks *)
Definition test_block_number : list bool := [assert_eq (block_number (tags_of (harness_new 42))) 42].

Definition test_get_block_by_number_hashes : list bool :=
  let '(h, tx_hashes, _) := setup_cold_block (harness_new 0) in
  rpc_call (getBlock h (num 1) false) (fun r => non_null r (fun result =>
    [assert_eq (header_number result) 1; assert_eq (block_count result) 2%nat;
     match nth_tx result 0 with Some (inr hash) => assert_eq (Some hash) (tx_hashes !! 0%nat) | _ => false end])).

Definition test_get_block_by_number_full : list bool :=
  let '(h, tx_hashes, senders) := setup_cold_block (harness_new 0) in
  rpc_call (getBlock h (num 1) true) (fun r => non_null r (fun result =>
    [assert_eq (header_number result) 1; assert_eq (block_count result) 2%nat] ++
    match nth_tx result 0, nth_tx result 1 with
    | Some (inl t0), Some (inl t1) =>
        [assert_eq (Some (tx_hash (rt_inner t0))) (tx_hashes !! 0%nat); assert_eq (Some (rt_signer t0)) (senders !! 0%nat);
         assert_eq (rt_block_number t0) (Some 1); assert_eq (rt_transaction_index t0) (Some 0);
         assert_eq (rt_transaction_index t1) (Some 1)]
    | _, _ => [false]
    end)).

Definition test_get_block_by_hash : list bool :=
  let '(h, _, _) := setup_cold_block (harness_new 0) in
  rpc_call (getBlock h (num 1) false) (fun r => non_null r (fun block =>
    let block_hash := rh_hash (rb_header block) in
    rpc_call (getBlock h (IdHash block_hash) false) (fun r => non_null r (fun result =>
      [assert_eq (header_number result) 1; assert_eq (rh_hash (rb_header result)) block_hash])))).

Definition test_get_block_tx_count : list bool :=
  let '(h, _, _) := setup_cold_block (harness_new 0) in
  rpc_call (block_tx_count (th_store h) (ctx_of h) Finished (num 1)) (fun r => [assert_eq r (Some 2)]).

Definition test_get_block_header : list bool :=
  let '(h, _, _) := setup_cold_block (harness_new 0) in
  rpc_call (header_by (ctx_of h) Finished (num 1)) (fun r => non_null r (fun result =>
    [assert_eq (h_number (rh_inner result)) 1;
     match h_base_fee_per_gas (rh_inner result) with Some _ => true | None => false end])).

Definition test_get_block_not_found : list bool :=
  rpc_call (getBlock (harness_new 255) (num 255) false) (fun r =>
    [match r with None => true | Some _ => false end]).

(** ** Transactions and receipts *)
Definition test_get_transaction_by_hash : list bool :=
  let '(h, tx_hashes, senders) := setup_cold_block (harness_new 0) in
  rpc_call (transaction_by_hash (th_store h) Finished (default 0 (tx_hashes !! 0%nat))) (fun r => non_null r (fun result =>
    [assert_eq (Some (tx_hash (rt_inner result))) (tx_hashes !! 0%nat);
     assert_eq (Some (rt_signer result)) (senders !! 0%nat);
     assert_eq (rt_block_number result) (Some 1); assert_eq (rt_transaction_index result) (Some 0)])).

(** The text starts with [0x] and is longer than four characters: at least two
    bytes. *)
Definition test_get_raw_transaction_by_hash : list bool :=
  let '(h, tx_hashes, _) := setup_cold_block (harness_new 0) in
  rpc_call (raw_transaction_by_hash (th_store h) Finished (default 0 (tx_hashes !! 0%nat))) (fun r =>
    non_null r (fun raw => [(1 <? length raw)%nat])).

Definition test_get_tx_by_block_and_index : list bool :=
  let '(h, tx_hashes, senders) := setup_cold_block (harness_new 0) in
  rpc_call (transaction_by_block_and_index (th_store h) (ctx_of h) Finished (num 1) 0) (fun r => non_null r (fun result =>
    [assert_eq (Some (tx_hash (rt_inner result))) (tx_hashes !! 0%nat);
     assert_eq (Some (rt_signer result)) (senders !! 0%nat)])).

Definition test_get_transaction_receipt : list bool :=
  let '(h, tx_hashes, senders) := setup_cold_block (harness_new 0) in
  rpc_call (transaction_receipt (th_store h) Finished (default 0 (tx_hashes !! 0%nat))) (fun r => non_null r (fun result =>
    [assert_eq (Some (rr_transaction_hash result)) (tx_hashes !! 0%nat);
     assert_eq (Some (rr_from _ result)) (senders !! 0%nat);
     assert_eq (rr_block_number _ result) (Some 1); rr_status _ result; assert_eq (rr_gas_used _ result) 21000])).

Definition test_get_block_receipts : list bool :=
  let '(h, _, _) := setup_cold_block (harness_new 0) in
  rpc_call (block_receipts (th_store h) (ctx_of h) Finished (num 1)) (fun r => non_null r (fun lazy =>
    let receipts := serialize_receipts lazy in
    [assert_eq (rr_transaction_index _ <$> receipts) [Some 0; Some 1]; forallb (rr_status _) receipts])).

(** ** Accounts: a funded account, and an empty block 1 that is [latest] *)
Definition funded : TestHarness := append_block (make_block 1 [] 0) (setup_hot_account (harness_new 1)).
Definition at_latest : option BlockId := Some (IdNumber Latest).
Definition test_get_balance : list bool :=
  rpc_call (balance (ctx_of funded) Finished TEST_ADDR at_latest) (fun r => [assert_eq r (10 ^ 18)]).
Definition test_get_transaction_count : list bool :=
  rpc_call (addr_tx_count (ctx_of funded) Finished TEST_ADDR at_latest) (fun r => [assert_eq r 5]).
Definition test_get_storage_at : list bool :=
  rpc_call (storage_at (ctx_of funded) Finished TEST_ADDR 42 at_latest) (fun r => [assert_eq r 999]).
Definition test_get_code : list bool :=
  rpc_call (code_at (ctx_of funded) Finished TEST_ADDR at_latest) (fun r => [assert_eq r [96; 0; 96; 0; 243]]).
Definition test_get_balance_unknown_account : list bool :=
  let h := append_block (make_block 1 [] 0) (harness_new 1) in
  rpc_call (balance (ctx_of h) Finished 255 at_latest) (fun r => [assert_eq r 0]).

(** ** Logs *)
Definition with_block (block : BlockData) (latest : Z) (h : TestHarness) : TestHarness :=
  on_tags (set_latest latest) (append_block block h).
Definition one_tx (gas_price : Z) (logs_per_receipt : nat) : TestHarness :=
  with_block (make_block 1 [make_signed_tx_with_gas_price 0 gas_price] logs_per_receipt) 1 (harness_new 0).
Definition only_block_1 : FilterBlockOption := Range (Some (Number 1)) (Some (Number 1)).

Definition test_get_logs_by_block_hash : list bool :=
  let h := one_tx 1000000000 2 in
  rpc_call (getBlock h (num 1) false) (fun r => non_null r (fun block =>
    rpc_call (getLogs h (mkFilter (AtBlockHash (rh_hash (rb_header block))) (Some LOG_ADDR) None)) (fun logs =>
      [assert_eq (length logs) 2%nat;
       assert_eq ((fun l => raw_address (l_inner l)) <$> head logs) (Some LOG_ADDR);
       assert_eq (head logs ≫= l_block_number) (Some 1);
       assert_eq (l_log_index <$> logs) [Some 0; Some 1]]))).

Definition test_get_logs_by_range : list bool :=
  rpc_call (getLogs (one_tx 1000000000 1) (mkFilter only_block_1 None (Some LOG_TOPIC))) (fun logs =>
    [assert_eq ((fun l => raw_topic (l_inner l)) <$> logs) [LOG_TOPIC]]).

Definition test_get_logs_empty : list bool :=
  rpc_call (getLogs (one_tx 1000000000 0) (mkFilter only_block_1 (Some LOG_ADDR) None)) (fun logs =>
    [assert_eq (length logs) 0%nat]).

(** ** Edge cases and errors *)
Definition test_protocol_version : list bool := [assert_eq protocol_version "0x44"%string].
Definition test_syncing_not_syncing : list bool :=
  [match syncing (tags_of (harness_new 0)) with NotSyncing b => negb b | _ => false end].
Definition test_syncing_in_progress : list bool :=
  let h := on_tags (set_sync_status (mkSyncStatus 0 50 100)) (harness_new 0) in
  match syncing (tags_of h) with
  | Syncing starting current highest => [assert_eq starting 0; assert_eq current 50; assert_eq highest 100]
  | _ => [false]
  end.
Definition test_send_raw_tx_no_cache : list bool :=
  [match (send_raw_transaction (X:=Tx) (SE:=string) (HE:=string) (CE:=string) false Finished [0] []).1 with
   | Err _ => true | _ => false end].

(** ** Gas and fees *)
Definition test_gas_price : list bool := rpc_call (gasPrice (one_tx 2000000000 0)) (fun r => [assert_eq r 2000000000]).
Definition test_max_priority_fee_per_gas : list bool :=
  rpc_call (maxPriorityFeePerGas (one_tx 2000000000 0)) (fun r => [assert_eq r 1000000000]).
Definition test_gas_price_empty_blocks : list bool :=
  rpc_call (gasPrice (with_block (make_block 1 [] 0) 1 (harness_new 0))) (fun r => [assert_eq r 2000000000]).

Definition test_fee_history_basic : list bool :=
  let block i := make_block i [make_signed_tx_with_gas_price (i - 1) 2000000000] 0 in
  let h := on_tags (set_latest 3) (foldl (fun h i => append_block (block i) h) (harness_new 0) [1; 2; 3]) in
  rpc_call (feeHistory h 2 3 None) (fun result =>
    [assert_eq (fh_oldest_block result) 2; assert_eq (length (fh_base_fee_per_gas result)) 3%nat;
     assert_eq (length (fh_gas_used_ratio result)) 2%nat; assert_eq (fh_reward result) None]).

Definition test_fee_history_with_rewards : list bool :=
  rpc_call (feeHistory (one_tx 2000000000 0) 1 1 (Some [f64_of_int 25; f64_of_int 75])) (fun result =>
    [assert_eq (fh_oldest_block result) 1; assert_eq (option_map (List.map (@length Z)) (fh_reward result)) (Some [2%nat])]).

(** ** Filters *)
Definition test_new_block_filter_and_changes : list bool :=
  shared_call (new_block_filter 0) (harness_new 0) (fun filter_id h =>
  let h := with_block (make_block 1 [make_signed_tx 0] 0) 1 h in
  getFilterChanges filter_id h (fun changes h =>
  match changes with BufBlock hashes => [assert_eq (length hashes) 1%nat] | BufLog _ => [false] end ++
  getFilterChanges filter_id h (fun changes h =>
  match changes with BufBlock hashes => [assert_eq hashes []] | BufLog _ => [false] end))).

Definition test_new_log_filter_and_changes : list bool :=
  shared_call (new_filter 0 (mkFilter (Range None None) (Some LOG_ADDR) (Some LOG_TOPIC))) (harness_new 0) (fun filter_id h =>
  let h := with_block (make_block 1 [make_signed_tx 0] 2) 1 h in
  getFilterChanges filter_id h (fun changes h =>
  match changes with
  | BufLog logs => [assert_eq (length logs) 2%nat; assert_eq ((fun l => raw_address (l_inner l)) <$> head logs) (Some LOG_ADDR)]
  | BufBlock _ => [false]
  end)).

Definition test_uninstall_filter : list bool :=
  shared_call (new_block_filter 0) (harness_new 0) (fun filter_id h =>
  shared_call (uninstall_filter filter_id) h (fun result h =>
  [result] ++ shared_call (uninstall_filter filter_id) h (fun result h => [negb result]))).

(** ** They pass *)
Example block_tests_pass :
  forallb passes [test_block_number; test_get_block_by_number_hashes; test_get_block_by_number_full;
    test_get_block_by_hash; test_get_block_tx_count; test_get_block_header; test_get_block_not_found] = true.
Proof. vm_compute. reflexivity. Qed.

Example transaction_tests_pass :
  forallb passes [test_get_transaction_by_hash; test_get_raw_transaction_by_hash; test_get_tx_by_block_and_index;
    test_get_transaction_receipt; test_get_block_receipts] = true.
Proof. vm_compute. reflexivity. Qed.

Example account_and_log_tests_pass :
  forallb passes [test_get_balance; test_get_transaction_count; test_get_storage_at; test_get_code;
    test_get_balance_unknown_account; test_get_logs_by_block_hash; test_get_logs_by_range; test_get_logs_empty] = true.
Proof. vm_compute. reflexivity. Qed.

Example fee_tests_pass :
  forallb passes [test_protocol_version; test_syncing_not_syncing; test_syncing_in_progress; test_send_raw_tx_no_cache;
    test_gas_price; test_max_priority_fee_per_gas; test_gas_price_empty_blocks; test_fee_history_basic;
    test_fee_history_with_rewards] = true.
Proof. vm_compute. reflexivity. Qed.

Example filter_tests_pass :
  forallb passes [test_new_block_filter_and_changes; test_new_log_filter_and_changes; test_uninstall_filter] = true.
Proof. vm_compute. reflexivity. Qed.
